(* ===== verification/_CoqProject ===== *)
-Q . S2P
Prelude.v
Strconv.v
Bitmap.v
Sdk.v
Types.v
Keeper.v
MsgServer.v
EndBlock.v
Query.v
Genesis.v
NetworkInvariant.v
NetworkDemo.v
AttestProps.v
EpochProps.v
GenesisProps.v
QueryProps.v
Rollkitmngr.v
MigrationProps.v
SmoothProps.v
WindowProps.v
NetworkHistory.v
LivenessProps.v
Comet.v
Store.v
Cometcompat.v
MempoolIDs.v
Adapter.v
StoreProps.v
AdapterDemo.v
AdapterProps.v
StackProps.v
ExecuteProps.v
RpcUtils.v
RpcBlocks.v
RpcProps.v
CommitProps.v
ChainProps.v
PublishProps.v
FailureProps.v
RpcMempool.v
RpcMempoolProps.v
RpcNet.v
RpcNetProps.v
Wire.v
Codec.v
QueryService.v
Cli.v
Gateway.v
WireProps.v
CodecProps.v
WireTotal.v
Options.v
OptionsProps.v
QueryServiceProps.v
CliProps.v
GatewayProps.v
ConfirmProps.v
ReleaseProps.v
Migrate.v
MigrateProps.v
Staking.v
Modules.v
ModulesProps.v
Gossip.v
RpcServer.v
Logger.v
Metrics.v
Commands.v
Routes.v
Startup.v
StartupProps.v
