(* ===== verification/Prelude.v ===== *)
(** * go-execution-abci: a verification library

    The repository runs a Cosmos SDK application under rollkit, a sequencer
    framework, in the place of CometBFT's consensus.  This library models its
    Go code as executable definitions and proves what the code promises, or
    where it does not keep a promise, what happens instead.  Paths are relative
    to the source directory [src/].

    ** The program and its model

    _Attestation_ ([modules/network]).  Attesters vote for checkpoint heights;
    a height whose votes reach the quorum is soft confirmed.  [Bitmap] is
    [keeper/bitmap.go]; [Sdk] what the module sees of the SDK (staking keeper,
    decimals, collections); [Types] the data, parameters and genesis checks of
    [types]; [Keeper], [MsgServer], [EndBlock], [Query] and [Genesis] are
    [keeper/keeper.go], [msg_server.go], [abci.go], [grpc_query.go] and
    [genesis.go].  The store is the record [Keeper.State]; a handler is a
    function of the monad [M State].  [NetworkInvariant] has the step relation
    [net_step] of the messages and the end blocker and its invariant [Inv];
    [NetworkDemo] a concrete chain for witnesses.  Around the handlers,
    [QueryService] has the messages, client, server and service description of
    the generated gRPC code ([types/query.pb.go], [tx.pb.go]), [Gateway] the
    REST gateways ([query.pb.gw.go] of both modules), [Cli] the command lines
    ([client/cli]) with [Strconv] for their numbers, and [Modules] the wiring
    ([module.go], [depinject.go], [autocli.go], [types/codec.go] and the
    keepers' constructors of the three modules).

    _Migration to rollkit_ ([modules/rollkitmngr]).  [Rollkitmngr] models the
    keeper, the three migrations of the validator set (immediate, to attesters,
    smoothed over thirty blocks), both blockers, the message and the queries.
    [Staking] is the wrapper of [modules/staking] around the SDK's keeper.

    _The execution adapter_ ([pkg/adapter]).  rollkit hands blocks to
    [Adapter.ExecuteTxs], which drives the application through ABCI, keeps the
    state, block IDs and responses in the store of [Store] ([pkg/store]) and
    publishes the events, or stacks them until the block is final ([SetFinal]).
    [Comet] has the CometBFT and rollkit records that the code reads,
    [Cometcompat] the conversions of [pkg/cometcompat] and the key wrapper of
    [pkg/signer], [MempoolIDs] [mempool_ids.go].  [Options] is the filter that
    asks the application whether a height is soft confirmed; [Wire] and
    [Codec] the protobuf encodings that the question and its answer go through.
    [Gossip] has [pkg/p2p/gossip.go] and the construction of the adapter,
    [Metrics] the declaration of its metrics on a heap of slices.  A
    node is the record [Adapter.Node]: its store, the heap of the responses
    that stacked events point to, the stack, and the log of the calls made.

    _RPC_ ([pkg/rpc]).  [RpcUtils] ([env.go], [utils.go]), [RpcBlocks]
    ([blocks.go], [tx.go]), [RpcMempool] ([mempool.go], [events.go]), [RpcNet]
    ([net.go], [status.go], [consensus.go], [abci.go], [evidence.go],
    [health.go]), [RpcServer] ([server.go]) and [Routes] ([routes.go]).

    _The node_ ([server]).  [Migrate] is the command that moves a CometBFT
    node's data into rollkit's stores ([migration_cmd.go]); [Startup] the start
    handler ([start.go]), which sets up and connects all of the above;
    [Commands] has [init_cmd.go] and [flags.go], [Logger] [logger.go].

    ** How the parts interact

    The adapter asks the network module through the application's query router
    ([Options] against [Query]) and the answer decides whether [Adapter]
    publishes or stacks.  [Migrate] writes the genesis and the store that
    [Startup] and [Adapter] read.  [Startup] hands rollkit the genesis with
    which rollkit calls [Adapter.InitChain], and the RPC handlers read the
    adapter's genesis and stores.  The sequencer signs the payload that
    [Cometcompat] derives from the adapter's block IDs, and the RPC server puts
    its signature into the commit.  A command or a gateway route asks the query
    service over a connection; [QueryServiceProps.Connected] is the interface
    between such a client and the server, which [QueryServiceProps] implements
    over the application's router and the codecs.  [Modules] joins the handlers
    to their configured authority.  Theorems that cross these borders are in
    [OptionsProps], [QueryServiceProps], [CliProps], [GatewayProps],
    [ConfirmProps], [ReleaseProps], [CommitProps], [ModulesProps],
    [MigrateProps] and [StartupProps].

    ** How code becomes definitions

    Machine integers are [Z] with the wrap-around of their width written where
    an operation can leave it ([u16], [u32], [u64], [i64]; [int] is [i64]).  A
    call ends in an [outcome]: a value, an error or a panic (an index out of
    range, a nil pointer, a division by zero).  State passing is the monad
    [M]: the writes before an error stay, as in the code.  Code outside the
    repository is a class parameter ([Sdk.Chain], [Comet.Comet], [Adapter.Env],
    [Migrate.MigEnv], [Startup.StartEnv], and the like); what a theorem needs
    of it is a law class or a named hypothesis, which the witnesses instantiate.
    A call to such code whose order matters is an entry of a log.  Goroutines
    are steps that interleave ([RpcServer]) or a function of the events that
    reach them ([RpcMempool.pump], [Gossip.ProcessMessages]).  The calls that
    write a log line or observe a metric are left out of the other parts.

    ** What the theorems show

    - Votes and quorum ([AttestProps], [NetworkHistory], [LivenessProps]): the
      handler against the set of votes, the quorum as the power of this set,
      that every vote was cast by an attester that held its index, that nobody
      votes twice with one index, how a rebuild of the indices gives votes to
      other validators, and that votes delivered over the blocks of a run
      confirm a height when their indices have the quorum at its end.
    - Checkpoints, epochs, genesis ([EpochProps], [GenesisProps],
      [QueryProps]): what the end blocker stores, the invariant of every
      reachable state, export after import, the agreement of the queries, and a
      reachable state in which the end blocker fails.
    - The validator set ([MigrationProps], [SmoothProps], [WindowProps]): what
      the updates of each migration do when CometBFT accepts them, that the
      smoothed one ends after its thirty-one blocks, the inputs for which it
      panics, and that CometBFT refuses its updates, which remove validators
      that are gone.
    - Execution and events ([ExecuteProps], [AdapterProps], [StackProps],
      [StoreProps]): the calls, writes and publications of a block, what
      [SetFinal] releases, and that stacked blocks have lost their events.
    - Histories of a node and failures ([PublishProps], [FailureProps]): every
      executed block is published once or waits, in order, a release that fails
      publishes again, and what an execution leaves behind when it fails.
    - From votes to events and commits ([ConfirmProps], [ReleaseProps],
      [ChainProps], [CommitProps]): enough votes release a stacked block and
      nothing else does, the stored block IDs
      link the headers of the executed blocks, the commit of the RPC server
      passes a light client's checks, and the published block is not the one
      its ID is the hash of.
    - Encodings and the filter ([WireProps], [CodecProps], [WireTotal],
      [OptionsProps]): every message survives its codec, the readers end on any
      input, and the filter says what the module says.
    - Access to the module ([QueryServiceProps], [CliProps], [GatewayProps],
      [ModulesProps]): a client, a command or a route of either gateway answers
      what the server answers, numbers outside their type are refused, the
      modules obey the configured authority, their collections do not share
      keys, and the default genesis starts and is exported again.
    - RPC ([RpcProps], [RpcMempoolProps], [RpcNetProps], [RpcServer]): pages
      and windows of the searches, the calls of the broadcasts, the chunks of
      the genesis, the status, and stopping the server.
    - The node ([MigrateProps], [StartupProps], [Gossip], [Staking], [Logger],
      [Metrics], [Commands], [Routes]): what a
      migration stores, when it cannot succeed, that a migrated node cannot
      execute its next block, which genesis a start uses, and what is stopped
      at the end.

    ** Bounds and fuel

    [MempoolIDs.search] has a turn for each of the 65536 values of an
    identifier, and [GetForPeer_spec] shows that a free one is found.
    [Wire.varint_loop] has nine turns, after which a 64-bit value is below 128;
    [Wire.unmarshal_loop] and [skip_loop] have a turn for each byte of their
    input, and more change nothing ([WireTotal]); [RpcNet.chunk_loop] has a
    turn for each byte, and a chunk has at least one.  The other loops are structural.

    ** Not modelled

    The getters, text forms and reflection metadata of the generated protobuf
    code, the codecs of the migration manager's messages (they have the shape of
    those in [Codec]), the store decoders for simulations, the set-up of the
    process ([getCtx], [LoadGenesisDoc]), the generated configuration of
    the modules and the test fixtures.
    rollkit's block manager, go-header's stores, CometBFT's mempool, indexers
    and event bus, libp2p and the SDK are not in the repository and stay
    parameters. *)

From Stdlib Require Import ZArith Lia.
From stdpp Require Import base gmap strings list fin_maps sorting pretty.

Open Scope Z_scope.

Declare Scope go_scope.
Delimit Scope go_scope with go.

(** ** Fixed-width integers

    A Go integer is a [Z]; every arithmetic operation that can overflow is
    followed by the conversion of its type.  [int] is the 64-bit [int64]. *)

Definition wrapU (w z : Z) : Z := Z.modulo z (2 ^ w).
Definition wrapS (w z : Z) : Z := Z.modulo (z + 2 ^ (w - 1)) (2 ^ w) - 2 ^ (w - 1).

Definition u8 (z : Z) : Z := wrapU 8 z.
Definition u16 (z : Z) : Z := wrapU 16 z.
Definition u32 (z : Z) : Z := wrapU 32 z.
Definition u64 (z : Z) : Z := wrapU 64 z.
Definition i64 (z : Z) : Z := wrapS 64 z.

Definition max_u16 : Z := 65535.
Definition max_i64 : Z := 9223372036854775807.
Definition max_u64 : Z := 18446744073709551615.

Definition is_u16 (z : Z) : Prop := 0 <= z <= max_u16.
Definition is_u64 (z : Z) : Prop := 0 <= z <= max_u64.
Definition is_i64 (z : Z) : Prop := - max_i64 - 1 <= z <= max_i64.

(** Unfold the conversions to [mod] by a literal, where [lia] decides them. *)
Ltac unfold_int :=
  unfold is_u16, is_u64, is_i64, max_u16, max_i64, max_u64,
    u8, u16, u32, u64, i64, wrapU, wrapS in *;
  change (2 ^ 8) with 256 in *;
  change (2 ^ 16) with 65536 in *;
  change (2 ^ 32) with 4294967296 in *;
  change (2 ^ 64) with 18446744073709551616 in *;
  change (2 ^ (64 - 1)) with 9223372036854775808 in *.

Ltac int_lia := unfold_int; Z.to_euclidean_division_equations; lia.

Lemma u64_small z : is_u64 z -> u64 z = z.
Proof. int_lia. Qed.

Lemma u16_small z : is_u16 z -> u16 z = z.
Proof. int_lia. Qed.

Lemma i64_small z : is_i64 z -> i64 z = z.
Proof. int_lia. Qed.

Lemma u64_range z : is_u64 (u64 z).
Proof. int_lia. Qed.

Lemma u16_range z : is_u16 (u16 z).
Proof. int_lia. Qed.

Lemma i64_range z : is_i64 (i64 z).
Proof. int_lia. Qed.

Lemma u64_add_l a b : u64 (u64 a + b) = u64 (a + b).
Proof. unfold u64, wrapU. by rewrite Zplus_mod_idemp_l. Qed.

Lemma u64_u64 a : u64 (u64 a) = u64 a.
Proof. apply u64_small, u64_range. Qed.

(** The decimal text of an unsigned integer ([strconv.FormatUint(_, 10)]). *)
Definition format_uint (z : Z) : string :=
  pretty (Z.to_N z).

Lemma format_uint_inj a b :
  0 <= a -> 0 <= b -> format_uint a = format_uint b -> a = b.
Proof. unfold format_uint. intros Ha Hb H. apply (inj pretty) in H. lia. Qed.

(** ** Errors and outcomes

    A Go [error] value: a sentinel ([errors.New] bound to a variable, or a
    registered SDK error), a formatted error, or an error that wraps another
    one ([%w], [sdkerr.Wrap]).  A call ends with a result, an error or a
    panic. *)

Inductive error : Type :=
| ErrSentinel (name : string)
| ErrText (text : string)
| ErrWrap (text : string) (cause : error).

#[global] Instance error_eq_dec : EqDecision error.
Proof. solve_decision. Defined.

(** [errors.Is err target] for a sentinel target: the chain is searched. *)
Fixpoint errors_Is (err : error) (target : string) : bool :=
  match err with
  | ErrSentinel name => bool_decide (name = target)
  | ErrText _ => false
  | ErrWrap _ cause => errors_Is cause target
  end.

Inductive outcome (A : Type) : Type :=
| Ok (a : A)
| Err (e : error)
| Panic (text : string).
Arguments Ok {A} _.
Arguments Err {A} _.
Arguments Panic {A} _.

#[global] Instance outcome_ret : MRet outcome := @Ok.
#[global] Instance outcome_bind : MBind outcome := fun A B k m =>
  match m with Ok a => k a | Err e => Err e | Panic t => Panic t end.

Definition is_ok {A} (r : outcome A) : bool :=
  match r with Ok _ => true | _ => false end.

(** [if err != nil { return fmt.Errorf("text: %w", err) }] *)
Definition wrap_outcome {A} (text : string) (r : outcome A) : outcome A :=
  match r with Err e => Err (ErrWrap text e) | _ => r end.

(** [if err != nil { return sentinel.Wrapf("text: %v", err) }]: the cause is
    kept as text only. *)
Definition wrapf_outcome {A} (text : string) (sentinel : error) (r : outcome A) : outcome A :=
  match r with Err _ => Err (ErrWrap text sentinel) | _ => r end.

(** A [for range] loop with an accumulator whose body may fail. *)
Fixpoint fold_ok {A B} (l : list A) (acc : B) (body : B -> A -> outcome B) : outcome B :=
  match l with
  | [] => Ok acc
  | x :: xs => acc' ← body acc x; fold_ok xs acc' body
  end.

(** [s[a:b]] of a slice of which only the first [length s] elements are used:
    the bounds are checked. *)
Definition slice {A} (l : list A) (a b : Z) : outcome (list A) :=
  if (0 <=? a) && (a <=? b) && (b <=? Z.of_nat (length l))
  then Ok (take (Z.to_nat (b - a)) (drop (Z.to_nat a) l))
  else Panic "slice bounds out of range".

(** Integer division and remainder of uint64 values panic on zero. *)
Definition u64_div (a b : Z) : outcome Z :=
  if b =? 0 then Panic "integer divide by zero" else Ok (a / b).
Definition u64_mod (a b : Z) : outcome Z :=
  if b =? 0 then Panic "integer divide by zero" else Ok (a mod b).

(** ** The state monad of the handlers

    A handler takes the state and returns the new state with its outcome.  The
    writes done before an error or a panic are kept: rolling them back is the
    caller's business (the SDK's message router does it, an end blocker does
    not). *)

Definition M (S A : Type) : Type := S -> S * outcome A.

#[global] Instance M_ret {S} : MRet (M S) := fun A a s => (s, Ok a).
#[global] Instance M_bind {S} : MBind (M S) := fun A B k m s =>
  match m s with
  | (s', Ok a) => k a s'
  | (s', Err e) => (s', Err e)
  | (s', Panic t) => (s', Panic t)
  end.

Definition gets {S A} (f : S -> A) : M S A := fun s => (s, Ok (f s)).
Definition modify {S} (f : S -> S) : M S unit := fun s => (f s, Ok tt).
Definition fail {S A} (e : error) : M S A := fun s => (s, Err e).
Definition panic {S A} (t : string) : M S A := fun s => (s, Panic t).
Definition lift {S A} (r : outcome A) : M S A := fun s => (s, r).

Definition wrap_err {S A} (text : string) (m : M S A) : M S A := fun s =>
  match m s with (s', r) => (s', wrap_outcome text r) end.

(** A [for range] loop whose body may return an error. *)
Fixpoint for_each {S A} (l : list A) (body : A -> M S unit) : M S unit :=
  match l with
  | [] => mret tt
  | x :: xs => body x ;; for_each xs body
  end.

(** A [for range] loop with an accumulator. *)
Fixpoint fold_each {S A B} (l : list A) (acc : B) (body : B -> A -> M S B) : M S B :=
  match l with
  | [] => mret acc
  | x :: xs => acc' ← body acc x; fold_each xs acc' body
  end.

(** *** Running a handler *)

Section run.
Context {S A B : Type}.
Implicit Types (s : S) (m : M S A).

Lemma run_bind m (k : A -> M S B) s :
  (m ≫= k) s =
    match m s with
    | (s', Ok a) => k a s'
    | (s', Err e) => (s', Err e)
    | (s', Panic t) => (s', Panic t)
    end.
Proof. reflexivity. Qed.

Lemma run_ret (a : A) s : (mret a : M S A) s = (s, Ok a).
Proof. reflexivity. Qed.

Lemma run_gets (f : S -> A) s : gets f s = (s, Ok (f s)).
Proof. reflexivity. Qed.

Lemma run_modify (f : S -> S) s : modify f s = (f s, Ok tt).
Proof. reflexivity. Qed.

Lemma run_fail e s : (fail e : M S A) s = (s, Err e).
Proof. reflexivity. Qed.

Lemma run_panic t s : (panic t : M S A) s = (s, Panic t).
Proof. reflexivity. Qed.

Lemma run_lift (r : outcome A) s : lift r s = (s, r).
Proof. reflexivity. Qed.

Lemma run_wrap_err t m s :
  wrap_err t m s = ((m s).1, wrap_outcome t (m s).2).
Proof. unfold wrap_err. by destruct (m s). Qed.
End run.

Lemma fold_each_app {S A B} (l1 l2 : list A) (acc : B) (body : B -> A -> M S B) s :
  fold_each (l1 ++ l2) acc body s =
    (acc' ← fold_each l1 acc body; fold_each l2 acc' body) s.
Proof.
  revert acc s. induction l1 as [|x l1 IH]; intros acc s; cbn [fold_each app]; [done|].
  rewrite !run_bind. destruct (body acc x s) as [s' [a|e|t]]; [|done..].
  by rewrite IH, run_bind.
Qed.

(** A run that ends without an error ran both of its parts. *)
Lemma outcome_bind_ok {A B} (r : outcome A) (k : A -> outcome B) (b : B) :
  (r ≫= k) = Ok b <-> exists a, r = Ok a /\ k a = Ok b.
Proof.
  destruct r as [a|e|t]; cbn; split; try done.
  - eauto.
  - by intros (a' & [= <-] & H).
  - by intros (a' & [=] & _).
  - by intros (a' & [=] & _).
Qed.

Lemma bind_ok {S A B} (m : M S A) (k : A -> M S B) s s' b :
  (m ≫= k) s = (s', Ok b) <-> exists s1 a, m s = (s1, Ok a) /\ k a s1 = (s', Ok b).
Proof.
  rewrite run_bind. destruct (m s) as [s1 [a|e|t]]; split; intros H.
  - by exists s1, a.
  - by destruct H as (? & ? & [= <- <-] & ?).
  - done.
  - by destruct H as (? & ? & ? & ?).
  - done.
  - by destruct H as (? & ? & ? & ?).
Qed.

Lemma wrap_err_ok {S A} text (m : M S A) s s' a :
  wrap_err text m s = (s', Ok a) <-> m s = (s', Ok a).
Proof. unfold wrap_err. destruct (m s) as [s1 [|e|t]]; cbn; split; congruence. Qed.

Create Rewrite HintDb run.
#[export] Hint Rewrite @run_bind @run_ret @run_gets @run_modify @run_fail
  @run_panic @run_lift @run_wrap_err : run.

(** Symbolic execution of a handler: rewrite with the monad's equations and
    decide the conditionals whose condition is a hypothesis. *)
Ltac run_step :=
  first
    [ progress (autorewrite with run; cbn [fst snd wrap_outcome])
    | match goal with
      | H : ?b = true |- context [if ?b then _ else _] => rewrite H
      | H : ?b = false |- context [if ?b then _ else _] => rewrite H
      | H : ?m = _ |- context [match ?m with _ => _ end] => rewrite H
      end ].
Ltac run := repeat run_step.

(** ** Preservation of an invariant by a handler *)

Definition preserves {S A} (I : S -> Prop) (m : M S A) : Prop :=
  forall s, I s -> I (m s).1.

Definition reads_only {S A} (m : M S A) : Prop := forall s, (m s).1 = s.

(** An operation that only reads, run. *)
Lemma reads_only_run {S A} (m : M S A) s : reads_only m -> m s = (s, snd (m s)).
Proof. intros H. rewrite <- (H s) at 2. by destruct (m s). Qed.

Section preserves.
Context {S : Type} (I : S -> Prop).

Lemma preserves_reads_only {A} (m : M S A) : reads_only m -> preserves I m.
Proof. intros H s. by rewrite H. Qed.

Lemma preserves_ret {A} (a : A) : preserves I (mret a).
Proof. by intros s. Qed.

Lemma preserves_gets {A} (f : S -> A) : preserves I (gets f).
Proof. by intros s. Qed.

Lemma preserves_fail {A} e : preserves I (fail e : M S A).
Proof. by intros s. Qed.

Lemma preserves_panic {A} t : preserves I (panic t : M S A).
Proof. by intros s. Qed.

Lemma preserves_lift {A} (r : outcome A) : preserves I (lift r).
Proof. by intros s. Qed.

Lemma preserves_bind {A B} (m : M S A) (k : A -> M S B) :
  preserves I m -> (forall a, preserves I (k a)) -> preserves I (m ≫= k).
Proof.
  intros Hm Hk s Hs. rewrite run_bind. specialize (Hm s Hs).
  destruct (m s) as [s' [a|e|t]]; cbn in *; [by apply Hk| done | done].
Qed.

Lemma preserves_wrap {A} t (m : M S A) : preserves I m -> preserves I (wrap_err t m).
Proof. intros Hm s Hs. rewrite run_wrap_err. by apply Hm. Qed.

Lemma preserves_modify (f : S -> S) : (forall s, I s -> I (f s)) -> preserves I (modify f).
Proof. intros Hf s Hs. by apply Hf. Qed.

Lemma preserves_if {A} (b : bool) (m1 m2 : M S A) :
  preserves I m1 -> preserves I m2 -> preserves I (if b then m1 else m2).
Proof. by destruct b. Qed.

Lemma preserves_for_each {A} (l : list A) (body : A -> M S unit) :
  (forall a, preserves I (body a)) -> preserves I (for_each l body).
Proof.
  intros Hb. induction l as [|x l IH]; cbn [for_each]; [apply preserves_ret|].
  by apply preserves_bind.
Qed.

Lemma preserves_for_each_in {A} (l : list A) (body : A -> M S unit) :
  Forall (fun a => preserves I (body a)) l -> preserves I (for_each l body).
Proof. induction 1; cbn [for_each]; [apply preserves_ret|]. by apply preserves_bind. Qed.

Lemma preserves_fold_each {A B} (l : list A) (acc : B) (body : B -> A -> M S B) :
  (forall b a, preserves I (body b a)) -> preserves I (fold_each l acc body).
Proof.
  intros Hb. revert acc. induction l as [|x l IH]; intros acc; cbn [fold_each];
    [apply preserves_ret|]. by apply preserves_bind.
Qed.
End preserves.

Create HintDb preserves discriminated.
#[export] Hint Resolve preserves_ret preserves_gets preserves_fail preserves_panic
  preserves_lift preserves_bind preserves_wrap preserves_if preserves_for_each
  preserves_fold_each : preserves.
#[export] Hint Extern 1 (preserves _ (match ?x with _ => _ end)) => destruct x : preserves.

(** ** Reachability of a step relation *)

Inductive star {S : Type} (R : S -> S -> Prop) : S -> S -> Prop :=
| star_refl s : star R s s
| star_step s1 s2 s3 : R s1 s2 -> star R s2 s3 -> star R s1 s3.

Lemma star_invariant {S} (R : S -> S -> Prop) (I : S -> Prop) :
  (forall s s', I s -> R s s' -> I s') ->
  forall s s', star R s s' -> I s -> I s'.
Proof. intros HI s s' Hs. induction Hs as [|s1 s2 s3 H1 _ IH]; eauto. Qed.

(** ** Lists *)

Lemma lookup_replicate_default {A} (n i : nat) (x : A) :
  replicate n x !! i = if decide (i < n)%nat then Some x else None.
Proof.
  case_decide.
  - by apply lookup_replicate_2.
  - apply lookup_ge_None. rewrite length_replicate. lia.
Qed.

Lemma sum_list_Z_app (l1 l2 : list Z) :
  foldr Z.add 0 (l1 ++ l2) = foldr Z.add 0 l1 + foldr Z.add 0 l2.
Proof. induction l1; cbn; lia. Qed.

Lemma sum_list_Z_perm (l1 l2 : list Z) :
  l1 ≡ₚ l2 -> foldr Z.add 0 l1 = foldr Z.add 0 l2.
Proof. induction 1; cbn; lia. Qed.

(** Inserting the pairs of a list, in order, into a map. *)
Definition insert_all {K V} `{Countable K} (m : gmap K V) (l : list (K * V)) : gmap K V :=
  foldl (fun m kv => <[kv.1 := kv.2]> m) m l.

Section insert_all.
Context {K V : Type} `{Countable K}.
Implicit Types (m : gmap K V) (l : list (K * V)).

Lemma insert_all_cons m kv l : insert_all m (kv :: l) = insert_all (<[kv.1 := kv.2]> m) l.
Proof. reflexivity. Qed.

Lemma insert_all_app m l1 l2 : insert_all m (l1 ++ l2) = insert_all (insert_all m l1) l2.
Proof. apply foldl_app. Qed.

Lemma insert_all_notin m l k : k ∉ l.*1 -> insert_all m l !! k = m !! k.
Proof.
  revert m. induction l as [|[k' v'] l IH]; intros m Hk; [done|].
  cbn in Hk. apply not_elem_of_cons in Hk as [Hne Hk].
  rewrite insert_all_cons, IH by done. by apply lookup_insert_ne.
Qed.

Lemma insert_all_in m l k v : NoDup l.*1 -> (k, v) ∈ l -> insert_all m l !! k = Some v.
Proof.
  revert m. induction l as [|[k' v'] l IH]; intros m Hnd Hin; [by inversion Hin|].
  cbn in Hnd. apply NoDup_cons in Hnd as [Hk' Hnd].
  apply elem_of_cons in Hin as [[= -> ->]|Hin]; rewrite insert_all_cons.
  - rewrite insert_all_notin by done. apply lookup_insert_eq.
  - by apply IH.
Qed.

Lemma insert_all_some l k v :
  insert_all (∅ : gmap K V) l !! k = Some v -> (k, v) ∈ l.
Proof.
  enough (forall m, insert_all m l !! k = Some v -> (k, v) ∈ l \/ m !! k = Some v) as Hm.
  { intros Hk. destruct (Hm _ Hk) as [|He]; [done|]. by rewrite lookup_empty in He. }
  induction l as [|[k' v'] l IH]; intros m Hk; [by right|].
  rewrite insert_all_cons in Hk. destruct (IH _ Hk) as [|Hin]; [left; by right|].
  cbn in Hin. destruct (decide (k' = k)) as [->|Hne].
  - rewrite lookup_insert_eq in Hin. simplify_eq. left. by left.
  - rewrite lookup_insert_ne in Hin by done. by right.
Qed.

Lemma insert_all_is_Some m l k :
  k ∈ l.*1 -> is_Some (insert_all m l !! k).
Proof.
  revert m. induction l as [|[k' v'] l IH]; intros m Hk; [by inversion Hk|].
  rewrite insert_all_cons. destruct (decide (k ∈ l.*1)) as [Hl|Hl]; [by apply IH|].
  rewrite insert_all_notin by done. cbn in Hk.
  apply elem_of_cons in Hk as [->|]; [|done]. rewrite lookup_insert_eq. eauto.
Qed.
End insert_all.
