(* ===== verification/Strconv.v ===== *)
(** * [strconv.ParseInt] and [strconv.ParseUint] in base 10 with 64 bits

    The standard library's readers of decimal numbers, which the commands of
    the network module call on their arguments.  Like the code they return a
    value together with the error; the errors are [ErrSyntax] and [ErrRange]
    inside a [NumError].  [decimal] says what they read. *)

From Stdlib Require Import ZArith Lia Ascii.
From stdpp Require Import base strings list pretty.
From S2P Require Import Prelude.

Open Scope Z_scope.

Definition ErrSyntax : error := ErrSentinel "strconv.ErrSyntax".
Definition ErrRange : error := ErrSentinel "strconv.ErrRange".
Definition NumError (fn num : string) (err : error) : error :=
  ErrWrap ("strconv." +:+ fn +:+ ": parsing " +:+ num) err.

Definition byte_of (c : ascii) : Z := Z.of_nat (nat_of_ascii c).

(** The value of a character in base 10: a letter is a digit that is too large. *)
Definition digit_of (c : ascii) : option Z :=
  let b := byte_of c in
  if (48 <=? b) && (b <=? 57) then Some (b - 48) else None.

(** The smallest number whose product with the base overflows. *)
Definition uint_cutoff : Z := max_u64 / 10 + 1.

(** The loop of [ParseUint] with the number read so far; the error is without
    its [NumError]. *)
Fixpoint parse_uint_loop (s : string) (n : Z) : Z * option error :=
  match s with
  | EmptyString => (n, None)
  | String c s' =>
      match digit_of c with
      | None => (0, Some ErrSyntax)
      | Some d =>
          if uint_cutoff <=? n then (max_u64, Some ErrRange)
          else
            let n := u64 (n * 10) in
            let n1 := u64 (n + d) in
            if (n1 <? n) || (max_u64 <? n1) then (max_u64, Some ErrRange)
            else parse_uint_loop s' n1
      end
  end.

Definition parse_uint (s : string) : Z * option error :=
  match s with EmptyString => (0, Some ErrSyntax) | _ => parse_uint_loop s 0 end.

Definition ParseUint (s : string) : Z * option error :=
  let '(n, err) := parse_uint s in (n, NumError "ParseUint" s <$> err).

Definition int_cutoff : Z := 2 ^ 63.

(** The sign that a number may start with. *)
Definition take_sign (s : string) : bool * string :=
  match s with
  | String "+" s' => (false, s')
  | String "-" s' => (true, s')
  | _ => (false, s)
  end.

(** The sign is taken off, the rest is an unsigned number; a range error of it
    is one of the number, as its value is then the largest one. *)
Definition ParseInt (s : string) : Z * option error :=
  let '(neg, s') := take_sign s in
  let '(un, err) := parse_uint s' in
  match err with
  | Some e =>
      if errors_Is e "strconv.ErrRange"
      then if neg then (- int_cutoff, Some (NumError "ParseInt" s ErrRange))
           else (int_cutoff - 1, Some (NumError "ParseInt" s ErrRange))
      else (0, Some (NumError "ParseInt" s e))
  | None =>
      if negb neg && (int_cutoff <=? un) then (int_cutoff - 1, Some (NumError "ParseInt" s ErrRange))
      else if neg && (int_cutoff <? un) then (- int_cutoff, Some (NumError "ParseInt" s ErrRange))
      else (if neg then i64 (- i64 un) else i64 un, None)
  end.

(** The value of a text of decimal digits. *)
Fixpoint decimal_from (s : string) (n : Z) : option Z :=
  match s with
  | EmptyString => Some n
  | String c s' => d ← digit_of c; decimal_from s' (n * 10 + d)
  end.
Definition decimal (s : string) : option Z :=
  match s with EmptyString => None | _ => decimal_from s 0 end.

(** An integer: digits after an optional sign. *)
Definition signed_decimal (s : string) : option Z :=
  let '(neg, s') := take_sign s in
  if neg then Z.opp <$> decimal s' else decimal s'.

(** The text [strconv.FormatInt(_, 10)]. *)
Definition format_int (z : Z) : string :=
  if z <? 0 then String "-" (format_uint (- z)) else format_uint z.

(** ** What the readers read *)

Lemma digit_of_range c d : digit_of c = Some d -> 0 <= d <= 9.
Proof.
  unfold digit_of. destruct (Z.leb_spec 48 (byte_of c)), (Z.leb_spec (byte_of c) 57); try done.
  intros [= <-]. lia.
Qed.

Lemma decimal_from_le s n v : 0 <= n -> decimal_from s n = Some v -> n <= v.
Proof.
  revert n. induction s as [|c s IH]; intros n Hn; cbn [decimal_from]; [intros [= ->]; lia|].
  destruct (digit_of c) as [d|] eqn:E; [|done]. apply digit_of_range in E.
  intros H. apply IH in H; lia.
Qed.

(** The loop reads the number when it fits, and only then without an error. *)
Lemma parse_uint_loop_spec s n v :
  0 <= n <= max_u64 ->
  parse_uint_loop s n = (v, None) <-> decimal_from s n = Some v /\ v <= max_u64.
Proof.
  revert n. induction s as [|c s IH]; intros n Hn; cbn [parse_uint_loop decimal_from].
  { split; [intros [= <-]; split; [done|lia]|intros [[= <-] _]; done]. }
  destruct (digit_of c) as [d|] eqn:E; cbn [mbind option_bind]; [|split; [done|by intros [? _]]].
  apply digit_of_range in E.
  assert (uint_cutoff = 1844674407370955162) as Hc by done.
  assert (forall w, decimal_from s (n * 10 + d) = Some w -> n * 10 + d <= w) as Hle
    by (intros w; apply decimal_from_le; lia).
  destruct (Z.leb_spec uint_cutoff n).
  { split; [done|]. intros [H1%Hle H2]. unfold max_u64 in *. lia. }
  rewrite (u64_small (n * 10)) by (unfold is_u64, max_u64 in *; lia).
  destruct (Z.le_gt_cases (n * 10 + d) max_u64) as [Hf|Hf].
  - rewrite u64_small by (unfold is_u64; lia).
    destruct (Z.ltb_spec (n * 10 + d) (n * 10)), (Z.ltb_spec max_u64 (n * 10 + d)); try lia.
    apply IH. lia.
  - assert (u64 (n * 10 + d) < n * 10) as Hw by (unfold max_u64 in *; int_lia).
    rewrite (proj2 (Z.ltb_lt _ _) Hw). split; [done|]. intros [H1%Hle H2]. lia.
Qed.

Lemma parse_uint_spec s v :
  parse_uint s = (v, None) <-> decimal s = Some v /\ v <= max_u64.
Proof.
  destruct s as [|c s]; [by split; [|intros []]|].
  unfold parse_uint, decimal. apply parse_uint_loop_spec. by vm_compute.
Qed.

Lemma ParseUint_spec s v :
  ParseUint s = (v, None) <-> decimal s = Some v /\ v <= max_u64.
Proof.
  rewrite <- parse_uint_spec. unfold ParseUint. destruct (parse_uint s) as [n [e|]]; cbn; [done|].
  split; congruence.
Qed.

Lemma decimal_nonneg s v : decimal s = Some v -> 0 <= v.
Proof. destruct s as [|c s]; [done|]. intros H. by apply decimal_from_le in H. Qed.

(** The text after the sign, read with its sign. *)
Lemma ParseInt_unsigned (neg : bool) s s' v :
  (let '(un, err) := parse_uint s' in
   match err with
   | Some e =>
      if errors_Is e "strconv.ErrRange"
      then if neg then (- int_cutoff, Some (NumError "ParseInt" s ErrRange))
           else (int_cutoff - 1, Some (NumError "ParseInt" s ErrRange))
      else (0, Some (NumError "ParseInt" s e))
   | None =>
      if negb neg && (int_cutoff <=? un) then (int_cutoff - 1, Some (NumError "ParseInt" s ErrRange))
      else if neg && (int_cutoff <? un) then (- int_cutoff, Some (NumError "ParseInt" s ErrRange))
      else (if neg then i64 (- i64 un) else i64 un, None)
   end) = (v, None) <->
  (if neg then Z.opp <$> decimal s' else decimal s') = Some v /\ is_i64 v.
Proof.
  assert (int_cutoff = 9223372036854775808) as Hc by done.
  destruct (parse_uint s') as [un [e|]] eqn:E.
  - split; [destruct (errors_Is e _), neg; done|]. intros [H1 H2]. exfalso.
    destruct (decimal s') as [w|] eqn:Ew; [|by destruct neg].
    pose proof (decimal_nonneg _ _ Ew).
    assert (parse_uint s' = (w, None)) as E2; [|congruence].
    apply parse_uint_spec. split; [done|].
    unfold is_i64, max_i64, max_u64 in *. destruct neg; cbn in H1; injection H1 as <-; lia.
  - apply parse_uint_spec in E as [Ew Hm]. rewrite Ew. pose proof (decimal_nonneg _ _ Ew).
    destruct neg; cbn [negb andb fmap option_fmap option_map];
      [destruct (Z.ltb_spec int_cutoff un)|destruct (Z.leb_spec int_cutoff un)].
    all: split; [try done; intros [= <-]|intros [[= <-] H2]; try (unfold is_i64, max_i64 in *; lia)].
    + split; [f_equal|]; unfold is_i64, max_i64 in *; int_lia.
    + f_equal. unfold is_i64, max_i64 in *; int_lia.
    + split; [f_equal|]; unfold is_i64, max_i64 in *; int_lia.
    + f_equal. unfold is_i64, max_i64 in *; int_lia.
Qed.

Lemma ParseInt_spec s v :
  ParseInt s = (v, None) <-> signed_decimal s = Some v /\ is_i64 v.
Proof.
  unfold ParseInt, signed_decimal.
  destruct (take_sign s) as [neg s']. apply ParseInt_unsigned.
Qed.

(** ** The text of a number is read back *)

Lemma digit_of_pretty_N_char x : (x < 10)%N -> digit_of (pretty_N_char x) = Some (Z.of_N x).
Proof.
  intros Hx. assert (x = 0 \/ x = 1 \/ x = 2 \/ x = 3 \/ x = 4 \/ x = 5 \/ x = 6 \/ x = 7 \/ x = 8
    \/ x = 9)%N as Hc by lia. by repeat destruct Hc as [->|Hc]; [..|subst].
Qed.

Lemma decimal_from_pretty_go x s : decimal_from (pretty_N_go x s) 0 = decimal_from s (Z.of_N x).
Proof.
  revert s. induction (N.lt_wf_0 x) as [x _ IH]; intros s.
  destruct (decide (x = 0)%N) as [->|Hx]; [done|].
  rewrite pretty_N_go_step by lia. rewrite IH by (apply N.div_lt; lia). cbn [decimal_from].
  rewrite digit_of_pretty_N_char by (apply N.mod_lt; lia). cbn. f_equal.
  pose proof (N.div_mod x 10). lia.
Qed.

Lemma decimal_format z : 0 <= z -> decimal (format_uint z) = Some z.
Proof.
  intros Hz. unfold format_uint, pretty, pretty_N.
  destruct (decide (Z.to_N z = 0)%N) as [E|E]; [change (Some 0 = Some z); f_equal; lia|].
  pose proof (decimal_from_pretty_go (Z.to_N z) "") as H. unfold decimal.
  destruct (pretty_N_go (Z.to_N z) "") as [|c s] eqn:Ep; [cbn [decimal_from] in H; injection H; lia|].
  rewrite H. cbn [decimal_from]. f_equal. lia.
Qed.

(** A decimal text starts with a digit, not with a sign. *)
Lemma signed_decimal_unsigned s v : decimal s = Some v -> signed_decimal s = Some v.
Proof.
  intros H. unfold signed_decimal. assert (take_sign s = (false, s)) as ->; [|done].
  destruct s as [|c s]; [done|]. cbn in H. destruct (digit_of c) eqn:E; [|done].
  unfold take_sign. repeat case_match; simplify_eq; done.
Qed.

Lemma signed_decimal_format z : signed_decimal (format_int z) = Some z.
Proof.
  unfold format_int. destruct (Z.ltb_spec z 0).
  - change (Z.opp <$> decimal (format_uint (- z)) = Some z). rewrite decimal_format by lia. cbn. f_equal. lia.
  - apply signed_decimal_unsigned, decimal_format. lia.
Qed.

Lemma ParseInt_format z : is_i64 z -> ParseInt (format_int z) = (z, None).
Proof. intros Hz. apply ParseInt_spec. split; [apply signed_decimal_format|done]. Qed.

Lemma ParseUint_format z : is_u64 z -> ParseUint (format_uint z) = (z, None).
Proof. intros Hz. apply ParseUint_spec. split; [apply decimal_format|]; apply Hz. Qed.

(** The first failure decides: an overflow before a character that is no digit. *)
Example ParseInt_examples :
  fst (ParseInt "-9223372036854775808") = - 2 ^ 63 /\
  snd (ParseInt "9223372036854775808") = Some (NumError "ParseInt" "9223372036854775808" ErrRange) /\
  snd (ParseInt "99999999999999999999999x")
    = Some (NumError "ParseInt" "99999999999999999999999x" ErrRange) /\
  snd (ParseInt "1x") = Some (NumError "ParseInt" "1x" ErrSyntax) /\
  snd (ParseInt "-") = Some (NumError "ParseInt" "-" ErrSyntax).
Proof. split_and!; reflexivity. Qed.
