(* ===== verification/Bitmap.v ===== *)
(** * Validator bitmaps ([modules/network/keeper/bitmap.go])

    A bitmap is the Go byte slice; bit [i] of the bitmap is bit [i mod 8] of
    byte [i / 8].  The operations are modelled on the bytes; [bit_set] is the
    abstract value of a bitmap, a finite set of indices, and the lemmas below
    show that the byte operations implement the set operations. *)

From Stdlib Require Import ZArith Lia.
From stdpp Require Import base gmap strings list fin_maps sorting.
From S2P Require Import Prelude.

Open Scope Z_scope.

Abbreviation bytes := (list Z).

Definition byte_ok (b : Z) : Prop := 0 <= b < 256.
Definition bytes_ok (l : bytes) : Prop := Forall byte_ok l.

(** [len(bitmap)*8], the number of bits. *)
Definition bit_len (bitmap : bytes) : Z := Z.of_nat (length bitmap) * 8.

(** ** The operations *)

Definition NewBitmap (n : Z) : outcome bytes :=
  let size := Z.quot (i64 (n + 7)) 8 in
  if size <? 0 then Panic "makeslice: len out of range"
  else Ok (replicate (Z.to_nat size) 0).

Definition SetBit (bitmap : bytes) (index : Z) : bytes :=
  if (index <? 0) || (bit_len bitmap <=? index) then bitmap
  else
    let byteIndex := Z.to_nat (Z.quot index 8) in
    let bitIndex := Z.rem index 8 in
    alter (fun b => Z.lor b (u8 (Z.shiftl 1 bitIndex))) byteIndex bitmap.

Definition IsSet (bitmap : bytes) (index : Z) : bool :=
  if (index <? 0) || (bit_len bitmap <=? index) then false
  else
    let byteIndex := Z.to_nat (Z.quot index 8) in
    let bitIndex := Z.rem index 8 in
    negb (Z.land (nth byteIndex bitmap 0) (u8 (Z.shiftl 1 bitIndex)) =? 0).

(** [bits.OnesCount8] *)
Definition OnesCount8 (b : Z) : Z :=
  foldr (fun k n => Z.b2z (Z.testbit b k) + n) 0 (seqZ 0 8).

Definition PopCount (bitmap : bytes) : Z :=
  foldl (fun count b => count + OnesCount8 b) 0 bitmap.

(** The loop of [OR] runs over the common prefix and leaves the rest of [dst]. *)
Fixpoint OR (dst src : bytes) : bytes :=
  match dst, src with
  | d :: dst', s :: src' => Z.lor d s :: OR dst' src'
  | _, _ => dst
  end.

Fixpoint AND (dst src : bytes) : bytes :=
  match dst, src with
  | d :: dst', s :: src' => Z.land d s :: AND dst' src'
  | _, _ => dst
  end.

(** [Copy] of a nil slice is nil ([None]). *)
Definition Copy (bitmap : option bytes) : option bytes :=
  match bitmap with None => None | Some b => Some b end.

Definition Clear (bitmap : bytes) : bytes := (fun _ => 0) <$> bitmap.

(** [for i := start; i < end && i < len(bitmap)*8; i++] *)
Definition CountInRange (bitmap : bytes) (start end_ : Z) : Z :=
  foldl (fun count i => if IsSet bitmap i then count + 1 else count) 0
    (seqZ start (Z.min end_ (bit_len bitmap) - start)).

(** ** The abstract value *)

Definition bit_set (bitmap : bytes) : gset Z :=
  list_to_set (filter (fun i => IsSet bitmap i = true) (seqZ 0 (bit_len bitmap))).

(** ** Lemmas on single bits *)

Lemma bit_len_nonneg bm : 0 <= bit_len bm.
Proof. unfold bit_len. lia. Qed.

Lemma mask_bit k : 0 <= k < 8 -> u8 (Z.shiftl 1 k) = 2 ^ k.
Proof.
  intros Hk. rewrite Z.shiftl_1_l. unfold u8, wrapU. apply Z.mod_small.
  split; [lia|]. apply Z.pow_lt_mono_r; lia.
Qed.

Lemma land_mask b k : 0 <= k -> (Z.land b (2 ^ k) =? 0) = negb (Z.testbit b k).
Proof.
  intros Hk. destruct (Z.testbit b k) eqn:E; cbn.
  - apply Z.eqb_neq. intros H. apply (f_equal (fun z => Z.testbit z k)) in H.
    rewrite Z.land_spec, E, Z.pow2_bits_true, Z.bits_0 in H by done. done.
  - apply Z.eqb_eq, Z.bits_inj'. intros i Hi.
    rewrite Z.land_spec, Z.bits_0, Z.pow2_bits_eqb by done.
    destruct (Z.eqb_spec k i) as [->|]; [by rewrite E|]. apply andb_false_r.
Qed.

Lemma IsSet_spec bm i :
  IsSet bm i =
    bool_decide (0 <= i < bit_len bm) && Z.testbit (nth (Z.to_nat (i / 8)) bm 0) (i mod 8).
Proof.
  unfold IsSet. destruct (Z.ltb_spec i 0); cbn.
  { rewrite bool_decide_false by lia. done. }
  destruct (Z.leb_spec (bit_len bm) i); cbn.
  { rewrite bool_decide_false by lia. done. }
  rewrite bool_decide_true by lia. cbn.
  rewrite Z.quot_div_nonneg, Z.rem_mod_nonneg by lia.
  rewrite mask_bit by (apply Z.mod_pos_bound; lia).
  rewrite land_mask by (apply Z.mod_pos_bound; lia). by rewrite negb_involutive.
Qed.

Lemma IsSet_range bm i : IsSet bm i = true -> 0 <= i < bit_len bm.
Proof. rewrite IsSet_spec. case_bool_decide; [done|discriminate]. Qed.

Lemma length_SetBit bm i : length (SetBit bm i) = length bm.
Proof. unfold SetBit. destruct (_ || _); [done|]. apply length_alter. Qed.

Lemma bit_len_SetBit bm i : bit_len (SetBit bm i) = bit_len bm.
Proof. unfold bit_len. by rewrite length_SetBit. Qed.

Lemma nth_alter f k (l : bytes) n :
  (k < length l)%nat -> nth n (alter f k l) 0 = if decide (n = k) then f (nth n l 0) else nth n l 0.
Proof.
  revert k n. induction l as [|x l IH]; intros [|k] [|n] Hk; cbn in *; try lia; try done.
  - rewrite IH by lia. by repeat case_decide; try lia.
Qed.

(** Setting a bit changes this bit only, and only inside the bitmap. *)
Lemma IsSet_SetBit bm i j :
  IsSet (SetBit bm i) j = IsSet bm j || bool_decide (i = j /\ 0 <= i < bit_len bm).
Proof.
  rewrite !IsSet_spec, bit_len_SetBit. unfold SetBit.
  destruct (Z.ltb_spec i 0); cbn.
  { rewrite (bool_decide_false (i = j /\ _)) by lia. by rewrite orb_false_r. }
  destruct (Z.leb_spec (bit_len bm) i); cbn.
  { rewrite (bool_decide_false (i = j /\ _)) by lia. by rewrite orb_false_r. }
  case_bool_decide as Hj; cbn; [|by rewrite bool_decide_false by lia].
  rewrite Z.quot_div_nonneg, Z.rem_mod_nonneg by lia.
  pose proof (Z.mod_pos_bound i 8 ltac:(lia)) as Hi8.
  pose proof (Z.mod_pos_bound j 8 ltac:(lia)) as Hj8.
  rewrite mask_bit by lia.
  rewrite nth_alter by (unfold bit_len in *; int_lia).
  case_decide as E.
  - rewrite Z.lor_spec, Z.pow2_bits_eqb by lia. f_equal.
    apply Z2Nat.inj in E; [|int_lia..].
    destruct (Z.eqb_spec (i mod 8) (j mod 8)).
    + rewrite bool_decide_true; [done|]. int_lia.
    + rewrite bool_decide_false; [done|]. intros [-> _]. congruence.
  - rewrite bool_decide_false; [by rewrite orb_false_r|]. intros [-> _]. congruence.
Qed.

Lemma elem_of_bit_set bm i : i ∈ bit_set bm <-> IsSet bm i = true.
Proof.
  unfold bit_set. rewrite elem_of_list_to_set, list_elem_of_filter, elem_of_seqZ.
  split; [tauto|]. intros H. split; [done|]. apply IsSet_range in H. lia.
Qed.

Lemma bytes_ok_SetBit bm i : bytes_ok bm -> bytes_ok (SetBit bm i).
Proof.
  intros H. unfold SetBit. destruct (_ || _); [done|].
  apply Forall_alter; [done|]. intros b _ [Hb0 Hb1].
  assert (0 <= Z.rem i 8 < 8 \/ Z.rem i 8 < 0) as [Hk|Hk] by int_lia.
  - rewrite mask_bit by done. split; [apply Z.lor_nonneg; split; lia|].
    destruct (Z.eq_dec b 0) as [->|]; [rewrite Z.lor_0_l; apply (Z.pow_lt_mono_r 2 _ 8); lia|].
    change 256 with (2 ^ 8). apply Z.log2_lt_pow2; [|rewrite Z.log2_lor by lia].
    + assert (0 <= Z.lor b (2 ^ Z.rem i 8)) by (apply Z.lor_nonneg; lia).
      enough (Z.lor b (2 ^ Z.rem i 8) <> 0) by lia. rewrite Z.lor_eq_0_iff. lia.
    + apply Z.max_lub_lt; [apply Z.log2_lt_pow2; lia|]. rewrite Z.log2_pow2; lia.
  - rewrite Z.shiftl_1_l, Z.pow_neg_r by done. cbn. by rewrite Z.lor_0_r.
Qed.

Lemma nth_replicate_0 m k : nth k (replicate m 0) 0 = 0.
Proof. revert k. induction m as [|m IH]; intros [|k]; cbn; auto. Qed.

Lemma NewBitmap_zero n bm :
  NewBitmap n = Ok bm -> bytes_ok bm /\ forall i, IsSet bm i = false.
Proof.
  unfold NewBitmap. destruct (_ <? 0); intros [= <-]. split.
  - apply Forall_replicate. split; lia.
  - intros i. rewrite IsSet_spec, nth_replicate_0, Z.testbit_0_l. apply andb_false_r.
Qed.

(** A fresh bitmap has no bit set and holds the [n] validators. *)
Lemma NewBitmap_ok n :
  0 <= n < 2 ^ 62 ->
  exists bm, NewBitmap n = Ok bm /\ bytes_ok bm /\ (forall i, IsSet bm i = false) /\
    n <= bit_len bm < n + 8.
Proof.
  intros Hn. unfold NewBitmap. change (2 ^ 62) with 4611686018427387904 in Hn.
  rewrite i64_small by (unfold_int; lia).
  destruct (Z.ltb_spec (Z.quot (n + 7) 8) 0); [int_lia|].
  eexists. split; [done|]. split; [|split].
  - apply Forall_replicate. split; lia.
  - intros i. rewrite IsSet_spec.
    rewrite nth_replicate_0, Z.testbit_0_l. apply andb_false_r.
  - unfold bit_len. rewrite length_replicate. int_lia.
Qed.

Lemma bit_set_zero bm : (forall i, IsSet bm i = false) -> bit_set bm = ∅.
Proof.
  intros H. apply set_eq. intros i. rewrite elem_of_bit_set, (H i). set_solver.
Qed.

(** ** Counting *)

Definition count_bits (bm : bytes) (l : list Z) : Z :=
  Z.of_nat (length (filter (fun i => IsSet bm i = true) l)).

Lemma CountInRange_spec bm a b :
  CountInRange bm a b = count_bits bm (seqZ a (Z.min b (bit_len bm) - a)).
Proof.
  unfold CountInRange, count_bits. generalize (seqZ a (Z.min b (bit_len bm) - a)) as l.
  intros l. rewrite <- (Z.add_0_l (Z.of_nat _)). generalize 0 as acc.
  induction l as [|i l IH]; intros acc; cbn [foldl]; [cbn; lia|].
  destruct (IsSet bm i) eqn:E; rewrite IH.
  - rewrite filter_cons_True by done. cbn [length]. lia.
  - rewrite filter_cons_False by congruence. lia.
Qed.

Lemma foldl_count_acc {A} (f : A -> Z) (l : list A) (acc : Z) :
  foldl (fun n x => n + f x) acc l = acc + foldl (fun n x => n + f x) 0 l.
Proof.
  revert acc. induction l as [|x l IH]; intros acc; cbn [foldl]; [lia|].
  rewrite IH, (IH (0 + f x)). lia.
Qed.

Lemma PopCount_cons b bm : PopCount (b :: bm) = OnesCount8 b + PopCount bm.
Proof. unfold PopCount. cbn [foldl]. rewrite foldl_count_acc. lia. Qed.

Lemma IsSet_cons b bm i :
  IsSet (b :: bm) i =
    if decide (i < 8) then bool_decide (0 <= i) && Z.testbit b (i mod 8)
    else IsSet bm (i - 8).
Proof.
  rewrite !IsSet_spec. unfold bit_len. cbn [length].
  replace ((i - 8) mod 8) with (i mod 8) by int_lia.
  case_decide as H8.
  - destruct (decide (0 <= i)); [|by rewrite !bool_decide_false by lia].
    rewrite !bool_decide_true by lia. rewrite Z.div_small by lia. done.
  - destruct (decide (i < Z.of_nat (S (length bm)) * 8));
      [|by rewrite !bool_decide_false by lia].
    rewrite !bool_decide_true by lia. cbn [andb].
    replace (Z.to_nat (i / 8)) with (S (Z.to_nat ((i - 8) / 8))) by int_lia. done.
Qed.

Lemma count_bits_app bm l1 l2 : count_bits bm (l1 ++ l2) = count_bits bm l1 + count_bits bm l2.
Proof. unfold count_bits. rewrite filter_app, length_app. lia. Qed.

Lemma count_bits_head b bm : count_bits (b :: bm) (seqZ 0 8) = OnesCount8 b.
Proof.
  unfold count_bits, OnesCount8.
  assert (Hl : Forall (fun i => 0 <= i < 8) (seqZ 0 8)) by (cbn; repeat constructor; lia).
  induction Hl as [|i l Hi _ IH]; cbn [foldr]; [done|]. rewrite <- IH.
  assert (IsSet (b :: bm) i = Z.testbit b i) as E.
  { rewrite IsSet_cons, decide_True, bool_decide_true, Z.mod_small by lia. done. }
  destruct (Z.testbit b i).
  - rewrite filter_cons_True by done. cbn [length Z.b2z]. lia.
  - rewrite filter_cons_False by congruence. done.
Qed.

Lemma count_bits_tail b bm n :
  0 <= n -> count_bits (b :: bm) (seqZ 8 n) = count_bits bm (seqZ 0 n).
Proof.
  intros Hn. unfold count_bits. f_equal.
  replace (seqZ 8 n) with (Z.add 8 <$> seqZ 0 n) by apply fmap_add_seqZ.
  assert (Hl : Forall (fun i => 0 <= i) (seqZ 0 n)).
  { apply Forall_forall. intros i Hi%elem_of_seqZ. lia. }
  induction Hl as [|i l Hi _ IH]; [done|]. cbn [fmap list_fmap].
  assert (IsSet (b :: bm) (8 + i) = IsSet bm i) as E.
  { rewrite IsSet_cons, decide_False by lia. f_equal. lia. }
  destruct (IsSet bm i) eqn:Ei.
  - rewrite !filter_cons_True by congruence. cbn [length]. f_equal. apply IH.
  - rewrite !filter_cons_False by congruence. apply IH.
Qed.

Lemma PopCount_count_bits bm : PopCount bm = count_bits bm (seqZ 0 (bit_len bm)).
Proof.
  induction bm as [|b bm IH]; [done|].
  rewrite PopCount_cons, IH. unfold bit_len. cbn [length].
  replace (Z.of_nat (S (length bm)) * 8) with (8 + bit_len bm) by (unfold bit_len; lia).
  rewrite seqZ_app by (unfold bit_len; lia).
  rewrite count_bits_app, count_bits_head, Z.add_0_l.
  by rewrite count_bits_tail by (unfold bit_len; lia).
Qed.

(** ** The byte operations implement the set operations *)

Lemma bit_set_SetBit bm i :
  0 <= i < bit_len bm -> bit_set (SetBit bm i) = {[i]} ∪ bit_set bm.
Proof.
  intros Hi. apply set_eq. intros j.
  rewrite elem_of_union, elem_of_singleton, !elem_of_bit_set, IsSet_SetBit.
  destruct (IsSet bm j); cbn; [tauto|]. rewrite bool_decide_eq_true. intuition congruence.
Qed.

Lemma SetBit_out bm i : ~ (0 <= i < bit_len bm) -> SetBit bm i = bm.
Proof.
  intros Hi. unfold SetBit.
  destruct (Z.ltb_spec i 0); [done|]. destruct (Z.leb_spec (bit_len bm) i); [done|lia].
Qed.

Lemma size_bit_set bm : Z.of_nat (size (bit_set bm)) = PopCount bm.
Proof.
  rewrite PopCount_count_bits. unfold bit_set, count_bits. f_equal.
  apply size_list_to_set. apply NoDup_filter, NoDup_seqZ.
Qed.

Lemma length_OR dst src : length (OR dst src) = length dst.
Proof. revert src. induction dst as [|d dst IH]; intros [|s src]; cbn; auto. Qed.

Lemma length_AND dst src : length (AND dst src) = length dst.
Proof. revert src. induction dst as [|d dst IH]; intros [|s src]; cbn; auto. Qed.

Lemma IsSet_OR dst src i :
  IsSet (OR dst src) i = IsSet dst i || (IsSet src i && bool_decide (i < bit_len dst)).
Proof.
  revert src i. induction dst as [|d dst IH]; intros src i.
  { rewrite !IsSet_spec. unfold bit_len. cbn. rewrite bool_decide_false by lia. cbn.
    destruct (bool_decide (0 <= i < _)) eqn:E; [|done]. apply bool_decide_eq_true in E.
    rewrite (bool_decide_false (i < 0)) by lia. by rewrite andb_false_r. }
  destruct src as [|s src].
  { cbn [OR]. rewrite (IsSet_spec [] i), (bool_decide_false (_ /\ _)) by (unfold bit_len; cbn; lia).
    by rewrite orb_false_r. }
  cbn [OR]. rewrite !IsSet_cons. case_decide as H8.
  - destruct (decide (0 <= i)); [|by rewrite !bool_decide_false by lia].
    rewrite (bool_decide_true (0 <= i)), (bool_decide_true (i < _))
      by (unfold bit_len; cbn [length]; lia).
    cbn. by rewrite Z.lor_spec, andb_true_r.
  - rewrite IH. do 2 f_equal. apply bool_decide_ext. unfold bit_len. cbn [length]. lia.
Qed.

Lemma IsSet_AND dst src i :
  IsSet (AND dst src) i = IsSet dst i && (IsSet src i || bool_decide (bit_len src <= i)).
Proof.
  revert src i. induction dst as [|d dst IH]; intros src i.
  { cbn [AND]. rewrite (IsSet_spec [] i), bool_decide_false by (unfold bit_len; cbn; lia). done. }
  destruct src as [|s src].
  { cbn [AND]. destruct (IsSet (d :: dst) i) eqn:E; [|done]. cbn. apply IsSet_range in E.
    rewrite (bool_decide_true (_ <= _)) by (unfold bit_len; cbn; lia). by rewrite orb_true_r. }
  cbn [AND]. rewrite !IsSet_cons. case_decide as H8.
  - destruct (decide (0 <= i)); [|by rewrite !(bool_decide_false (0 <= i)) by lia].
    rewrite (bool_decide_true (0 <= i)), (bool_decide_false (_ <= i))
      by (unfold bit_len; cbn [length]; lia).
    cbn. by rewrite Z.land_spec, orb_false_r.
  - rewrite IH. do 2 f_equal. apply bool_decide_ext. unfold bit_len. cbn [length]. lia.
Qed.

Lemma IsSet_Clear bm i : IsSet (Clear bm) i = false.
Proof.
  rewrite IsSet_spec. unfold Clear.
  assert (forall n, nth n ((fun _ : Z => 0) <$> bm) 0 = 0) as ->.
  { induction bm as [|b bm IH]; intros [|n]; cbn; auto. }
  rewrite Z.testbit_0_l. apply andb_false_r.
Qed.
