(* ===== verification/Sdk.v ===== *)
(** * The Cosmos SDK as the modules see it

    The SDK is third-party code: what the modules call of it is an interface
    here.  [LegacyDec] is [cosmossdk.io/math.LegacyDec] with, in
    [LegacyDecLaws], the documented behaviour the modules rely on;
    [StakingKeeper] is the interface of
    [modules/network/types/expected_keepers.go]; [Validator] holds what the
    modules read of a [stakingtypes.Validator].  [FixDec] is a concrete
    instance of the decimals, with which the theorems are instantiated. *)

From Stdlib Require Import ZArith Lia Ascii.
From stdpp Require Import base gmap strings list.
From stdpp Require Import pretty.
From S2P Require Import Prelude.

Open Scope Z_scope.

(** ** Decimals *)

Class LegacyDec (Dec : Type) : Type := {
  LegacyNewDecFromStr : string -> outcome Dec;
  LegacyNewDec : Z -> Dec;
  LegacyNewDecWithPrec : Z -> Z -> Dec;
  Mul : Dec -> Dec -> outcome Dec;
  QuoInt64 : Dec -> Z -> Dec;
  TruncateInt : Dec -> Z;
  LT : Dec -> Dec -> bool;
  LTE : Dec -> Dec -> bool;
  GT : Dec -> Dec -> bool;
  dec_String : Dec -> string
}.

Definition LegacyZeroDec `{LegacyDec Dec} : Dec := LegacyNewDec 0.
Definition LegacyOneDec `{LegacyDec Dec} : Dec := LegacyNewDec 1.

(** The scale of a decimal: 18 digits after the point. *)
Definition precision : Z := 10 ^ 18.

(** The documented behaviour: a decimal is an integer [raw] counted in units of
    10^-18, a product is rounded to the nearest unit, and it exists as long as
    it fits the decimal's 315 bits. *)
Class LegacyDecLaws (Dec : Type) `{LegacyDec Dec} : Type := {
  raw : Dec -> Z;
  raw_NewDec i : raw (LegacyNewDec i) = i * precision;
  raw_WithPrec i p : 0 <= p <= 18 -> raw (LegacyNewDecWithPrec i p) = i * 10 ^ (18 - p);
  LT_raw a b : LT a b = (raw a <? raw b);
  LTE_raw a b : LTE a b = (raw a <=? raw b);
  GT_raw a b : GT a b = (raw b <? raw a);
  TruncateInt_raw a : TruncateInt a = Z.quot (raw a) precision;
  Mul_fits a b : Z.abs (raw a * raw b) < 2 ^ 315 -> exists c, Mul a b = Ok c;
  Mul_rounds a b c : Mul a b = Ok c -> 2 * Z.abs (raw c * precision - raw a * raw b) <= precision;
  String_parses a : 0 <= raw a <= precision -> LegacyNewDecFromStr (dec_String a) = Ok a
}.

Section laws.
Context {Dec : Type} {HD : LegacyDec Dec} {HL : LegacyDecLaws Dec}.

(** A product with an integer is exact. *)
Lemma Mul_NewDec n q :
  Z.abs (n * precision * raw q) < 2 ^ 315 ->
  exists c, Mul (LegacyNewDec n) q = Ok c /\ raw c = n * raw q.
Proof.
  intros Hfit. destruct (Mul_fits (LegacyNewDec n) q) as [c Hc].
  { by rewrite raw_NewDec. }
  exists c. split; [done|]. pose proof (Mul_rounds _ _ _ Hc) as Hr.
  rewrite raw_NewDec in Hr. unfold precision in *.
  change (10 ^ 18) with 1000000000000000000 in *.
  replace (raw c * 1000000000000000000 - n * 1000000000000000000 * raw q)
    with ((raw c - n * raw q) * 1000000000000000000) in Hr by ring.
  lia.
Qed.
End laws.

(** ** Staking *)

(** A protobuf [Any] holding a public key: its type URL and its bytes. *)
Record Any : Type := mkAny { TypeUrl : string; AnyValue : list Z }.

#[global] Instance Any_eq_dec : EqDecision Any.
Proof. solve_decision. Defined.

(** [ConsensusPower] is [val.GetConsensusPower(sdk.DefaultPowerReduction)]. *)
Record Validator : Type := mkValidator {
  OperatorAddress : string;
  ConsensusPubkey : Any;
  Moniker : string;
  IsBonded : bool;
  ConsensusPower : Z
}.

#[global] Instance Validator_eq_dec : EqDecision Validator.
Proof. solve_decision. Defined.

Record StakingKeeper : Type := mkStakingKeeper {
  GetAllValidators : outcome (list Validator);
  GetValidator : list Z -> outcome Validator;
  GetLastValidators : outcome (list Validator);
  GetLastTotalPower : outcome Z
}.

(** [math.Int.Uint64()] panics when the integer is not a uint64. *)
Definition Int_Uint64 (n : Z) : outcome Z :=
  if (0 <=? n) && (n <=? max_u64) then Ok n else Panic "Uint64() out of bounds".

(** [ctx.EventManager().EmitEvent(sdk.NewEvent(...))] *)
Record Event : Type := mkEvent {
  EventType : string;
  Attributes : list (string * string)
}.

(** [collections.ErrNotFound], the only error of a collection's [Get]. *)
Definition ErrNotFound : error := ErrSentinel "collections.ErrNotFound".

Definition is_NotFound (err : error) : bool := errors_Is err "collections.ErrNotFound".

(** ** A concrete decimal *)

Definition digit (c : ascii) : option Z :=
  let n := Z.of_nat (nat_of_ascii c) - 48 in
  if (0 <=? n) && (n <=? 9) then Some n else None.

(** The fraction digits: the first one counts [unit_] units. *)
Fixpoint parse_frac (s : string) (unit_ : Z) : option Z :=
  match s with
  | EmptyString => Some 0
  | String c s' =>
      d ← digit c; r ← parse_frac s' (unit_ / 10);
      if (unit_ =? 0) then None else Some (d * unit_ + r)
  end.

Fixpoint parse_dec (s : string) (acc : Z) : option Z :=
  match s with
  | EmptyString => Some (acc * precision)
  | String c s' =>
      if decide (c = "."%char) then (fun r => acc * precision + r) <$> parse_frac s' (precision / 10)
      else d ← digit c; parse_dec s' (acc * 10 + d)
  end.

Definition digit_char (d : Z) : ascii := ascii_of_nat (Z.to_nat (48 + d)).

Fixpoint print_frac (n : nat) (r : Z) : string :=
  match n with
  | O => EmptyString
  | S n' => String (digit_char (r / 10 ^ Z.of_nat n' mod 10)) (print_frac n' r)
  end.

(** Units of 10^-18; a product is rounded half up. *)
Definition fix_round (z : Z) : Z := (z + precision / 2) / precision.

#[global] Instance FixDec : LegacyDec Z := {
  LegacyNewDecFromStr s :=
    match parse_dec s 0 with Some d => Ok d | None => Err (ErrText "invalid decimal string") end;
  LegacyNewDec i := i * precision;
  LegacyNewDecWithPrec i p := i * 10 ^ (18 - p);
  Mul a b :=
    if Z.abs (a * b) <? 2 ^ 315 then Ok (fix_round (a * b)) else Panic "Int overflow";
  QuoInt64 a i := Z.quot a i;
  TruncateInt a := Z.quot a precision;
  LT a b := a <? b;
  LTE a b := a <=? b;
  GT a b := b <? a;
  dec_String a := pretty (Z.to_N (a / precision)) +:+ "." +:+ print_frac 18 (a mod precision)
}.

Lemma digit_digit_char d : 0 <= d < 10 -> digit (digit_char d) = Some d.
Proof.
  intros Hd. assert (d = 0 \/ d = 1 \/ d = 2 \/ d = 3 \/ d = 4 \/ d = 5 \/ d = 6 \/ d = 7
    \/ d = 8 \/ d = 9) as Hc by lia. by repeat destruct Hc as [->|Hc]; [..|subst].
Qed.

Lemma parse_print_frac n r :
  parse_frac (print_frac n r) (10 ^ (Z.of_nat n - 1)) = Some (r mod 10 ^ Z.of_nat n).
Proof.
  revert r. induction n as [|n IH]; intros r; cbn [print_frac parse_frac].
  { by rewrite Z.mod_1_r. }
  pose proof (Z.mod_pos_bound (r / 10 ^ Z.of_nat n) 10 ltac:(lia)) as Hd.
  rewrite digit_digit_char by done. cbn.
  replace (Z.of_nat (S n) - 1) with (Z.of_nat n) by lia.
  assert (0 < 10 ^ Z.of_nat n) as Hp by (apply Z.pow_pos_nonneg; lia).
  assert (parse_frac (print_frac n r) (10 ^ Z.of_nat n / 10) = Some (r mod 10 ^ Z.of_nat n)) as ->.
  { destruct n as [|n]; [cbn; by rewrite Z.mod_1_r|]. rewrite <- IH. f_equal.
    replace (Z.of_nat (S n)) with (1 + (Z.of_nat (S n) - 1)) at 1 by lia.
    rewrite Z.pow_add_r by lia. rewrite Z.mul_comm. apply Z.div_mul. lia. }
  cbn. destruct (Z.eqb_spec (10 ^ Z.of_nat n) 0); [lia|]. f_equal.
  rewrite Nat2Z.inj_succ, Z.pow_succ_r by lia.
  rewrite (Z.mul_comm 10), Z.rem_mul_r by lia. ring.
Qed.

Lemma parse_dec_dot s acc :
  parse_dec (String "." s) acc = (fun r => acc * precision + r) <$> parse_frac s (precision / 10).
Proof. reflexivity. Qed.

Lemma parse_dec_digit c d s acc :
  c <> "."%char -> digit c = Some d -> parse_dec (String c s) acc = parse_dec s (acc * 10 + d).
Proof. intros Hc Hd. cbn [parse_dec]. rewrite decide_False by done. by rewrite Hd. Qed.

Lemma fix_string_parses a :
  0 <= a <= precision -> LegacyNewDecFromStr (dec_String (a : Z)) = Ok a.
Proof.
  intros Ha. cbn [LegacyNewDecFromStr dec_String FixDec].
  enough (parse_dec (pretty (Z.to_N (a / precision)) +:+ "." +:+ print_frac 18 (a mod precision)) 0
    = Some a) as -> by done.
  assert (precision = 1000000000000000000) as Hpr by done.
  assert (parse_frac (print_frac 18 (a mod precision)) (precision / 10) = Some (a mod precision))
    as Hfrac.
  { change (precision / 10) with (10 ^ (Z.of_nat 18 - 1)). rewrite parse_print_frac.
    change (10 ^ Z.of_nat 18) with precision. f_equal. apply Z.mod_mod. done. }
  assert (a / precision = 0 \/ a / precision = 1) as [Hq|Hq] by int_lia; rewrite Hq.
  all: pose proof (Z.div_mod a precision ltac:(done)) as Hdm; rewrite Hq in Hdm.
  - change (pretty (Z.to_N 0) +:+ "." +:+ print_frac 18 (a mod precision))
      with (String "0" (String "." (print_frac 18 (a mod precision)))).
    rewrite (parse_dec_digit "0" 0), parse_dec_dot, Hfrac by done. cbn -[precision]. f_equal. lia.
  - change (pretty (Z.to_N 1) +:+ "." +:+ print_frac 18 (a mod precision))
      with (String "1" (String "." (print_frac 18 (a mod precision)))).
    rewrite (parse_dec_digit "1" 1), parse_dec_dot, Hfrac by done. cbn -[precision]. f_equal. lia.
Qed.

#[global] Instance FixDecLaws : LegacyDecLaws Z.
Proof.
  refine {| raw := fun d => d |}; try done.
  - intros a b Hab. cbn. rewrite (proj2 (Z.ltb_lt _ _) Hab). eauto.
  - intros a b c. cbn. destruct (_ <? _); [|discriminate]. intros [= <-].
    unfold fix_round. change precision with 1000000000000000000. int_lia.
  - apply fix_string_parses.
Defined.

Example FixDec_two_thirds :
  LegacyNewDecFromStr (Dec := Z) "0.667" = Ok 667000000000000000.
Proof. reflexivity. Qed.

(** ** The environment of a keeper

    [Chain] is what stays fixed for a chain: the decimals, the hash and text
    encodings the handlers use, the Bech32 parser, the module authority.  [Ctx]
    is one [sdk.Context]: its block height and the staking keeper's answers at
    this point of the execution. *)

Class Chain : Type := {
  Dec : Type;
  Chain_LegacyDec :: LegacyDec Dec;
  Sum256 : list Z -> list Z;
  base64_EncodeToString : list Z -> string;
  ValAddressFromBech32 : string -> outcome (list Z);
  GetAuthority : string
}.

Class Ctx : Type := {
  BlockHeight : Z;
  stakingKeeper : StakingKeeper
}.
