(* ===== verification/Types.v ===== *)
(** * Data of the network module ([modules/network/types])

    Parameters with their validation ([params.go]), genesis data with its
    validation ([genesis.go]), the messages ([msgs.go]), the attestation and
    validator records of the protobuf files, and the store keys ([keys.go]). *)

From Stdlib Require Import ZArith Lia Ascii String.
From stdpp Require Import base gmap strings list.
From S2P Require Import Prelude Bitmap Sdk.

Open Scope Z_scope.

(** ** Records *)

(** [SignMode] is an open protobuf enum: an int32. *)
Definition SignMode_SIGN_MODE_UNSPECIFIED : Z := 0.
Definition SignMode_SIGN_MODE_CHECKPOINT : Z := 1.

Record Params : Type := mkParams {
  EpochLength : Z;        (* uint64 *)
  QuorumFraction : string;
  MinParticipation : string;
  PruneAfter : Z;         (* uint64 *)
  SignMode : Z            (* int32 *)
}.

(** The zero value of the struct, which a failed [Get] returns. *)
Definition zero_Params : Params := mkParams 0 "" "" 0 0.

(** [types.AttestationBitmap]; [ab_Bitmap] is [None] for a nil slice. *)
Record types_AttestationBitmap : Type := mkAttestationBitmap {
  ab_Height : Z;          (* int64 *)
  ab_Bitmap : option bytes;
  ab_VotedPower : Z;      (* uint64 *)
  ab_TotalPower : Z;      (* uint64 *)
  ab_SoftConfirmed : bool
}.

(** [types.ValidatorIndex] *)
Record types_ValidatorIndex : Type := mkValidatorIndex {
  vi_Address : string;
  vi_Index : Z;           (* uint32 *)
  vi_Power : Z            (* uint64 *)
}.

Record GenesisState : Type := mkGenesisState {
  gs_Params : Params;
  gs_ValidatorIndices : list types_ValidatorIndex;
  gs_AttestationBitmaps : list types_AttestationBitmap
}.

Record MsgAttest : Type := NewMsgAttest {
  attest_Validator : string;
  attest_Height : Z;      (* int64 *)
  attest_Vote : bytes
}.

Record MsgJoinAttesterSet : Type := NewMsgJoinAttesterSet { join_Validator : string }.
Record MsgLeaveAttesterSet : Type := NewMsgLeaveAttesterSet { leave_Validator : string }.

Record MsgUpdateParams : Type := NewMsgUpdateParams {
  update_Authority : string;
  update_Params : Params
}.

#[global] Instance Params_eq_dec : EqDecision Params.
Proof. solve_decision. Defined.
#[global] Instance types_AttestationBitmap_eq_dec : EqDecision types_AttestationBitmap.
Proof. solve_decision. Defined.
#[global] Instance types_ValidatorIndex_eq_dec : EqDecision types_ValidatorIndex.
Proof. solve_decision. Defined.

Definition TypeMsgAttest : string := "attest".
Definition TypeMsgJoinAttesterSet : string := "join_attester_set".
Definition TypeMsgLeaveAttesterSet : string := "leave_attester_set".
Definition TypeMsgUpdateParams : string := "update_params".

(** ** Validation of the parameters

    The validators take an [interface{}]; [iface] holds the dynamic types that
    reach them and [IfOther] any other one. *)

Inductive iface : Type :=
| IfUint64 (v : Z)
| IfString (v : string)
| IfSignMode (v : Z)
| IfOther.

Section params.
Context {Dec : Type} {HD : LegacyDec Dec}.

Definition DefaultEpochLength : Z := 10.
Definition DefaultQuorumFraction : Dec := LegacyNewDecWithPrec 667 3.
Definition DefaultMinParticipation : Dec := LegacyNewDecWithPrec 5 1.
Definition DefaultPruneAfter : Z := 7.
Definition DefaultSignMode : Z := SignMode_SIGN_MODE_CHECKPOINT.

Definition NewParams (epochLength : Z) (quorumFraction minParticipation : Dec)
    (pruneAfter signMode : Z) : Params :=
  {| EpochLength := epochLength;
     QuorumFraction := dec_String quorumFraction;
     MinParticipation := dec_String minParticipation;
     PruneAfter := pruneAfter;
     SignMode := signMode |}.

Definition DefaultParams : Params :=
  NewParams DefaultEpochLength DefaultQuorumFraction DefaultMinParticipation
    DefaultPruneAfter DefaultSignMode.

Definition validateEpochLength (i : iface) : outcome unit :=
  match i with
  | IfUint64 v => if v =? 0 then Err (ErrText "epoch length must be positive") else Ok tt
  | _ => Err (ErrText "invalid parameter type")
  end.

Definition validateQuorumFraction (i : iface) : outcome unit :=
  match i with
  | IfString v =>
      dec ← wrap_outcome "invalid decimal string" (LegacyNewDecFromStr v);
      if LTE dec LegacyZeroDec || GT dec LegacyOneDec
      then Err (ErrText "quorum fraction must be between 0 and 1") else Ok tt
  | _ => Err (ErrText "invalid parameter type")
  end.

Definition validateMinParticipation (i : iface) : outcome unit :=
  match i with
  | IfString v =>
      dec ← wrap_outcome "invalid decimal string" (LegacyNewDecFromStr v);
      if LTE dec LegacyZeroDec || GT dec LegacyOneDec
      then Err (ErrText "min participation must be between 0 and 1") else Ok tt
  | _ => Err (ErrText "invalid parameter type")
  end.

Definition validatePruneAfter (i : iface) : outcome unit :=
  match i with
  | IfUint64 v => if v =? 0 then Err (ErrText "prune after must be positive") else Ok tt
  | _ => Err (ErrText "invalid parameter type")
  end.

Definition validateSignMode (i : iface) : outcome unit :=
  match i with
  | IfSignMode v =>
      if v =? SignMode_SIGN_MODE_UNSPECIFIED then Err (ErrText "sign mode cannot be unspecified")
      else if negb (v =? SignMode_SIGN_MODE_CHECKPOINT) then Err (ErrText "invalid sign mode")
      else Ok tt
  | _ => Err (ErrText "invalid parameter type")
  end.

Definition Params_Validate (p : Params) : outcome unit :=
  _ ← validateEpochLength (IfUint64 (EpochLength p));
  _ ← validateQuorumFraction (IfString (QuorumFraction p));
  _ ← validateMinParticipation (IfString (MinParticipation p));
  _ ← validatePruneAfter (IfUint64 (PruneAfter p));
  _ ← validateSignMode (IfSignMode (SignMode p));
  Ok tt.

(** [ParamSetPairs]: every field with the validator registered for it. *)
Definition ParamSetPairs (p : Params) : list (string * iface * (iface -> outcome unit)) :=
  [ ("EpochLength", IfUint64 (EpochLength p), validateEpochLength);
    ("QuorumFraction", IfString (QuorumFraction p), validateQuorumFraction);
    ("MinParticipation", IfString (MinParticipation p), validateMinParticipation);
    ("PruneAfter", IfUint64 (PruneAfter p), validatePruneAfter);
    ("SignMode", IfSignMode (SignMode p), validateSignMode) ].

(** ** Genesis *)

Definition DefaultGenesisState : GenesisState :=
  {| gs_Params := DefaultParams; gs_ValidatorIndices := []; gs_AttestationBitmaps := [] |}.

(** The loop over the validator indices with its two Go maps. *)
Fixpoint validate_indices (l : list types_ValidatorIndex)
    (indexMap : gmap string bool) (usedIndices : gmap Z bool) : outcome unit :=
  match l with
  | [] => Ok tt
  | vi :: l' =>
      if default false (indexMap !! vi_Address vi)
      then Err (ErrText "duplicate validator address")
      else if default false (usedIndices !! vi_Index vi)
      then Err (ErrText "duplicate index")
      else validate_indices l' (<[vi_Address vi := true]> indexMap)
             (<[vi_Index vi := true]> usedIndices)
  end.

Fixpoint validate_bitmaps (l : list types_AttestationBitmap) : outcome unit :=
  match l with
  | [] => Ok tt
  | ab :: l' =>
      if ab_Height ab <=? 0 then Err (ErrText "invalid attestation height")
      else if ab_TotalPower ab <? ab_VotedPower ab
      then Err (ErrText "voted power exceeds total power")
      else validate_bitmaps l'
  end.

Definition GenesisState_Validate (gs : GenesisState) : outcome unit :=
  _ ← wrap_outcome "invalid params" (Params_Validate (gs_Params gs));
  _ ← (if max_u16 <? Z.of_nat (length (gs_ValidatorIndices gs))
       then Err (ErrText "too many validator indices") else Ok tt);
  _ ← validate_indices (gs_ValidatorIndices gs) ∅ ∅;
  _ ← validate_bitmaps (gs_AttestationBitmaps gs);
  Ok tt.
End params.

(** ** Store keys *)

Definition bytes_of_string (s : string) : bytes :=
  (fun c => Z.of_nat (nat_of_ascii c)) <$> list_ascii_of_string s.

(** [binary.BigEndian.PutUint16], [PutUint64] into a fresh buffer *)
Definition PutUint16 (v : Z) : bytes := [u8 (Z.shiftr v 8); u8 v].
Definition PutUint64 (v : Z) : bytes :=
  (fun k => u8 (Z.shiftr v (8 * k))) <$> [7; 6; 5; 4; 3; 2; 1; 0].

Definition ValidatorIndexPrefix : bytes := bytes_of_string "validator_index".
Definition ValidatorPowerPrefix : bytes := bytes_of_string "validator_power".
Definition AttestationBitmapPrefix : bytes := bytes_of_string "attestation_bitmap".
Definition EpochBitmapPrefix : bytes := bytes_of_string "epoch_bitmap".
Definition AttesterSetPrefix : bytes := bytes_of_string "attester_set".
Definition SignaturePrefix : bytes := bytes_of_string "signature".

Definition GetValidatorIndexKey (addr : string) : bytes :=
  ValidatorIndexPrefix ++ bytes_of_string addr.
Definition GetValidatorPowerKey (index : Z) : bytes :=
  ValidatorPowerPrefix ++ PutUint16 index.
Definition GetAttestationKey (height : Z) : bytes :=
  AttestationBitmapPrefix ++ PutUint64 (u64 height).
Definition GetSignatureKey (height : Z) (addr : string) : bytes :=
  (SignaturePrefix ++ PutUint64 (u64 height)) ++ bytes_of_string addr.
Definition GetEpochBitmapKey (epoch : Z) : bytes :=
  EpochBitmapPrefix ++ PutUint64 epoch.
Definition GetAttesterSetKey (addr : string) : bytes :=
  AttesterSetPrefix ++ bytes_of_string addr.

(** ** What the validators accept *)

Lemma seq_ok (r k : outcome unit) : (_ ← r; k) = Ok tt <-> r = Ok tt /\ k = Ok tt.
Proof.
  rewrite outcome_bind_ok. split; [intros ([] & H); done|]. intros H. by exists tt.
Qed.

Lemma if_err_ok (b : bool) (e : error) :
  (if b then Err e else Ok tt) = Ok tt <-> b = false.
Proof. by destruct b. Qed.

Section params_lemmas.
Context {Dec : Type} {HD : LegacyDec Dec} {HL : LegacyDecLaws Dec}.

(** A decimal string in (0, 1]. *)
Definition unit_fraction (s : string) (d : Dec) : Prop :=
  LegacyNewDecFromStr s = Ok d /\ 0 < raw d <= precision.

Lemma fraction_check_ok (s t1 t2 : string) :
  (dec ← wrap_outcome t1 (LegacyNewDecFromStr (Dec := Dec) s);
   if LTE dec LegacyZeroDec || GT dec LegacyOneDec then Err (ErrText t2) else Ok tt) = Ok tt
  <-> exists d, unit_fraction s d.
Proof.
  rewrite outcome_bind_ok. unfold unit_fraction. apply exist_proper. intros d.
  rewrite if_err_ok, orb_false_iff, LTE_raw, GT_raw.
  unfold LegacyZeroDec, LegacyOneDec. rewrite !raw_NewDec.
  destruct (LegacyNewDecFromStr s); cbn; split; intros [H1 H2]; simplify_eq; split; try done; lia.
Qed.

Lemma validateQuorumFraction_ok s :
  validateQuorumFraction (IfString s) = Ok tt <-> exists d, unit_fraction s d.
Proof. apply fraction_check_ok. Qed.

Lemma validateMinParticipation_ok s :
  validateMinParticipation (IfString s) = Ok tt <-> exists d, unit_fraction s d.
Proof. apply fraction_check_ok. Qed.

Lemma validateSignMode_ok v :
  validateSignMode (IfSignMode v) = Ok tt <-> v = SignMode_SIGN_MODE_CHECKPOINT.
Proof.
  unfold validateSignMode, SignMode_SIGN_MODE_CHECKPOINT, SignMode_SIGN_MODE_UNSPECIFIED.
  destruct (Z.eqb_spec v 0) as [->|]; [by split|].
  by destruct (Z.eqb_spec v 1).
Qed.

(** The meaning of valid parameters. *)
Definition valid_Params (p : Params) : Prop :=
  EpochLength p <> 0 /\ (exists q, unit_fraction (QuorumFraction p) q) /\
  (exists m, unit_fraction (MinParticipation p) m) /\ PruneAfter p <> 0 /\
  SignMode p = SignMode_SIGN_MODE_CHECKPOINT.

Lemma Params_Validate_iff p : Params_Validate p = Ok tt <-> valid_Params p.
Proof.
  unfold Params_Validate, valid_Params. rewrite !seq_ok.
  rewrite validateQuorumFraction_ok, validateMinParticipation_ok, validateSignMode_ok.
  unfold validateEpochLength, validatePruneAfter. rewrite !if_err_ok, !Z.eqb_neq. tauto.
Qed.

Lemma raw_DefaultQuorumFraction : raw (DefaultQuorumFraction (Dec := Dec)) = 667 * 10 ^ 15.
Proof. unfold DefaultQuorumFraction. rewrite raw_WithPrec by lia. reflexivity. Qed.

Lemma raw_DefaultMinParticipation : raw (DefaultMinParticipation (Dec := Dec)) = 5 * 10 ^ 17.
Proof. unfold DefaultMinParticipation. rewrite raw_WithPrec by lia. reflexivity. Qed.

Lemma valid_DefaultParams : valid_Params DefaultParams.
Proof.
  assert (forall d : Dec, 0 < raw d <= precision -> unit_fraction (dec_String d) d) as H.
  { intros d Hd. split; [apply String_parses; lia|done]. }
  unfold valid_Params, DefaultParams, NewParams; cbn.
  split_and!; try done.
  - exists DefaultQuorumFraction. apply H. rewrite raw_DefaultQuorumFraction. unfold precision. lia.
  - exists DefaultMinParticipation. apply H. rewrite raw_DefaultMinParticipation. unfold precision. lia.
Qed.
End params_lemmas.

Lemma validate_indices_iff l (im : gmap string bool) (um : gmap Z bool) :
  validate_indices l im um = Ok tt <->
    NoDup (vi_Address <$> l) /\ NoDup (vi_Index <$> l) /\
    Forall (fun vi => im !! vi_Address vi <> Some true /\ um !! vi_Index vi <> Some true) l.
Proof.
  revert im um. induction l as [|vi l IH]; intros im um; cbn [validate_indices fmap list_fmap].
  { split; [|done]. intros _. split_and!; constructor. }
  rewrite !NoDup_cons, Forall_cons, !list_elem_of_fmap.
  assert (forall o : option bool, default false o = true <-> o = Some true) as Hd.
  { by intros [[]|]. }
  destruct (default false (im !! vi_Address vi)) eqn:E1.
  { apply Hd in E1. split; [done|]. by intros (_ & _ & [[] _] & _). }
  destruct (default false (um !! vi_Index vi)) eqn:E2.
  { apply Hd in E2. split; [done|]. by intros (_ & _ & [_ []] & _). }
  assert (im !! vi_Address vi <> Some true) as N1 by (rewrite <- Hd; congruence).
  assert (um !! vi_Index vi <> Some true) as N2 by (rewrite <- Hd; congruence).
  rewrite IH, !Forall_forall. split.
  - intros (H1 & H2 & H3). split_and!; try done.
    + intros (x & Ex & Hx). destruct (H3 _ Hx) as [H _]. rewrite <- Ex, lookup_insert_eq in H. done.
    + intros (x & Ex & Hx). destruct (H3 _ Hx) as [_ H]. rewrite <- Ex, lookup_insert_eq in H. done.
    + intros x Hx. destruct (H3 _ Hx) as [Ha Hb].
      rewrite lookup_insert in Ha. rewrite lookup_insert in Hb. by repeat case_decide.
  - intros ([H1 H1'] & [H2 H2'] & _ & H3). split_and!; try done.
    intros x Hx. destruct (H3 _ Hx) as [Ha Hb].
    rewrite !lookup_insert. split; case_decide as E; try done; intros _.
    + apply H1. by exists x.
    + apply H2. by exists x.
Qed.

Lemma validate_bitmaps_iff l :
  validate_bitmaps l = Ok tt <->
    Forall (fun ab => 0 < ab_Height ab /\ ab_VotedPower ab <= ab_TotalPower ab) l.
Proof.
  induction l as [|ab l IH]; cbn [validate_bitmaps]; [by split; [constructor|]|].
  rewrite Forall_cons, <- IH.
  destruct (Z.leb_spec (ab_Height ab) 0); [split; [done|lia]|].
  destruct (Z.ltb_spec (ab_TotalPower ab) (ab_VotedPower ab)); [split; [done|lia]|]. intuition lia.
Qed.

(** ** The keys are injective *)

Lemma bytes_of_string_inj s1 s2 : bytes_of_string s1 = bytes_of_string s2 -> s1 = s2.
Proof.
  unfold bytes_of_string. intros H. apply list_fmap_eq_inj in H; [|intros a b E].
  - rewrite <- (string_of_list_ascii_of_string s1), H. apply string_of_list_ascii_of_string.
  - apply Nat2Z.inj in E. rewrite <- (ascii_nat_embedding a), E. apply ascii_nat_embedding.
Qed.

Lemma length_PutUint64 v : length (PutUint64 v) = 8%nat.
Proof. done. Qed.

(** The value of a big-endian buffer. *)
Definition be_value (l : bytes) : Z := foldl (fun acc b => acc * 256 + b) 0 l.

Lemma be_step v k k' :
  0 <= k -> k' = k + 1 ->
  Z.shiftr v (8 * k') * 256 + u8 (Z.shiftr v (8 * k)) = Z.shiftr v (8 * k).
Proof.
  intros Hk ->. replace (8 * (k + 1)) with (8 * k + 8) by lia.
  rewrite <- Z.shiftr_shiftr by lia. generalize (Z.shiftr v (8 * k)) as w. intros w.
  rewrite Z.shiftr_div_pow2 by lia. int_lia.
Qed.

Lemma be_value_PutUint64 v : is_u64 v -> be_value (PutUint64 v) = v.
Proof.
  intros Hv. unfold be_value, PutUint64. cbn [fmap list_fmap foldl].
  assert (0 * 256 + u8 (Z.shiftr v (8 * 7)) = Z.shiftr v (8 * 7)) as ->.
  { rewrite Z.shiftr_div_pow2 by lia. change (2 ^ (8 * 7)) with 72057594037927936. int_lia. }
  rewrite !(be_step v) by lia.
  apply Z.shiftr_0_r.
Qed.

Lemma PutUint64_inj v w : is_u64 v -> is_u64 w -> PutUint64 v = PutUint64 w -> v = w.
Proof.
  intros Hv Hw H. by rewrite <- (be_value_PutUint64 v), H, be_value_PutUint64.
Qed.

Lemma PutUint16_inj v w : is_u16 v -> is_u16 w -> PutUint16 v = PutUint16 w -> v = w.
Proof.
  intros Hv Hw. unfold PutUint16. rewrite !Z.shiftr_div_pow2 by lia. intros [= H1 H0].
  change (2 ^ 8) with 256 in *. int_lia.
Qed.
