(* ===== verification/Keeper.v ===== *)
(** * The keeper of the network module ([modules/network/keeper/keeper.go])

    [State] is the module's store, a field per collection, with the events
    emitted so far.  A collection's [Get] returns the value and the error the
    way Go does ([coll_Get]); a stored byte slice is never nil. *)

From Stdlib Require Import ZArith Lia.
From stdpp Require Import base gmap strings list fin_maps sorting pretty.
From S2P Require Import Prelude Bitmap Sdk Types.

Open Scope Z_scope.

Record State : Type := mkState {
  ValidatorIndex : gmap string Z;            (* uint16 *)
  ValidatorPower : gmap Z Z;                 (* uint16 -> uint64 *)
  AttestationBitmap : gmap Z bytes;          (* int64 *)
  EpochBitmap : gmap Z bytes;                (* uint64 *)
  AttesterSet : gset string;
  Signatures : gmap (Z * string) bytes;      (* (int64, validator) *)
  StoredAttestationInfo : gmap Z types_AttestationBitmap;
  ParamsItem : option Params;
  Events : list Event
}.

Definition set_ValidatorIndex (f : gmap string Z -> gmap string Z) (s : State) : State :=
  mkState (f (ValidatorIndex s)) (ValidatorPower s) (AttestationBitmap s) (EpochBitmap s)
    (AttesterSet s) (Signatures s) (StoredAttestationInfo s) (ParamsItem s) (Events s).
Definition set_ValidatorPower (f : gmap Z Z -> gmap Z Z) (s : State) : State :=
  mkState (ValidatorIndex s) (f (ValidatorPower s)) (AttestationBitmap s) (EpochBitmap s)
    (AttesterSet s) (Signatures s) (StoredAttestationInfo s) (ParamsItem s) (Events s).
Definition set_AttestationBitmap (f : gmap Z bytes -> gmap Z bytes) (s : State) : State :=
  mkState (ValidatorIndex s) (ValidatorPower s) (f (AttestationBitmap s)) (EpochBitmap s)
    (AttesterSet s) (Signatures s) (StoredAttestationInfo s) (ParamsItem s) (Events s).
Definition set_EpochBitmap (f : gmap Z bytes -> gmap Z bytes) (s : State) : State :=
  mkState (ValidatorIndex s) (ValidatorPower s) (AttestationBitmap s) (f (EpochBitmap s))
    (AttesterSet s) (Signatures s) (StoredAttestationInfo s) (ParamsItem s) (Events s).
Definition set_AttesterSet (f : gset string -> gset string) (s : State) : State :=
  mkState (ValidatorIndex s) (ValidatorPower s) (AttestationBitmap s) (EpochBitmap s)
    (f (AttesterSet s)) (Signatures s) (StoredAttestationInfo s) (ParamsItem s) (Events s).
Definition set_Signatures (f : gmap (Z * string) bytes -> gmap (Z * string) bytes) (s : State) :
    State :=
  mkState (ValidatorIndex s) (ValidatorPower s) (AttestationBitmap s) (EpochBitmap s)
    (AttesterSet s) (f (Signatures s)) (StoredAttestationInfo s) (ParamsItem s) (Events s).
Definition set_StoredAttestationInfo
    (f : gmap Z types_AttestationBitmap -> gmap Z types_AttestationBitmap) (s : State) : State :=
  mkState (ValidatorIndex s) (ValidatorPower s) (AttestationBitmap s) (EpochBitmap s)
    (AttesterSet s) (Signatures s) (f (StoredAttestationInfo s)) (ParamsItem s) (Events s).
Definition set_ParamsItem (f : option Params -> option Params) (s : State) : State :=
  mkState (ValidatorIndex s) (ValidatorPower s) (AttestationBitmap s) (EpochBitmap s)
    (AttesterSet s) (Signatures s) (StoredAttestationInfo s) (f (ParamsItem s)) (Events s).
Definition set_Events (f : list Event -> list Event) (s : State) : State :=
  mkState (ValidatorIndex s) (ValidatorPower s) (AttestationBitmap s) (EpochBitmap s)
    (AttesterSet s) (Signatures s) (StoredAttestationInfo s) (ParamsItem s) (f (Events s)).

(** A freshly created store. *)
Definition empty_State : State := mkState ∅ ∅ ∅ ∅ ∅ ∅ ∅ None [].

(** [collection.Get]: the value and the error. *)
Definition coll_Get {V} (zero : V) (o : option V) : V * option error :=
  match o with Some v => (v, None) | None => (zero, Some ErrNotFound) end.

(** [err != nil && !errors.Is(err, collections.ErrNotFound)] *)
Definition hard_error (err : option error) : option error :=
  match err with
  | Some e => if negb (is_NotFound e) then Some e else None
  | None => None
  end.

(** [if err != nil ... { return ...Wrap(err, text) }] *)
Definition check_err {S} (text : string) (err : option error) : M S unit :=
  match err with Some e => fail (ErrWrap text e) | None => mret tt end.

(** [collection.Clear] over [StartInclusive(lo).EndExclusive(hi)]; the store
    refuses an interval that ends before it starts. *)
Definition coll_Clear {V} (lo hi : Z) (m : gmap Z V) : outcome (gmap Z V) :=
  if hi <? lo then Err (ErrSentinel "collections.ErrInvalidIterator")
  else Ok (filter (fun kv => ~ (lo <= kv.1 < hi)) m).

Definition EmitEvent (e : Event) : M State unit := modify (set_Events (fun es => es ++ [e])).

Section keeper.
Context {CH : Chain} {C : Ctx}.

(** ** Parameters *)

Definition GetParams : M State Params :=
  r ← gets (fun s => coll_Get zero_Params (ParamsItem s));
  let '(params, err) := r in
  match hard_error err with
  | Some _ => panic "get params"
  | None => mret params
  end.

Definition SetParams (params : Params) : M State unit :=
  modify (set_ParamsItem (fun _ => Some params)).

(** ** Validator indices and powers *)

Definition SetValidatorIndex (addr : string) (index power : Z) : M State unit :=
  modify (set_ValidatorIndex (<[addr := index]>)) ;;
  modify (set_ValidatorPower (<[index := power]>)).

Definition GetValidatorIndex (addr : string) : M State (Z * bool) :=
  r ← gets (fun s => coll_Get 0 (ValidatorIndex s !! addr));
  let '(index, err) := r in
  match err with Some _ => mret (0, false) | None => mret (index, true) end.

Definition GetValidatorPower (index : Z) : M State Z :=
  r ← gets (fun s => coll_Get 0 (ValidatorPower s !! index));
  let '(power, err) := r in
  match err with Some e => fail e | None => mret power end.

(** ** Bitmaps *)

(** The bytes codec of the collections writes a nil slice as an empty value. *)
Definition SetAttestationBitmap (height : Z) (bitmap : option bytes) : M State unit :=
  modify (set_AttestationBitmap (<[height := default [] bitmap]>)).

Definition GetAttestationBitmap (height : Z) : M State (option bytes * option error) :=
  gets (fun s => coll_Get None (Some <$> AttestationBitmap s !! height)).

Definition SetEpochBitmap (epoch : Z) (bitmap : option bytes) : M State unit :=
  modify (set_EpochBitmap (<[epoch := default [] bitmap]>)).

Definition GetEpochBitmap (epoch : Z) : M State (option bytes) :=
  r ← gets (fun s => coll_Get None (Some <$> EpochBitmap s !! epoch));
  let '(bitmap, err) := r in
  match err with Some _ => mret None | None => mret bitmap end.

(** ** Attester set *)

Definition IsInAttesterSet (addr : string) : M State bool :=
  gets (fun s => bool_decide (addr ∈ AttesterSet s)).

Definition SetAttesterSetMember (addr : string) : M State unit :=
  modify (set_AttesterSet (fun m => {[addr]} ∪ m)).

Definition RemoveAttesterSetMember (addr : string) : M State unit :=
  modify (set_AttesterSet (fun m => m ∖ {[addr]})).

(** ** Rebuilding the validator index *)

Definition index_step (index : Z) (val : Validator) : M State Z :=
  if IsBonded val then
    SetValidatorIndex (OperatorAddress val) index (u64 (ConsensusPower val)) ;;
    mret (u16 (index + 1))
  else mret index.

Definition BuildValidatorIndexMap : M State unit :=
  validators ← lift (GetAllValidators stakingKeeper);
  modify (set_ValidatorIndex (fun _ => ∅)) ;;
  modify (set_ValidatorPower (fun _ => ∅)) ;;
  _ ← fold_each validators 0 index_step;
  mret tt.

(** ** Epochs and checkpoints *)

Definition GetCurrentEpoch : M State Z :=
  params ← GetParams;
  let height := u64 BlockHeight in
  lift (u64_div height (EpochLength params)).

Definition IsCheckpointHeight (height : Z) : M State bool :=
  r ← gets (fun s => coll_Get zero_Params (ParamsItem s));
  let '(p, err) := r in
  match err with
  | Some _ => mret false
  | None => m ← lift (u64_mod (u64 height) (EpochLength p)); mret (m =? 0)
  end.

(** ** Voting power and quorum *)

Definition power_step (bitmap : bytes) (votedPower i : Z) : M State Z :=
  if IsSet bitmap i then
    power ← wrap_err "get validator power" (GetValidatorPower (u16 i));
    mret (u64 (votedPower + power))
  else mret votedPower.

Definition CalculateVotedPower (bitmap : bytes) : M State Z :=
  fold_each (seqZ 0 (bit_len bitmap)) 0 (power_step bitmap).

Definition GetTotalPower : M State Z :=
  n ← lift (GetLastTotalPower stakingKeeper);
  lift (Int_Uint64 n).

Definition CheckQuorum (votedPower totalPower : Z) : M State bool :=
  params ← GetParams;
  quorumFrac ← lift (wrap_outcome "invalid quorum fraction"
    (LegacyNewDecFromStr (QuorumFraction params)));
  product ← lift (Mul (LegacyNewDec (i64 totalPower)) quorumFrac);
  requiredPower ← lift (Int_Uint64 (TruncateInt product));
  mret (requiredPower <=? votedPower).

Definition IsSoftConfirmed (height : Z) : M State bool :=
  r ← GetAttestationBitmap height;
  let '(bitmap, err) := r in
  check_err "get attestation bitmap" (hard_error err) ;;
  match bitmap with
  | None => mret false
  | Some bitmap =>
      votedPower ← CalculateVotedPower bitmap;
      totalPower ← GetTotalPower;
      CheckQuorum votedPower totalPower
  end.

(** ** Pruning *)

Definition PruneOldBitmaps (currentEpoch : Z) : M State unit :=
  params ← GetParams;
  if PruneAfter params =? 0 then mret tt
  else if currentEpoch <=? PruneAfter params then mret tt
  else
    let pruneBeforeEpoch := u64 (currentEpoch - PruneAfter params) in
    let pruneHeight := i64 (u64 (pruneBeforeEpoch * EpochLength params)) in
    abs ← gets AttestationBitmap;
    abs' ← lift (wrap_outcome "clearing attestation bitmaps" (coll_Clear 0 pruneHeight abs));
    modify (set_AttestationBitmap (fun _ => abs')) ;;
    infos ← gets StoredAttestationInfo;
    infos' ← lift (wrap_outcome "clearing stored attestation info"
      (coll_Clear 0 pruneHeight infos));
    modify (set_StoredAttestationInfo (fun _ => infos')) ;;
    ebs ← gets EpochBitmap;
    ebs' ← lift (wrap_outcome "clearing epoch bitmaps" (coll_Clear 0 pruneBeforeEpoch ebs));
    modify (set_EpochBitmap (fun _ => ebs')).

(** ** Signatures *)

Definition SetSignature (height : Z) (validatorAddr : string) (signature : bytes) : M State unit :=
  modify (set_Signatures (<[(height, validatorAddr) := signature]>)).

Definition GetSignature (height : Z) (validatorAddr : string) : M State bytes :=
  r ← gets (fun s => coll_Get [] (Signatures s !! (height, validatorAddr)));
  let '(signature, err) := r in
  match err with Some e => fail e | None => mret signature end.

Definition HasSignature (height : Z) (validatorAddr : string) : M State bool :=
  gets (fun s => bool_decide (is_Some (Signatures s !! (height, validatorAddr)))).
End keeper.

(** ** Running the keeper's operations *)

Section keeper_lemmas.
Context {CH : Chain} {C : Ctx}.

Lemma GetParams_run s : GetParams s = (s, Ok (default zero_Params (ParamsItem s))).
Proof. unfold GetParams. run. by destruct (ParamsItem s). Qed.

Lemma GetValidatorIndex_run addr s :
  GetValidatorIndex addr s =
    (s, Ok (match ValidatorIndex s !! addr with Some i => (i, true) | None => (0, false) end)).
Proof. unfold GetValidatorIndex. run. by destruct (_ !! _). Qed.

Lemma GetValidatorPower_run i s :
  GetValidatorPower i s =
    (s, match ValidatorPower s !! i with Some p => Ok p | None => Err ErrNotFound end).
Proof. unfold GetValidatorPower. run. by destruct (_ !! _). Qed.

Lemma GetAttestationBitmap_run h s :
  GetAttestationBitmap h s =
    (s, Ok (AttestationBitmap s !! h,
      match AttestationBitmap s !! h with Some _ => None | None => Some ErrNotFound end)).
Proof. unfold GetAttestationBitmap. run. by destruct (_ !! _). Qed.

Lemma check_hard_error_run {V} text (o : option V) (s : State) :
  check_err text (hard_error (match o with Some _ => None | None => Some ErrNotFound end)) s
  = (s, Ok tt).
Proof. by destruct o. Qed.

Lemma GetEpochBitmap_run e s : GetEpochBitmap e s = (s, Ok (EpochBitmap s !! e)).
Proof. unfold GetEpochBitmap. run. by destruct (_ !! _). Qed.

Lemma GetCurrentEpoch_run s :
  GetCurrentEpoch s =
    (s, u64_div (u64 BlockHeight) (EpochLength (default zero_Params (ParamsItem s)))).
Proof. unfold GetCurrentEpoch. rewrite run_bind, GetParams_run. by run. Qed.

Lemma IsCheckpointHeight_run h s :
  IsCheckpointHeight h s =
    (s, match ParamsItem s with
        | None => Ok false
        | Some p =>
            if EpochLength p =? 0 then Panic "integer divide by zero"
            else Ok (u64 h mod EpochLength p =? 0)
        end).
Proof.
  unfold IsCheckpointHeight. run. destruct (ParamsItem s) as [p|]; cbn; [|done].
  run. unfold u64_mod. by destruct (EpochLength p =? 0).
Qed.

Lemma GetTotalPower_run s :
  GetTotalPower s = (s, n ← GetLastTotalPower stakingKeeper; Int_Uint64 n).
Proof. unfold GetTotalPower. run. by destruct (GetLastTotalPower _). Qed.
End keeper_lemmas.

#[export] Hint Rewrite @GetParams_run @GetValidatorIndex_run @GetValidatorPower_run
  @GetAttestationBitmap_run @check_hard_error_run @GetEpochBitmap_run @GetCurrentEpoch_run
  @IsCheckpointHeight_run @GetTotalPower_run : run.

(** ** Voting power: the sum of the powers of the set bits *)

Definition power_of (s : State) (i : Z) : Z := default 0 (ValidatorPower s !! u16 i).

(** Every bit that is set belongs to an index with a stored power. *)
Definition has_powers (s : State) (bm : bytes) : Prop :=
  forall i, IsSet bm i = true -> is_Some (ValidatorPower s !! u16 i).

(** The sum of the powers of the set bits, without wrap-around. *)
Definition power_sum (s : State) (bm : bytes) (l : list Z) : Z :=
  foldr (fun i n => (if IsSet bm i then power_of s i else 0) + n) 0 l.
Definition voted_sum (s : State) (bm : bytes) : Z := power_sum s bm (seqZ 0 (bit_len bm)).

Definition powers_ok (s : State) : Prop := map_Forall (fun _ p => is_u64 p) (ValidatorPower s).

Lemma power_sum_cons s bm i l :
  power_sum s bm (i :: l) = (if IsSet bm i then power_of s i else 0) + power_sum s bm l.
Proof. reflexivity. Qed.

Section voted_power.
Context {CH : Chain} {C : Ctx}.

Lemma power_step_run s bm acc i :
  power_step bm acc i s =
    (s, if IsSet bm i then
          match ValidatorPower s !! u16 i with
          | Some p => Ok (u64 (acc + p))
          | None => Err (ErrWrap "get validator power" ErrNotFound)
          end
        else Ok acc).
Proof.
  unfold power_step. destruct (IsSet bm i); [|done]. run. by destruct (_ !! _).
Qed.

Lemma power_fold_ok s bm l acc :
  is_u64 acc -> (forall i, i ∈ l -> IsSet bm i = true -> is_Some (ValidatorPower s !! u16 i)) ->
  fold_each l acc (power_step bm) s = (s, Ok (u64 (acc + power_sum s bm l))).
Proof.
  revert acc. induction l as [|i l IH]; intros acc Hacc Hl; cbn [fold_each].
  { cbn. rewrite Z.add_0_r, u64_small by done. done. }
  rewrite power_sum_cons, run_bind, power_step_run.
  assert (forall i, i ∈ l -> IsSet bm i = true -> is_Some (ValidatorPower s !! u16 i)) as Hl'.
  { intros j Hj. apply Hl. by right. }
  destruct (IsSet bm i) eqn:E.
  - destruct (Hl i) as [p Hp]; [by left|done|]. rewrite Hp. rewrite IH; [|apply u64_range|done].
    rewrite u64_add_l. unfold power_of. rewrite Hp. cbn [default id from_option].
    by rewrite Z.add_assoc.
  - rewrite IH by done. do 2 f_equal.
Qed.

Lemma power_fold_err s bm l acc i :
  i ∈ l -> IsSet bm i = true -> ValidatorPower s !! u16 i = None ->
  fold_each l acc (power_step bm) s = (s, Err (ErrWrap "get validator power" ErrNotFound)).
Proof.
  intros Hi Hset Hnone. revert acc. induction l as [|j l IH]; intros acc; [by inversion Hi|].
  cbn [fold_each]. rewrite run_bind, power_step_run.
  apply elem_of_cons in Hi as [<-|Hi].
  - by rewrite Hset, Hnone.
  - destruct (IsSet bm j); [destruct (ValidatorPower s !! u16 j)|]; auto.
Qed.

Lemma CalculateVotedPower_ok s bm :
  has_powers s bm -> CalculateVotedPower bm s = (s, Ok (u64 (voted_sum s bm))).
Proof.
  intros H. unfold CalculateVotedPower. rewrite power_fold_ok; [done|by unfold_int|].
  intros i _. apply H.
Qed.

Lemma CalculateVotedPower_missing s bm i :
  IsSet bm i = true -> ValidatorPower s !! u16 i = None ->
  CalculateVotedPower bm s = (s, Err (ErrWrap "get validator power" ErrNotFound)).
Proof.
  intros Hset Hnone. apply (power_fold_err _ _ _ _ i); try done.
  apply elem_of_seqZ. apply IsSet_range in Hset. lia.
Qed.

Lemma CalculateVotedPower_reads bm : reads_only (CalculateVotedPower bm).
Proof.
  intros s. unfold CalculateVotedPower. generalize (seqZ 0 (bit_len bm)) as l.
  intros l. generalize 0 as acc. induction l as [|i l IH]; intros acc; [done|]. cbn [fold_each].
  rewrite run_bind, power_step_run.
  destruct (IsSet bm i); [destruct (ValidatorPower s !! u16 i)|]; auto.
Qed.
End voted_power.

Lemma power_sum_ext s s' bm bm' l :
  (forall i, i ∈ l -> IsSet bm i = IsSet bm' i) -> ValidatorPower s = ValidatorPower s' ->
  power_sum s bm l = power_sum s' bm' l.
Proof.
  intros Hb Hp. induction l as [|i l IH]; [done|]. rewrite !power_sum_cons, (Hb i) by (by left).
  unfold power_of. rewrite Hp. f_equal. apply IH. intros j Hj. apply Hb. by right.
Qed.

Lemma power_of_nonneg s i : powers_ok s -> 0 <= power_of s i.
Proof.
  intros H. unfold power_of. destruct (_ !! _) eqn:E; [|done]. apply H in E. cbn. unfold_int. lia.
Qed.

Lemma power_sum_nonneg s bm l : powers_ok s -> 0 <= power_sum s bm l.
Proof.
  intros H. induction l as [|i l IH]; [done|]. rewrite power_sum_cons.
  pose proof (power_of_nonneg s i H). destruct (IsSet bm i); lia.
Qed.

(** Setting a bit adds the power of its index. *)
Lemma power_sum_SetBit s bm i l :
  NoDup l ->
  power_sum s (SetBit bm i) l =
    power_sum s bm l +
    (if bool_decide (i ∈ l /\ 0 <= i < bit_len bm) && negb (IsSet bm i) then power_of s i else 0).
Proof.
  induction l as [|j l IH]; intros Hnd; [|rewrite !power_sum_cons].
  { rewrite bool_decide_false; [done|]. intros [H _]. by inversion H. }
  apply NoDup_cons in Hnd as [Hj Hnd]. rewrite IH by done.
  rewrite IsSet_SetBit. destruct (decide (i = j)) as [->|Hij].
  - rewrite (bool_decide_false (j ∈ l /\ _)) by tauto. cbn [andb].
    destruct (decide (0 <= j < bit_len bm)).
    + rewrite !bool_decide_true by (split; [|done]; first [by left | done]).
      destruct (IsSet bm j); cbn; lia.
    + rewrite !bool_decide_false by tauto. rewrite orb_false_r. cbn. lia.
  - rewrite (bool_decide_false (i = j /\ _)) by tauto. rewrite orb_false_r.
    rewrite (bool_decide_ext (i ∈ j :: l /\ 0 <= i < bit_len bm) (i ∈ l /\ 0 <= i < bit_len bm)).
    2: { rewrite elem_of_cons. split; intros [H1 H2]; [by destruct H1|by split; [right|]]. }
    destruct (IsSet bm j); lia.
Qed.

Lemma voted_sum_SetBit s bm i :
  0 <= i < bit_len bm -> IsSet bm i = false ->
  voted_sum s (SetBit bm i) = voted_sum s bm + power_of s i.
Proof.
  intros Hi Hb. unfold voted_sum. rewrite bit_len_SetBit, power_sum_SetBit by apply NoDup_seqZ.
  rewrite Hb, bool_decide_true; [done|]. split; [|done]. apply elem_of_seqZ. lia.
Qed.

(** ** Quorum *)

Section quorum_reads.
Context {CH : Chain} {C : Ctx}.

Lemma CheckQuorum_reads voted total : reads_only (CheckQuorum voted total).
Proof.
  intros s. unfold CheckQuorum. run. destruct (wrap_outcome _ _); [|done..]. run.
  match goal with |- context [Mul ?a ?b] => destruct (Mul a b) end; [|done..]. run.
  by destruct (Int_Uint64 (TruncateInt _)).
Qed.
End quorum_reads.

Section quorum.
Context {CH : Chain} {C : Ctx} {HL : LegacyDecLaws Dec}.

Lemma quorum_product (q : Dec) total :
  0 < raw q <= precision -> is_i64 total ->
  exists c, Mul (LegacyNewDec total) q = Ok c /\ raw c = total * raw q.
Proof.
  intros Hq Ht. apply Mul_NewDec.
  assert (Z.abs (total * precision * raw q) <= 9223372036854775808 * precision * precision) as Hb.
  { rewrite !Z.abs_mul, (Z.abs_eq precision) by (unfold precision; lia).
    apply Z.mul_le_mono_nonneg; unfold_int; unfold precision in *; lia. }
  eapply Z.le_lt_trans; [exact Hb|]. reflexivity.
Qed.

Lemma CheckQuorum_run s p q voted total :
  ParamsItem s = Some p -> unit_fraction (QuorumFraction p) q -> is_u64 total ->
  CheckQuorum voted total s =
    (s, required ← Int_Uint64 (Z.quot (i64 total * raw q) precision);
        Ok (required <=? voted)).
Proof.
  intros Hp [Hq Hr] Ht. unfold CheckQuorum. run. rewrite Hp. cbn [default id from_option].
  rewrite Hq. cbn [wrap_outcome].
  destruct (quorum_product q (i64 total) Hr (i64_range _)) as (c & Hc & Hraw).
  rewrite Hc. run. rewrite TruncateInt_raw, Hraw.
  by destruct (Int_Uint64 _).
Qed.

(** Below 2^63 the quorum is the floor of [total * fraction]. *)
Lemma CheckQuorum_small s p q voted total :
  ParamsItem s = Some p -> unit_fraction (QuorumFraction p) q -> 0 <= total <= max_i64 ->
  CheckQuorum voted total s = (s, Ok (total * raw q / precision <=? voted)).
Proof.
  intros Hp Hq Ht. rewrite (CheckQuorum_run _ p q) by (done || (unfold_int; lia)).
  rewrite i64_small by (unfold_int; lia). destruct Hq as [_ Hr].
  assert (0 <= total * raw q) as Hnn by (apply Z.mul_nonneg_nonneg; lia).
  rewrite Z.quot_div_nonneg by (first [exact Hnn | unfold precision; lia]). unfold Int_Uint64.
  assert (0 <= total * raw q / precision <= total) as Hb.
  { split; [apply Z.div_pos; [done|unfold precision; lia]|].
    apply Z.div_le_upper_bound; [unfold precision; lia|]. rewrite Z.mul_comm.
    apply Z.mul_le_mono_nonneg_r; lia. }
  destruct (Z.leb_spec 0 (total * raw q / precision)); [|lia].
  destruct (Z.leb_spec (total * raw q / precision) max_u64); [done|unfold_int; lia].
Qed.
End quorum.

(** ** The validator index *)

Definition bonded (validators : list Validator) : list Validator :=
  filter (fun v => IsBonded v = true) validators.

(** The indices and the powers given to a list of bonded validators, from index
    [i] on: the counter is a uint16. *)
Definition numbered (i : Z) (l : list Validator) : list (string * Z) :=
  imap (fun k v => (OperatorAddress v, u16 (i + Z.of_nat k))) l.
Definition numbered_power (i : Z) (l : list Validator) : list (Z * Z) :=
  imap (fun k v => (u16 (i + Z.of_nat k), u64 (ConsensusPower v))) l.

Lemma u16_shift i k : u16 (u16 (i + 1) + Z.of_nat k) = u16 (i + Z.of_nat (S k)).
Proof. int_lia. Qed.

Lemma numbered_cons i v l :
  is_u16 i -> numbered i (v :: l) = (OperatorAddress v, i) :: numbered (u16 (i + 1)) l.
Proof.
  intros Hi. unfold numbered. rewrite imap_cons, Z.add_0_r, (u16_small i) by done. f_equal.
  apply imap_ext. intros k x _. cbn. by rewrite u16_shift.
Qed.

Lemma numbered_power_cons i v l :
  is_u16 i ->
  numbered_power i (v :: l) = (i, u64 (ConsensusPower v)) :: numbered_power (u16 (i + 1)) l.
Proof.
  intros Hi. unfold numbered_power. rewrite imap_cons, Z.add_0_r, (u16_small i) by done. f_equal.
  apply imap_ext. intros k x _. cbn. by rewrite u16_shift.
Qed.

Lemma elem_of_numbered i l a n :
  (a, n) ∈ numbered i l <-> exists k v, l !! k = Some v /\ a = OperatorAddress v /\ n = u16 (i + Z.of_nat k).
Proof.
  unfold numbered. rewrite list_elem_of_lookup. split.
  - intros [k Hk]. rewrite list_lookup_imap in Hk.
    destruct (l !! k) as [v|] eqn:E; cbn in Hk; simplify_eq. eauto 6.
  - intros (k & v & E & -> & ->). exists k. by rewrite list_lookup_imap, E.
Qed.

Lemma elem_of_numbered_power i l n p :
  (n, p) ∈ numbered_power i l <->
    exists k v, l !! k = Some v /\ n = u16 (i + Z.of_nat k) /\ p = u64 (ConsensusPower v).
Proof.
  unfold numbered_power. rewrite list_elem_of_lookup. split.
  - intros [k Hk]. rewrite list_lookup_imap in Hk.
    destruct (l !! k) as [v|] eqn:E; cbn in Hk; simplify_eq. eauto 6.
  - intros (k & v & E & -> & ->). exists k. by rewrite list_lookup_imap, E.
Qed.

Lemma fst_numbered i l : (numbered i l).*1 = OperatorAddress <$> l.
Proof.
  unfold numbered. rewrite fmap_imap.
  induction l as [|v l IH] in i |- *; [done|]. rewrite imap_cons. cbn. f_equal.
  rewrite <- (IH i). apply imap_ext. by intros.
Qed.

Section index_map.
Context {CH : Chain} {C : Ctx}.

Lemma index_fold_run validators i s :
  is_u16 i ->
  fold_each validators i index_step s =
    (set_ValidatorIndex (fun m => insert_all m (numbered i (bonded validators)))
      (set_ValidatorPower (fun m => insert_all m (numbered_power i (bonded validators))) s),
     Ok (u16 (i + Z.of_nat (length (bonded validators))))).
Proof.
  revert i s. induction validators as [|v l IH]; intros i s Hi; cbn [fold_each].
  { cbn. rewrite Z.add_0_r, u16_small by done. by destruct s. }
  rewrite run_bind. unfold index_step at 1, bonded.
  destruct (IsBonded v) eqn:Hv.
  - rewrite filter_cons_True by done. fold (bonded l). unfold SetValidatorIndex. run.
    rewrite IH by apply u16_range. rewrite numbered_cons, numbered_power_cons by done.
    cbn [length]. by rewrite u16_shift.
  - rewrite filter_cons_False by congruence. fold (bonded l). run. by apply IH.
Qed.

Definition rebuilt (validators : list Validator) (s : State) : State :=
  set_ValidatorIndex (fun _ => insert_all ∅ (numbered 0 (bonded validators)))
    (set_ValidatorPower (fun _ => insert_all ∅ (numbered_power 0 (bonded validators))) s).

Lemma BuildValidatorIndexMap_run s :
  BuildValidatorIndexMap s =
    match GetAllValidators stakingKeeper with
    | Ok validators => (rebuilt validators s, Ok tt)
    | Err e => (s, Err e)
    | Panic t => (s, Panic t)
    end.
Proof.
  unfold BuildValidatorIndexMap. run. destruct (GetAllValidators _); [|done..].
  run. rewrite index_fold_run by (unfold_int; lia). done.
Qed.
End index_map.
#[export] Hint Rewrite @BuildValidatorIndexMap_run : run.
