(* ===== verification/MsgServer.v ===== *)
(** * The messages of the network module ([modules/network/keeper/msg_server.go])

    One definition per handler, in the order of the handler's checks and
    writes.  A handler that fails half-way keeps its writes, as in the code. *)

From Stdlib Require Import ZArith Lia.
From stdpp Require Import base gmap strings list fin_maps sorting pretty.
From S2P Require Import Prelude Bitmap Sdk Types Keeper.

Open Scope Z_scope.

Definition ErrInvalidRequest : error := ErrSentinel "sdkerrors.ErrInvalidRequest".
Definition ErrUnauthorized : error := ErrSentinel "sdkerrors.ErrUnauthorized".
Definition sdk_ErrNotFound : error := ErrSentinel "sdkerrors.ErrNotFound".
Definition ErrInvalidAddress : error := ErrSentinel "sdkerrors.ErrInvalidAddress".
Definition ErrInvalidSigner : error := ErrSentinel "govtypes.ErrInvalidSigner".

(** The loop that counts the bonded validators. *)
Definition count_bonded (validators : list Validator) : Z :=
  foldl (fun n v => if IsBonded v then n + 1 else n) 0 validators.

Section msg_server.
Context {CH : Chain} {C : Ctx}.

(** [bitmap == nil]: a new bitmap for the bonded validators of the last set. *)
Definition bitmap_or_new (bitmap : option bytes) : M State bytes :=
  match bitmap with
  | Some b => mret b
  | None =>
      validators ← lift (GetLastValidators stakingKeeper);
      let numValidators := count_bonded validators in
      lift (NewBitmap numValidators)
  end.

Definition attest_event (msg : MsgAttest) : Event :=
  mkEvent TypeMsgAttest
    [("validator", attest_Validator msg); ("height", pretty (attest_Height msg))].

Definition Attest (msg : MsgAttest) : M State unit :=
  params ← GetParams;
  not_checkpoint ←
    (if SignMode params =? SignMode_SIGN_MODE_CHECKPOINT
     then c ← IsCheckpointHeight (attest_Height msg); mret (negb c)
     else mret false);
  if (not_checkpoint : bool) then fail (ErrWrap "height is not a checkpoint" ErrInvalidRequest)
  else
  has ← wrap_err "in attester set" (IsInAttesterSet (attest_Validator msg));
  if negb has then fail (ErrWrap "validator not in attester set" ErrUnauthorized)
  else
  r ← GetValidatorIndex (attest_Validator msg);
  let '(index, found) := r in
  if negb found then fail (ErrWrap "validator index not found" sdk_ErrNotFound)
  else
  r ← GetAttestationBitmap (attest_Height msg);
  let '(bitmap, err) := r in
  check_err "get attestation bitmap" (hard_error err) ;;
  bitmap ← bitmap_or_new bitmap;
  if IsSet bitmap index then fail (ErrWrap "validator already attested" ErrInvalidRequest)
  else
  let bitmap := SetBit bitmap index in
  wrap_err "set attestation bitmap" (SetAttestationBitmap (attest_Height msg) (Some bitmap)) ;;
  wrap_err "store signature"
    (SetSignature (attest_Height msg) (attest_Validator msg) (attest_Vote msg)) ;;
  epoch ← GetCurrentEpoch;
  epochBitmap ← GetEpochBitmap epoch;
  epochBitmap ← bitmap_or_new epochBitmap;
  let epochBitmap := SetBit epochBitmap index in
  wrap_err "set epoch bitmap" (SetEpochBitmap epoch (Some epochBitmap)) ;;
  EmitEvent (attest_event msg).

Definition JoinAttesterSet (msg : MsgJoinAttesterSet) : M State unit :=
  valAddr ← lift
    (match ValAddressFromBech32 (join_Validator msg) with
     | Err _ => Err (ErrWrap "invalid validator address" ErrInvalidAddress)
     | r => r
     end);
  validator ← lift (GetValidator stakingKeeper valAddr);
  if negb (IsBonded validator)
  then fail (ErrWrap "validator must be bonded to join attester set" ErrInvalidRequest)
  else
  has ← wrap_err "in attester set" (IsInAttesterSet (join_Validator msg));
  if (has : bool) then fail (ErrWrap "validator already in attester set" ErrInvalidRequest)
  else
  wrap_err "set attester set member" (SetAttesterSetMember (join_Validator msg)) ;;
  EmitEvent (mkEvent TypeMsgJoinAttesterSet [("validator", join_Validator msg)]).

Definition LeaveAttesterSet (msg : MsgLeaveAttesterSet) : M State unit :=
  has ← wrap_err "in attester set" (IsInAttesterSet (leave_Validator msg));
  if negb has then fail (ErrWrap "validator not in attester set" ErrInvalidRequest)
  else
  wrap_err "remove attester set member" (RemoveAttesterSetMember (leave_Validator msg)) ;;
  EmitEvent (mkEvent TypeMsgLeaveAttesterSet [("validator", leave_Validator msg)]).

Definition UpdateParams (msg : MsgUpdateParams) : M State unit :=
  if negb (bool_decide (GetAuthority = update_Authority msg))
  then fail (ErrWrap "invalid authority" ErrInvalidSigner)
  else
  lift (Params_Validate (Dec := Dec) (update_Params msg)) ;;
  wrap_err "set params" (SetParams (update_Params msg)) ;;
  EmitEvent (mkEvent TypeMsgUpdateParams [("authority", update_Authority msg)]).
End msg_server.

(** ** Attest: when it succeeds and what it writes *)

Section attest.
Context {CH : Chain} {C : Ctx}.

Lemma bitmap_or_new_reads o : reads_only (bitmap_or_new o).
Proof.
  intros s. destruct o as [b|]; [done|]. unfold bitmap_or_new. run.
  by destruct (GetLastValidators _).
Qed.

(** The outcome of [bitmap_or_new] does not depend on the store. *)
Definition bitmap_or_new_value (o : option bytes) : outcome bytes :=
  match o with
  | Some b => Ok b
  | None => validators ← GetLastValidators stakingKeeper; NewBitmap (count_bonded validators)
  end.

Lemma bitmap_or_new_run o s : bitmap_or_new o s = (s, bitmap_or_new_value o).
Proof.
  destruct o as [b|]; [done|]. unfold bitmap_or_new, bitmap_or_new_value. run.
  by destruct (GetLastValidators _).
Qed.

(** The conditions under which the handler accepts a message: [i] is the
    validator's index, [bm] and [eb] the height's and the epoch's bitmaps
    before the vote and [e] the current epoch. *)
Record attest_accepts (s : State) (msg : MsgAttest) (i : Z) (bm : bytes) (e : Z) (eb : bytes) :
    Prop := {
  acc_epoch : e = u64 BlockHeight / EpochLength (default zero_Params (ParamsItem s));
  acc_length : EpochLength (default zero_Params (ParamsItem s)) <> 0;
  acc_checkpoint :
    SignMode (default zero_Params (ParamsItem s)) = SignMode_SIGN_MODE_CHECKPOINT ->
    u64 (attest_Height msg) mod EpochLength (default zero_Params (ParamsItem s)) = 0;
  acc_member : attest_Validator msg ∈ AttesterSet s;
  acc_index : ValidatorIndex s !! attest_Validator msg = Some i;
  acc_bitmap : bitmap_or_new_value (AttestationBitmap s !! attest_Height msg) = Ok bm;
  acc_fresh : IsSet bm i = false;
  acc_epoch_bitmap : bitmap_or_new_value (EpochBitmap s !! e) = Ok eb
}.

Definition attest_state (s : State) (msg : MsgAttest) (i : Z) (bm : bytes) (e : Z) (eb : bytes) :
    State :=
  set_Events (fun es => es ++ [attest_event msg])
    (set_EpochBitmap (<[e := SetBit eb i]>)
      (set_Signatures (<[(attest_Height msg, attest_Validator msg) := attest_Vote msg]>)
        (set_AttestationBitmap (<[attest_Height msg := SetBit bm i]>) s))).

Lemma Attest_accepts_run s msg i bm e eb :
  attest_accepts s msg i bm e eb -> Attest msg s = (attest_state s msg i bm e eb, Ok tt).
Proof.
  intros [-> Hlen Hcp Hmem Hidx Hbm Hfresh Heb]. unfold Attest. run.
  set (P := default zero_Params (ParamsItem s)) in *.
  assert ((if SignMode P =? SignMode_SIGN_MODE_CHECKPOINT
           then c ← IsCheckpointHeight (attest_Height msg); mret (negb c)
           else mret false) s = (s, Ok false)) as ->.
  { destruct (Z.eqb_spec (SignMode P) SignMode_SIGN_MODE_CHECKPOINT) as [E|]; [|done].
    run. specialize (Hcp E). subst P. destruct (ParamsItem s) as [p|]; cbn in *; [|done].
    apply Z.eqb_neq in Hlen. rewrite Hlen, Hcp. done. }
  run. unfold IsInAttesterSet, SetAttestationBitmap, SetSignature, SetEpochBitmap, EmitEvent.
  run. rewrite bool_decide_true by done. cbn [negb]. run. rewrite ?Hidx. cbn [negb]. run.
  rewrite bitmap_or_new_run, Hbm, Hfresh. run. cbn [ParamsItem set_Signatures set_AttestationBitmap].
  subst P. unfold u64_div. apply Z.eqb_neq in Hlen. rewrite Hlen. run.
  rewrite bitmap_or_new_run. cbn [EpochBitmap set_Signatures set_AttestationBitmap].
  rewrite Heb. run. done.
Qed.

Lemma Attest_ok_inv s msg s' :
  Attest msg s = (s', Ok tt) ->
  exists i bm e eb, attest_accepts s msg i bm e eb /\ s' = attest_state s msg i bm e eb.
Proof.
  unfold Attest. run. intros H.
  set (P := default zero_Params (ParamsItem s)) in *.
  destruct ((if SignMode P =? SignMode_SIGN_MODE_CHECKPOINT
             then c ← IsCheckpointHeight (attest_Height msg); mret (negb c)
             else mret false) s) as [s1 r] eqn:Ecp.
  assert (s1 = s) as ->.
  { revert Ecp. destruct (_ =? _); [|by intros [= <- _]]. run. destruct (ParamsItem s); cbn.
    - destruct (_ =? 0); by intros [= <- _].
    - by intros [= <- _]. }
  destruct r as [[]|e|t]; [done| |done..].
  assert (SignMode P = SignMode_SIGN_MODE_CHECKPOINT ->
    EpochLength P <> 0 -> u64 (attest_Height msg) mod EpochLength P = 0) as Hcp.
  { intros E%Z.eqb_eq. rewrite E in Ecp. revert Ecp. run. subst P.
    destruct (ParamsItem s) as [p|]; cbn; [|done].
    destruct (Z.eqb_spec (EpochLength p) 0); [done|].
    destruct (Z.eqb_spec (u64 (attest_Height msg) mod EpochLength p) 0); done. }
  clear Ecp. revert H. unfold IsInAttesterSet. run. case_bool_decide as Hmem; cbn [negb]; [|done].
  run. destruct (ValidatorIndex s !! attest_Validator msg) as [i|] eqn:Hidx; cbn [negb]; [|done].
  run. rewrite bitmap_or_new_run.
  destruct (bitmap_or_new_value (AttestationBitmap s !! attest_Height msg)) as [bm|?|?] eqn:Hbm;
    [|done..].
  destruct (IsSet bm i) eqn:Hset; [done|].
  unfold SetAttestationBitmap, SetSignature, SetEpochBitmap, EmitEvent. run.
  cbn [ParamsItem set_Signatures set_AttestationBitmap]. fold P. unfold u64_div.
  destruct (Z.eqb_spec (EpochLength P) 0); [done|]. run. rewrite bitmap_or_new_run.
  cbn [EpochBitmap set_Signatures set_AttestationBitmap].
  destruct (bitmap_or_new_value (EpochBitmap s !! _)) as [eb|?|?] eqn:Heb; [|done..].
  run. intros [= <-]. exists i, bm, (u64 BlockHeight / EpochLength P), eb.
  split; [|done]. split; try done. intros E; by apply Hcp.
Qed.
End attest.

(** ** The votes of a height as a set *)

Definition votes (s : State) (h : Z) : gset Z :=
  match AttestationBitmap s !! h with Some bm => bit_set bm | None => ∅ end.

Section attest_votes.
Context {CH : Chain} {C : Ctx}.

Lemma bit_set_before o bm :
  bitmap_or_new_value o = Ok bm ->
  bit_set bm = match o with Some b => bit_set b | None => ∅ end.
Proof.
  destruct o as [b|]; cbn; [by intros [= ->]|].
  rewrite outcome_bind_ok. intros (vals & _ & H).
  apply NewBitmap_zero in H as [_ H]. by apply bit_set_zero.
Qed.

Lemma bytes_ok_before o bm :
  (forall b, o = Some b -> bytes_ok b) -> bitmap_or_new_value o = Ok bm -> bytes_ok bm.
Proof.
  intros Ho. destruct o as [b|]; cbn; [intros [= ->]; by apply Ho|].
  rewrite outcome_bind_ok. intros (vals & _ & H). by apply NewBitmap_zero in H as [? _].
Qed.

Lemma votes_attest_state s msg i bm e eb h :
  votes (attest_state s msg i bm e eb) h =
    if decide (h = attest_Height msg) then bit_set (SetBit bm i) else votes s h.
Proof.
  unfold votes, attest_state. cbn. rewrite lookup_insert. repeat case_decide; by simplify_eq.
Qed.
End attest_votes.
