(* ===== verification/EndBlock.v ===== *)
(** * The end blocker of the network module ([modules/network/keeper/abci.go]) *)

From Stdlib Require Import ZArith Lia.
From stdpp Require Import base gmap strings list fin_maps sorting pretty.
From S2P Require Import Prelude Bitmap Sdk Types Keeper MsgServer.

Open Scope Z_scope.

Section end_block.
Context {CH : Chain} {C : Ctx}.

Definition emitCheckpointHashes (height : Z) (validatorHash commitHash : bytes)
    (softConfirmed : bool) : M State unit :=
  let softConfirmedSt := if softConfirmed then "true" else "false" in
  EmitEvent (mkEvent "checkpoint"
    [("height", pretty height);
     ("validator_hash", base64_EncodeToString validatorHash);
     ("commit_hash", base64_EncodeToString commitHash);
     ("soft_confirmed", softConfirmedSt)]).

Definition processCheckpoint (height : Z) : M State unit :=
  r ← GetAttestationBitmap height;
  let '(bitmapBytes, err) := r in
  check_err "get attestation bitmap" (hard_error err) ;;
  match bitmapBytes with
  | None => mret tt
  | Some bitmapBytes =>
      votedPower ← CalculateVotedPower bitmapBytes;
      totalPower ← GetTotalPower;
      let validatorHash := Sum256 bitmapBytes in
      let commitHash := Sum256 (bytes_of_string "placeholder") in
      softConfirmed ← CheckQuorum votedPower totalPower;
      let attestationInfoToStore :=
        {| ab_Height := height; ab_Bitmap := Some bitmapBytes; ab_VotedPower := votedPower;
           ab_TotalPower := totalPower; ab_SoftConfirmed := softConfirmed |} in
      wrap_err "storing attestation info"
        (modify (set_StoredAttestationInfo (<[height := attestationInfoToStore]>))) ;;
      emitCheckpointHashes height validatorHash commitHash softConfirmed
  end.

(** Only logs: the ejection is a TODO of the code. *)
Definition ejectLowParticipants (epochBitmap : bytes) : M State unit := mret tt.

(** The participation check of an epoch that has a bitmap. *)
Definition check_participation (params : Params) (epochBitmap : bytes) : M State unit :=
  validators ← wrap_err "getting last validators" (lift (GetLastValidators stakingKeeper));
  let totalBondedValidators := count_bonded validators in
  if 0 <? totalBondedValidators then
    let participated := PopCount epochBitmap in
    minParticipation ← wrap_err "parsing MinParticipation parameter"
      (lift (LegacyNewDecFromStr (MinParticipation params)));
    let participationRate := QuoInt64 (LegacyNewDec participated) totalBondedValidators in
    if LT participationRate minParticipation then ejectLowParticipants epochBitmap else mret tt
  else mret tt.

Definition processEpochEnd (epoch : Z) : M State unit :=
  params ← GetParams;
  epochBitmap ← GetEpochBitmap epoch;
  match epochBitmap with
  | Some epochBitmap => check_participation params epochBitmap
  | None => mret tt
  end ;;
  wrap_err "rebuilding validator index map" BuildValidatorIndexMap.

Definition EndBlocker : M State unit :=
  let height := BlockHeight in
  params ← GetParams;
  checkpoint ← IsCheckpointHeight height;
  (if (checkpoint : bool) then wrap_err "processing checkpoint" (processCheckpoint height)
   else mret tt) ;;
  epoch ← GetCurrentEpoch;
  let nextHeight := i64 (height + 1) in
  nextEpoch ← lift (u64_div (u64 nextHeight) (EpochLength params));
  if negb (epoch =? nextEpoch) then wrap_err "processing epoch end" (processEpochEnd epoch)
  else mret tt.
End end_block.
