(* ===== verification/Query.v ===== *)
(** * The queries of the network module ([modules/network/keeper/grpc_query.go])

    A request is [None] for a nil pointer. *)

From Stdlib Require Import ZArith Lia.
From stdpp Require Import base gmap strings list fin_maps sorting pretty.
From S2P Require Import Prelude Bitmap Sdk Types Keeper MsgServer.

Open Scope Z_scope.

Definition InvalidArgument : error := ErrWrap "invalid request" (ErrSentinel "codes.InvalidArgument").
Definition NotFound (text : string) : error := ErrWrap text (ErrSentinel "codes.NotFound").

Record QueryEpochInfoResponse : Type := mkEpochInfo {
  ei_Epoch : Z;
  ei_StartHeight : Z;              (* int64 *)
  ei_EndHeight : Z;                (* int64 *)
  ei_ParticipationBitmap : bytes;
  ei_ActiveValidators : Z;
  ei_ParticipatingValidators : Z
}.

Record QuerySoftConfirmationStatusResponse : Type := mkSoftConfirmation {
  sc_IsSoftConfirmed : bool;
  sc_VotedPower : Z;
  sc_TotalPower : Z;
  sc_QuorumFraction : string
}.

Section query.
Context {CH : Chain} {C : Ctx}.

Definition Query_Params (req : option unit) : M State Params :=
  match req with None => fail InvalidArgument | Some _ => GetParams end.

Definition Query_AttestationBitmap (req : option Z) : M State types_AttestationBitmap :=
  match req with
  | None => fail InvalidArgument
  | Some height =>
      r ← GetAttestationBitmap height;
      let '(bitmapBytes, err) := r in
      check_err "get attestation bitmap" (hard_error err) ;;
      match bitmapBytes with
      | None => fail (NotFound "attestation bitmap not found for height")
      | Some bitmapBytes =>
          votedPower ← CalculateVotedPower bitmapBytes;
          totalPower ← GetTotalPower;
          softConfirmed ← IsSoftConfirmed height;
          mret {| ab_Height := height; ab_Bitmap := Some bitmapBytes;
                  ab_VotedPower := votedPower; ab_TotalPower := totalPower;
                  ab_SoftConfirmed := softConfirmed |}
      end
  end.

Definition Query_EpochInfo (req : option Z) : M State QueryEpochInfoResponse :=
  match req with
  | None => fail InvalidArgument
  | Some epoch =>
      params ← GetParams;
      let startHeight := i64 (u64 (epoch * EpochLength params)) in
      let endHeight := i64 (u64 (u64 (u64 (epoch + 1) * EpochLength params) - 1)) in
      epochBitmap ← GetEpochBitmap epoch;
      match epochBitmap with
      | None => mret (mkEpochInfo epoch startHeight endHeight [] 0 0)
      | Some epochBitmap =>
          validators ← lift (GetLastValidators stakingKeeper);
          let activeValidators := count_bonded validators in
          let participatingValidators := u64 (PopCount epochBitmap) in
          mret (mkEpochInfo epoch startHeight endHeight epochBitmap activeValidators
                  participatingValidators)
      end
  end.

Definition Query_ValidatorIndex (req : option string) : M State types_ValidatorIndex :=
  match req with
  | None => fail InvalidArgument
  | Some address =>
      r ← GetValidatorIndex address;
      let '(index, found) := r in
      if negb found then fail (NotFound "validator index not found")
      else
        power ← wrap_err "get validator power" (GetValidatorPower index);
        mret {| vi_Address := address; vi_Index := u32 index; vi_Power := power |}
  end.

Definition Query_SoftConfirmationStatus (req : option Z) :
    M State QuerySoftConfirmationStatusResponse :=
  match req with
  | None => fail InvalidArgument
  | Some height =>
      isSoftConfirmed ← IsSoftConfirmed height;
      r ← GetAttestationBitmap height;
      let '(bitmap, err) := r in
      check_err "get attestation bitmap" (hard_error err) ;;
      totalPower ← GetTotalPower;
      votedPower ← match bitmap with Some b => CalculateVotedPower b | None => mret 0 end;
      params ← GetParams;
      mret {| sc_IsSoftConfirmed := isSoftConfirmed; sc_VotedPower := votedPower;
              sc_TotalPower := totalPower; sc_QuorumFraction := QuorumFraction params |}
  end.
End query.
