(* ===== verification/Genesis.v ===== *)
(** * Genesis of the network module ([modules/network/genesis.go]) *)

From Stdlib Require Import ZArith Lia String.
From stdpp Require Import base gmap strings list fin_maps sorting pretty.
From S2P Require Import Prelude Bitmap Sdk Types Keeper.

Open Scope Z_scope.

(** A [Walk] visits the entries in the order of their encoded keys: addresses
    as byte strings, heights as integers. *)
Definition addr_le (a b : string * Z) : Prop := String.leb a.1 b.1 = true.
#[global] Instance addr_le_dec : RelDecision addr_le := fun a b => decide (_ = true).

Definition height_le (a b : Z * types_AttestationBitmap) : Prop := a.1 <= b.1.
#[global] Instance height_le_dec : RelDecision height_le := fun a b => decide (_ <= _).

Section genesis.
Context {CH : Chain}.

Definition setSoftConfirmed (height : Z) : M State unit :=
  o ← gets (fun s => StoredAttestationInfo s !! height);
  match o with
  | None => fail ErrNotFound
  | Some ab =>
      let ab := {| ab_Height := ab_Height ab; ab_Bitmap := ab_Bitmap ab;
                   ab_VotedPower := ab_VotedPower ab; ab_TotalPower := ab_TotalPower ab;
                   ab_SoftConfirmed := true |} in
      modify (set_StoredAttestationInfo (<[height := ab]>))
  end.

Definition init_index (vi : types_ValidatorIndex) : M State unit :=
  SetValidatorIndex (vi_Address vi) (u16 (vi_Index vi)) (vi_Power vi) ;;
  SetAttesterSetMember (vi_Address vi).

Definition init_bitmap (ab : types_AttestationBitmap) : M State unit :=
  SetAttestationBitmap (ab_Height ab) (ab_Bitmap ab) ;;
  modify (set_StoredAttestationInfo (<[ab_Height ab := ab]>)) ;;
  (if ab_SoftConfirmed ab then setSoftConfirmed (ab_Height ab) else mret tt).

Definition InitGenesis (genState : GenesisState) : M State unit :=
  wrap_err "set params" (SetParams (gs_Params genState)) ;;
  for_each (gs_ValidatorIndices genState) init_index ;;
  for_each (gs_AttestationBitmaps genState) init_bitmap.

Definition export_index (acc : list types_ValidatorIndex) (entry : string * Z) :
    M State (list types_ValidatorIndex) :=
  let '(addr, index) := entry in
  power ← wrap_err "get validator power" (GetValidatorPower index);
  mret (acc ++ [{| vi_Address := addr; vi_Index := u32 index; vi_Power := power |}]).

(** An error of a walk is a panic of [ExportGenesis]. *)
Definition panic_err {A} (m : M State A) : M State A := fun s =>
  match m s with (s', Err _) => (s', Panic "export genesis") | r => r end.

Definition ExportGenesis : M State GenesisState :=
  params ← GetParams;
  entries ← gets (fun s => merge_sort addr_le (map_to_list (ValidatorIndex s)));
  validatorIndices ← panic_err (fold_each entries [] export_index);
  infos ← gets (fun s => merge_sort height_le (map_to_list (StoredAttestationInfo s)));
  mret {| gs_Params := params; gs_ValidatorIndices := validatorIndices;
          gs_AttestationBitmaps := infos.*2 |}.
End genesis.
