(* ===== verification/NetworkInvariant.v ===== *)
(** * The network module as a state machine

    [net_step] is one step of the module: a message that the handler accepts
    (the SDK drops the writes of a message that fails) or an end blocker.
    [Inv] holds in every state reachable from a validated genesis. *)

From Stdlib Require Import ZArith Lia.
From stdpp Require Import base gmap strings list fin_maps sorting pretty.
From S2P Require Import Prelude Bitmap Sdk Types Keeper MsgServer EndBlock Genesis.

Open Scope Z_scope.

Section invariant.
Context {CH : Chain} {HL : LegacyDecLaws Dec}.

Record Inv (s : State) : Prop := {
  inv_bitmaps : map_Forall (fun _ bm => bytes_ok bm) (AttestationBitmap s);
  inv_epochs : map_Forall (fun _ bm => bytes_ok bm) (EpochBitmap s);
  inv_index : map_Forall (fun _ i => is_u16 i) (ValidatorIndex s);
  inv_index_power :
    forall a i, ValidatorIndex s !! a = Some i -> is_Some (ValidatorPower s !! i);
  inv_powers : powers_ok s;
  inv_infos : map_Forall (fun h ab => ab_Height ab = h) (StoredAttestationInfo s);
  inv_params : forall p, ParamsItem s = Some p -> valid_Params p
}.

Inductive net_step (s s' : State) : Prop :=
| step_attest (C : Ctx) msg : Attest msg s = (s', Ok tt) -> net_step s s'
| step_join (C : Ctx) msg : JoinAttesterSet msg s = (s', Ok tt) -> net_step s s'
| step_leave (C : Ctx) msg : LeaveAttesterSet msg s = (s', Ok tt) -> net_step s s'
| step_update (C : Ctx) msg : UpdateParams msg s = (s', Ok tt) -> net_step s s'
| step_end_block (C : Ctx) : EndBlocker s = (s', Ok tt) -> net_step s s'.

(** What the protobuf types guarantee of a genesis: bytes and uint64 powers. *)
Definition genesis_typed (gs : GenesisState) : Prop :=
  Forall (fun vi => is_u64 (vi_Power vi)) (gs_ValidatorIndices gs) /\
  Forall (fun ab => forall b, ab_Bitmap ab = Some b -> bytes_ok b) (gs_AttestationBitmaps gs).

Definition reachable (s : State) : Prop :=
  exists gs s0, GenesisState_Validate (Dec := Dec) gs = Ok tt /\ genesis_typed gs /\
    InitGenesis gs empty_State = (s0, Ok tt) /\ star net_step s0 s.

(** *** The writes *)

Lemma Inv_events f s : Inv s -> Inv (set_Events f s).
Proof. by intros []. Qed.

Lemma Inv_members f s : Inv s -> Inv (set_AttesterSet f s).
Proof. by intros []. Qed.

Lemma Inv_signatures f s : Inv s -> Inv (set_Signatures f s).
Proof. by intros []. Qed.

Lemma Inv_bitmap h bm s :
  bytes_ok bm -> Inv s -> Inv (set_AttestationBitmap (<[h := bm]>) s).
Proof. intros Hbm []. split; cbn; try done. by apply map_Forall_insert_2. Qed.

Lemma Inv_epoch e bm s : bytes_ok bm -> Inv s -> Inv (set_EpochBitmap (<[e := bm]>) s).
Proof. intros Hbm []. split; cbn; try done. by apply map_Forall_insert_2. Qed.

Lemma Inv_info h ab s :
  ab_Height ab = h -> Inv s -> Inv (set_StoredAttestationInfo (<[h := ab]>) s).
Proof. intros Hab []. split; cbn; try done. by apply map_Forall_insert_2. Qed.

Lemma Inv_set_params p s : valid_Params p -> Inv s -> Inv (set_ParamsItem (fun _ => Some p) s).
Proof. intros Hp []. split; cbn; try done. by intros p' [= <-]. Qed.

Lemma Inv_set_index a i p s :
  is_u16 i -> is_u64 p -> Inv s ->
  Inv (set_ValidatorPower (<[i := p]>) (set_ValidatorIndex (<[a := i]>) s)).
Proof.
  intros Hi Hp []. split; cbn; try done.
  - by apply map_Forall_insert_2.
  - intros b j Hb. rewrite lookup_insert_is_Some. destruct (decide (i = j)); [by left|right].
    split; [done|]. rewrite lookup_insert in Hb. case_decide; simplify_eq. eauto.
  - unfold powers_ok in *. cbn. by apply map_Forall_insert_2.
Qed.

Lemma Inv_rebuilt vals s : Inv s -> Inv (rebuilt vals s).
Proof.
  intros []. split; cbn; try done.
  - intros a i Hi%insert_all_some%elem_of_numbered. destruct Hi as (k & v & _ & _ & ->).
    apply u16_range.
  - intros a i Hi%insert_all_some%elem_of_numbered. destruct Hi as (k & v & Hk & _ & ->).
    apply insert_all_is_Some. apply list_elem_of_fmap. eexists (_, _). split; [done|].
    apply elem_of_numbered_power. eauto.
  - intros i p Hp%insert_all_some%elem_of_numbered_power. destruct Hp as (k & v & _ & _ & ->).
    apply u64_range.
Qed.

(** *** The handlers *)

Section steps.
Context {C : Ctx}.

Lemma Inv_Attest msg s s' : Inv s -> Attest msg s = (s', Ok tt) -> Inv s'.
Proof.
  intros HI H. apply Attest_ok_inv in H as (i & bm & e & eb & [] & ->).
  apply Inv_events, Inv_epoch; [|apply Inv_signatures, Inv_bitmap; [|done]].
  - apply bytes_ok_SetBit. eapply bytes_ok_before; [|done].
    intros b Hb. by eapply (inv_epochs s HI).
  - apply bytes_ok_SetBit. eapply bytes_ok_before; [|done].
    intros b Hb. by eapply (inv_bitmaps s HI).
Qed.

Lemma EmitEvent_preserves e : preserves Inv (EmitEvent e).
Proof. intros s. apply Inv_events. Qed.

Lemma Inv_JoinAttesterSet msg : preserves Inv (JoinAttesterSet msg).
Proof.
  unfold JoinAttesterSet, SetAttesterSetMember, IsInAttesterSet.
  repeat (apply preserves_bind || apply preserves_if || apply preserves_wrap || intros);
    auto using EmitEvent_preserves with preserves.
  apply preserves_modify. apply Inv_members.
Qed.

Lemma Inv_LeaveAttesterSet msg : preserves Inv (LeaveAttesterSet msg).
Proof.
  unfold LeaveAttesterSet, RemoveAttesterSetMember, IsInAttesterSet.
  repeat (apply preserves_bind || apply preserves_if || apply preserves_wrap || intros);
    auto using EmitEvent_preserves with preserves.
  apply preserves_modify. apply Inv_members.
Qed.

Lemma Inv_UpdateParams msg s s' : Inv s -> UpdateParams msg s = (s', Ok tt) -> Inv s'.
Proof.
  intros HI. unfold UpdateParams. case_bool_decide; cbn [negb]; [|done]. run.
  destruct (Params_Validate (update_Params msg)) as [[]|?|?] eqn:Hv; [|done..].
  unfold SetParams, EmitEvent. run. intros [= <-].
  apply Inv_events, Inv_set_params; [|done]. by apply Params_Validate_iff.
Qed.

Lemma Inv_processCheckpoint h : preserves Inv (processCheckpoint h).
Proof.
  intros s HI. unfold processCheckpoint. run.
  destruct (AttestationBitmap s !! h) as [bm|]; [|done]. run.
  destruct (CalculateVotedPower bm s) as [s1 r] eqn:E1.
  assert (s1 = s) as -> by (by rewrite <- (CalculateVotedPower_reads bm s), E1).
  destruct r as [voted|?|?]; [|done..]. run.
  destruct (n ← _; _) as [total|?|?]; [|done..]. run.
  destruct (CheckQuorum voted total s) as [s2 r] eqn:E2.
  assert (s2 = s) as -> by (by rewrite <- (CheckQuorum_reads voted total s), E2).
  destruct r as [soft|?|?]; [|done..]. run.
  unfold emitCheckpointHashes, EmitEvent. run. by apply Inv_events, Inv_info.
Qed.

Lemma check_participation_reads p eb : reads_only (check_participation p eb).
Proof.
  intros s. unfold check_participation. run. destruct (GetLastValidators _); [|done..]. cbn.
  destruct (0 <? _); [|done]. run. destruct (LegacyNewDecFromStr _); [|done..]. cbn.
  by destruct (LT _ _).
Qed.

Lemma Inv_BuildValidatorIndexMap : preserves Inv BuildValidatorIndexMap.
Proof.
  intros s HI. rewrite BuildValidatorIndexMap_run.
  destruct (GetAllValidators _); [by apply Inv_rebuilt|done..].
Qed.

Lemma Inv_processEpochEnd e : preserves Inv (processEpochEnd e).
Proof.
  unfold processEpochEnd, GetParams, GetEpochBitmap.
  repeat (apply Inv_BuildValidatorIndexMap || apply preserves_bind || apply preserves_wrap
    || apply preserves_gets || intros).
  all: repeat match goal with |- context [let '(_, _) := ?r in _] => destruct r end.
  - by case_match; intros s.
  - by case_match; intros s.
  - case_match; [|by intros s].
    apply preserves_reads_only, check_participation_reads.
Qed.

Lemma Inv_EndBlocker : preserves Inv EndBlocker.
Proof.
  assert (preserves Inv GetParams) as HP.
  { intros s. by rewrite GetParams_run. }
  assert (preserves Inv GetCurrentEpoch) as HE.
  { intros s. by rewrite GetCurrentEpoch_run. }
  assert (preserves Inv (IsCheckpointHeight BlockHeight)) as HC.
  { intros s. by rewrite IsCheckpointHeight_run. }
  unfold EndBlocker.
  repeat (apply HP || apply HE || apply HC || apply Inv_processCheckpoint
    || apply Inv_processEpochEnd || apply preserves_bind || apply preserves_if
    || apply preserves_wrap || intros); by intros s.
Qed.
End steps.

Lemma Inv_step s s' : Inv s -> net_step s s' -> Inv s'.
Proof.
  intros HI [C msg H|C msg H|C msg H|C msg H|C H].
  - by eapply Inv_Attest.
  - pose proof (Inv_JoinAttesterSet msg s HI) as HJ. by rewrite H in HJ.
  - pose proof (Inv_LeaveAttesterSet msg s HI) as HJ. by rewrite H in HJ.
  - by eapply Inv_UpdateParams.
  - pose proof (Inv_EndBlocker s HI) as HJ. by rewrite H in HJ.
Qed.
End invariant.
