(* ===== verification/NetworkDemo.v ===== *)
(** * A concrete chain for the witnesses of the network module's theorems

    Two bonded validators and one that is not, the decimals of [FixDec], and
    states built from the default genesis. *)

From Stdlib Require Import ZArith.
From stdpp Require Import base gmap strings list.
From S2P Require Import Prelude Bitmap Sdk Types Keeper NetworkInvariant.

Open Scope Z_scope.

#[global] Instance demo_chain : Chain := {
  Dec := Z;
  Chain_LegacyDec := FixDec;
  Sum256 := fun l => [Z.of_nat (length l)];
  base64_EncodeToString := fun _ => "base64"%string;
  ValAddressFromBech32 := fun s =>
    if bool_decide (s = ""%string) then Err (ErrText "empty address") else Ok (bytes_of_string s);
  GetAuthority := "gov"%string
}.

#[global] Instance demo_laws : LegacyDecLaws Dec := FixDecLaws.

Definition alice : Validator := mkValidator "alice" (mkAny "ed25519" [1]) "a" true 10.
Definition bob : Validator := mkValidator "bob" (mkAny "ed25519" [2]) "b" true 20.
Definition carol : Validator := mkValidator "carol" (mkAny "ed25519" [3]) "c" false 0.

Definition demo_staking (vals : list Validator) (total : Z) : StakingKeeper := {|
  GetAllValidators := Ok vals;
  GetValidator := fun addr =>
    match list_find (fun v => bytes_of_string (OperatorAddress v) = addr) vals with
    | Some (_, v) => Ok v
    | None => Err (ErrSentinel "stakingtypes.ErrNoValidatorFound")
    end;
  GetLastValidators := Ok (filter (fun v => IsBonded v = true) vals);
  GetLastTotalPower := Ok total
|}.

(** A context at height [h]. *)
Definition demo_ctx (h : Z) : Ctx := {|
  BlockHeight := h;
  stakingKeeper := demo_staking [alice; carol; bob] 30
|}.

(** The indices of the two bonded validators, who are both attesters. *)
Definition demo_indexed : State :=
  mkState {["alice" := 0; "bob" := 1]}%string {[0 := 10; 1 := 20]} ∅ ∅
    {["alice"; "bob"]}%string ∅ ∅ (Some (DefaultParams (Dec := Z))) [].

(** Alice has voted for height 20. *)
Definition demo_voted : State :=
  set_AttestationBitmap (<[20 := [1]]>) (set_EpochBitmap (<[1 := [1]]>) demo_indexed).

Definition attest_msg (v : string) (h : Z) : MsgAttest := NewMsgAttest v h [7; 7].

Lemma demo_indexed_Inv : Inv demo_indexed.
Proof.
  split.
  - apply map_Forall_empty.
  - apply map_Forall_empty.
  - repeat (apply map_Forall_insert_2; [unfold_int; lia|]). apply map_Forall_empty.
  - intros a i Hi. cbn in Hi.
    apply lookup_insert_Some in Hi as [[_ <-]|[_ Hi]]; [by eexists|].
    apply lookup_singleton_Some in Hi as [_ <-]. by eexists.
  - repeat (apply map_Forall_insert_2; [unfold_int; lia|]). apply map_Forall_empty.
  - apply map_Forall_empty.
  - intros p [= <-]. apply valid_DefaultParams.
Qed.

Lemma demo_voted_Inv : Inv demo_voted.
Proof.
  apply Inv_bitmap; [repeat constructor; vm_compute; congruence|].
  apply Inv_epoch; [repeat constructor; vm_compute; congruence|]. apply demo_indexed_Inv.
Qed.
