(* ===== verification/AttestProps.v ===== *)
(** * Attestation: votes, quorum and the attester set

    The theorems on [Attest], [JoinAttesterSet], [LeaveAttesterSet],
    [UpdateParams] and the quorum, against the abstract value of a height's
    bitmap: the finite set of the indices that voted ([votes]). *)

From Stdlib Require Import ZArith Lia.
From stdpp Require Import base gmap strings list fin_maps sorting pretty.
From S2P Require Import Prelude Bitmap Sdk Types Keeper MsgServer EndBlock Genesis.
From S2P Require Import NetworkInvariant NetworkDemo.

Open Scope Z_scope.

(** ** The power of a set of indices *)

Definition set_power (s : State) (X : gset Z) : Z :=
  foldr (fun i n => power_of s i + n) 0 (elements X).

Lemma set_power_perm s l1 l2 :
  l1 ≡ₚ l2 ->
  foldr (fun i n => power_of s i + n) 0 l1 = foldr (fun i n => power_of s i + n) 0 l2.
Proof. induction 1; cbn; lia. Qed.

Lemma power_sum_filter s bm l :
  power_sum s bm l =
    foldr (fun i n => power_of s i + n) 0 (filter (fun i => IsSet bm i = true) l).
Proof.
  induction l as [|i l IH]; [done|]. rewrite power_sum_cons, IH.
  destruct (IsSet bm i) eqn:E.
  - by rewrite filter_cons_True.
  - rewrite filter_cons_False by congruence. done.
Qed.

Lemma voted_sum_set_power s bm : voted_sum s bm = set_power s (bit_set bm).
Proof.
  unfold voted_sum, set_power. rewrite power_sum_filter. apply set_power_perm.
  unfold bit_set. rewrite elements_list_to_set; [done|]. apply NoDup_filter, NoDup_seqZ.
Qed.

Lemma set_power_nonneg s X : powers_ok s -> 0 <= set_power s X.
Proof.
  intros H. unfold set_power. induction (elements X) as [|i l IH]; cbn; [done|].
  pose proof (power_of_nonneg s i H). lia.
Qed.

Lemma set_power_insert s X i :
  i ∉ X -> set_power s ({[i]} ∪ X) = power_of s i + set_power s X.
Proof.
  intros Hi. unfold set_power.
  by rewrite (set_power_perm _ _ _ (elements_union_singleton X i Hi)).
Qed.

Lemma set_power_ext s s' X :
  ValidatorPower s = ValidatorPower s' -> set_power s X = set_power s' X.
Proof. intros H. unfold set_power, power_of. by rewrite H. Qed.

Section quorum.
Context {CH : Chain} {C : Ctx} {HL : LegacyDecLaws Dec}.

Lemma has_powers_votes s h bm :
  AttestationBitmap s !! h = Some bm ->
  has_powers s bm <-> forall i, i ∈ votes s h -> is_Some (ValidatorPower s !! u16 i).
Proof.
  intros E. unfold votes, has_powers. rewrite E. split; intros H i Hi; apply H.
  - by apply elem_of_bit_set.
  - by apply elem_of_bit_set.
Qed.

Lemma IsSoftConfirmed_run s h :
  IsSoftConfirmed h s =
    match AttestationBitmap s !! h with
    | None => (s, Ok false)
    | Some bm =>
        (v ← CalculateVotedPower bm; t ← GetTotalPower; CheckQuorum v t) s
    end.
Proof. unfold IsSoftConfirmed. run. by destruct (_ !! _). Qed.

Lemma IsSoftConfirmed_some s h bm total :
  AttestationBitmap s !! h = Some bm -> has_powers s bm -> powers_ok s ->
  set_power s (bit_set bm) <= max_u64 ->
  GetLastTotalPower stakingKeeper = Ok total -> is_u64 total ->
  IsSoftConfirmed h s = CheckQuorum (set_power s (bit_set bm)) total s.
Proof.
  intros E Hhas Hok Hmax Ht Hu. rewrite IsSoftConfirmed_run, E, run_bind.
  rewrite CalculateVotedPower_ok by done. run. rewrite Ht. cbn. unfold Int_Uint64.
  rewrite voted_sum_set_power, u64_small by (split; [by apply set_power_nonneg|done]).
  destruct Hu as [Hu1 Hu2]. apply Z.leb_le in Hu1, Hu2. by rewrite Hu1, Hu2.
Qed.

Lemma CheckQuorum_true_le s v v' t :
  CheckQuorum v t s = (s, Ok true) -> v <= v' -> CheckQuorum v' t s = (s, Ok true).
Proof.
  unfold CheckQuorum. run. destruct (wrap_outcome _ _); [|done..]. run.
  match goal with |- context [Mul ?a ?b] => destruct (Mul a b) end; [|done..]. run.
  destruct (Int_Uint64 (TruncateInt _)); [|done..]. run. intros [= H%Z.leb_le] Hv.
  do 2 f_equal. apply Z.leb_le. lia.
Qed.

Lemma CheckQuorum_ext s s' v t :
  ParamsItem s = ParamsItem s' -> (CheckQuorum v t s).2 = (CheckQuorum v t s').2.
Proof.
  intros E. unfold CheckQuorum. run. rewrite E.
  destruct (wrap_outcome _ _); [|done..]. run.
  match goal with |- context [Mul ?a ?b] => destruct (Mul a b) end; [|done..]. run.
  by destruct (Int_Uint64 (TruncateInt _)).
Qed.

(** C2: A height is soft confirmed exactly when it has a bitmap and the power
    of the set of indices that voted for it reaches the floor of the total
    power times the quorum fraction; the check reads the store only. *)
Theorem IsSoftConfirmed_quorum s h p q total :
  ParamsItem s = Some p -> unit_fraction (QuorumFraction p) q ->
  GetLastTotalPower stakingKeeper = Ok total -> 0 <= total <= max_i64 ->
  powers_ok s -> (forall i, i ∈ votes s h -> is_Some (ValidatorPower s !! u16 i)) ->
  set_power s (votes s h) <= max_u64 ->
  IsSoftConfirmed h s =
    (s, Ok (bool_decide (is_Some (AttestationBitmap s !! h) /\
                         total * raw q / precision <= set_power s (votes s h)))).
Proof.
  intros Hp Hq Ht Htot Hok Hhas Hmax. destruct (AttestationBitmap s !! h) as [bm|] eqn:E.
  - rewrite <- (has_powers_votes s h bm E) in Hhas. unfold votes in *. rewrite E in *.
    rewrite (IsSoftConfirmed_some s h bm total) by (done || (unfold_int; lia)).
    rewrite (CheckQuorum_small s p q) by done. do 2 f_equal.
    apply eq_true_iff_eq. rewrite bool_decide_eq_true, Z.leb_le. split; [by eauto|by intros []].
  - rewrite IsSoftConfirmed_run, E.
    rewrite bool_decide_false; [done|]. intros [[? H] _]. discriminate.
Qed.

(** The quorum check turns the total power into an int64: with a total
    power of 2^63 or more the required power is negative and the check
    panics instead of answering. *)
Theorem CheckQuorum_overflow s p q voted total :
  ParamsItem s = Some p -> unit_fraction (QuorumFraction p) q ->
  max_i64 < total <= max_u64 -> precision <= (2 ^ 64 - total) * raw q ->
  CheckQuorum voted total s = (s, Panic "Uint64() out of bounds").
Proof.
  intros Hp Hq Ht Hbig. rewrite (CheckQuorum_run s p q) by (done || (unfold_int; lia)).
  assert (i64 total = - (2 ^ 64 - total)) as ->.
  { change (2 ^ 64) with 18446744073709551616. int_lia. }
  rewrite Z.mul_opp_l, Z.quot_opp_l by (unfold precision; lia).
  assert (1 <= Z.quot ((2 ^ 64 - total) * raw q) precision) as Hge.
  { rewrite Z.quot_div_nonneg by (unfold precision in *; lia).
    apply Z.div_le_lower_bound; unfold precision in *; lia. }
  unfold Int_Uint64. destruct (Z.leb_spec 0 (- Z.quot ((2 ^ 64 - total) * raw q) precision)); [lia|].
  done.
Qed.

Lemma soft_confirmed_mono s s' h bm bm' :
  AttestationBitmap s !! h = Some bm -> AttestationBitmap s' !! h = Some bm' ->
  ValidatorPower s = ValidatorPower s' -> ParamsItem s = ParamsItem s' ->
  powers_ok s -> has_powers s' bm' ->
  set_power s (bit_set bm) <= set_power s' (bit_set bm') <= max_u64 ->
  IsSoftConfirmed h s = (s, Ok true) -> IsSoftConfirmed h s' = (s', Ok true).
Proof.
  intros E E' HV HP Hok Hhas' Hle Hs.
  assert (powers_ok s') as Hok' by (unfold powers_ok in *; by rewrite <- HV).
  assert (has_powers s bm) as Hhas.
  { intros i Hi. destruct (ValidatorPower s !! u16 i) eqn:Ei; [by eauto|].
    rewrite IsSoftConfirmed_run, E, run_bind, (CalculateVotedPower_missing s bm i) in Hs by done.
    discriminate. }
  rewrite IsSoftConfirmed_run in Hs |- *. rewrite E in Hs. rewrite E'.
  rewrite run_bind, CalculateVotedPower_ok in Hs |- * by done.
  rewrite run_bind, GetTotalPower_run in Hs |- *.
  rewrite voted_sum_set_power, u64_small in Hs |- *;
    try (split; [by apply set_power_nonneg|lia]).
  destruct (n ← GetLastTotalPower stakingKeeper; Int_Uint64 n) as [t|?|?]; [|done..].
  apply (CheckQuorum_true_le _ _ (set_power s' (bit_set bm'))) in Hs; [|lia].
  pose proof (CheckQuorum_ext s s' (set_power s' (bit_set bm')) t HP) as He.
  rewrite Hs in He. cbn in He. rewrite (surjective_pairing (CheckQuorum _ t s')).
  by rewrite <- He, CheckQuorum_reads.
Qed.

Lemma bit_set_SetBit_cases bm i :
  bit_set (SetBit bm i) = if decide (0 <= i < bit_len bm) then {[i]} ∪ bit_set bm else bit_set bm.
Proof.
  case_decide; [by apply bit_set_SetBit|by rewrite SetBit_out].
Qed.

Lemma set_power_SetBit s bm i :
  powers_ok s -> IsSet bm i = false ->
  set_power s (bit_set bm) <= set_power s (bit_set (SetBit bm i)).
Proof.
  intros Hok Hi. rewrite bit_set_SetBit_cases. case_decide; [|done].
  rewrite set_power_insert by (rewrite elem_of_bit_set; congruence).
  pose proof (power_of_nonneg s i Hok). lia.
Qed.

(** An accepted attestation never takes a soft confirmation away: a height
    that is soft confirmed before the message is soft confirmed after it. *)
Theorem Attest_keeps_soft_confirmation s msg s' h :
  Inv s -> Attest msg s = (s', Ok tt) -> IsSoftConfirmed h s = (s, Ok true) ->
  set_power s' (votes s' h) <= max_u64 ->
  IsSoftConfirmed h s' = (s', Ok true).
Proof.
  intros HI H Hs Hmax. pose proof H as (i & bm & e & eb & Hacc & ->)%Attest_ok_inv.
  destruct (AttestationBitmap s !! h) as [b|] eqn:E.
  2: { rewrite IsSoftConfirmed_run, E in Hs. discriminate. }
  set (s' := attest_state s msg i bm e eb) in *.
  assert (Hhas : has_powers s b).
  { intros j Hj. destruct (ValidatorPower s !! u16 j) eqn:Ej; [by eauto|].
    rewrite IsSoftConfirmed_run, E, run_bind, (CalculateVotedPower_missing s b j) in Hs by done.
    discriminate. }
  unfold votes in Hmax. destruct (decide (h = attest_Height msg)) as [->|Hne].
  - pose proof (acc_bitmap _ _ _ _ _ _ Hacc) as Hbm. rewrite E in Hbm. injection Hbm as <-.
    assert (AttestationBitmap s' !! attest_Height msg = Some (SetBit b i)) as E'
      by apply lookup_insert_eq.
    rewrite E' in Hmax. apply (soft_confirmed_mono s s' _ b (SetBit b i)); try done.
    + apply (inv_powers s HI).
    + intros j. rewrite IsSet_SetBit. intros [Hj|Hj]%orb_true_iff; [by apply Hhas|].
      apply bool_decide_eq_true in Hj as [<- _].
      pose proof (acc_index _ _ _ _ _ _ Hacc) as Hidx.
      rewrite u16_small by (by eapply (inv_index s HI)). by eapply (inv_index_power s HI).
    + split; [|done]. change (set_power s' ?X) with (set_power s X).
      apply set_power_SetBit; [apply (inv_powers s HI)|apply (acc_fresh _ _ _ _ _ _ Hacc)].
  - assert (AttestationBitmap s' !! h = Some b) as E' by (cbn; by rewrite lookup_insert_ne).
    rewrite E' in Hmax. apply (soft_confirmed_mono s s' _ b b); try done.
    apply (inv_powers s HI).
Qed.
End quorum.

Lemma IsSoftConfirmed_quorum_witness :
  let s := set_AttestationBitmap (<[20 := [2]]>) demo_indexed in
  IsSoftConfirmed (C := demo_ctx 20) 20 s = (s, Ok true).
Proof.
  cbv zeta.
  eapply eq_trans.
  - apply (IsSoftConfirmed_quorum (C := demo_ctx 20) _ 20 DefaultParams DefaultQuorumFraction 30).
    + reflexivity.
    + split; [reflexivity|]. split; [reflexivity|]. vm_compute. discriminate.
    + reflexivity.
    + split; vm_compute; discriminate.
    + apply map_Forall_to_list. repeat constructor; vm_compute; discriminate.
    + intros i Hi. assert (i = 1) as ->; [|by eexists].
      apply elem_of_bit_set in Hi. pose proof (IsSet_range _ _ Hi) as Hr.
      change (bit_len [2]) with 8 in Hr.
      assert (i = 0 \/ i = 1 \/ i = 2 \/ i = 3 \/ i = 4 \/ i = 5 \/ i = 6 \/ i = 7) as Hc by lia.
      by repeat destruct Hc as [->|Hc]; [discriminate|..|subst; discriminate].
    + vm_compute. discriminate.
  - vm_compute. reflexivity.
Defined.

Lemma CheckQuorum_overflow_witness :
  CheckQuorum 5 (2 ^ 63) demo_indexed =
    (demo_indexed, Panic "Uint64() out of bounds").
Proof.
  apply (CheckQuorum_overflow _ DefaultParams DefaultQuorumFraction).
  - reflexivity.
  - split; [reflexivity|]. split; [reflexivity|]. vm_compute. discriminate.
  - split; vm_compute; congruence.
  - vm_compute. discriminate.
Defined.

Lemma Attest_keeps_soft_confirmation_witness :
  let s := set_AttestationBitmap (<[20 := [2]]>) demo_indexed in
  let s' := (Attest (C := demo_ctx 12) (attest_msg "alice" 20) s).1 in
  IsSoftConfirmed (C := demo_ctx 12) 20 s' = (s', Ok true).
Proof.
  cbv zeta. apply (Attest_keeps_soft_confirmation (C := demo_ctx 12)
    (set_AttestationBitmap (<[20 := [2]]>) demo_indexed) (attest_msg "alice" 20)).
  - apply Inv_bitmap; [|apply demo_indexed_Inv]. repeat constructor; vm_compute; congruence.
  - vm_compute. reflexivity.
  - vm_compute. reflexivity.
  - vm_compute. discriminate.
Defined.

(** ** Attest *)

Section attest_props.
Context {CH : Chain} {C : Ctx}.

Lemma votes_after_attest s msg i bm e eb :
  attest_accepts s msg i bm e eb ->
  votes (attest_state s msg i bm e eb) (attest_Height msg) =
    if decide (0 <= i < bit_len bm) then {[i]} ∪ votes s (attest_Height msg)
    else votes s (attest_Height msg).
Proof.
  intros Hacc. pose proof (bit_set_before _ _ (acc_bitmap _ _ _ _ _ _ Hacc)) as Hv.
  rewrite votes_attest_state, decide_True by done. unfold votes. rewrite <- Hv.
  apply bit_set_SetBit_cases.
Qed.

(** C17: The handler accepts a vote exactly when the sender is an attester with
    an index, the height is a checkpoint (in checkpoint sign mode), the epoch
    length is positive, the bitmaps can be made and the sender's bit is not
    set yet; it then writes the two bitmaps, the signature and the event. *)
Theorem Attest_iff s msg s' :
  Attest msg s = (s', Ok tt) <->
    exists i bm e eb, attest_accepts s msg i bm e eb /\ s' = attest_state s msg i bm e eb.
Proof.
  split; [apply Attest_ok_inv|]. intros (i & bm & e & eb & H & ->).
  by apply Attest_accepts_run.
Qed.

(** C1: On the set of votes of the height, an accepted vote adds the sender's
    index, which was not in it, if the bitmap has a bit for the index; the
    votes of the other heights, the indices, the powers, the attester set, the
    parameters and the stored attestations stay, and the signature is kept. *)
Theorem Attest_records_vote s msg s' :
  Attest msg s = (s', Ok tt) ->
  exists i bm,
    ValidatorIndex s !! attest_Validator msg = Some i /\
    bitmap_or_new_value (AttestationBitmap s !! attest_Height msg) = Ok bm /\
    i ∉ votes s (attest_Height msg) /\
    votes s' (attest_Height msg) =
      (if decide (0 <= i < bit_len bm) then {[i]} ∪ votes s (attest_Height msg)
       else votes s (attest_Height msg)) /\
    (forall h, h <> attest_Height msg -> votes s' h = votes s h) /\
    Signatures s' !! (attest_Height msg, attest_Validator msg) = Some (attest_Vote msg) /\
    ValidatorIndex s' = ValidatorIndex s /\ ValidatorPower s' = ValidatorPower s /\
    AttesterSet s' = AttesterSet s /\ ParamsItem s' = ParamsItem s /\
    StoredAttestationInfo s' = StoredAttestationInfo s.
Proof.
  intros (i & bm & e & eb & Hacc & ->)%Attest_ok_inv. exists i, bm.
  pose proof (bit_set_before _ _ (acc_bitmap _ _ _ _ _ _ Hacc)) as Hv.
  split; [apply (acc_index _ _ _ _ _ _ Hacc)|]. split; [apply (acc_bitmap _ _ _ _ _ _ Hacc)|].
  split; [|split; [|split; [|split; [|done]]]].
  - unfold votes. rewrite <- Hv, elem_of_bit_set, (acc_fresh _ _ _ _ _ _ Hacc). done.
  - by apply votes_after_attest.
  - intros h Hh. by rewrite votes_attest_state, decide_False.
  - apply lookup_insert_eq.
Qed.

(** A height of which the handler takes votes. *)
Definition takes_votes (s : State) (h : Z) : Prop :=
  let p := default zero_Params (ParamsItem s) in
  EpochLength p <> 0 /\ (SignMode p = SignMode_SIGN_MODE_CHECKPOINT -> u64 h mod EpochLength p = 0).

Lemma checkpoint_test s h :
  let p := default zero_Params (ParamsItem s) in
  exists r, (if SignMode p =? SignMode_SIGN_MODE_CHECKPOINT
             then c ← IsCheckpointHeight h; mret (negb c)
             else mret false) s = (s, r) /\ (takes_votes s h -> r = Ok false).
Proof.
  cbv zeta. unfold takes_votes. set (p := default zero_Params (ParamsItem s)).
  destruct (Z.eqb_spec (SignMode p) SignMode_SIGN_MODE_CHECKPOINT) as [E|]; [|by eexists].
  run. subst p. destruct (ParamsItem s) as [p|]; cbn in *; [|by eexists; split; [|intros [? _]]].
  destruct (Z.eqb_spec (EpochLength p) 0) as [Hz|Hz]; cbn [mbind outcome_bind]; eexists; (split; [reflexivity|]).
  - by intros [? _].
  - intros [_ Hcp]. by rewrite (Hcp E).
Qed.

(** A vote that is recorded is not taken again. *)
Lemma Attest_recorded s msg i :
  ValidatorIndex s !! attest_Validator msg = Some i -> i ∈ votes s (attest_Height msg) ->
  exists r, Attest msg s = (s, r) /\ is_ok r = false /\
    (attest_Validator msg ∈ AttesterSet s -> takes_votes s (attest_Height msg) ->
     r = Err (ErrWrap "validator already attested" ErrInvalidRequest)).
Proof.
  intros Hidx Hv. unfold Attest. run.
  destruct (checkpoint_test s (attest_Height msg)) as (r & -> & Hr).
  destruct r as [[]|e|t]; [by eexists; split_and!; [| |intros _ [=]%Hr]| |by eexists; split_and!; [| |intros _ [=]%Hr]..].
  run. unfold IsInAttesterSet. run. case_bool_decide as Hm; cbn [negb]; [|by eexists]. run.
  rewrite ?Hidx. cbn [negb]. run. unfold votes in Hv.
  destruct (AttestationBitmap s !! attest_Height msg) as [bm|]; [|set_solver].
  rewrite bitmap_or_new_run. cbn [bitmap_or_new_value]. apply elem_of_bit_set in Hv as ->. run. by eexists.
Qed.
End attest_props.

Lemma Attest_records_vote_witness :
  let s' := (Attest (C := demo_ctx 12) (attest_msg "bob" 20) demo_voted).1 in
  votes s' 20 = {[0; 1]}.
Proof.
  cbv zeta.
  destruct (Attest_records_vote (C := demo_ctx 12) demo_voted (attest_msg "bob" 20)
    (Attest (C := demo_ctx 12) (attest_msg "bob" 20) demo_voted).1) as (i & bm & H).
  { vm_compute. reflexivity. }
  vm_compute. reflexivity.
Defined.

Section attest_errors.
Context {CH : Chain} {C : Ctx}.

(** A sender whose index lies beyond the height's bitmap (an index map
    older than the validator set the bitmap was made for) is told that its
    vote was accepted, but no vote is recorded, and the same message is
    accepted again. *)
Theorem Attest_out_of_range s msg s' i bm :
  Attest msg s = (s', Ok tt) -> ValidatorIndex s !! attest_Validator msg = Some i ->
  bitmap_or_new_value (AttestationBitmap s !! attest_Height msg) = Ok bm ->
  ~ (0 <= i < bit_len bm) ->
  votes s' (attest_Height msg) = votes s (attest_Height msg) /\
  exists s'', Attest msg s' = (s'', Ok tt).
Proof.
  intros (i' & bm' & e & eb & Hacc & ->)%Attest_ok_inv Hidx Hbm Hi.
  pose proof (votes_after_attest s msg i' bm' e eb Hacc) as Hv.
  destruct Hacc as [-> Hlen Hcp Hmem Hidx' Hbm' Hfresh Heb]. simplify_eq.
  rewrite Hbm in Hbm'. injection Hbm' as <-. rewrite Hv, decide_False by done. split; [done|].
  eexists. apply Attest_accepts_run. split; try done; cbn.
  - rewrite lookup_insert_eq. cbn. by rewrite SetBit_out.
  - cbn. rewrite lookup_insert_eq. done.
Qed.

(** A refused attestation leaves the store as it was, except when the
    epoch's first bitmap cannot be made because the staking keeper fails: then
    the vote of the height and the signature are already written. *)
Theorem Attest_error s msg s' err :
  Attest msg s = (s', Err err) ->
  s' = s \/ GetLastValidators stakingKeeper = Err err.
Proof.
  unfold Attest. run.
  set (P := default zero_Params (ParamsItem s)) in *.
  destruct ((if SignMode P =? SignMode_SIGN_MODE_CHECKPOINT
             then c ← IsCheckpointHeight (attest_Height msg); mret (negb c)
             else mret false) s) as [s1 r] eqn:Ecp.
  assert (s1 = s) as ->.
  { revert Ecp. destruct (_ =? _); [|by intros [= <- _]]. run. destruct (ParamsItem s); cbn.
    - destruct (_ =? 0); by intros [= <- _].
    - by intros [= <- _]. }
  destruct r as [[]|e|t]; [intros [= <- _]; by left| |intros [= <- _]; by left|done].
  unfold IsInAttesterSet. run. case_bool_decide; cbn [negb]; [|intros [= <- _]; by left].
  run. destruct (ValidatorIndex s !! attest_Validator msg) as [i|]; cbn [negb];
    [|intros [= <- _]; by left].
  run. rewrite bitmap_or_new_run. destruct (bitmap_or_new_value _); [|intros [= <- _]; by left|done].
  destruct (IsSet _ _); [intros [= <- _]; by left|].
  unfold SetAttestationBitmap, SetSignature, SetEpochBitmap, EmitEvent. run.
  destruct (u64_div _ _) eqn:Hdiv; [|unfold u64_div in Hdiv; by destruct (_ =? 0)|done].
  run. rewrite bitmap_or_new_run. destruct (bitmap_or_new_value _) eqn:Hb; [by run| |done].
  intros [= _ <-]. right. destruct (EpochBitmap _ !! _); [done|]. cbn in Hb.
  destruct (GetLastValidators stakingKeeper); cbn in Hb; simplify_eq; [|done].
  unfold NewBitmap in Hb. by destruct (_ <? 0).
Qed.
End attest_errors.

(** Bob holds index 8, but the set has shrunk to two bonded validators. *)
Definition demo_stale : State :=
  set_ValidatorPower (<[8 := 20]>) (set_ValidatorIndex (<["bob"%string := 8]>) demo_voted).

Lemma Attest_out_of_range_witness :
  let s' := (Attest (C := demo_ctx 12) (attest_msg "bob" 20) demo_stale).1 in
  votes s' 20 = {[0]} /\ exists s'', Attest (C := demo_ctx 12) (attest_msg "bob" 20) s' = (s'', Ok tt).
Proof.
  cbv zeta.
  destruct (Attest_out_of_range (C := demo_ctx 12) demo_stale (attest_msg "bob" 20)
    (Attest (C := demo_ctx 12) (attest_msg "bob" 20) demo_stale).1 8 [1]) as [Hv Ha].
  - vm_compute. reflexivity.
  - reflexivity.
  - reflexivity.
  - vm_compute. intros [_ H]. discriminate.
  - split; [|exact Ha]. vm_compute. reflexivity.
Defined.

Lemma Attest_error_witness :
  let r := Attest (C := demo_ctx 12) (attest_msg "mallory" 20) demo_voted in
  r.1 = demo_voted \/ GetLastValidators (@stakingKeeper (demo_ctx 12)) =
    Err (ErrWrap "validator not in attester set" ErrUnauthorized).
Proof.
  cbv zeta. apply (Attest_error (C := demo_ctx 12) _ (attest_msg "mallory" 20)).
  vm_compute. reflexivity.
Defined.

(** ** Membership and parameters *)

Section membership.
Context {CH : Chain} {C : Ctx}.

(** A validator joins the attester set exactly when its address parses, the
    staking module knows it, it is bonded and it is not an attester yet; the
    message adds this address and nothing else. *)
Theorem JoinAttesterSet_iff s msg s' :
  JoinAttesterSet msg s = (s', Ok tt) <->
    (exists addr v, ValAddressFromBech32 (join_Validator msg) = Ok addr /\
      GetValidator stakingKeeper addr = Ok v /\ IsBonded v = true) /\
    join_Validator msg ∉ AttesterSet s /\
    s' = set_Events (fun es =>
           es ++ [mkEvent TypeMsgJoinAttesterSet [("validator"%string, join_Validator msg)]])
           (set_AttesterSet (fun m => {[join_Validator msg]} ∪ m) s).
Proof.
  unfold JoinAttesterSet, IsInAttesterSet, SetAttesterSetMember, EmitEvent. run.
  destruct (ValAddressFromBech32 (join_Validator msg)) as [addr|e|t]; run.
  2: split; [done|]; by intros ((? & ? & [=] & _) & _).
  2: split; [done|]; by intros ((? & ? & [=] & _) & _).
  destruct (GetValidator stakingKeeper addr) as [v|e|t] eqn:Hv; run.
  2: split; [done|]; intros ((? & ? & [= <-] & E & _) & _); congruence.
  2: split; [done|]; intros ((? & ? & [= <-] & E & _) & _); congruence.
  destruct (IsBonded v) eqn:Hb; cbn [negb]; run.
  2: split; [done|]; intros ((? & ? & [= <-] & E & E') & _); congruence.
  case_bool_decide as Hm; run; [split; [done|tauto]|].
  split; [intros [= <-]; by eauto 10|]. by intros (_ & _ & ->).
Qed.

(** Leaving removes exactly the sender, who must be a member, and undoes
    joining: no bonding or address check stands in the way. *)
Theorem LeaveAttesterSet_iff s msg s' :
  LeaveAttesterSet msg s = (s', Ok tt) <->
    leave_Validator msg ∈ AttesterSet s /\
    s' = set_Events (fun es =>
           es ++ [mkEvent TypeMsgLeaveAttesterSet [("validator"%string, leave_Validator msg)]])
           (set_AttesterSet (fun m => m ∖ {[leave_Validator msg]}) s).
Proof.
  unfold LeaveAttesterSet, IsInAttesterSet, RemoveAttesterSetMember, EmitEvent. run.
  case_bool_decide as Hm; cbn [negb]; run; [|split; [done|tauto]].
  split; [by intros [= <-]|]. by intros (_ & ->).
Qed.

(** The parameters change only on a message of the module's authority, and
    only to parameters that are valid; a refused message changes nothing. *)
Theorem UpdateParams_spec {HL : LegacyDecLaws Dec} s msg :
  (forall s', UpdateParams msg s = (s', Ok tt) <->
    update_Authority msg = GetAuthority /\ valid_Params (update_Params msg) /\
    s' = set_Events (fun es =>
           es ++ [mkEvent TypeMsgUpdateParams [("authority"%string, update_Authority msg)]])
           (set_ParamsItem (fun _ => Some (update_Params msg)) s)) /\
  (forall s' e, UpdateParams msg s = (s', Err e) -> s' = s).
Proof.
  unfold UpdateParams, SetParams, EmitEvent. case_bool_decide as Ha; cbn [negb]; run.
  2: { split; [|by intros s' e [= <- _]]. intros s'. split; [done|]. intros [E _]. congruence. }
  destruct (Params_Validate (update_Params msg)) as [[]|e|t] eqn:Hp; run.
  - split; [|done]. intros s'. apply Params_Validate_iff in Hp.
    split; [by intros [= <-]|by intros (_ & _ & ->)].
  - split; [|by intros s' e' [= <- _]]. intros s'. split; [done|].
    intros (_ & Hv & _). apply Params_Validate_iff in Hv. congruence.
  - split; [|done]. intros s'. split; [done|].
    intros (_ & Hv & _). apply Params_Validate_iff in Hv. congruence.
Qed.
End membership.

Lemma UpdateParams_spec_witness :
  exists s', UpdateParams (NewMsgUpdateParams "gov" DefaultParams) demo_voted = (s', Ok tt).
Proof.
  destruct (UpdateParams_spec demo_voted (NewMsgUpdateParams "gov" DefaultParams)) as [Hok _].
  eexists. apply Hok. split; [reflexivity|]. split; [apply valid_DefaultParams|reflexivity].
Defined.
