(* ===== verification/EpochProps.v ===== *)
(** * Epochs: the validator index and the end blocker

    [BuildValidatorIndexMap] against its specification, the schedule of the end
    blocker, what it stores at a checkpoint, and when it fails. *)

From Stdlib Require Import ZArith Lia.
From stdpp Require Import base gmap strings list fin_maps sorting pretty.
From S2P Require Import Prelude Bitmap Sdk Types Keeper MsgServer EndBlock Genesis.
From S2P Require Import NetworkInvariant NetworkDemo AttestProps.

Open Scope Z_scope.

(** ** The validator index *)

Lemma NoDup_fst_numbered_power (l : list Validator) :
  Z.of_nat (length l) <= 65536 -> NoDup (numbered_power 0 l).*1.
Proof.
  intros Hl. apply NoDup_alt. intros i j x. rewrite !list_lookup_fmap. unfold numbered_power.
  rewrite !list_lookup_imap. intros Hi Hj.
  destruct (l !! i) eqn:Ei; [|done]. destruct (l !! j) eqn:Ej; [|done].
  apply lookup_lt_Some in Ei, Ej. cbn in *. simplify_eq.
  rewrite !u16_small in Hi by (unfold_int; lia). lia.
Qed.

Section index.
Context {CH : Chain} {C : Ctx}.

(** C24: Rebuilding the index gives the k-th bonded validator, in the order of
    the staking module, the index k and its power, for at most 65536 bonded
    validators with distinct addresses; nobody else keeps an index, and the
    rest of the store stays. *)
Theorem BuildValidatorIndexMap_indexes s validators :
  GetAllValidators stakingKeeper = Ok validators ->
  Z.of_nat (length (bonded validators)) <= 65536 ->
  NoDup (OperatorAddress <$> bonded validators) ->
  exists s', BuildValidatorIndexMap s = (s', Ok tt) /\
    (forall k v, bonded validators !! k = Some v ->
       ValidatorIndex s' !! OperatorAddress v = Some (Z.of_nat k) /\
       ValidatorPower s' !! Z.of_nat k = Some (u64 (ConsensusPower v))) /\
    (forall a i, ValidatorIndex s' !! a = Some i ->
       exists v, bonded validators !! Z.to_nat i = Some v /\ OperatorAddress v = a) /\
    (forall i p, ValidatorPower s' !! i = Some p -> 0 <= i < Z.of_nat (length (bonded validators))) /\
    AttestationBitmap s' = AttestationBitmap s /\ EpochBitmap s' = EpochBitmap s /\
    AttesterSet s' = AttesterSet s /\ Signatures s' = Signatures s /\
    StoredAttestationInfo s' = StoredAttestationInfo s /\ ParamsItem s' = ParamsItem s.
Proof.
  intros Hv Hlen Hnd. exists (rebuilt validators s).
  rewrite BuildValidatorIndexMap_run, Hv. split; [done|]. cbn.
  set (l := bonded validators) in *. split; [|split; [|split; [|done]]].
  - intros k v Hk. pose proof (lookup_lt_Some _ _ _ Hk) as Hlt. split.
    + apply insert_all_in; [by rewrite fst_numbered|]. apply elem_of_numbered.
      exists k, v. rewrite u16_small by (unfold_int; lia). done.
    + apply insert_all_in; [by apply NoDup_fst_numbered_power|]. apply elem_of_numbered_power.
      exists k, v. rewrite u16_small by (unfold_int; lia). done.
  - intros a i Hi%insert_all_some%elem_of_numbered. destruct Hi as (k & v & Hk & -> & ->).
    pose proof (lookup_lt_Some _ _ _ Hk) as Hlt. exists v.
    rewrite u16_small by (unfold_int; lia). by rewrite Z.add_0_l, Nat2Z.id.
  - intros i p Hi%insert_all_some%elem_of_numbered_power. destruct Hi as (k & v & Hk & -> & _).
    pose proof (lookup_lt_Some _ _ _ Hk) as Hlt. rewrite u16_small by (unfold_int; lia). lia.
Qed.
End index.

Lemma BuildValidatorIndexMap_indexes_witness :
  let s' := (BuildValidatorIndexMap (C := demo_ctx 9) demo_voted).1 in
  ValidatorIndex s' !! "bob"%string = Some 1.
Proof.
  cbv zeta.
  destruct (BuildValidatorIndexMap_indexes (C := demo_ctx 9) demo_voted [alice; carol; bob])
    as (s' & -> & H & _).
  - reflexivity.
  - vm_compute. discriminate.
  - change (NoDup ["alice"; "bob"]%string). apply NoDup_ListNoDup. repeat constructor; cbn; intuition discriminate.
  - apply (H 1%nat bob). reflexivity.
Defined.

(** ** The end blocker *)

Section end_block.
Context {CH : Chain} {C : Ctx} {HL : LegacyDecLaws Dec}.

Definition quorum_reached (q : Dec) (total voted : Z) : bool :=
  total * raw q / precision <=? voted.

(** What a checkpoint stores for a height with bitmap [bm]. *)
Definition checkpoint_info (s : State) (bm : bytes) (q : Dec) (total : Z) :
    types_AttestationBitmap :=
  {| ab_Height := BlockHeight; ab_Bitmap := Some bm;
     ab_VotedPower := set_power s (bit_set bm); ab_TotalPower := total;
     ab_SoftConfirmed := quorum_reached q total (set_power s (bit_set bm)) |}.

Definition checkpoint_event (bm : bytes) (soft : bool) : Event :=
  mkEvent "checkpoint"
    [("height", pretty BlockHeight);
     ("validator_hash", base64_EncodeToString (Sum256 bm));
     ("commit_hash", base64_EncodeToString (Sum256 (bytes_of_string "placeholder")));
     ("soft_confirmed", if soft then "true" else "false")]%string.

Definition after_checkpoint (s : State) (p : Params) (q : Dec) (total : Z) : State :=
  if u64 BlockHeight mod EpochLength p =? 0 then
    match AttestationBitmap s !! BlockHeight with
    | Some bm =>
        let info := checkpoint_info s bm q total in
        set_Events (fun es => es ++ [checkpoint_event bm (ab_SoftConfirmed info)])
          (set_StoredAttestationInfo (<[BlockHeight := info]>) s)
    | None => s
    end
  else s.

(** The staking module answers, the parameters are valid and every vote of
    this height has a power. *)
Record end_block_ok (s : State) (p : Params) (q : Dec) (total : Z)
    (validators : list Validator) : Prop := {
  eb_params : ParamsItem s = Some p;
  eb_valid : valid_Params p;
  eb_quorum : unit_fraction (QuorumFraction p) q;
  eb_height : 0 <= BlockHeight < max_i64;
  eb_total : GetLastTotalPower stakingKeeper = Ok total;
  eb_total_range : 0 <= total <= max_i64;
  eb_last : exists l, GetLastValidators stakingKeeper = Ok l;
  eb_all : GetAllValidators stakingKeeper = Ok validators;
  eb_powers : powers_ok s;
  eb_has : forall bm, AttestationBitmap s !! BlockHeight = Some bm -> has_powers s bm;
  eb_max : set_power s (votes s BlockHeight) <= max_u64
}.

Lemma processCheckpoint_run s p q total validators bm :
  end_block_ok s p q total validators -> AttestationBitmap s !! BlockHeight = Some bm ->
  processCheckpoint BlockHeight s =
    (let info := checkpoint_info s bm q total in
     set_Events (fun es => es ++ [checkpoint_event bm (ab_SoftConfirmed info)])
       (set_StoredAttestationInfo (<[BlockHeight := info]>) s), Ok tt).
Proof.
  intros [] E. unfold processCheckpoint. rewrite run_bind, GetAttestationBitmap_run. run.
  rewrite CalculateVotedPower_ok by auto. run. rewrite ?eb_total0. cbn. unfold Int_Uint64.
  destruct (Z.leb_spec 0 total); [|lia]. destruct (Z.leb_spec total max_u64); [|unfold_int; lia].
  cbn [andb]. run. unfold votes in eb_max0. rewrite E in eb_max0.
  rewrite voted_sum_set_power, u64_small by (split; [by apply set_power_nonneg|done]).
  rewrite (CheckQuorum_small s p q) by done. unfold emitCheckpointHashes, EmitEvent. by run.
Qed.

Lemma processEpochEnd_run s p e validators l :
  ParamsItem s = Some p -> valid_Params p ->
  GetLastValidators stakingKeeper = Ok l -> GetAllValidators stakingKeeper = Ok validators ->
  processEpochEnd e s = (rebuilt validators s, Ok tt).
Proof.
  intros Hp (_ & _ & (m & Hm & _) & _) Hl Hv. unfold processEpochEnd. run. rewrite Hp. cbn.
  assert (forall eb, check_participation p eb s = (s, Ok tt)) as Hc.
  { intros eb. unfold check_participation. rewrite Hl. run. destruct (_ <? _); [|done].
    rewrite Hm. run. by destruct (LT _ _). }
  destruct (EpochBitmap s !! e) as [eb|]; run; rewrite ?Hc; run; by rewrite ?Hv.
Qed.

(** Consecutive heights are in different epochs when the second starts one. *)
Lemma epoch_changes h E :
  0 < E -> 0 <= h -> ((h / E =? (h + 1) / E) = negb ((h + 1) mod E =? 0)).
Proof.
  intros HE Hh. destruct (Z.eqb_spec ((h + 1) mod E) 0) as [H|H]; cbn.
  - apply Z.eqb_neq. intros Heq. pose proof (Z.div_mod (h + 1) E ltac:(lia)).
    pose proof (Z.mul_div_le h E ltac:(lia)). nia.
  - apply Z.eqb_eq. symmetry. apply (Z.div_unique h E ((h + 1) / E) ((h + 1) mod E - 1)).
    + left. pose proof (Z.mod_pos_bound (h + 1) E HE). lia.
    + pose proof (Z.div_mod (h + 1) E ltac:(lia)). lia.
Qed.

(** C3: The end blocker of a height stores, at a checkpoint that has votes,
    the bitmap with the power of its set of votes, the total power and the
    quorum decision; then, exactly when the next height starts an epoch, it
    rebuilds the validator index; it does nothing else.  It succeeds under
    [end_block_ok]: the staking keeper answers, and every index that is recorded
    in the height's bitmap has a power.  (Without such a power it fails:
    [EndBlocker_fails_without_power].) *)
Theorem EndBlocker_spec s p q total validators :
  0 < EpochLength p -> end_block_ok s p q total validators ->
  EndBlocker s =
    (if (BlockHeight + 1) mod EpochLength p =? 0
     then rebuilt validators (after_checkpoint s p q total)
     else after_checkpoint s p q total, Ok tt).
Proof.
  intros HE Hok. pose proof Hok as [Hp Hv Hq Hh Ht Htr [l Hl] Hall Hpw Hhas Hmax].
  unfold EndBlocker. run. rewrite ?Hp. cbn [default id from_option].
  destruct (Z.eqb_spec (EpochLength p) 0); [lia|]. run.
  assert ((if u64 BlockHeight mod EpochLength p =? 0
           then wrap_err "processing checkpoint" (processCheckpoint BlockHeight)
           else mret tt) s = (after_checkpoint s p q total, Ok tt)) as ->.
  { unfold after_checkpoint. destruct (_ =? 0); [|done]. run.
    destruct (AttestationBitmap s !! BlockHeight) as [bm|] eqn:E.
    - by rewrite (processCheckpoint_run s p q total validators bm).
    - unfold processCheckpoint. run. by rewrite ?E. }
  run. assert (ParamsItem (after_checkpoint s p q total) = Some p) as Hp'.
  { unfold after_checkpoint. destruct (_ =? 0); [|done]. by destruct (_ !! _). }
  rewrite ?Hp'. cbn [default id from_option]. unfold u64_div.
  destruct (Z.eqb_spec (EpochLength p) 0); [lia|]. run.
  rewrite (i64_small (BlockHeight + 1)), !u64_small by (unfold_int; lia).
  rewrite epoch_changes by lia. destruct (_ =? 0); cbn [negb]; [|done]. run.
  by rewrite (processEpochEnd_run _ p _ validators l).
Qed.

(** A checkpoint with a vote whose index has no power makes the end
    blocker fail, in every context: the block cannot be finalised. *)
Theorem EndBlocker_fails_without_power s p bm i :
  ParamsItem s = Some p -> EpochLength p <> 0 -> u64 BlockHeight mod EpochLength p = 0 ->
  AttestationBitmap s !! BlockHeight = Some bm -> IsSet bm i = true ->
  ValidatorPower s !! u16 i = None ->
  EndBlocker s =
    (s, Err (ErrWrap "processing checkpoint" (ErrWrap "get validator power" ErrNotFound))).
Proof.
  intros Hp HE Hcp Hbm Hi Hnone. unfold EndBlocker. run. rewrite ?Hp.
  apply Z.eqb_neq in HE. rewrite HE, Hcp. cbn [Z.eqb]. run.
  unfold processCheckpoint. run. rewrite ?Hbm. run.
  by rewrite (CalculateVotedPower_missing s bm i).
Qed.
End end_block.

Lemma demo_end_block_ok h :
  0 <= h < max_i64 ->
  end_block_ok (C := demo_ctx h) demo_voted DefaultParams DefaultQuorumFraction 30 [alice; carol; bob].
Proof.
  intros Hh. split.
  - reflexivity.
  - apply valid_DefaultParams.
  - split; [reflexivity|]. split; [reflexivity|]. vm_compute. discriminate.
  - exact Hh.
  - reflexivity.
  - split; vm_compute; discriminate.
  - eexists. reflexivity.
  - reflexivity.
  - apply (inv_powers _ demo_voted_Inv).
  - intros bm Hbm i Hi. cbn in Hbm. apply lookup_insert_Some in Hbm as [[_ <-]|[_ Hbm]].
    2: by rewrite lookup_empty in Hbm.
    pose proof (IsSet_range _ _ Hi) as Hr. change (bit_len [1]) with 8 in Hr.
    assert (i = 0 \/ i = 1 \/ i = 2 \/ i = 3 \/ i = 4 \/ i = 5 \/ i = 6 \/ i = 7) as Hc by lia.
    repeat destruct Hc as [->|Hc]; [by eexists|try discriminate..]. subst. discriminate.
  - unfold votes. cbn. rewrite lookup_insert. case_decide; [vm_compute; discriminate|].
    rewrite lookup_empty. vm_compute. discriminate.
Qed.

Lemma EndBlocker_spec_witness :
  let s' := (EndBlocker (C := demo_ctx 20) demo_voted).1 in
  StoredAttestationInfo s' !! 20 = Some (mkAttestationBitmap 20 (Some [1]) 10 30 false).
Proof.
  cbv zeta. rewrite (EndBlocker_spec (C := demo_ctx 20) _ DefaultParams DefaultQuorumFraction 30
    [alice; carol; bob]).
  - vm_compute. reflexivity.
  - reflexivity.
  - apply demo_end_block_ok. split; vm_compute; congruence.
Defined.

(** Bob has voted for height 20 and lost his index. *)
Definition demo_orphan : State :=
  set_ValidatorPower (delete 1) (set_AttestationBitmap (<[20 := [3]]>) demo_indexed).

Lemma EndBlocker_fails_without_power_witness :
  EndBlocker (C := demo_ctx 20) demo_orphan =
    (demo_orphan,
     Err (ErrWrap "processing checkpoint" (ErrWrap "get validator power" ErrNotFound))).
Proof.
  apply (EndBlocker_fails_without_power (C := demo_ctx 20) _ DefaultParams [3] 1); reflexivity || done.
Defined.
