(* ===== verification/GenesisProps.v ===== *)
(** * Genesis of the network module: validation, import, export, reachability *)

From Stdlib Require Import ZArith Lia.
From stdpp Require Import base gmap strings list fin_maps sorting pretty.
From S2P Require Import Prelude Bitmap Sdk Types Keeper MsgServer EndBlock Genesis.
From S2P Require Import NetworkInvariant NetworkDemo AttestProps EpochProps.

Open Scope Z_scope.

(** ** Every reachable state satisfies the invariant *)

Section reachable.
Context {CH : Chain} {HL : LegacyDecLaws Dec}.

Lemma Inv_empty : Inv empty_State.
Proof.
  by split; try apply map_Forall_empty.
Qed.

Lemma Inv_init_index vi : is_u64 (vi_Power vi) -> preserves Inv (init_index vi).
Proof.
  intros Hp s HI. unfold init_index, SetValidatorIndex, SetAttesterSetMember. run.
  apply Inv_members, Inv_set_index; [apply u16_range|done..].
Qed.

Lemma Inv_setSoftConfirmed h : preserves Inv (setSoftConfirmed h).
Proof.
  intros s HI. unfold setSoftConfirmed. run.
  destruct (StoredAttestationInfo s !! h) as [ab|] eqn:E; [|done]. run.
  apply Inv_info; [|done]. by apply (inv_infos s HI) in E.
Qed.

Lemma Inv_init_bitmap ab :
  (forall b, ab_Bitmap ab = Some b -> bytes_ok b) -> preserves Inv (init_bitmap ab).
Proof.
  intros Hb. unfold init_bitmap, SetAttestationBitmap.
  repeat apply preserves_bind || intros.
  - apply preserves_modify. intros s. apply Inv_bitmap.
    destruct (ab_Bitmap ab) as [b|]; [by apply Hb|]. by apply Forall_nil.
  - apply preserves_modify. intros s. by apply Inv_info.
  - apply preserves_if; [apply Inv_setSoftConfirmed|apply preserves_ret].
Qed.

Lemma Inv_InitGenesis gs :
  GenesisState_Validate (Dec := Dec) gs = Ok tt -> genesis_typed gs -> preserves Inv (InitGenesis gs).
Proof.
  intros Hv [Hi Hb]. unfold InitGenesis, SetParams.
  repeat apply preserves_bind || intros.
  - apply preserves_wrap, preserves_modify. intros s. apply Inv_set_params.
    unfold GenesisState_Validate in Hv. rewrite seq_ok in Hv. destruct Hv as [Hv _].
    apply Params_Validate_iff. by destruct (Params_Validate (gs_Params gs)) as [[]| |].
  - apply preserves_for_each_in. eapply Forall_impl; [exact Hi|]. apply Inv_init_index.
  - apply preserves_for_each_in. eapply Forall_impl; [exact Hb|]. apply Inv_init_bitmap.
Qed.

(** C6: Every state the module can reach from a validated genesis, by accepted
    messages and end blockers in any contexts, satisfies the invariant: the
    bitmaps are bytes, the indices uint16 values that have a power, the powers
    uint64 values, a stored attestation carries its own height, and the
    parameters are valid (so the epoch length is positive). *)
Theorem reachable_Inv s : reachable s -> Inv s.
Proof.
  intros (gs & s0 & Hv & Ht & Hi & Hs). apply (star_invariant net_step Inv Inv_step s0); [done|].
  pose proof (Inv_InitGenesis gs Hv Ht empty_State Inv_empty) as H. by rewrite Hi in H.
Qed.
End reachable.

(** Alice and Bob, indexed and attesters, at the default parameters. *)
Definition demo_genesis : GenesisState :=
  mkGenesisState (DefaultParams (Dec := Z))
    [mkValidatorIndex "alice" 0 10; mkValidatorIndex "bob" 1 20] [].

Lemma demo_genesis_typed : genesis_typed demo_genesis.
Proof. split; repeat constructor; vm_compute; discriminate. Qed.

Lemma reachable_demo s s0 :
  InitGenesis demo_genesis empty_State = (s0, Ok tt) -> star net_step s0 s -> reachable s.
Proof.
  intros H0 Hs. exists demo_genesis, s0. split; [vm_compute; reflexivity|].
  split; [apply demo_genesis_typed|]. by split.
Qed.

Lemma reachable_Inv_witness :
  Inv (Attest (C := demo_ctx 5) (attest_msg "bob" 20) (InitGenesis demo_genesis empty_State).1).1.
Proof.
  apply reachable_Inv.
  apply (reachable_demo _ (InitGenesis demo_genesis empty_State).1); [vm_compute; reflexivity|].
  eapply star_step; [|apply star_refl].
  apply (step_attest _ _ (demo_ctx 5) (attest_msg "bob" 20)). vm_compute. reflexivity.
Defined.

(** *** A reachable state that stops the chain *)

(** Bob is unbonded at the end of the first epoch. *)
Definition ctx_bob_left (h : Z) : Ctx := {|
  BlockHeight := h;
  stakingKeeper := demo_staking [alice; carol; mkValidator "bob" (mkAny "ed25519" [2]) "b" false 0] 10
|}.

(** C32: The failure of the end blocker is reachable: bob attests height 20 at
    height 5, is unbonded before the index is rebuilt at height 9, and the
    checkpoint at height 20 then finds a vote without a power. *)
Theorem halting_state_reachable :
  exists s, reachable s /\
    EndBlocker (C := ctx_bob_left 20) s =
      (s, Err (ErrWrap "processing checkpoint" (ErrWrap "get validator power" ErrNotFound))).
Proof.
  set (s0 := (InitGenesis demo_genesis empty_State).1).
  set (s1 := (Attest (C := demo_ctx 5) (attest_msg "bob" 20) s0).1).
  exists (EndBlocker (C := ctx_bob_left 9) s1).1. split.
  - apply (reachable_demo _ s0); [vm_compute; reflexivity|].
    apply (star_step _ _ s1).
    { apply (step_attest _ _ (demo_ctx 5) (attest_msg "bob" 20)). vm_compute. reflexivity. }
    eapply star_step; [|apply star_refl].
    apply (step_end_block _ _ (ctx_bob_left 9)). vm_compute. reflexivity.
  - vm_compute. reflexivity.
Qed.

(** ** Validation *)

(** C38: A genesis is valid exactly when its parameters are, it lists at most
    65535 validators with pairwise distinct addresses and pairwise distinct
    indices, and every attestation has a positive height and no more voted than
    total power. *)
Theorem GenesisState_Validate_iff {Dec} {HD : LegacyDec Dec} {HL : LegacyDecLaws Dec} gs :
  GenesisState_Validate gs = Ok tt <->
    valid_Params (gs_Params gs) /\
    Z.of_nat (length (gs_ValidatorIndices gs)) <= max_u16 /\
    NoDup (vi_Address <$> gs_ValidatorIndices gs) /\ NoDup (vi_Index <$> gs_ValidatorIndices gs) /\
    Forall (fun ab => 0 < ab_Height ab /\ ab_VotedPower ab <= ab_TotalPower ab)
      (gs_AttestationBitmaps gs).
Proof.
  unfold GenesisState_Validate. rewrite !seq_ok, if_err_ok, Z.ltb_ge.
  rewrite validate_indices_iff, validate_bitmaps_iff, <- Params_Validate_iff.
  assert (wrap_outcome "invalid params" (Params_Validate (gs_Params gs)) = Ok tt <->
    Params_Validate (gs_Params gs) = Ok tt) as ->.
  { destruct (Params_Validate (gs_Params gs)); cbn; by split. }
  assert (Forall (fun vi => (∅ : gmap string bool) !! vi_Address vi <> Some true /\
    (∅ : gmap Z bool) !! vi_Index vi <> Some true) (gs_ValidatorIndices gs)) as HF.
  { apply Forall_forall. intros vi _. by rewrite !lookup_empty. }
  tauto.
Qed.

Lemma GenesisState_Validate_iff_witness :
  GenesisState_Validate (Dec := Z) demo_genesis = Ok tt.
Proof.
  apply GenesisState_Validate_iff. split_and!.
  - apply valid_DefaultParams.
  - vm_compute. discriminate.
  - apply NoDup_ListNoDup. repeat constructor; cbn; intuition discriminate.
  - apply NoDup_ListNoDup. repeat constructor; cbn; intuition discriminate.
  - constructor.
Defined.

(** ** Import and export *)

Section roundtrip.
Context {CH : Chain}.

Definition index_entries (l : list types_ValidatorIndex) : list (string * Z) :=
  (fun vi => (vi_Address vi, u16 (vi_Index vi))) <$> l.
Definition power_entries (l : list types_ValidatorIndex) : list (Z * Z) :=
  (fun vi => (u16 (vi_Index vi), vi_Power vi)) <$> l.
Definition bitmap_entries (l : list types_AttestationBitmap) : list (Z * bytes) :=
  (fun ab => (ab_Height ab, default [] (ab_Bitmap ab))) <$> l.
Definition info_entries (l : list types_AttestationBitmap) : list (Z * types_AttestationBitmap) :=
  (fun ab => (ab_Height ab, ab)) <$> l.

Lemma init_index_run vi s :
  init_index vi s =
    (set_ValidatorIndex (<[vi_Address vi := u16 (vi_Index vi)]>)
      (set_ValidatorPower (<[u16 (vi_Index vi) := vi_Power vi]>)
        (set_AttesterSet (fun m => {[vi_Address vi]} ∪ m) s)), Ok tt).
Proof. unfold init_index, SetValidatorIndex, SetAttesterSetMember. by run. Qed.

Lemma export_index_run acc e p s :
  ValidatorPower s !! e.2 = Some p ->
  export_index acc e s = (s, Ok (acc ++ [mkValidatorIndex e.1 (u32 e.2) p])).
Proof. destruct e as [a i]. intros Hp. cbn in Hp. unfold export_index. run. by rewrite ?Hp. Qed.

Lemma init_indices_run l s :
  for_each l init_index s =
    (set_ValidatorIndex (fun m => insert_all m (index_entries l))
      (set_ValidatorPower (fun m => insert_all m (power_entries l))
        (set_AttesterSet (fun m => foldl (fun m vi => {[vi_Address vi]} ∪ m) m l) s)), Ok tt).
Proof.
  revert s. induction l as [|vi l IH]; intros s; cbn [for_each]; [by destruct s|].
  rewrite run_bind, init_index_run. by rewrite IH.
Qed.

Lemma init_bitmap_run ab s :
  is_Some (ab_Bitmap ab) ->
  init_bitmap ab s =
    (set_AttestationBitmap (<[ab_Height ab := default [] (ab_Bitmap ab)]>)
      (set_StoredAttestationInfo (<[ab_Height ab := ab]>) s), Ok tt).
Proof.
  intros [b Hb]. unfold init_bitmap, SetAttestationBitmap. rewrite Hb. cbn [default from_option id].
  run. destruct (ab_SoftConfirmed ab) eqn:E; run; [|done].
  unfold setSoftConfirmed. run. cbn [StoredAttestationInfo set_StoredAttestationInfo].
  rewrite lookup_insert_eq. run. f_equal.
  unfold set_StoredAttestationInfo, set_AttestationBitmap. cbn. rewrite insert_insert_eq.
  destruct ab; cbn in *. by subst.
Qed.

Lemma init_bitmaps_run l s :
  Forall (fun ab => is_Some (ab_Bitmap ab)) l ->
  for_each l init_bitmap s =
    (set_AttestationBitmap (fun m => insert_all m (bitmap_entries l))
      (set_StoredAttestationInfo (fun m => insert_all m (info_entries l)) s), Ok tt).
Proof.
  intros H. revert s. induction H as [|ab l Hab _ IH]; intros s; cbn [for_each]; [by destruct s|].
  rewrite run_bind, init_bitmap_run by done. by rewrite IH.
Qed.

Lemma export_fold_run s f entries acc :
  (forall a i, (a, i) ∈ entries -> ValidatorPower s !! i = Some (f i)) ->
  fold_each entries acc export_index s =
    (s, Ok (acc ++ ((fun e => mkValidatorIndex e.1 (u32 e.2) (f e.2)) <$> entries))).
Proof.
  revert acc. induction entries as [|[a i] l IH]; intros acc Hp; cbn [fold_each].
  { by rewrite app_nil_r. }
  rewrite run_bind, (export_index_run _ (a, i) (f i)) by (apply (Hp a); by left).
  rewrite IH by (intros b j Hj; apply (Hp b); by right). by rewrite <- app_assoc.
Qed.

Lemma map_to_list_insert_all {K V} `{Countable K} (l : list (K * V)) :
  NoDup l.*1 -> map_to_list (insert_all ∅ l) ≡ₚ l.
Proof.
  intros Hnd. rewrite <- (map_to_list_to_map (M := gmap K) l Hnd) at 2.
  replace (insert_all ∅ l) with (list_to_map l : gmap K V); [done|].
  apply map_eq. intros k. destruct (list_to_map l !! k) as [v|] eqn:E.
  - apply elem_of_list_to_map_2 in E. symmetry. by apply insert_all_in.
  - apply not_elem_of_list_to_map_2 in E. symmetry. rewrite insert_all_notin by done.
    apply lookup_empty.
Qed.

Lemma fst_index_entries l : (index_entries l).*1 = vi_Address <$> l.
Proof. unfold index_entries. by rewrite <- list_fmap_compose. Qed.

Lemma fst_info_entries l : (info_entries l).*1 = ab_Height <$> l.
Proof. unfold info_entries. by rewrite <- list_fmap_compose. Qed.

Lemma snd_info_entries l : (info_entries l).*2 = l.
Proof. unfold info_entries. rewrite <- list_fmap_compose. apply list_fmap_id. Qed.

Lemma power_entries_lookup l vi :
  Forall (fun vi => is_u16 (vi_Index vi)) l -> NoDup (vi_Index <$> l) -> vi ∈ l ->
  insert_all (∅ : gmap Z Z) (power_entries l) !! vi_Index vi = Some (vi_Power vi).
Proof.
  intros Hu Hnd Hin. apply insert_all_in.
  - unfold power_entries. rewrite <- list_fmap_compose.
    replace (fst ∘ (fun vi => (u16 (vi_Index vi), vi_Power vi)) <$> l) with (vi_Index <$> l); [done|].
    apply list_fmap_ext. intros i x Hx. cbn. symmetry. apply u16_small.
    by eapply (Forall_lookup_1 _ _ _ _ Hu).
  - apply list_elem_of_fmap. exists vi. split; [|done].
    rewrite u16_small; [done|]. rewrite Forall_forall in Hu. by apply Hu.
Qed.

(** The export of an imported genesis. *)
Lemma export_after_init gs :
  Forall (fun vi => is_u16 (vi_Index vi)) (gs_ValidatorIndices gs) ->
  NoDup (vi_Address <$> gs_ValidatorIndices gs) -> NoDup (vi_Index <$> gs_ValidatorIndices gs) ->
  NoDup (ab_Height <$> gs_AttestationBitmaps gs) ->
  Forall (fun ab => is_Some (ab_Bitmap ab)) (gs_AttestationBitmaps gs) ->
  exists s gs', InitGenesis gs empty_State = (s, Ok tt) /\ ExportGenesis s = (s, Ok gs') /\
    gs_Params gs' = gs_Params gs /\
    gs_ValidatorIndices gs' ≡ₚ gs_ValidatorIndices gs /\
    gs_AttestationBitmaps gs' ≡ₚ gs_AttestationBitmaps gs.
Proof.
  intros Hu Ha Hi Hh Hb. set (vis := gs_ValidatorIndices gs) in *.
  unfold InitGenesis, SetParams. run. fold vis. rewrite init_indices_run. run.
  rewrite init_bitmaps_run by done.
  match goal with |- exists s gs', (?s0, _) = _ /\ _ => set (s := s0) end.
  pose proof (map_to_list_insert_all (index_entries vis)) as Hperm.
  rewrite fst_index_entries in Hperm. specialize (Hperm Ha).
  set (entries := merge_sort addr_le (map_to_list (ValidatorIndex s))).
  assert (entries ≡ₚ index_entries vis) as He.
  { unfold entries. rewrite merge_sort_Permutation. exact Hperm. }
  set (f := fun i => default 0 (ValidatorPower s !! i)).
  assert (forall a i, (a, i) ∈ entries -> ValidatorPower s !! i = Some (f i)) as Hf.
  { intros a i Hin. rewrite He in Hin. apply list_elem_of_fmap in Hin as (vi & [= _ ->] & Hvi).
    unfold f. rewrite u16_small by (by rewrite Forall_forall in Hu; apply Hu).
    cbn. by rewrite power_entries_lookup. }
  eexists s, _. split; [done|]. unfold ExportGenesis, panic_err. run. fold entries.
  rewrite (export_fold_run s f) by done. run. split; [done|]. cbn.
  split; [done|]. split.
  - rewrite He. unfold index_entries. rewrite <- list_fmap_compose.
    replace (_ <$> vis) with vis; [done|]. rewrite <- (list_fmap_id vis) at 1.
    apply list_fmap_ext. intros k vi Hk. cbn. apply list_elem_of_lookup_2 in Hk.
    assert (is_u16 (vi_Index vi)) as Hr by (by rewrite Forall_forall in Hu; apply Hu).
    rewrite u16_small by done. unfold f. cbn. rewrite power_entries_lookup by done. cbn.
    assert (u32 (vi_Index vi) = vi_Index vi) as -> by int_lia. by destruct vi.
  - rewrite merge_sort_Permutation. cbn.
    rewrite map_to_list_insert_all by (by rewrite fst_info_entries). by rewrite snd_info_entries.
Qed.
(** C37: Exporting an imported genesis gives it back, up to the order of its
    lists, when the indices are uint16 values, addresses, indices and heights
    are distinct and the bitmaps are not nil. *)
Theorem ExportGenesis_InitGenesis gs :
  Forall (fun vi => is_u16 (vi_Index vi)) (gs_ValidatorIndices gs) ->
  NoDup (vi_Address <$> gs_ValidatorIndices gs) -> NoDup (vi_Index <$> gs_ValidatorIndices gs) ->
  NoDup (ab_Height <$> gs_AttestationBitmaps gs) ->
  Forall (fun ab => is_Some (ab_Bitmap ab)) (gs_AttestationBitmaps gs) ->
  exists s gs', InitGenesis gs empty_State = (s, Ok tt) /\ ExportGenesis s = (s, Ok gs') /\
    gs_Params gs' = gs_Params gs /\
    gs_ValidatorIndices gs' ≡ₚ gs_ValidatorIndices gs /\
    gs_AttestationBitmaps gs' ≡ₚ gs_AttestationBitmaps gs.
Proof. apply export_after_init. Qed.
End roundtrip.

Lemma ExportGenesis_InitGenesis_witness :
  exists s gs', ExportGenesis s = (s, Ok gs') /\
    gs_ValidatorIndices gs' ≡ₚ [mkValidatorIndex "alice" 0 10; mkValidatorIndex "bob" 1 20].
Proof.
  destruct (ExportGenesis_InitGenesis (mkGenesisState (DefaultParams (Dec := Z))
    [mkValidatorIndex "alice" 0 10; mkValidatorIndex "bob" 1 20]
    [mkAttestationBitmap 20 (Some [3]) 30 30 true]))
    as (s & gs' & _ & He & _ & Hv & _); [..|by eauto].
  - repeat constructor; vm_compute; discriminate.
  - apply NoDup_ListNoDup. repeat constructor; cbn; intuition discriminate.
  - apply NoDup_ListNoDup. repeat constructor; cbn; intuition discriminate.
  - apply NoDup_ListNoDup. repeat constructor; cbn; intuition discriminate.
  - repeat constructor. eexists. reflexivity.
Defined.

(** Two validators whose uint32 indices agree modulo 2^16. *)
Definition colliding_genesis : GenesisState :=
  mkGenesisState (DefaultParams (Dec := Z))
    [mkValidatorIndex "alice" 1 10; mkValidatorIndex "bob" 65537 20] [].

(** The indices of a genesis are uint32 values, the store's uint16 values,
    and validation does not compare them: a valid genesis can give two
    validators the same stored index, and the power of the first is lost. *)
Theorem genesis_index_collision :
  exists gs s a b i pa pb, GenesisState_Validate (Dec := Z) gs = Ok tt /\ genesis_typed gs /\
    gs_ValidatorIndices gs = [mkValidatorIndex a i pa; mkValidatorIndex b (i + 65536) pb] /\
    a <> b /\ pa <> pb /\ InitGenesis gs empty_State = (s, Ok tt) /\
    ValidatorIndex s !! a = Some i /\ ValidatorIndex s !! b = Some i /\
    ValidatorPower s !! i = Some pb.
Proof.
  exists colliding_genesis, (InitGenesis colliding_genesis empty_State).1, "alice"%string,
    "bob"%string, 1, 10, 20.
  split; [vm_compute; reflexivity|]. split; [split; repeat constructor; vm_compute; discriminate|].
  split; [reflexivity|]. do 2 (split; [discriminate|]). do 3 (split; [vm_compute; reflexivity|]).
  vm_compute. reflexivity.
Qed.
