(* ===== verification/QueryProps.v ===== *)
(** * Queries and pruning of the network module *)

From Stdlib Require Import ZArith Lia.
From stdpp Require Import base gmap strings list fin_maps sorting pretty.
From S2P Require Import Prelude Bitmap Sdk Types Keeper MsgServer EndBlock Query Genesis.
From S2P Require Import NetworkInvariant NetworkDemo AttestProps EpochProps.

Open Scope Z_scope.

Section query_props.
Context {CH : Chain} {C : Ctx}.

Lemma IsSoftConfirmed_reads h : reads_only (IsSoftConfirmed h).
Proof.
  intros s. rewrite IsSoftConfirmed_run. destruct (_ !! _) as [bm|]; [|done].
  rewrite run_bind. destruct (CalculateVotedPower bm s) as [s1 r] eqn:E1.
  assert (s1 = s) as -> by (by rewrite <- (CalculateVotedPower_reads bm s), E1).
  destruct r; [|done..]. run. destruct (n ← _; _); [|done..]. apply CheckQuorum_reads.
Qed.

(** The two queries on a height agree: when the bitmap query answers, its
    bitmap is the stored one, the status query reports the same powers and
    the same confirmation, and that confirmation is [IsSoftConfirmed]'s; both
    only read. *)
Theorem queries_agree s h ab :
  Query_AttestationBitmap (Some h) s = (s, Ok ab) ->
  ab_Height ab = h /\ ab_Bitmap ab = AttestationBitmap s !! h /\
  IsSoftConfirmed h s = (s, Ok (ab_SoftConfirmed ab)) /\
  Query_SoftConfirmationStatus (Some h) s =
    (s, Ok (mkSoftConfirmation (ab_SoftConfirmed ab) (ab_VotedPower ab) (ab_TotalPower ab)
              (QuorumFraction (default zero_Params (ParamsItem s))))).
Proof.
  unfold Query_AttestationBitmap, Query_SoftConfirmationStatus. run.
  destruct (AttestationBitmap s !! h) as [bm|] eqn:E; run; [|done].
  destruct (CalculateVotedPower bm s) as [s1 r] eqn:E1.
  assert (s1 = s) as -> by (by rewrite <- (CalculateVotedPower_reads bm s), E1).
  destruct r as [v|?|?]; [|done..]. run.
  destruct (n ← GetLastTotalPower stakingKeeper; Int_Uint64 n) as [t|?|?] eqn:Et; [|done..]. run.
  destruct (IsSoftConfirmed h s) as [s2 r] eqn:E2.
  assert (s2 = s) as -> by (by rewrite <- (IsSoftConfirmed_reads h s), E2).
  destruct r as [b|?|?]; [|done..]. run. intros [= <-]. cbn.
  split_and!; try done.
Qed.

(** An epoch's window of heights is exactly the heights whose epoch is
    this one, while they fit an int64. *)
Theorem EpochInfo_window s p e :
  ParamsItem s = Some p -> 0 < EpochLength p -> 0 <= e ->
  (e + 1) * EpochLength p <= max_i64 -> EpochBitmap s !! e = None ->
  exists r, Query_EpochInfo (Some e) s = (s, Ok r) /\ ei_Epoch r = e /\
    forall h, 0 <= h -> ei_StartHeight r <= h <= ei_EndHeight r <-> h / EpochLength p = e.
Proof.
  intros Hp HE He Hmax Hb. unfold Query_EpochInfo. run. rewrite ?Hp, ?Hb.
  cbn [default id from_option]. eexists. split; [done|]. cbn. split; [done|].
  set (E := EpochLength p) in *. assert (0 <= e * E) by nia. assert (e <= e * E) by nia.
  rewrite (u64_small (e * E)), (u64_small (e + 1)) by (unfold_int; lia).
  rewrite (u64_small ((e + 1) * E)) by (unfold_int; lia).
  rewrite (u64_small ((e + 1) * E - 1)) by (unfold_int; lia).
  rewrite !i64_small by (unfold_int; lia). intros h Hh. split.
  - intros [H1 H2]. symmetry. apply (Z.div_unique h E e (h - e * E)); lia.
  - intros Hd. pose proof (Z.div_mod h E ltac:(lia)). pose proof (Z.mod_pos_bound h E HE).
    subst e. lia.
Qed.

Lemma coll_Clear_lookup {V} lo hi (m m' : gmap Z V) k :
  coll_Clear lo hi m = Ok m' -> m' !! k = if decide (lo <= k < hi) then None else m !! k.
Proof.
  unfold coll_Clear. destruct (hi <? lo); [done|]. intros [= <-].
  rewrite map_lookup_filter. destruct (m !! k) as [v|] eqn:E; cbn; [|by case_decide].
  case_guard as Hg; case_decide as Hd; cbn in *; tauto.
Qed.

(** Pruning at an epoch beyond the retention removes exactly the bitmaps
    and the stored attestations of the heights before the first kept epoch,
    and the epoch bitmaps before that epoch; at an earlier epoch it removes
    nothing. *)
Theorem PruneOldBitmaps_spec s p e :
  ParamsItem s = Some p -> 0 < PruneAfter p -> 0 < EpochLength p -> e * EpochLength p <= max_i64 ->
  exists s', PruneOldBitmaps e s = (s', Ok tt) /\
    let first := Z.max 0 (e - PruneAfter p) in
    (forall h, AttestationBitmap s' !! h =
       if decide (0 <= h < first * EpochLength p) then None else AttestationBitmap s !! h) /\
    (forall h, StoredAttestationInfo s' !! h =
       if decide (0 <= h < first * EpochLength p) then None else StoredAttestationInfo s !! h) /\
    (forall k, EpochBitmap s' !! k =
       if decide (0 <= k < first) then None else EpochBitmap s !! k) /\
    Signatures s' = Signatures s.
Proof.
  intros Hp HP HE Hmax. unfold PruneOldBitmaps. run. rewrite ?Hp. cbn [default id from_option].
  destruct (Z.eqb_spec (PruneAfter p) 0); [lia|].
  destruct (Z.leb_spec e (PruneAfter p)) as [Hle|Hgt].
  { exists s. split; [done|]. cbn. rewrite Z.max_l by lia.
    split_and!; try done; intros k; case_decide; done || lia. }
  assert (0 < (e - PruneAfter p) * EpochLength p <= e * EpochLength p) as Hb by nia.
  assert (e - PruneAfter p <= (e - PruneAfter p) * EpochLength p) as Hb' by nia.
  rewrite (u64_small (e - PruneAfter p)) by (unfold_int; lia).
  rewrite u64_small by (unfold_int; lia). rewrite i64_small by (unfold_int; lia).
  assert (forall V lo hi (m : gmap Z V), lo <= hi -> exists m', coll_Clear lo hi m = Ok m') as Hc.
  { intros V lo hi m Hlh. unfold coll_Clear. destruct (Z.ltb_spec hi lo); [lia|]. eauto. }
  destruct (Hc _ 0 ((e - PruneAfter p) * EpochLength p) (AttestationBitmap s) ltac:(lia)) as [m1 H1].
  destruct (Hc _ 0 ((e - PruneAfter p) * EpochLength p) (StoredAttestationInfo s) ltac:(lia))
    as [m2 H2].
  destruct (Hc _ 0 (e - PruneAfter p) (EpochBitmap s) ltac:(lia)) as [m3 H3].
  run. rewrite H1. run. cbn [StoredAttestationInfo set_AttestationBitmap]. rewrite H2. run.
  cbn [EpochBitmap set_AttestationBitmap set_StoredAttestationInfo]. rewrite H3. run.
  eexists. split; [done|]. cbn. rewrite Z.max_r by lia.
  split_and!; try done; intros k; by apply coll_Clear_lookup.
Qed.
End query_props.

Lemma queries_agree_witness :
  Query_SoftConfirmationStatus (C := demo_ctx 21) (Some 20) demo_voted =
    (demo_voted, Ok (mkSoftConfirmation false 10 30
      (QuorumFraction (default zero_Params (ParamsItem demo_voted))))).
Proof.
  destruct (queries_agree (C := demo_ctx 21) demo_voted 20 (mkAttestationBitmap 20 (Some [1]) 10 30 false))
    as (_ & _ & _ & H); [vm_compute; reflexivity|exact H].
Defined.

Lemma EpochInfo_window_witness :
  exists r, Query_EpochInfo (C := demo_ctx 21) (Some 2) demo_voted = (demo_voted, Ok r) /\
    ei_StartHeight r <= 25 <= ei_EndHeight r.
Proof.
  destruct (EpochInfo_window (C := demo_ctx 21) demo_voted DefaultParams 2) as (r & Hr & _ & Hw).
  - reflexivity.
  - reflexivity.
  - vm_compute. discriminate.
  - vm_compute. discriminate.
  - reflexivity.
  - exists r. split; [exact Hr|]. apply Hw; [vm_compute; discriminate|reflexivity].
Defined.

Lemma PruneOldBitmaps_spec_witness :
  exists s', PruneOldBitmaps 10 demo_voted = (s', Ok tt) /\ AttestationBitmap s' !! 20 = None.
Proof.
  destruct (PruneOldBitmaps_spec demo_voted DefaultParams 10) as (s' & Hs & Ha & _).
  - reflexivity.
  - reflexivity.
  - reflexivity.
  - vm_compute. discriminate.
  - exists s'. split; [exact Hs|]. rewrite Ha, decide_True; [reflexivity|].
    split; [vm_compute; discriminate|reflexivity].
Defined.
