(* ===== verification/Rollkitmngr.v ===== *)
(** * The migration manager ([modules/rollkitmngr])

    The keeper's state and every operation of the module: [IsMigrating], the
    three migrations of [migration.go], the blockers of [abci.go], the message
    of [msg_server.go] and the queries of [grpc_query.go].  Public keys and
    their encodings are the SDK's and stay parameters ([Mngr]). *)

From Stdlib Require Import ZArith Lia.
From stdpp Require Import base gmap strings list.
From S2P Require Import Prelude Sdk.

Open Scope Z_scope.

(** ** Data ([types.pb.go], [tx.pb.go], [query.pb.go]) *)

Record types_Sequencer : Type := mkSequencer { seq_Name : string; seq_ConsensusPubkey : Any }.
Record types_Attester : Type := mkAttester { att_Name : string; att_ConsensusPubkey : Any }.

Record RollkitMigration : Type := mkMigration {
  mig_BlockHeight : Z;             (* uint64 *)
  mig_Sequencer : types_Sequencer;
  mig_Attesters : list types_Attester
}.

Record MsgMigrateToRollkit : Type := mkMigrateToRollkit {
  msg_Authority : string;
  msg_BlockHeight : Z;             (* uint64 *)
  msg_Sequencer : types_Sequencer;
  msg_Attesters : list types_Attester
}.

Record QueryIsMigratingResponse : Type := mkIsMigrating {
  qm_IsMigrating : bool;
  qm_StartBlockHeight : Z;
  qm_EndBlockHeight : Z
}.

(** The keeper's items: [None] when the item is not set. *)
Record MngrState : Type := mkMngrState {
  SequencerItem : option types_Sequencer;
  MigrationItem : option RollkitMigration;
  MigrationStep : option Z         (* uint64 *)
}.

Definition set_Sequencer (o : option types_Sequencer) (s : MngrState) : MngrState :=
  mkMngrState o (MigrationItem s) (MigrationStep s).
Definition set_Migration (o : option RollkitMigration) (s : MngrState) : MngrState :=
  mkMngrState (SequencerItem s) o (MigrationStep s).
Definition set_MigrationStep (o : option Z) (s : MngrState) : MngrState :=
  mkMngrState (SequencerItem s) (MigrationItem s) o.

(** The SDK's and CometBFT's keys.  [GetCachedValue] is the unpacked public key
    of an [Any], when there is one. *)
Class Mngr : Type := {
  PubKey : Type;
  CmtPublicKey : Type;
  GetCachedValue : Any -> option PubKey;
  ToCmtProtoPublicKey : PubKey -> outcome CmtPublicKey;
  Any_Equal : Any -> Any -> bool;
  Any_String : Any -> string;
  CmtPublicKey_String : CmtPublicKey -> string;
  CmtConsPublicKey : Validator -> outcome CmtPublicKey;
  mngr_authority : string;
  (** [ibcStoreKey]: [None] when no key was given, else whether the multistore
      has the store ([GetKVStore] panics when it has not). *)
  ibcStoreKey : option bool
}.

Record ValidatorUpdate `{Mngr} : Type := mkUpdate { upd_PubKey : CmtPublicKey; upd_Power : Z }.

(** [val.ABCIValidatorUpdateZero()] *)
Class ZeroUpdate `{Mngr} : Type := { ABCIValidatorUpdateZero : Validator -> outcome ValidatorUpdate }.

Definition mngr_ErrInvalidRequest : error := ErrSentinel "sdkerrors.ErrInvalidRequest".
Definition mngr_ErrLogic : error := ErrSentinel "sdkerrors.ErrLogic".
Definition mngr_ErrInvalidSigner : error := ErrSentinel "govtypes.ErrInvalidSigner".
Definition ErrInvalidType : error := ErrSentinel "sdkerrors.ErrInvalidType".

Definition IBCSmoothingFactor : Z := 30.

Section rollkitmngr.
Context `{MN : Mngr} {ZU : ZeroUpdate} {C : Ctx}.

(** *** [types/sequencer.go] *)

Definition Sequencer_TmConsPublicKey (seq : types_Sequencer) : outcome CmtPublicKey :=
  match GetCachedValue (seq_ConsensusPubkey seq) with
  | None => Err (ErrWrap "expecting cryptotypes.PubKey" ErrInvalidType)
  | Some pk => ToCmtProtoPublicKey pk
  end.

Definition Attester_TmConsPublicKey (att : types_Attester) : outcome CmtPublicKey :=
  match GetCachedValue (att_ConsensusPubkey att) with
  | None => Err (ErrWrap "expecting cryptotypes.PubKey" ErrInvalidType)
  | Some pk => ToCmtProtoPublicKey pk
  end.

(** *** [keeper.go] *)

Definition isIBCEnabled : bool :=
  match ibcStoreKey with
  | None => false
  | Some store_exists => store_exists
  end.

Definition IsMigrating (s : MngrState) : Z * Z * bool :=
  match MigrationItem s with
  | None => (0, 0, false)
  | Some migration =>
      let migrationEndHeight :=
        if negb isIBCEnabled then u64 (mig_BlockHeight migration + 1)
        else u64 (mig_BlockHeight migration + IBCSmoothingFactor) in
      let currentHeight := u64 BlockHeight in
      let migrationInProgress :=
        (mig_BlockHeight migration <=? currentHeight) && (currentHeight <=? migrationEndHeight) in
      (mig_BlockHeight migration, migrationEndHeight, migrationInProgress)
  end.

(** *** [migration.go] *)

(** The loop that removes all validators but the sequencer. *)
Definition remove_others (seq : types_Sequencer) (lastValidatorSet : list Validator) :
    outcome (list ValidatorUpdate) :=
  fold_ok lastValidatorSet [] (fun initialValUpdates val =>
    powerUpdate ← ABCIValidatorUpdateZero val;
    if Any_Equal (ConsensusPubkey val) (seq_ConsensusPubkey seq) then Ok initialValUpdates
    else Ok (initialValUpdates ++ [powerUpdate])).

Definition migrateToSequencer (migrationData : RollkitMigration)
    (lastValidatorSet : list Validator) : outcome (list ValidatorUpdate) :=
  let seq := mig_Sequencer migrationData in
  pk ← Sequencer_TmConsPublicKey seq;
  let sequencerUpdate := mkUpdate _ pk 1 in
  initialValUpdates ← remove_others seq lastValidatorSet;
  Ok (initialValUpdates ++ [sequencerUpdate]).

Definition attester_keys (attesters : list types_Attester) : gset string :=
  list_to_set ((fun a => Any_String (att_ConsensusPubkey a)) <$> attesters).

Definition add_attester (initialValUpdates : list ValidatorUpdate) (attester : types_Attester) :
    outcome (list ValidatorUpdate) :=
  pk ← Attester_TmConsPublicKey attester;
  Ok (initialValUpdates ++ [mkUpdate _ pk 1]).

Definition migrateToAttesters (migrationData : RollkitMigration)
    (lastValidatorSet : list Validator) : outcome (list ValidatorUpdate) :=
  let attesterPubKeys := attester_keys (mig_Attesters migrationData) in
  initialValUpdates ← fold_ok lastValidatorSet [] (fun initialValUpdates val =>
    if negb (bool_decide (Any_String (ConsensusPubkey val) ∈ attesterPubKeys)) then
      powerUpdate ← ABCIValidatorUpdateZero val;
      Ok (initialValUpdates ++ [powerUpdate])
    else Ok initialValUpdates);
  fold_ok (mig_Attesters migrationData) initialValUpdates add_attester.

Definition migrateNow (migrationData : RollkitMigration) (lastValidatorSet : list Validator) :
    M MngrState (list ValidatorUpdate) :=
  initialValUpdates ← lift
    (match mig_Attesters migrationData with
     | [] => wrapf_outcome "failed to migrate to sequencer" mngr_ErrInvalidRequest
               (migrateToSequencer migrationData lastValidatorSet)
     | _ => wrapf_outcome "failed to migrate to sequencer & attesters" mngr_ErrInvalidRequest
              (migrateToAttesters migrationData lastValidatorSet)
     end);
  modify (set_Sequencer (Some (mig_Sequencer migrationData))) ;;
  mret initialValUpdates.

(** [len(l)] divided by the smoothing factor, rounded up *)
Definition per_step (n : Z) : Z := Z.quot (n + IBCSmoothingFactor - 1) IBCSmoothingFactor.

(** [l[start:end]] for the share of step [step] *)
Definition step_slice {A} (l : list A) (step : Z) : outcome (list A) :=
  let n := Z.of_nat (length l) in
  let perStep := per_step n in
  let start := i64 (i64 step * perStep) in
  let end_ := Z.min (start + perStep) n in
  slice l start end_.

Definition zero_update (initialValUpdates : list ValidatorUpdate) (val : Validator) :
    outcome (list ValidatorUpdate) :=
  powerUpdate ← ABCIValidatorUpdateZero val;
  Ok (initialValUpdates ++ [powerUpdate]).

Definition oldValsToRemove (migrationData : RollkitMigration)
    (lastValidatorSet : list Validator) : list Validator :=
  match mig_Attesters migrationData with
  | [] =>
      let seq := mig_Sequencer migrationData in
      filter (fun val => Any_Equal (ConsensusPubkey val) (seq_ConsensusPubkey seq) = false)
        lastValidatorSet
  | attesters =>
      let attesterPubKeys := attester_keys attesters in
      filter (fun val => Any_String (ConsensusPubkey val) ∉ attesterPubKeys) lastValidatorSet
  end.

Definition newAttestersToAdd (migrationData : RollkitMigration)
    (lastValidatorSet : list Validator) : list types_Attester :=
  let lastValPubKeys : gset string :=
    list_to_set ((fun val => Any_String (ConsensusPubkey val)) <$> lastValidatorSet) in
  filter (fun attester => Any_String (att_ConsensusPubkey attester) ∉ lastValPubKeys)
    (mig_Attesters migrationData).

(** The updates of one step of the smoothed migration. *)
Definition step_updates (migrationData : RollkitMigration) (lastValidatorSet : list Validator)
    (step : Z) : outcome (list ValidatorUpdate) :=
  match mig_Attesters migrationData with
  | [] =>
      vals ← step_slice (oldValsToRemove migrationData lastValidatorSet) step;
      fold_ok vals [] zero_update
  | _ =>
      vals ← step_slice (oldValsToRemove migrationData lastValidatorSet) step;
      initialValUpdates ← fold_ok vals [] zero_update;
      attesters ← step_slice (newAttestersToAdd migrationData lastValidatorSet) step;
      wrapf_outcome "failed to get attester pubkey" mngr_ErrInvalidRequest
        (fold_ok attesters initialValUpdates add_attester)
  end.

(** Step 0: every validator without an update gets power 1. *)
Definition equalize (lastValidatorSet : list Validator) (initialValUpdates : list ValidatorUpdate) :
    outcome (list ValidatorUpdate) :=
  let existingUpdates : gset string :=
    list_to_set ((fun u => CmtPublicKey_String (upd_PubKey u)) <$> initialValUpdates) in
  fold_ok lastValidatorSet initialValUpdates (fun initialValUpdates val =>
    valPubKey ← wrapf_outcome "failed to get validator pubkey" mngr_ErrInvalidRequest
      (CmtConsPublicKey val);
    if negb (bool_decide (CmtPublicKey_String valPubKey ∈ existingUpdates))
    then Ok (initialValUpdates ++ [mkUpdate _ valPubKey 1])
    else Ok initialValUpdates).

Definition migrateOver (migrationData : RollkitMigration) (lastValidatorSet : list Validator) :
    M MngrState (list ValidatorUpdate) :=
  step ← gets (fun s => default 0 (MigrationStep s));
  if IBCSmoothingFactor <=? step then
    modify (set_MigrationStep None) ;;
    migrateNow migrationData lastValidatorSet
  else
    initialValUpdates ← lift (step_updates migrationData lastValidatorSet step);
    modify (set_MigrationStep (Some (u64 (step + 1)))) ;;
    if step =? 0 then lift (equalize lastValidatorSet initialValUpdates)
    else mret initialValUpdates.

(** *** [abci.go] *)

Definition PreBlocker : M MngrState unit :=
  r ← gets IsMigrating;
  let '(_, end_, _) := r in
  if (0 <? end_) && (u64 (end_ + 1) =? u64 BlockHeight) then
    modify (set_Migration None) ;;
    fail (ErrText "app migration to rollkit is in progress")
  else mret tt.

Definition EndBlock : M MngrState (list ValidatorUpdate) :=
  r ← gets IsMigrating;
  let '(start, _, shouldBeMigrating) := r in
  if negb shouldBeMigrating || (u64 BlockHeight <? start) then mret []
  else
    o ← gets MigrationItem;
    migration ← lift (match o with
      | Some m => Ok m
      | None => Err (ErrWrap "failed to get migration state" mngr_ErrLogic) end);
    validatorSet ← lift (GetLastValidators stakingKeeper);
    if negb isIBCEnabled then migrateNow migration validatorSet
    else migrateOver migration validatorSet.

(** *** [msg_server.go] *)

Definition MigrateToRollkit (msg : MsgMigrateToRollkit) : M MngrState unit :=
  if negb (bool_decide (mngr_authority = msg_Authority msg))
  then fail (ErrWrap "invalid authority" mngr_ErrInvalidSigner)
  else if msg_BlockHeight msg <? u64 BlockHeight
  then fail (ErrWrap "block height must be greater than current block height"
               mngr_ErrInvalidRequest)
  else
    modify (set_Migration (Some {| mig_BlockHeight := msg_BlockHeight msg;
                                   mig_Sequencer := msg_Sequencer msg;
                                   mig_Attesters := msg_Attesters msg |})).

(** *** [grpc_query.go] *)

Definition Query_Attesters : outcome (list types_Attester) :=
  wrapf_outcome "failed to get last validators" mngr_ErrLogic
    (GetLastValidators stakingKeeper) ≫= fun vals : list Validator =>
  Ok (map (fun val => mkAttester (Moniker val) (ConsensusPubkey val)) vals).

Definition Query_IsMigrating (s : MngrState) : QueryIsMigratingResponse :=
  let '(start, end_, isMigrating) := IsMigrating s in
  {| qm_IsMigrating := isMigrating; qm_StartBlockHeight := start; qm_EndBlockHeight := end_ |}.

Definition Query_Sequencer (s : MngrState) : outcome types_Sequencer :=
  let '(_, _, migrationInProgress) := IsMigrating s in
  if (migrationInProgress : bool)
  then Err (ErrWrap "sequencer is not set, migration is in progress or not started yet" mngr_ErrLogic)
  else
    match SequencerItem s with
    | Some seq => Ok seq
    | None => Err (ErrWrap "failed to get sequencer" mngr_ErrLogic)
    end.
End rollkitmngr.
