(* ===== verification/MigrationProps.v ===== *)
(** * The migration to a sequencer or to attesters

    What the validator updates of [Rollkitmngr] do to a validator set.  CometBFT
    takes the updates of a block or refuses them all; it is a parameter with the
    laws [change_set].  [effect] is what accepted updates do: power 0 removes a
    key, another power sets it. *)

From Stdlib Require Import ZArith Lia.
From stdpp Require Import base gmap strings list.
From S2P Require Import Prelude Sdk Rollkitmngr.

Open Scope Z_scope.

(** ** What the module relies on *)

Class MngrLaws `{ZU : ZeroUpdate} : Prop := {
  Any_Equal_eq a b : Any_Equal a b = bool_decide (a = b);
  Any_String_inj a b : Any_String a = Any_String b -> a = b;
  CmtPublicKey_String_inj p q : CmtPublicKey_String p = CmtPublicKey_String q -> p = q;
  CmtConsPublicKey_cached v :
    CmtConsPublicKey v = match GetCachedValue (ConsensusPubkey v) with
                         | Some k => ToCmtProtoPublicKey k
                         | None => Err (ErrWrap "expecting cryptotypes.PubKey" ErrInvalidType)
                         end;
  ZeroUpdate_ok v pk : CmtConsPublicKey v = Ok pk -> ABCIValidatorUpdateZero v = Ok (mkUpdate _ pk 0)
}.

Lemma fold_ok_app {A B} (l : list A) (acc : list B) (f : A -> option B)
    (body : list B -> A -> outcome (list B)) :
  (forall acc x, x ∈ l -> body acc x = Ok (acc ++ option_list (f x))) ->
  fold_ok l acc body = Ok (acc ++ omap f l).
Proof.
  revert acc. induction l as [|x l IH]; intros acc Hb; cbn [fold_ok].
  { by rewrite app_nil_r. }
  rewrite Hb by (by left). cbn [mbind outcome_bind].
  rewrite IH by (intros acc' y Hy; apply Hb; by right). rewrite <- app_assoc. do 2 f_equal.
  cbn. by destruct (f x).
Qed.

Section migration.
Context {MN : Mngr} {ZU : ZeroUpdate} {HL : MngrLaws} {C : Ctx}.

(** The public key of an [Any], as a validator set knows it. *)
Definition key_of (a : Any) : option CmtPublicKey :=
  k ← GetCachedValue a;
  match ToCmtProtoPublicKey k with Ok pk => Some pk | _ => None end.

Definition val_key (v : Validator) : option string :=
  CmtPublicKey_String <$> key_of (ConsensusPubkey v).
Definition att_key (a : types_Attester) : option string :=
  CmtPublicKey_String <$> key_of (att_ConsensusPubkey a).

(** The meaning of accepted updates. *)
Definition effect1 (vs : gmap string Z) (u : ValidatorUpdate) : gmap string Z :=
  if upd_Power u =? 0 then delete (CmtPublicKey_String (upd_PubKey u)) vs
  else <[CmtPublicKey_String (upd_PubKey u) := upd_Power u]> vs.
Definition effect (vs : gmap string Z) (us : list ValidatorUpdate) : gmap string Z :=
  foldl effect1 vs us.

(** How CometBFT applies the updates of a block to the next validator set
    ([ValidatorSet.UpdateWithChangeSet]): the result of accepted updates is
    their [effect]; only a member can be removed; and the last member cannot. *)
Record change_set (apply : gmap string Z -> list ValidatorUpdate -> outcome (gmap string Z)) : Prop := {
  cs_effect vs us vs' : apply vs us = Ok vs' -> vs' = effect vs us;
  cs_member vs us vs' u :
    apply vs us = Ok vs' -> u ∈ us -> upd_Power u = 0 -> is_Some (vs !! CmtPublicKey_String (upd_PubKey u));
  cs_nonempty vs us vs' : apply vs us = Ok vs' -> us <> [] -> vs' <> ∅
}.

(** The updates of successive blocks. *)
Definition apply_blocks (apply : gmap string Z -> list ValidatorUpdate -> outcome (gmap string Z))
    (vs : gmap string Z) (uss : list (list ValidatorUpdate)) : outcome (gmap string Z) :=
  fold_ok uss vs apply.

Definition zeros (vals : list Validator) : list ValidatorUpdate :=
  omap (fun v => (fun pk => mkUpdate _ pk 0) <$> key_of (ConsensusPubkey v)) vals.
Definition ones (attesters : list types_Attester) : list ValidatorUpdate :=
  omap (fun a => (fun pk => mkUpdate _ pk 1) <$> key_of (att_ConsensusPubkey a)) attesters.

Definition keys_ok (vals : list Validator) : Prop :=
  Forall (fun v => is_Some (key_of (ConsensusPubkey v))) vals.
Definition att_keys_ok (attesters : list types_Attester) : Prop :=
  Forall (fun a => is_Some (key_of (att_ConsensusPubkey a))) attesters.

Lemma key_of_val v pk : key_of (ConsensusPubkey v) = Some pk -> CmtConsPublicKey v = Ok pk.
Proof.
  rewrite CmtConsPublicKey_cached. unfold key_of.
  destruct (GetCachedValue _) as [k|]; cbn; [|done].
  by destruct (ToCmtProtoPublicKey k); intros; simplify_eq.
Qed.

Lemma key_of_att a pk :
  key_of (att_ConsensusPubkey a) = Some pk -> Attester_TmConsPublicKey a = Ok pk.
Proof.
  unfold key_of, Attester_TmConsPublicKey.
  destruct (GetCachedValue _) as [k|]; cbn; [|done].
  by destruct (ToCmtProtoPublicKey k); intros; simplify_eq.
Qed.

Lemma zero_fold vals acc :
  keys_ok vals -> fold_ok vals acc zero_update = Ok (acc ++ zeros vals).
Proof.
  intros H. apply fold_ok_app. intros acc' v Hv. unfold zero_update.
  unfold keys_ok in H. rewrite Forall_forall in H. destruct (H v Hv) as [pk Hpk].
  rewrite (ZeroUpdate_ok v pk) by (by apply key_of_val). by rewrite Hpk.
Qed.

Lemma attester_fold atts acc :
  att_keys_ok atts -> fold_ok atts acc add_attester = Ok (acc ++ ones atts).
Proof.
  intros H. apply fold_ok_app. intros acc' a Ha. unfold add_attester.
  unfold att_keys_ok in H. rewrite Forall_forall in H. destruct (H a Ha) as [pk Hpk].
  rewrite (key_of_att a pk) by done. by rewrite Hpk.
Qed.

(** A loop that skips the validators that stay and removes the others. *)
Lemma filtered_zero_fold vals acc (stay : Validator -> bool) body :
  keys_ok vals ->
  (forall acc v pk, key_of (ConsensusPubkey v) = Some pk ->
     body acc v = Ok (if stay v then acc else acc ++ [mkUpdate _ pk 0])) ->
  fold_ok vals acc body = Ok (acc ++ zeros (filter (fun v => stay v = false) vals)).
Proof.
  intros Hk Hb. revert acc. induction Hk as [|v l [pk Hpk] _ IH]; intros acc; cbn [fold_ok].
  { by rewrite app_nil_r. }
  rewrite (Hb acc v pk Hpk). cbn [mbind outcome_bind]. rewrite IH. f_equal.
  destruct (stay v) eqn:E.
  - by rewrite filter_cons_False by congruence.
  - rewrite filter_cons_True by done. unfold zeros at 2. cbn. rewrite Hpk. cbn.
    by rewrite <- app_assoc.
Qed.

(** *** The effect of removals and additions *)

Definition val_keys (vals : list Validator) : list string := omap val_key vals.
Definition att_keys (attesters : list types_Attester) : list string := omap att_key attesters.

Lemma effect_app vs us us' : effect vs (us ++ us') = effect (effect vs us) us'.
Proof. apply foldl_app. Qed.

Lemma elem_of_val_keys vals k :
  k ∈ val_keys vals <-> exists v, v ∈ vals /\ val_key v = Some k.
Proof. apply list_elem_of_omap. Qed.

Lemma elem_of_val_keys_cons v vals k :
  k ∈ val_keys (v :: vals) <-> val_key v = Some k \/ k ∈ val_keys vals.
Proof.
  unfold val_keys. cbn. destruct (val_key v) as [j|].
  - rewrite elem_of_cons. intuition congruence.
  - intuition congruence.
Qed.

Lemma elem_of_att_keys_cons a atts k :
  k ∈ att_keys (a :: atts) <-> att_key a = Some k \/ k ∈ att_keys atts.
Proof.
  unfold att_keys. cbn. destruct (att_key a) as [j|].
  - rewrite elem_of_cons. intuition congruence.
  - intuition congruence.
Qed.

Lemma effect1_lookup vs pk p k :
  effect1 vs (mkUpdate _ pk p) !! k =
    if decide (CmtPublicKey_String pk = k) then (if p =? 0 then None else Some p) else vs !! k.
Proof.
  unfold effect1. cbn. destruct (p =? 0); [apply lookup_delete|apply lookup_insert].
Qed.

Lemma effect_zeros vals vs k :
  effect vs (zeros vals) !! k = if decide (k ∈ val_keys vals) then None else vs !! k.
Proof.
  revert vs. induction vals as [|v l IH]; intros vs; [done|].
  rewrite (decide_ext _ (val_key v = Some k \/ k ∈ val_keys l)) by apply elem_of_val_keys_cons.
  unfold effect, zeros, val_key in *. cbn [omap list_omap].
  destruct (key_of (ConsensusPubkey v)) as [pk|]; cbn [fmap option_fmap option_map foldl];
    rewrite IH, ?effect1_lookup; repeat case_decide; try done; intuition congruence.
Qed.

Lemma effect_ones atts vs k :
  effect vs (ones atts) !! k = if decide (k ∈ att_keys atts) then Some 1 else vs !! k.
Proof.
  revert vs. induction atts as [|a l IH]; intros vs; [done|].
  rewrite (decide_ext _ (att_key a = Some k \/ k ∈ att_keys l)) by apply elem_of_att_keys_cons.
  unfold effect, ones, att_key in *. cbn [omap list_omap].
  destruct (key_of (att_ConsensusPubkey a)) as [pk|]; cbn [fmap option_fmap option_map foldl];
    rewrite IH, ?effect1_lookup; repeat case_decide; try done; intuition congruence.
Qed.

(** *** What CometBFT makes of the updates *)

Section accepted.
Context (apply : gmap string Z -> list ValidatorUpdate -> outcome (gmap string Z)).
Hypothesis Hcs : change_set apply.

Lemma apply_blocks_app vs uss us :
  apply_blocks apply vs (uss ++ [us]) = (vs' ← apply_blocks apply vs uss; apply vs' us).
Proof.
  unfold apply_blocks. revert vs. induction uss as [|us0 uss IH]; intros vs; cbn [app fold_ok].
  - cbn. by destruct (apply vs us).
  - destruct (apply vs us0) as [vs1|e|t]; cbn [mbind outcome_bind]; [apply IH|done..].
Qed.

Lemma apply_blocks_effect vs uss vs' : apply_blocks apply vs uss = Ok vs' -> vs' = effect vs (concat uss).
Proof.
  unfold apply_blocks. revert vs. induction uss as [|us uss IH]; intros vs; cbn [fold_ok concat].
  - by intros [= <-].
  - intros (vs1 & ->%(cs_effect _ Hcs) & H)%outcome_bind_ok. rewrite effect_app. by apply IH.
Qed.

Lemma apply_blocks_nonempty vs uss vs' : apply_blocks apply vs uss = Ok vs' -> vs <> ∅ -> vs' <> ∅.
Proof.
  unfold apply_blocks. revert vs. induction uss as [|us uss IH]; intros vs; cbn [fold_ok].
  - by intros [= <-].
  - intros (vs1 & H1 & H)%outcome_bind_ok Hvs. apply (IH vs1 H).
    destruct us as [|u us]; [|by apply (cs_nonempty _ Hcs _ _ _ H1)].
    by apply (cs_effect _ Hcs) in H1 as ->.
Qed.

(** Updates that remove a validator which is not in the set are refused. *)
Lemma removal_refused vs us v pk :
  v ∈ us -> upd_Power v = 0 -> upd_PubKey v = pk -> vs !! CmtPublicKey_String pk = None ->
  is_ok (apply vs us) = false.
Proof.
  intros Hv Hp <- Hn. destruct (apply vs us) as [vs'|e|t] eqn:E; [exfalso|done..].
  destruct (cs_member _ Hcs _ _ _ _ E Hv Hp) as [p Hs]. congruence.
Qed.
End accepted.

(** A function with these laws: it refuses what they exclude. *)
Definition strict_apply (vs : gmap string Z) (us : list ValidatorUpdate) : outcome (gmap string Z) :=
  if forallb (fun u => negb (upd_Power u =? 0) || bool_decide (is_Some (vs !! CmtPublicKey_String (upd_PubKey u)))) us
  then match us with
       | [] => Ok vs
       | _ => if bool_decide (effect vs us = ∅) then Err (ErrText "empty set") else Ok (effect vs us)
       end
  else Err (ErrText "failed to find validator").

Lemma strict_change_set : change_set strict_apply.
Proof.
  assert (forall vs us vs', strict_apply vs us = Ok vs' ->
    vs' = effect vs us /\ (us <> [] -> vs' <> ∅) /\
    forall u, u ∈ us -> upd_Power u = 0 -> is_Some (vs !! CmtPublicKey_String (upd_PubKey u))) as H.
  { intros vs us vs'. unfold strict_apply. destruct (forallb _ us) eqn:Hf; [|done]. intros Hr.
    rewrite forallb_forall in Hf. split_and!.
    - destruct us; [by injection Hr|]. case_bool_decide; [done|]. by injection Hr.
    - intros Hne. destruct us; [done|]. case_bool_decide; [done|]. by injection Hr as <-.
    - intros u Hu Hp. specialize (Hf u (proj1 (list_elem_of_In _ _) Hu)). rewrite Hp in Hf. cbn in Hf.
      by apply bool_decide_eq_true in Hf. }
  split; intros vs us vs'; [intros Hr|intros u Hr|intros Hr]; destruct (H vs us vs' Hr) as (H1 & H2 & H3); auto.
Qed.

(** ** The immediate migration *)

Definition seq_as_attester (seq : types_Sequencer) : types_Attester :=
  mkAttester (seq_Name seq) (seq_ConsensusPubkey seq).

Lemma migrateToSequencer_run m vals pk :
  keys_ok vals -> key_of (seq_ConsensusPubkey (mig_Sequencer m)) = Some pk ->
  mig_Attesters m = [] ->
  migrateToSequencer m vals = Ok (zeros (oldValsToRemove m vals) ++ [mkUpdate _ pk 1]).
Proof.
  intros Hk Hpk Ha. unfold migrateToSequencer.
  assert (Sequencer_TmConsPublicKey (mig_Sequencer m) = Ok pk) as ->.
  { apply (key_of_att (seq_as_attester (mig_Sequencer m)) pk Hpk). }
  cbn [mbind outcome_bind]. unfold remove_others.
  rewrite (filtered_zero_fold vals [] (fun v => Any_Equal (ConsensusPubkey v)
    (seq_ConsensusPubkey (mig_Sequencer m)))); [|done|].
  - unfold oldValsToRemove. by rewrite Ha.
  - intros acc v p Hp. rewrite (ZeroUpdate_ok v p) by (by apply key_of_val). cbn.
    by destruct (Any_Equal _ _).
Qed.

Lemma migrateToAttesters_run m vals :
  keys_ok vals -> att_keys_ok (mig_Attesters m) -> mig_Attesters m <> [] ->
  migrateToAttesters m vals = Ok (zeros (oldValsToRemove m vals) ++ ones (mig_Attesters m)).
Proof.
  intros Hk Hak Ha. unfold migrateToAttesters.
  rewrite (filtered_zero_fold vals [] (fun v =>
    bool_decide (Any_String (ConsensusPubkey v) ∈ attester_keys (mig_Attesters m)))); [|done|].
  - cbn [mbind outcome_bind]. rewrite attester_fold by done. do 3 f_equal.
    unfold oldValsToRemove. destruct (mig_Attesters m) eqn:E; [done|].
    cbn [app]. f_equal. apply list_filter_iff. intros v. apply bool_decide_eq_false.
  - intros acc v p Hp. rewrite (ZeroUpdate_ok v p) by (by apply key_of_val).
    by case_bool_decide.
Qed.

Lemma elem_of_oldVals_sequencer m vals v :
  mig_Attesters m = [] ->
  v ∈ oldValsToRemove m vals <->
    v ∈ vals /\ ConsensusPubkey v <> seq_ConsensusPubkey (mig_Sequencer m).
Proof.
  intros Ha. unfold oldValsToRemove. rewrite Ha, list_elem_of_filter, Any_Equal_eq.
  rewrite bool_decide_eq_false. tauto.
Qed.

Lemma elem_of_oldVals_attesters m vals v :
  mig_Attesters m <> [] ->
  v ∈ oldValsToRemove m vals <->
    v ∈ vals /\ ConsensusPubkey v ∉ att_ConsensusPubkey <$> mig_Attesters m.
Proof.
  intros Ha. unfold oldValsToRemove. destruct (mig_Attesters m) as [|t l] eqn:E; [done|].
  rewrite list_elem_of_filter. unfold attester_keys. rewrite elem_of_list_to_set.
  assert (forall k, Any_String k ∈ (fun a => Any_String (att_ConsensusPubkey a)) <$> (t :: l) <->
    k ∈ att_ConsensusPubkey <$> (t :: l)) as ->; [|tauto].
  intros k. rewrite !list_elem_of_fmap. split.
  - intros (a & Hk%Any_String_inj & Hin). eauto.
  - intros (a & -> & Hin). eauto.
Qed.

(** The validator set holds validators of the last set only. *)
Definition set_of (vs : gmap string Z) (vals : list Validator) : Prop :=
  forall k, is_Some (vs !! k) -> k ∈ val_keys vals.

Definition sequencer_updates (m : RollkitMigration) (vals : list Validator) (pk : CmtPublicKey) :
    list ValidatorUpdate :=
  zeros (oldValsToRemove m vals) ++ [mkUpdate _ pk 1].

Lemma migrateNow_run m vals pk s :
  mig_Attesters m = [] -> keys_ok vals ->
  key_of (seq_ConsensusPubkey (mig_Sequencer m)) = Some pk ->
  migrateNow m vals s =
    (set_Sequencer (Some (mig_Sequencer m)) s, Ok (sequencer_updates m vals pk)).
Proof.
  intros Ha Hk Hpk. unfold migrateNow. rewrite run_bind, run_lift, Ha.
  by rewrite (migrateToSequencer_run m vals pk).
Qed.

Lemma sequencer_updates_effect m vals pk vs :
  mig_Attesters m = [] -> key_of (seq_ConsensusPubkey (mig_Sequencer m)) = Some pk ->
  set_of vs vals ->
  effect vs (sequencer_updates m vals pk) = {[CmtPublicKey_String pk := 1]}.
Proof.
  intros Ha Hpk Hvs. apply map_eq. intros k.
  unfold sequencer_updates. rewrite effect_app. unfold effect at 1. cbn [foldl].
  rewrite effect1_lookup, effect_zeros. cbn [Z.eqb]. rewrite lookup_singleton.
  case_decide as Ek; [done|]. case_decide as Hin; [done|].
  destruct (vs !! k) eqn:E; [exfalso|done]. apply Hin, elem_of_val_keys.
  destruct (proj1 (elem_of_val_keys vals k)) as (v & Hv & Hvk); [apply Hvs; by rewrite E|].
  exists v. split; [|done]. apply elem_of_oldVals_sequencer; [done|]. split; [done|].
  intros Heq. unfold val_key in Hvk. rewrite Heq, Hpk in Hvk. cbn in Hvk. congruence.
Qed.

(** The updates of the migration to a sequencer, when they are accepted, turn
    every validator set made of the last validators into the set of the
    sequencer alone, with power 1; and the sequencer is recorded. *)
Theorem migrateNow_sequencer m vals pk vs s :
  mig_Attesters m = [] -> keys_ok vals ->
  key_of (seq_ConsensusPubkey (mig_Sequencer m)) = Some pk ->
  set_of vs vals ->
  exists us, migrateNow m vals s = (set_Sequencer (Some (mig_Sequencer m)) s, Ok us) /\
    forall apply vs', change_set apply -> apply vs us = Ok vs' -> vs' = {[CmtPublicKey_String pk := 1]}.
Proof.
  intros Ha Hk Hpk Hvs. eexists. split; [by apply migrateNow_run|].
  intros apply vs' Hcs ->%(cs_effect _ Hcs). by apply sequencer_updates_effect.
Qed.

(** Whoever is removed once cannot be removed again: the updates are refused
    by a set without one of the validators they remove. *)
Lemma sequencer_updates_refused apply m vals pk vs v :
  change_set apply -> keys_ok vals -> mig_Attesters m = [] -> v ∈ oldValsToRemove m vals ->
  (forall k, val_key v = Some k -> vs !! k = None) ->
  is_ok (apply vs (sequencer_updates m vals pk)) = false.
Proof.
  intros Hcs Hk Ha Hv Hgone. pose proof Hv as [Hin _]%elem_of_oldVals_sequencer; [|done].
  unfold keys_ok in Hk. rewrite Forall_forall in Hk. destruct (Hk v Hin) as [p Hp].
  apply (removal_refused apply Hcs vs _ (mkUpdate _ p 0) p); [|done..|].
  - unfold sequencer_updates. apply elem_of_app. left. unfold zeros. apply list_elem_of_omap.
    exists v. by rewrite Hp.
  - apply Hgone. unfold val_key. by rewrite Hp.
Qed.

Lemma sequencer_updates_twice apply m vals pk vs v :
  change_set apply -> keys_ok vals -> mig_Attesters m = [] ->
  key_of (seq_ConsensusPubkey (mig_Sequencer m)) = Some pk ->
  v ∈ vals -> val_key v <> Some (CmtPublicKey_String pk) ->
  is_ok (apply_blocks apply vs [sequencer_updates m vals pk; sequencer_updates m vals pk]) = false.
Proof.
  intros Hcs Hk Ha Hpk Hv Hne. unfold apply_blocks. cbn [fold_ok].
  destruct (apply vs (sequencer_updates m vals pk)) as [vs1|e|t] eqn:E; [|done..].
  apply (cs_effect _ Hcs) in E as ->. cbn [mbind outcome_bind].
  assert (v ∈ oldValsToRemove m vals) as Hold.
  { apply elem_of_oldVals_sequencer; [done|]. split; [done|]. intros Heq. apply Hne.
    unfold val_key. by rewrite Heq, Hpk. }
  pose proof (sequencer_updates_refused apply m vals pk (effect vs (sequencer_updates m vals pk)) v
    Hcs Hk Ha Hold) as Hr.
  destruct (apply _ _) as [vs2|e|t]; [|done..]. cbn in Hr. apply Hr. intros k Hvk.
  unfold sequencer_updates. rewrite effect_app. unfold effect at 1. cbn [foldl].
  rewrite effect1_lookup, effect_zeros, decide_False by congruence.
  rewrite decide_True; [done|]. apply elem_of_val_keys. by exists v.
Qed.

(** The updates of the migration to attesters, when they are accepted, turn
    every validator set made of the last validators into the set of the
    attesters, each with power 1. *)
Theorem migrateNow_attesters m vals vs s :
  mig_Attesters m <> [] -> keys_ok vals -> att_keys_ok (mig_Attesters m) -> set_of vs vals ->
  exists us, migrateNow m vals s = (set_Sequencer (Some (mig_Sequencer m)) s, Ok us) /\
    forall apply vs', change_set apply -> apply vs us = Ok vs' ->
      forall k, vs' !! k = if decide (k ∈ att_keys (mig_Attesters m)) then Some 1 else None.
Proof.
  intros Ha Hk Hak Hvs. unfold migrateNow. rewrite run_bind, run_lift.
  pose proof (migrateToAttesters_run m vals Hk Hak Ha) as Hrun.
  destruct (mig_Attesters m) as [|t l] eqn:E; [done|]. rewrite Hrun.
  eexists. split; [done|].
  intros apply vs' Hcs ->%(cs_effect _ Hcs) k. rewrite effect_app, effect_ones, effect_zeros.
  case_decide as Hin; [done|]. case_decide as Hold; [done|].
  destruct (vs !! k) eqn:Ek; [exfalso|done]. apply Hold, elem_of_val_keys.
  destruct (proj1 (elem_of_val_keys vals k)) as (v & Hv & Hvk); [apply Hvs; by rewrite Ek|].
  exists v. split; [|done]. apply elem_of_oldVals_attesters; [by rewrite E|]. split; [done|].
  rewrite E, list_elem_of_fmap. intros (a & Heq & Hina). apply Hin.
  apply list_elem_of_omap. exists a. split; [done|]. unfold att_key. by rewrite <- Heq.
Qed.
End migration.
