(* ===== verification/SmoothProps.v ===== *)
(** * The smoothed migration, block by block

    [run_blocks] runs [EndBlock] at consecutive heights with a staking module
    that keeps answering the same validators, and collects the updates. *)

From Stdlib Require Import ZArith Lia.
From stdpp Require Import base gmap strings list pretty.
From S2P Require Import Prelude Sdk Rollkitmngr MigrationProps.

Open Scope Z_scope.

(** ** The share of a step *)

Lemma per_step_nonneg n : 0 <= n -> 0 <= per_step n.
Proof. intros Hn. unfold per_step, IBCSmoothingFactor. apply Z.quot_pos; lia. Qed.

Lemma per_step_bounds n : 0 <= n -> n <= 30 * per_step n < n + 30.
Proof. intros Hn. unfold per_step, IBCSmoothingFactor. int_lia. Qed.

(** [step_slice] is the [step]-th chunk of the list, when it starts inside. *)
Lemma step_slice_run {A} (l : list A) step :
  0 <= step < 30 -> Z.of_nat (length l) <= 2 ^ 40 ->
  step_slice l step =
    let p := per_step (Z.of_nat (length l)) in
    if step * p <=? Z.of_nat (length l)
    then Ok (take (Z.to_nat p) (drop (Z.to_nat (step * p)) l))
    else Panic "slice bounds out of range".
Proof.
  intros Hs Hn. unfold step_slice. set (n := Z.of_nat (length l)) in *.
  set (p := per_step n). assert (0 <= p) as Hp by (apply per_step_nonneg; lia).
  pose proof (per_step_bounds n ltac:(lia)) as Hb. fold p in Hb.
  change (2 ^ 40) with 1099511627776 in Hn.
  assert (0 <= step * p <= 30 * p) as Hsp by nia.
  rewrite (i64_small step) by (unfold_int; lia). rewrite i64_small by (unfold_int; lia).
  unfold slice. fold n. cbn. destruct (Z.leb_spec 0 (step * p)); [|lia].
  destruct (Z.leb_spec (step * p) n) as [Hle|Hgt].
  - destruct (Z.leb_spec (step * p) (Z.min (step * p + p) n)); [|lia].
    destruct (Z.leb_spec (Z.min (step * p + p) n) n); [|lia]. cbn. f_equal.
    destruct (Z.leb_spec (step * p + p) n).
    + f_equal. lia.
    + rewrite !take_ge; [done|rewrite length_drop; lia..].
  - destruct (Z.leb_spec (step * p) (Z.min (step * p + p) n)); [lia|done].
Qed.

(** The first [k] chunks of a list. *)
Lemma chunks_concat {A} (l : list A) p k :
  concat ((fun i => take p (drop (i * p) l)) <$> seq 0 k) = take (k * p) l.
Proof.
  induction k as [|k IH]; [done|].
  rewrite seq_S, fmap_app, concat_app, IH. cbn. rewrite app_nil_r.
  rewrite Nat.add_comm. apply take_take_drop.
Qed.

Section blocks.
Context {MN : Mngr} {ZU : ZeroUpdate} {HL : MngrLaws}.
Variables (ctx : Z -> Ctx) (m : RollkitMigration) (vals : list Validator).

(** The migration's blocks: the staking module answers [vals] at every height,
    IBC is enabled and there are no attesters. *)
Record smooth_setting : Prop := {
  sm_height h : BlockHeight (Ctx := ctx h) = h;
  sm_vals h : GetLastValidators (stakingKeeper (Ctx := ctx h)) = Ok vals;
  sm_ibc : ibcStoreKey = Some true;
  sm_range : 0 <= mig_BlockHeight m /\ mig_BlockHeight m + 31 <= max_i64;
  sm_attesters : mig_Attesters m = [];
  sm_keys : keys_ok vals;
  sm_length : Z.of_nat (length vals) <= 2 ^ 40
}.

Definition collect (acc : list (list ValidatorUpdate)) (h : Z) :
    M MngrState (list (list ValidatorUpdate)) :=
  us ← EndBlock (C := ctx h); mret (acc ++ [us]).

Definition run_blocks (n : Z) : M MngrState (list (list ValidatorUpdate)) :=
  fold_each (seqZ (mig_BlockHeight m) n) [] collect.

Context (HS : smooth_setting).

Notation old := (oldValsToRemove m vals).
Notation share := (per_step (Z.of_nat (length old))).

Definition chunk (step : Z) : list Validator :=
  take (Z.to_nat share) (drop (Z.to_nat (step * share)) old).

Lemma keys_ok_incl l : (forall v, v ∈ l -> v ∈ vals) -> keys_ok l.
Proof.
  intros Hl. pose proof (sm_keys HS) as Hk. unfold keys_ok in *. rewrite Forall_forall in *.
  intros v Hv. apply Hk. auto.
Qed.

Lemma old_incl v : v ∈ old -> v ∈ vals.
Proof. intros H%elem_of_oldVals_sequencer; [tauto|apply HS]. Qed.

Lemma length_old : Z.of_nat (length old) <= 2 ^ 40.
Proof.
  etrans; [|apply HS]. apply inj_le. unfold oldValsToRemove. rewrite (sm_attesters HS).
  apply length_filter.
Qed.

Lemma keys_ok_chunk k : keys_ok (chunk k).
Proof.
  apply keys_ok_incl. intros v Hv. apply old_incl.
  unfold chunk in Hv. apply list_elem_of_lookup in Hv as [i Hi].
  apply lookup_take_Some in Hi as [Hi _]. rewrite lookup_drop in Hi.
  by eapply list_elem_of_lookup_2.
Qed.

Lemma step_updates_run step :
  0 <= step < 30 ->
  step_updates m vals step =
    if step * share <=? Z.of_nat (length old) then Ok (zeros (chunk step))
    else Panic "slice bounds out of range".
Proof.
  intros Hs. unfold step_updates. rewrite (sm_attesters HS).
  rewrite step_slice_run by (done || apply length_old). cbv zeta.
  destruct (_ <=? _); [|done]. cbn [mbind outcome_bind]. fold (chunk step).
  rewrite zero_fold by apply keys_ok_chunk. done.
Qed.

(** What the first block adds: power 1 for every validator it does not remove. *)
Definition has_key (keys : list string) (v : Validator) : bool :=
  match val_key v with Some k => bool_decide (k ∈ keys) | None => false end.

Definition stay0 : list types_Attester :=
  (fun v => mkAttester (Moniker v) (ConsensusPubkey v)) <$>
    filter (fun v => has_key (val_keys (chunk 0)) v = false) vals.

Lemma zeros_keys l :
  (fun u => CmtPublicKey_String (upd_PubKey u)) <$> zeros l = val_keys l.
Proof.
  unfold zeros, val_keys, val_key. induction l as [|v l IH]; [done|]. cbn.
  destruct (key_of (ConsensusPubkey v)); cbn; [by f_equal|done].
Qed.

Lemma equalize_run : equalize vals (zeros (chunk 0)) = Ok (zeros (chunk 0) ++ ones stay0).
Proof.
  unfold equalize. rewrite zeros_keys.
  rewrite (fold_ok_app vals (zeros (chunk 0)) (fun v =>
    if has_key (val_keys (chunk 0)) v then None
    else (fun pk => mkUpdate _ pk 1) <$> key_of (ConsensusPubkey v))).
  - do 2 f_equal. unfold ones, stay0. clear. induction vals as [|v l IH]; [done|].
    cbn [omap list_omap]. destruct (has_key _ v) eqn:E.
    + rewrite filter_cons_False by congruence. apply IH.
    + rewrite filter_cons_True by done. cbn. destruct (key_of _); cbn; [by f_equal|done].
  - intros acc v Hv. pose proof (sm_keys HS) as Hk. unfold keys_ok in Hk.
    rewrite Forall_forall in Hk. destruct (Hk v Hv) as [pk Hpk].
    rewrite (key_of_val v pk Hpk). cbn. unfold has_key, val_key. rewrite Hpk. cbn.
    assert (bool_decide (CmtPublicKey_String pk ∈ (list_to_set (val_keys (chunk 0)) : gset string))
      = bool_decide (CmtPublicKey_String pk ∈ val_keys (chunk 0))) as ->.
    { apply bool_decide_ext. apply elem_of_list_to_set. }
    case_bool_decide; cbn; [by rewrite app_nil_r|done].
Qed.

Definition block_updates (step : Z) : list ValidatorUpdate :=
  zeros (chunk step) ++ (if step =? 0 then ones stay0 else []).

(** One block of the smoothed migration. *)
Lemma EndBlock_smooth s step :
  MigrationItem s = Some m -> default 0 (MigrationStep s) = step -> 0 <= step < 30 ->
  EndBlock (C := ctx (mig_BlockHeight m + step)) s =
    if step * share <=? Z.of_nat (length old)
    then (set_MigrationStep (Some (step + 1)) s, Ok (block_updates step))
    else (s, Panic "slice bounds out of range").
Proof.
  intros Hm Hstep Hs. pose proof (sm_range HS) as [Hr1 Hr2].
  unfold EndBlock. run. unfold IsMigrating, isIBCEnabled. rewrite Hm, (sm_ibc HS), (sm_height HS).
  cbn [negb]. unfold IBCSmoothingFactor. rewrite !u64_small by (unfold_int; lia).
  destruct (Z.leb_spec (mig_BlockHeight m) (mig_BlockHeight m + step)); [|lia].
  destruct (Z.leb_spec (mig_BlockHeight m + step) (mig_BlockHeight m + 30)); [|lia].
  destruct (Z.ltb_spec (mig_BlockHeight m + step) (mig_BlockHeight m)); [lia|].
  cbn [andb negb orb]. run. rewrite (sm_vals HS). run. rewrite ?Hm. run. rewrite ?(sm_vals HS). run.
  unfold migrateOver. run. rewrite Hstep. unfold IBCSmoothingFactor.
  destruct (Z.leb_spec 30 step); [lia|]. run. rewrite step_updates_run by done.
  destruct (_ <=? _); [|done]. run. rewrite u64_small by (unfold_int; lia).
  unfold block_updates. destruct (Z.eqb_spec step 0) as [->|]; run.
  - by rewrite equalize_run.
  - by rewrite app_nil_r.
Qed.

Lemma run_blocks_snoc k s :
  0 <= k ->
  run_blocks (k + 1) s =
    (us ← run_blocks k; collect us (mig_BlockHeight m + k)) s.
Proof.
  intros Hk. unfold run_blocks. rewrite seqZ_app by lia. rewrite fold_each_app, run_bind, run_bind.
  change (seqZ (mig_BlockHeight m + k) 1) with [mig_BlockHeight m + k].
  destruct (fold_each _ _ _ _) as [s' [us|e|t]]; [|done..]. cbn [fold_each].
  rewrite run_bind. by destruct (collect _ _ _) as [? []].
Qed.

Lemma collect_run acc h s s' r :
  EndBlock (C := ctx h) s = (s', r) -> collect acc h s = (s', us ← r; Ok (acc ++ [us])).
Proof. intros H. unfold collect. rewrite run_bind, H. by destruct r. Qed.

(** The first [k] blocks, as long as the shares start inside the list. *)
Lemma run_blocks_ok s k :
  MigrationItem s = Some m -> MigrationStep s = None -> 0 < k <= 30 ->
  (k - 1) * share <= Z.of_nat (length old) ->
  run_blocks k s =
    (set_MigrationStep (Some k) s, Ok (block_updates <$> seqZ 0 k)).
Proof.
  intros Hm Hs Hk Hfit. assert (0 <= share) as Hsh by (apply per_step_nonneg; lia).
  assert (exists n, k = Z.of_nat n + 1) as [n ->] by (exists (Z.to_nat (k - 1)); lia).
  induction n as [|n IH].
  - rewrite run_blocks_snoc by lia. rewrite run_bind.
    change (run_blocks (Z.of_nat 0) s) with (s, Ok (A := list (list ValidatorUpdate)) []).
    cbv iota beta. change (Z.of_nat 0) with 0 in *. change (0 + 1) with 1 in *.
    pose proof (EndBlock_smooth s 0 Hm ltac:(by rewrite Hs) ltac:(lia)) as HE.
    destruct (Z.leb_spec (0 * share) (Z.of_nat (length old))); [|lia].
    rewrite (collect_run _ _ _ _ _ HE). cbn [mbind outcome_bind].
    done.
  - replace (Z.of_nat (S n)) with (Z.of_nat n + 1) in * by lia.
    rewrite run_blocks_snoc by lia. rewrite run_bind, IH by nia.
    pose proof (EndBlock_smooth (set_MigrationStep (Some (Z.of_nat n + 1)) s) (Z.of_nat n + 1)
      Hm eq_refl ltac:(lia)) as HE.
    destruct (Z.leb_spec ((Z.of_nat n + 1) * share) (Z.of_nat (length old))); [|nia].
    rewrite (collect_run _ _ _ _ _ HE). cbn [mbind outcome_bind]. do 2 f_equal.
    rewrite (seqZ_app 0 (Z.of_nat n + 1) 1) by lia.
    by rewrite fmap_app, Z.add_0_l.
Qed.

Lemma zeros_app l1 l2 : zeros (l1 ++ l2) = zeros l1 ++ zeros l2.
Proof. apply omap_app. Qed.

Lemma zeros_concat ls : zeros (concat ls) = concat (zeros <$> ls).
Proof. induction ls as [|l ls IH]; [done|].
  cbn [concat fmap list_fmap]. by rewrite zeros_app, IH.
Qed.

Definition later_chunks : list Validator := concat (chunk <$> seqZ 1 29).

Lemma chunks_old : chunk 0 ++ later_chunks = old.
Proof.
  assert (0 <= share) as Hsh by (apply per_step_nonneg; lia).
  change (chunk 0 ++ later_chunks) with (concat (chunk <$> seqZ 0 30)).
  pose proof (chunks_concat old (Z.to_nat share) 30) as H.
  pose proof (per_step_bounds (Z.of_nat (length old)) ltac:(lia)) as Hb.
  rewrite take_ge in H by lia. etrans; [|exact H]. f_equal.
  unfold seqZ. rewrite <- list_fmap_compose. apply list_fmap_ext. intros i x _. cbn.
  unfold chunk. do 2 f_equal. lia.
Qed.

Lemma all_updates :
  concat (block_updates <$> seqZ 0 30) = (zeros (chunk 0) ++ ones stay0) ++ zeros later_chunks.
Proof.
  change (seqZ 0 30) with (0 :: seqZ 1 29). cbn [fmap list_fmap concat]. f_equal.
  unfold later_chunks. rewrite zeros_concat, <- list_fmap_compose. f_equal.
  apply list_fmap_ext. intros i x Hi. cbn. unfold block_updates.
  apply lookup_seqZ in Hi as [-> Hi]. destruct (Z.eqb_spec (1 + Z.of_nat i) 0); [lia|].
  apply app_nil_r.
Qed.

Lemma elem_of_stay0 k :
  k ∈ att_keys stay0 <-> k ∈ val_keys vals /\ k ∉ val_keys (chunk 0).
Proof.
  unfold att_keys, stay0. rewrite list_elem_of_omap, elem_of_val_keys. split.
  - intros (a & Ha & Hk). apply list_elem_of_fmap in Ha as (v & -> & Hv).
    apply list_elem_of_filter in Hv as [Hh Hv]. change (val_key v = Some k) in Hk.
    split; [by eauto|]. unfold has_key in Hh. rewrite Hk in Hh.
    by apply bool_decide_eq_false in Hh.
  - intros [(v & Hv & Hk) Hn]. exists (mkAttester (Moniker v) (ConsensusPubkey v)).
    split; [|done]. apply list_elem_of_fmap. exists v. split; [done|].
    apply list_elem_of_filter. split; [|done]. unfold has_key. rewrite Hk.
    by apply bool_decide_eq_false.
Qed.

(** The validators to remove are gone after the thirty blocks, and nobody else
    is left of a set of the last validators. *)
Lemma smooth_effect vs k :
  effect vs (concat (block_updates <$> seqZ 0 30)) !! k =
    if decide (k ∈ val_keys old) then None
    else if decide (k ∈ val_keys vals) then Some 1 else vs !! k.
Proof.
  rewrite all_updates, !effect_app, effect_zeros, effect_ones, effect_zeros.
  assert (k ∈ val_keys old <-> k ∈ val_keys (chunk 0) \/ k ∈ val_keys later_chunks) as Hold.
  { rewrite <- chunks_old. unfold val_keys. rewrite omap_app. apply elem_of_app. }
  rewrite (decide_ext _ _ _ _ Hold), (decide_ext _ _ _ _ (elem_of_stay0 k)).
  repeat case_decide; tauto.
Qed.

(** Each of them is removed exactly once in these blocks. *)
Definition removals (us : list ValidatorUpdate) : list ValidatorUpdate :=
  filter (fun u => upd_Power u = 0) us.

Lemma removals_zeros l : removals (zeros l) = zeros l.
Proof.
  unfold removals, zeros. induction l as [|v l IH]; [done|]. cbn [omap list_omap].
  destruct (key_of (ConsensusPubkey v)); cbn [fmap option_fmap option_map]; [|exact IH].
  rewrite filter_cons_True by done. by rewrite IH.
Qed.

Lemma removals_ones l : removals (ones l) = [].
Proof.
  unfold removals, ones. induction l as [|a l IH]; [done|]. cbn [omap list_omap].
  destruct (key_of (att_ConsensusPubkey a)); cbn [fmap option_fmap option_map]; [|exact IH].
  by rewrite filter_cons_False.
Qed.

Lemma removals_all : removals (concat (block_updates <$> seqZ 0 30)) = zeros old.
Proof.
  rewrite all_updates. unfold removals. rewrite !filter_app. fold removals.
  pose proof removals_zeros as Hz. pose proof removals_ones as Ho. unfold removals in *.
  by rewrite !Hz, Ho, app_nil_r, <- zeros_app, chunks_old.
Qed.

Lemma length_chunk_updates step : 0 < step -> Z.of_nat (length (block_updates step)) <= share.
Proof.
  intros Hs. unfold block_updates. destruct (Z.eqb_spec step 0); [lia|]. rewrite app_nil_r.
  assert (0 <= share) as Hsh by (apply per_step_nonneg; lia).
  assert (forall l, length (zeros l) <= length l)%nat as Hz.
  { intros l. unfold zeros. induction l as [|v l IH]; [done|]. cbn. destruct (key_of _); cbn; lia. }
  specialize (Hz (chunk step)). unfold chunk in Hz at 2. rewrite length_take in Hz. lia.
Qed.

(** The block after the smoothing: the immediate migration. *)
Lemma EndBlock_last s :
  MigrationItem s = Some m -> MigrationStep s = Some 30 ->
  EndBlock (C := ctx (mig_BlockHeight m + 30)) s =
    migrateNow m vals (set_MigrationStep None s).
Proof.
  intros Hm Hstep. pose proof (sm_range HS) as [Hr1 Hr2].
  unfold EndBlock. run. unfold IsMigrating, isIBCEnabled. rewrite Hm, (sm_ibc HS), (sm_height HS).
  cbn [negb]. unfold IBCSmoothingFactor. rewrite !u64_small by (unfold_int; lia).
  destruct (Z.leb_spec (mig_BlockHeight m) (mig_BlockHeight m + 30)); [|lia].
  destruct (Z.leb_spec (mig_BlockHeight m + 30) (mig_BlockHeight m + 30)); [|lia].
  destruct (Z.ltb_spec (mig_BlockHeight m + 30) (mig_BlockHeight m)); [lia|].
  cbn [andb negb orb]. run. rewrite (sm_vals HS). run. rewrite ?Hm. run. rewrite ?(sm_vals HS). run.
  unfold migrateOver. rewrite run_bind, run_gets, Hstep. reflexivity.
Qed.

Lemma run_blocks_last s pk :
  MigrationItem s = Some m -> MigrationStep s = None ->
  key_of (seq_ConsensusPubkey (mig_Sequencer m)) = Some pk ->
  29 * share <= Z.of_nat (length old) ->
  run_blocks 31 s = (set_Sequencer (Some (mig_Sequencer m)) (set_MigrationStep None s),
    Ok ((block_updates <$> seqZ 0 30) ++ [sequencer_updates m vals pk])).
Proof.
  intros Hm Hs Hpk Hfit. change 31 with (30 + 1). rewrite run_blocks_snoc, run_bind by lia.
  rewrite run_blocks_ok by (done || lia). set (s30 := set_MigrationStep (Some 30) s).
  pose proof (EndBlock_last s30 Hm eq_refl) as HE.
  rewrite (migrateNow_run m vals pk) in HE by (done || apply HS).
  rewrite (collect_run _ _ _ _ _ HE). cbn. by destruct s.
Qed.

(** C25: When the shares stay inside the list of validators to remove, the
    smoothed migration of the module ends: none of its thirty-one end blockers
    fails, and they record the sequencer and clear the step counter.  The first
    thirty remove every validator but the sequencer, each exactly once and in
    order, and after the first block at most a thirtieth of them (rounded up) at
    a time; the last one asks for all these removals once more, and adds the
    sequencer with power 1. *)
Theorem smoothed_migration_ends s pk :
  MigrationItem s = Some m -> MigrationStep s = None ->
  key_of (seq_ConsensusPubkey (mig_Sequencer m)) = Some pk ->
  29 * share <= Z.of_nat (length old) ->
  exists uss last,
    run_blocks 31 s =
      (set_Sequencer (Some (mig_Sequencer m)) (set_MigrationStep None s), Ok (uss ++ [last])) /\
    length uss = 30%nat /\ removals (concat uss) = zeros old /\
    (forall i us, uss !! i = Some us -> i <> 0%nat -> Z.of_nat (length us) <= share) /\
    last = zeros old ++ [mkUpdate _ pk 1].
Proof.
  intros Hm Hs Hpk Hfit. eexists _, _. split; [by apply run_blocks_last|].
  split; [reflexivity|]. split; [apply removals_all|]. split; [|reflexivity].
  intros i us Hi Hne. apply list_lookup_fmap_Some in Hi as (step & -> & Hstep).
  apply lookup_seqZ in Hstep as [-> _]. apply length_chunk_updates. lia.
Qed.

(** C26: The smoothed migration is refused.  CometBFT does not remove a
    validator twice nor the last one: if there is any validator to remove, no
    validator set accepts the updates of the thirty-one blocks, and if the
    sequencer is not one of the last validators, no set of these accepts even
    those of the first thirty. *)
Theorem smoothed_migration_refused s pk apply vs :
  MigrationItem s = Some m -> MigrationStep s = None ->
  key_of (seq_ConsensusPubkey (mig_Sequencer m)) = Some pk ->
  29 * share <= Z.of_nat (length old) -> change_set apply -> old <> [] ->
  exists s' uss last, run_blocks 31 s = (s', Ok (uss ++ [last])) /\ length uss = 30%nat /\
    is_ok (apply_blocks apply vs (uss ++ [last])) = false /\
    ((forall v, v ∈ vals -> ConsensusPubkey v <> seq_ConsensusPubkey (mig_Sequencer m)) ->
     set_of vs vals -> vs <> ∅ -> is_ok (apply_blocks apply vs uss) = false).
Proof.
  intros Hm Hs Hpk Hfit Hcs Hne. eexists _, _, _. split; [by apply run_blocks_last|].
  split; [reflexivity|]. set (uss := block_updates <$> seqZ 0 30).
  assert (forall vs', apply_blocks apply vs uss = Ok vs' -> forall k, vs' !! k =
    if decide (k ∈ val_keys old) then None
    else if decide (k ∈ val_keys vals) then Some 1 else vs !! k) as Hafter.
  { intros vs' ->%(apply_blocks_effect _ Hcs) k. apply smooth_effect. }
  split.
  - rewrite apply_blocks_app. destruct (apply_blocks apply vs uss) as [vs'|e|t] eqn:E; [|done..].
    cbn [mbind outcome_bind]. destruct old as [|v l] eqn:Eold; [done|].
    assert (v ∈ old) as Hv by (rewrite Eold; left).
    apply (sequencer_updates_refused _ _ _ _ _ v); [done|apply HS|apply HS|done|].
    intros k Hk. rewrite (Hafter vs' eq_refl k), decide_True; [done|].
    apply elem_of_val_keys. exists v. by rewrite <- Eold.
  - intros Hout Hvs Hvne. destruct (apply_blocks apply vs uss) as [vs'|e|t] eqn:E; [exfalso|done..].
    apply (apply_blocks_nonempty _ Hcs _ _ _ E Hvne). apply map_eq. intros k.
    rewrite (Hafter vs' eq_refl k), lookup_empty. case_decide as Ho; [done|].
    case_decide as Hv; [|by destruct (vs !! k) eqn:Ek; [destruct Hv; apply Hvs; rewrite Ek|]].
    destruct Ho. apply elem_of_val_keys in Hv as (v & Hv & Hk). apply elem_of_val_keys. exists v.
    split; [|done]. apply elem_of_oldVals_sequencer; [apply HS|]. auto.
Qed.

(** C27: When the last share starts beyond the list, as for every number of
    validators to remove from 1 to 28, the end blocker panics within the thirty
    blocks: the chain stops in the middle of the migration. *)
Theorem smoothed_migration_panics s :
  MigrationItem s = Some m -> MigrationStep s = None ->
  Z.of_nat (length old) < 29 * share ->
  exists k, 0 < k < 30 /\
    run_blocks 30 s = (set_MigrationStep (Some k) s, Panic "slice bounds out of range").
Proof.
  intros Hm Hs Hbad. set (n := Z.of_nat (length old)) in *.
  assert (0 <= n) as Hn0 by apply Nat2Z.is_nonneg.
  pose proof (per_step_bounds n Hn0) as Hb.
  set (p := per_step n) in *. assert (0 < p) as Hsh by lia.
  pose proof (Z.div_mod n p ltac:(lia)) as Hdm. pose proof (Z.mod_pos_bound n p Hsh) as Hmod.
  exists (n / p + 1). assert (0 <= n / p < 29) as Hq.
  { split; [apply Z.div_pos; lia|]. apply Z.div_lt_upper_bound; lia. }
  split; [lia|]. assert (n < (n / p + 1) * p) as Hout by lia.
  unfold run_blocks. replace 30 with ((n / p + 1) + (1 + (28 - n / p))) by lia.
  rewrite seqZ_app by lia. rewrite fold_each_app, run_bind.
  change (fold_each (seqZ (mig_BlockHeight m) (n / p + 1)) [] collect) with (run_blocks (n / p + 1)).
  rewrite run_blocks_ok by (try done; fold n p; lia).
  rewrite seqZ_app by lia. rewrite fold_each_app, run_bind.
  change (seqZ (mig_BlockHeight m + (n / p + 1)) 1) with [mig_BlockHeight m + (n / p + 1)].
  cbn [fold_each]. rewrite run_bind.
  pose proof (EndBlock_smooth (set_MigrationStep (Some (n / p + 1)) s) (n / p + 1)
    Hm eq_refl ltac:(lia)) as HE. fold n p in HE.
  destruct (Z.leb_spec ((n / p + 1) * p) n); [lia|].
  by rewrite (collect_run _ _ _ _ _ HE).
Qed.
End blocks.

(** ** A concrete chain *)

Definition demo_any (i : Z) : Any := mkAny "ed25519" [i].
Definition any_text (a : Any) : string := pretty (Npos (encode (TypeUrl a, AnyValue a))).
Definition key_text (k : list Z) : string := pretty (Npos (encode k)).

#[global] Instance demo_mngr : Mngr := {
  PubKey := list Z;
  CmtPublicKey := list Z;
  GetCachedValue := fun a => if bool_decide (TypeUrl a = "ed25519"%string) then Some (AnyValue a) else None;
  ToCmtProtoPublicKey := fun k => Ok k;
  Any_Equal := fun a b => bool_decide (a = b);
  Any_String := any_text;
  CmtPublicKey_String := key_text;
  CmtConsPublicKey := fun v =>
    if bool_decide (TypeUrl (ConsensusPubkey v) = "ed25519"%string) then Ok (AnyValue (ConsensusPubkey v))
    else Err (ErrWrap "expecting cryptotypes.PubKey" ErrInvalidType);
  mngr_authority := "gov"%string;
  ibcStoreKey := Some true
}.

#[global] Instance demo_zero : ZeroUpdate (H := demo_mngr) := {
  ABCIValidatorUpdateZero := fun v =>
    match CmtConsPublicKey (Mngr := demo_mngr) v with
    | Ok pk => Ok (mkUpdate demo_mngr pk 0)
    | _ => Panic "ABCIValidatorUpdateZero"
    end
}.

#[global] Instance demo_mngr_laws : MngrLaws (ZU := demo_zero).
Proof.
  split; try done.
  - intros [u v] [u' v'] H.
    change (pretty (Npos (encode (u, v))) = pretty (Npos (encode (u', v')))) in H.
    apply (inj (pretty (A := N))) in H. injection H as H. apply (inj encode) in H. congruence.
  - intros p q H. change (pretty (Npos (encode p)) = pretty (Npos (encode q))) in H. apply (inj (pretty (A := N))) in H.
    injection H as H. by apply (inj encode) in H.
  - intros v. cbn. by case_bool_decide.
  - intros v pk H. cbn in *. by rewrite H.
Qed.

Definition demo_vals (n : nat) : list Validator :=
  (fun i => mkValidator "v" (demo_any (Z.of_nat i)) "v" true 1) <$> seq 0 n.
Definition demo_mngr_ctx (vals : list Validator) (h : Z) : Ctx := {|
  BlockHeight := h;
  stakingKeeper := {| GetAllValidators := Ok vals; GetValidator := fun _ => Err (ErrText "unused");
                      GetLastValidators := Ok vals; GetLastTotalPower := Ok 1 |}
|}.
Definition demo_migration : RollkitMigration := mkMigration 100 (mkSequencer "seq" (demo_any 200)) [].
Definition demo_migrating : MngrState := mkMngrState None (Some demo_migration) None.

Lemma demo_smooth n :
  Z.of_nat n <= 2 ^ 40 -> smooth_setting (demo_mngr_ctx (demo_vals n)) demo_migration (demo_vals n).
Proof.
  intros Hn. split; try reflexivity.
  - split; vm_compute; discriminate.
  - apply Forall_fmap, Forall_true. intros i. by eexists.
  - unfold demo_vals. by rewrite length_fmap, length_seq.
Qed.

Lemma demo_set_of n : set_of (MN := demo_mngr) {[key_text [0] := 5]} (demo_vals (S n)).
Proof.
  intros k [p Hp]. apply lookup_singleton_Some in Hp as [<- _].
  apply (elem_of_val_keys (MN := demo_mngr)).
  exists (mkValidator "v" (demo_any 0) "v" true 1). split; [by left|reflexivity].
Qed.

Lemma migrateNow_sequencer_witness :
  exists us, migrateNow demo_migration (demo_vals 1) demo_migrating =
      (set_Sequencer (Some (mig_Sequencer demo_migration)) demo_migrating, Ok us) /\
    strict_apply {[key_text [0] := 5]} us = Ok {[key_text [200] := 1]}.
Proof.
  destruct (migrateNow_sequencer (MN := demo_mngr) demo_migration (demo_vals 1) [200]
    {[key_text [0] := 5]} demo_migrating) as (us & Hus & Heff).
  - reflexivity.
  - apply Forall_fmap, Forall_true. intros i. by eexists.
  - reflexivity.
  - apply demo_set_of.
  - exists us. split; [exact Hus|]. destruct (strict_apply {[key_text [0] := 5]} us) as [vs'|e|t] eqn:E.
    + by rewrite (Heff _ vs' strict_change_set E).
    + vm_compute in Hus. injection Hus as <-. vm_compute in E. discriminate E.
    + vm_compute in Hus. injection Hus as <-. vm_compute in E. discriminate E.
Defined.

Definition demo_attesters : RollkitMigration :=
  mkMigration 100 (mkSequencer "seq" (demo_any 200)) [mkAttester "a" (demo_any 1)].

Lemma migrateNow_attesters_witness :
  exists us vs', migrateNow demo_attesters (demo_vals 1) demo_migrating =
      (set_Sequencer (Some (mig_Sequencer demo_attesters)) demo_migrating, Ok us) /\
    strict_apply {[key_text [0] := 5]} us = Ok vs' /\ vs' !! key_text [0] = None.
Proof.
  destruct (migrateNow_attesters (MN := demo_mngr) demo_attesters (demo_vals 1) {[key_text [0] := 5]} demo_migrating)
    as (us & Hus & Heff).
  - discriminate.
  - apply Forall_fmap, Forall_true. intros i. by eexists.
  - repeat constructor. by eexists.
  - apply demo_set_of.
  - exists us. destruct (strict_apply {[key_text [0] := 5]} us) as [vs'|e|t] eqn:E.
    + exists vs'. split; [exact Hus|]. split; [done|]. rewrite (Heff _ vs' strict_change_set E).
      rewrite decide_False; [reflexivity|].
      change (att_keys (mig_Attesters demo_attesters)) with [key_text [1]].
      rewrite list_elem_of_singleton. vm_compute. discriminate.
    + vm_compute in Hus. injection Hus as <-. vm_compute in E. discriminate E.
    + vm_compute in Hus. injection Hus as <-. vm_compute in E. discriminate E.
Defined.

Lemma smoothed_migration_ends_witness :
  exists uss last, run_blocks (demo_mngr_ctx (demo_vals 29)) demo_migration 31 demo_migrating =
      (set_Sequencer (Some (mig_Sequencer demo_migration)) (set_MigrationStep None demo_migrating),
       Ok (uss ++ [last])) /\ length uss = 30%nat /\ length (removals (concat uss)) = 29%nat.
Proof.
  destruct (smoothed_migration_ends (MN := demo_mngr) _ demo_migration (demo_vals 29)
    (demo_smooth 29 ltac:(vm_compute; discriminate)) demo_migrating [200])
    as (uss & last & Hrun & Hlen & Hrem & _).
  - reflexivity.
  - reflexivity.
  - reflexivity.
  - vm_compute. discriminate.
  - exists uss, last. split; [exact Hrun|]. split; [exact Hlen|]. rewrite Hrem. vm_compute. reflexivity.
Defined.

(** No set of one validator of this chain gets through the first thirty blocks. *)
Lemma smoothed_migration_refused_witness :
  exists s' uss last, run_blocks (demo_mngr_ctx (demo_vals 29)) demo_migration 31 demo_migrating =
      (s', Ok (uss ++ [last])) /\
    is_ok (apply_blocks strict_apply {[key_text [0] := 5]} (uss ++ [last])) = false /\
    is_ok (apply_blocks strict_apply {[key_text [0] := 5]} uss) = false.
Proof.
  destruct (smoothed_migration_refused (MN := demo_mngr) _ demo_migration (demo_vals 29)
    (demo_smooth 29 ltac:(vm_compute; discriminate)) demo_migrating [200] strict_apply {[key_text [0] := 5]})
    as (s' & uss & last & Hrun & _ & H1 & H2).
  - reflexivity.
  - reflexivity.
  - reflexivity.
  - vm_compute. discriminate.
  - apply strict_change_set.
  - vm_compute. discriminate.
  - exists s', uss, last. split; [exact Hrun|]. split; [exact H1|]. apply H2.
    + apply Forall_forall. vm_compute. repeat constructor; discriminate.
    + apply demo_set_of.
    + intros H. apply (f_equal (fun vs => vs !! key_text [0])) in H. vm_compute in H. discriminate H.
Defined.

Lemma smoothed_migration_panics_witness :
  exists k, 0 < k < 30 /\
    run_blocks (demo_mngr_ctx (demo_vals 3)) demo_migration 30 demo_migrating =
      (set_MigrationStep (Some k) demo_migrating, Panic "slice bounds out of range").
Proof.
  apply (smoothed_migration_panics (MN := demo_mngr) _ demo_migration (demo_vals 3)
    (demo_smooth 3 ltac:(vm_compute; discriminate)) demo_migrating).
  - reflexivity.
  - reflexivity.
  - vm_compute. reflexivity.
Defined.
