(* ===== verification/WindowProps.v ===== *)
(** * The window of the migration: message, blockers and queries *)

From Stdlib Require Import ZArith Lia.
From stdpp Require Import base gmap strings list pretty.
From S2P Require Import Prelude Sdk Rollkitmngr MigrationProps SmoothProps.

Open Scope Z_scope.

Section window.
Context {MN : Mngr} {ZU : ZeroUpdate} {C : Ctx}.

Definition window_end (m : RollkitMigration) : Z :=
  mig_BlockHeight m + (if isIBCEnabled then IBCSmoothingFactor else 1).

Lemma IsMigrating_run s m :
  MigrationItem s = Some m -> 0 <= BlockHeight <= max_i64 ->
  0 <= mig_BlockHeight m <= max_i64 ->
  IsMigrating s =
    (mig_BlockHeight m, window_end m,
     bool_decide (mig_BlockHeight m <= BlockHeight <= window_end m)).
Proof.
  intros Hm Hh Hb. unfold IsMigrating, window_end. rewrite Hm, (u64_small BlockHeight)
    by (unfold_int; lia). unfold IBCSmoothingFactor.
  destruct isIBCEnabled; cbn [negb]; rewrite u64_small by (unfold_int; lia); f_equal;
    apply eq_true_iff_eq; rewrite andb_true_iff, bool_decide_eq_true, !Z.leb_le; done.
Qed.

(** The end blocker acts inside the migration's window only, which is the
    start height and the thirty next blocks with IBC, the start height and the
    next block without; outside of it, or with no migration scheduled, it
    returns no update and changes nothing, and in it the sequencer query
    refuses to answer. *)
Theorem EndBlock_outside_window s :
  0 <= BlockHeight <= max_i64 ->
  (forall m, MigrationItem s = Some m -> 0 <= mig_BlockHeight m <= max_i64 /\
     ~ (mig_BlockHeight m <= BlockHeight <= window_end m)) ->
  EndBlock s = (s, Ok []) /\
  (forall seq, Query_Sequencer s = Ok seq <-> SequencerItem s = Some seq).
Proof.
  intros Hh Hm. unfold EndBlock, Query_Sequencer. rewrite run_bind, run_gets.
  destruct (MigrationItem s) as [m|] eqn:E.
  - destruct (Hm m eq_refl) as [Hb Hout]. rewrite (IsMigrating_run s m) by done.
    rewrite bool_decide_false by done. cbn. split; [done|].
    intros seq. destruct (SequencerItem s); split; intros; by simplify_eq.
  - unfold IsMigrating. rewrite E. cbn. split; [done|].
    intros seq. destruct (SequencerItem s); split; intros; by simplify_eq.
Qed.

(** A migration is scheduled exactly by a message of the authority for a
    height that is not in the past; it replaces any migration scheduled
    before, and a refused message changes nothing. *)
Theorem MigrateToRollkit_spec s msg :
  0 <= BlockHeight <= max_i64 ->
  let s' := set_Migration (Some (mkMigration (msg_BlockHeight msg) (msg_Sequencer msg)
              (msg_Attesters msg))) s in
  (MigrateToRollkit msg s = (s', Ok tt) <->
     msg_Authority msg = mngr_authority /\ BlockHeight <= msg_BlockHeight msg) /\
  (forall s'' e, MigrateToRollkit msg s = (s'', Err e) -> s'' = s).
Proof.
  intros Hh. unfold MigrateToRollkit. case_bool_decide as Ha; cbn [negb].
  2: { run. split; [split; [done|intros [E _]; congruence]|]. by intros ? ? [= <- _]. }
  rewrite u64_small by (unfold_int; lia).
  destruct (Z.ltb_spec (msg_BlockHeight msg) BlockHeight).
  - run. split; [split; [done|lia]|]. by intros ? ? [= <- _].
  - run. split; [|done]. split; [intros _; split; [done|lia]|done].
Qed.

(** The pre-blocker fails at the block after the window, and there only,
    and it deletes the scheduled migration as it fails. *)
Theorem PreBlocker_halts s m :
  MigrationItem s = Some m -> 0 <= BlockHeight <= max_i64 ->
  0 <= mig_BlockHeight m <= max_i64 - 31 ->
  PreBlocker s =
    if decide (BlockHeight = window_end m + 1)
    then (set_Migration None s, Err (ErrText "app migration to rollkit is in progress"))
    else (s, Ok tt).
Proof.
  intros Hm Hh Hb. assert (0 <= mig_BlockHeight m <= max_i64) as Hb' by (unfold_int; lia).
  unfold PreBlocker. rewrite run_bind, run_gets, (IsMigrating_run s m Hm Hh Hb').
  assert (0 < window_end m <= max_i64 - 1) as Hw.
  { unfold window_end, IBCSmoothingFactor. unfold_int. destruct isIBCEnabled; lia. }
  rewrite !u64_small by (unfold_int; lia). destruct (Z.ltb_spec 0 (window_end m)); [|lia].
  cbn [andb]. case_decide as Hd.
  - rewrite Hd, Z.eqb_refl. by run.
  - destruct (Z.eqb_spec (window_end m + 1) BlockHeight); [lia|]. by run.
Qed.
End window.

(** Without IBC the window has two blocks, and both run the whole
    migration: the second block emits again the removals of the first, which no
    validator set accepts after them if there was anybody to remove. *)
Theorem migration_without_IBC_repeats {MN : Mngr} {ZU : ZeroUpdate} {HL : MngrLaws}
    (C1 C2 : Ctx) s m vals pk :
  MigrationItem s = Some m -> mig_Attesters m = [] -> isIBCEnabled = false ->
  0 <= mig_BlockHeight m < max_i64 ->
  BlockHeight (Ctx := C1) = mig_BlockHeight m -> BlockHeight (Ctx := C2) = mig_BlockHeight m + 1 ->
  GetLastValidators (stakingKeeper (Ctx := C1)) = Ok vals ->
  GetLastValidators (stakingKeeper (Ctx := C2)) = Ok vals ->
  keys_ok vals -> key_of (seq_ConsensusPubkey (mig_Sequencer m)) = Some pk ->
  exists s', EndBlock (C := C1) s = (s', Ok (sequencer_updates m vals pk)) /\
    EndBlock (C := C2) s' = (s', Ok (sequencer_updates m vals pk)) /\
    forall apply vs v, change_set apply -> v ∈ vals -> val_key v <> Some (CmtPublicKey_String pk) ->
      is_ok (apply_blocks apply vs [sequencer_updates m vals pk; sequencer_updates m vals pk]) = false.
Proof.
  intros Hm Ha Hibc Hb H1 H2 Hv1 Hv2 Hk Hpk.
  assert (forall (C : Ctx) s0, MigrationItem s0 = Some m -> 0 <= BlockHeight <= max_i64 ->
    mig_BlockHeight m <= BlockHeight <= mig_BlockHeight m + 1 ->
    GetLastValidators stakingKeeper = Ok vals ->
    EndBlock s0 = (set_Sequencer (Some (mig_Sequencer m)) s0, Ok (sequencer_updates m vals pk)))
    as Hrun.
  { intros C s0 Hm0 Hh Hw Hv. unfold EndBlock. rewrite run_bind, run_gets.
    assert (0 <= mig_BlockHeight m <= max_i64) as Hb' by (unfold_int; lia).
    rewrite (IsMigrating_run s0 m Hm0 Hh Hb').
    unfold window_end. rewrite Hibc, bool_decide_true by done.
    rewrite u64_small by (unfold_int; lia).
    destruct (Z.ltb_spec BlockHeight (mig_BlockHeight m)); [lia|]. cbn [negb orb].
    rewrite run_bind, run_gets, Hm0, run_bind, run_lift, run_bind, run_lift, Hv.
    rewrite (migrateNow_run m vals pk) by done. done. }
  eexists. split; [apply Hrun; assumption || (unfold_int; lia)|]. split.
  { rewrite Hrun; [by destruct s|exact Hm|unfold_int; lia|unfold_int; lia|exact Hv2]. }
  intros apply vs v Hcs Hv Hne. by apply (sequencer_updates_twice apply m vals pk vs v).
Qed.

Lemma EndBlock_outside_window_witness :
  EndBlock (C := demo_mngr_ctx (demo_vals 3) 99) demo_migrating = (demo_migrating, Ok []).
Proof.
  apply (EndBlock_outside_window (MN := demo_mngr) (C := demo_mngr_ctx (demo_vals 3) 99)).
  - split; vm_compute; discriminate.
  - intros m [= <-]. split; [split; vm_compute; discriminate|]. vm_compute. intros [H _]. by apply H.
Defined.

Definition demo_migrate_msg : MsgMigrateToRollkit :=
  mkMigrateToRollkit "gov" 150 (mkSequencer "seq" (demo_any 7)) [].

Lemma MigrateToRollkit_spec_witness :
  exists s', MigrateToRollkit (C := demo_mngr_ctx [] 99) demo_migrate_msg demo_migrating = (s', Ok tt).
Proof.
  eexists. apply (MigrateToRollkit_spec (C := demo_mngr_ctx [] 99) demo_migrating demo_migrate_msg).
  - split; vm_compute; discriminate.
  - split; [reflexivity|]. vm_compute. discriminate.
Defined.

Lemma PreBlocker_halts_witness :
  PreBlocker (C := demo_mngr_ctx [] 131) demo_migrating =
    (set_Migration None demo_migrating, Err (ErrText "app migration to rollkit is in progress")).
Proof.
  rewrite (PreBlocker_halts (C := demo_mngr_ctx [] 131) demo_migrating demo_migration).
  - reflexivity.
  - reflexivity.
  - split; vm_compute; discriminate.
  - split; vm_compute; discriminate.
Defined.

(** The same chain without the IBC store. *)
Definition demo_mngr_no_ibc : Mngr :=
  {| PubKey := list Z; CmtPublicKey := list Z;
     GetCachedValue := GetCachedValue (Mngr := demo_mngr);
     ToCmtProtoPublicKey := ToCmtProtoPublicKey (Mngr := demo_mngr);
     Any_Equal := Any_Equal (Mngr := demo_mngr); Any_String := Any_String (Mngr := demo_mngr);
     CmtPublicKey_String := CmtPublicKey_String (Mngr := demo_mngr);
     CmtConsPublicKey := CmtConsPublicKey (Mngr := demo_mngr);
     mngr_authority := "gov"%string; ibcStoreKey := None |}.
Definition demo_zero_no_ibc : ZeroUpdate (H := demo_mngr_no_ibc) :=
  {| ABCIValidatorUpdateZero := fun v =>
       match CmtConsPublicKey (Mngr := demo_mngr_no_ibc) v with
       | Ok pk => Ok (mkUpdate demo_mngr_no_ibc pk 0)
       | _ => Panic "ABCIValidatorUpdateZero"
       end |}.

Lemma demo_no_ibc_laws : MngrLaws (ZU := demo_zero_no_ibc).
Proof.
  destruct demo_mngr_laws as [H1 H2 H3 H4 H5]. split; [exact H1|exact H2|exact H3|exact H4|].
  intros v pk H. cbn in *. by rewrite H.
Qed.

Lemma migration_without_IBC_repeats_witness :
  exists s' us, EndBlock (MN := demo_mngr_no_ibc) (ZU := demo_zero_no_ibc)
      (C := demo_mngr_ctx (demo_vals 3) 100) demo_migrating = (s', Ok us) /\
    EndBlock (MN := demo_mngr_no_ibc) (ZU := demo_zero_no_ibc)
      (C := demo_mngr_ctx (demo_vals 3) 101) s' = (s', Ok us) /\ length us = 4%nat.
Proof.
  destruct (migration_without_IBC_repeats (HL := demo_no_ibc_laws)
    (demo_mngr_ctx (demo_vals 3) 100) (demo_mngr_ctx (demo_vals 3) 101)
    demo_migrating demo_migration (demo_vals 3) [200]) as (s' & H1 & H2 & _).
  - reflexivity.
  - reflexivity.
  - reflexivity.
  - split; vm_compute; congruence.
  - reflexivity.
  - reflexivity.
  - reflexivity.
  - reflexivity.
  - apply Forall_fmap, Forall_true. intros i. by eexists.
  - reflexivity.
  - exists s', (sequencer_updates (MN := demo_mngr_no_ibc) demo_migration (demo_vals 3) [200]).
    split; [exact H1|]. split; [exact H2|]. vm_compute. reflexivity.
Defined.
