(* ===== verification/NetworkHistory.v ===== *)
(** * Where the votes of a height come from

    A history of the network module is a sequence of its steps together with
    the list of the votes that the accepted attestations cast.  The votes that
    a state holds are exactly those it started with and those that were cast
    and recorded, each of them once; nothing else adds, moves or removes one.

    The indices, however, belong to the validators of the last rebuild only: a
    vote that was cast before it counts afterwards with the power of whoever
    holds its index then. *)

From Stdlib Require Import ZArith Lia.
From stdpp Require Import base gmap strings list fin_maps sorting pretty.
From S2P Require Import Prelude Bitmap Sdk Types Keeper MsgServer EndBlock Genesis.
From S2P Require Import NetworkInvariant NetworkDemo AttestProps EpochProps GenesisProps.

Open Scope Z_scope.

(** A vote that the handler accepted: who sent it, the sender's index at that
    time, and whether the height's bitmap has a bit for the index. *)
Record Vote : Type := mkVote {
  vote_Validator : string;
  vote_Index : Z;
  vote_Height : Z;
  vote_Recorded : bool
}.

Definition counts_for (h : Z) (v : Vote) : Prop := vote_Height v = h /\ vote_Recorded v = true.

#[global] Instance counts_for_dec h v : Decision (counts_for h v).
Proof. unfold counts_for. apply _. Defined.

(** The indices that the votes of [l] set for the height [h]. *)
Definition cast_set (h : Z) (l : list Vote) : gset Z :=
  list_to_set (vote_Index <$> filter (counts_for h) l).

Lemma cast_set_snoc h l v :
  cast_set h (l ++ [v]) = cast_set h l ∪ (if decide (counts_for h v) then {[vote_Index v]} else ∅).
Proof.
  unfold cast_set. rewrite filter_app, fmap_app, list_to_set_app_L. f_equal.
  case_decide; [rewrite filter_cons_True by done|rewrite filter_cons_False by done]; cbn; set_solver.
Qed.

Section history.
Context {CH : Chain} {HL : LegacyDecLaws Dec}.

(** The steps that are not attestations. *)
Inductive quiet_step (s s' : State) : Prop :=
| quiet_join (C : Ctx) msg : JoinAttesterSet msg s = (s', Ok tt) -> quiet_step s s'
| quiet_leave (C : Ctx) msg : LeaveAttesterSet msg s = (s', Ok tt) -> quiet_step s s'
| quiet_update (C : Ctx) msg : UpdateParams msg s = (s', Ok tt) -> quiet_step s s'
| quiet_end_block (C : Ctx) : EndBlocker s = (s', Ok tt) -> quiet_step s s'.

Lemma quiet_net_step s s' : quiet_step s s' -> net_step s s'.
Proof. intros []; econstructor; eassumption. Qed.

(** The vote that an attestation of [msg] casts in [s], given the bitmap that
    the handler finds or makes. *)
Definition vote_of (msg : MsgAttest) (i : Z) (bm : bytes) : Vote :=
  mkVote (attest_Validator msg) i (attest_Height msg) (bool_decide (0 <= i < bit_len bm)).

Inductive history (s0 : State) : list Vote -> State -> Prop :=
| history_start : history s0 [] s0
| history_attest (C : Ctx) l s msg i bm s' :
    history s0 l s -> Attest msg s = (s', Ok tt) ->
    ValidatorIndex s !! attest_Validator msg = Some i ->
    bitmap_or_new_value (AttestationBitmap s !! attest_Height msg) = Ok bm ->
    history s0 (l ++ [vote_of msg i bm]) s'
| history_quiet l s s' : history s0 l s -> quiet_step s s' -> history s0 l s'.

(** Every sequence of steps has a history. *)
Lemma history_exists s0 l s s' : history s0 l s -> star net_step s s' -> exists l', history s0 l' s'.
Proof.
  intros Hh Hs. revert l Hh. induction Hs as [|s1 s2 s3 Hstep _ IH]; intros l Hh; [by exists l|].
  destruct Hstep as [C msg H|C msg H|C msg H|C msg H|C H].
  - pose proof H as (i & bm & e & eb & Hacc & _)%Attest_ok_inv.
    eapply IH, history_attest; [done..|apply (acc_index _ _ _ _ _ _ Hacc)|apply (acc_bitmap _ _ _ _ _ _ Hacc)].
  - eapply IH, history_quiet, quiet_join; done.
  - eapply IH, history_quiet, quiet_leave; done.
  - eapply IH, history_quiet, quiet_update; done.
  - eapply IH, history_quiet, quiet_end_block; done.
Qed.

(** ** What the quiet steps keep *)

Definition ballots (A : gmap Z bytes) (G : gmap (Z * string) bytes) (s : State) : Prop :=
  AttestationBitmap s = A /\ Signatures s = G.

Section keep.
Context (A : gmap Z bytes) (G : gmap (Z * string) bytes).
Notation kept := (preserves (ballots A G)).

Lemma kept_reads {B} (m : M State B) : reads_only m -> kept m.
Proof. apply preserves_reads_only. Qed.
Lemma kept_modify f :
  (forall s, AttestationBitmap (f s) = AttestationBitmap s /\ Signatures (f s) = Signatures s) ->
  kept (modify f).
Proof. intros Hf. apply preserves_modify. intros s [HA HG]. destruct (Hf s). split; congruence. Qed.

#[local] Hint Extern 1 (preserves _ (modify _)) => apply kept_modify; done : preserves.

Lemma kept_join {C : Ctx} msg : kept (JoinAttesterSet msg).
Proof.
  unfold JoinAttesterSet, IsInAttesterSet, SetAttesterSetMember, EmitEvent. auto 20 with preserves.
Qed.
Lemma kept_leave {C : Ctx} msg : kept (LeaveAttesterSet msg).
Proof.
  unfold LeaveAttesterSet, IsInAttesterSet, RemoveAttesterSetMember, EmitEvent.
  auto 20 with preserves.
Qed.
Lemma kept_update {C : Ctx} msg : kept (UpdateParams msg).
Proof. unfold UpdateParams, SetParams, EmitEvent. auto 20 with preserves. Qed.

Lemma kept_rebuild {C : Ctx} : kept BuildValidatorIndexMap.
Proof.
  unfold BuildValidatorIndexMap, index_step, SetValidatorIndex. auto 20 with preserves.
Qed.

Lemma kept_GetParams : kept GetParams.
Proof. intros s. by rewrite GetParams_run. Qed.
Lemma kept_checkpoint {C : Ctx} h : kept (IsCheckpointHeight h).
Proof. intros s. by rewrite IsCheckpointHeight_run. Qed.
Lemma kept_epoch {C : Ctx} : kept GetCurrentEpoch.
Proof. intros s. by rewrite GetCurrentEpoch_run. Qed.
Lemma kept_bitmap h : kept (GetAttestationBitmap h).
Proof. intros s. by rewrite GetAttestationBitmap_run. Qed.
Lemma kept_epoch_bitmap e : kept (GetEpochBitmap e).
Proof. intros s. by rewrite GetEpochBitmap_run. Qed.
Lemma kept_total {C : Ctx} : kept GetTotalPower.
Proof. intros s. by rewrite GetTotalPower_run. Qed.
Lemma kept_check_err t e : kept (check_err t e).
Proof. unfold check_err. auto with preserves. Qed.
Lemma kept_voted bm : kept (CalculateVotedPower bm).
Proof. apply kept_reads, CalculateVotedPower_reads. Qed.
Lemma kept_quorum v t : kept (CheckQuorum v t).
Proof. apply kept_reads, CheckQuorum_reads. Qed.
Lemma kept_participation {C : Ctx} p eb : kept (check_participation p eb).
Proof. apply kept_reads, check_participation_reads. Qed.

#[local] Hint Resolve kept_join kept_leave kept_update kept_rebuild kept_GetParams kept_checkpoint
  kept_epoch kept_bitmap kept_epoch_bitmap kept_total kept_check_err kept_voted kept_quorum
  kept_participation : preserves.

Lemma kept_end_block {C : Ctx} : kept EndBlocker.
Proof.
  assert (forall h, kept (processCheckpoint h)) as Hc.
  { intros h. unfold processCheckpoint, emitCheckpointHashes, EmitEvent. auto 20 with preserves. }
  assert (forall e, kept (processEpochEnd e)) as He.
  { intros e. unfold processEpochEnd. auto 20 with preserves. }
  unfold EndBlocker. auto 20 with preserves.
Qed.
End keep.

Lemma quiet_step_keeps s s' :
  quiet_step s s' -> AttestationBitmap s' = AttestationBitmap s /\ Signatures s' = Signatures s.
Proof.
  intros [C msg H|C msg H|C msg H|C H].
  - pose proof (kept_join (AttestationBitmap s) (Signatures s) msg s) as HK. rewrite H in HK. by apply HK.
  - pose proof (kept_leave (AttestationBitmap s) (Signatures s) msg s) as HK. rewrite H in HK. by apply HK.
  - pose proof (kept_update (AttestationBitmap s) (Signatures s) msg s) as HK. rewrite H in HK. by apply HK.
  - pose proof (kept_end_block (AttestationBitmap s) (Signatures s) s) as HK. rewrite H in HK. by apply HK.
Qed.

(** ** The votes of a state *)

Lemma votes_after_vote {C : Ctx} s msg s' i bm h :
  Attest msg s = (s', Ok tt) -> ValidatorIndex s !! attest_Validator msg = Some i ->
  bitmap_or_new_value (AttestationBitmap s !! attest_Height msg) = Ok bm ->
  votes s' h = votes s h ∪ cast_set h [vote_of msg i bm].
Proof.
  intros (i' & bm' & e & eb & Hacc & ->)%Attest_ok_inv Hi Hb.
  pose proof (acc_index _ _ _ _ _ _ Hacc) as Hi'. pose proof (acc_bitmap _ _ _ _ _ _ Hacc) as Hb'.
  rewrite Hi in Hi'. rewrite Hb in Hb'. simplify_eq. unfold cast_set, vote_of.
  destruct (decide (h = attest_Height msg)) as [->|Hne].
  - rewrite (votes_after_attest _ _ _ _ _ _ Hacc). case_decide as Hr.
    + rewrite filter_cons_True by (by rewrite bool_decide_true). cbn. set_solver.
    + rewrite filter_cons_False; [cbn; set_solver|]. intros [_ H]. cbn in H.
      by apply bool_decide_eq_true in H.
  - rewrite votes_attest_state, decide_False by done.
    rewrite filter_cons_False; [cbn; set_solver|]. intros [H _]. by apply Hne.
Qed.

(** The invariant of a history, vote by vote. *)
Definition vote_witnessed (s0 : State) (l : list Vote) (s : State) (v : Vote) : Prop :=
  is_Some (Signatures s !! (vote_Height v, vote_Validator v)) /\
  exists l1 s1, history s0 l1 s1 /\ prefix l1 l /\ vote_Validator v ∈ AttesterSet s1 /\
    ValidatorIndex s1 !! vote_Validator v = Some (vote_Index v).

Lemma history_votes s0 l s h : history s0 l s -> votes s h = votes s0 h ∪ cast_set h l.
Proof.
  induction 1 as [|C l s msg i bm s' _ IH Ha Hi Hb|l s s' _ IH Hq].
  - unfold cast_set. cbn. set_solver.
  - rewrite (votes_after_vote _ _ _ _ _ h Ha Hi Hb), IH, cast_set_snoc. unfold cast_set at 2.
    case_decide; [rewrite filter_cons_True by done|rewrite filter_cons_False by done]; cbn; set_solver.
  - unfold votes at 1. destruct (quiet_step_keeps _ _ Hq) as [-> _]. exact IH.
Qed.

(** Where a vote comes from. *)
Lemma votes_sources s0 l s : history s0 l s ->
  forall h i, i ∈ votes s h ->
    i ∈ votes s0 h \/ exists v, v ∈ l /\ counts_for h v /\ vote_Index v = i.
Proof.
  intros Hh h i. rewrite (history_votes s0 l s h Hh), elem_of_union. intros [Hi|Hi]; [by left|].
  right. apply elem_of_list_to_set, list_elem_of_fmap in Hi as (v & -> & [Hc Hv]%list_elem_of_filter).
  by exists v.
Qed.

Lemma history_fresh s0 l s : history s0 l s ->
  forall l1 v l2, l = l1 ++ v :: l2 -> vote_Recorded v = true ->
    vote_Index v ∉ votes s0 (vote_Height v) ∪ cast_set (vote_Height v) l1.
Proof.
  induction 1 as [|C l s msg i bm s' Hh IH Ha Hi Hb|l s s' _ IH Hq]; [by intros []| |done].
  intros l1 v l2 Hl Hrec. destruct l2 as [|w l2 _] using rev_ind.
  - apply app_inj_tail in Hl as [<- <-]. rewrite <- (history_votes s0 l s) by done.
    apply Attest_ok_inv in Ha as (i' & bm' & e & eb & Hacc & _).
    pose proof (bit_set_before _ _ (acc_bitmap _ _ _ _ _ _ Hacc)) as Hv.
    pose proof (acc_index _ _ _ _ _ _ Hacc) as Hi'. rewrite Hi in Hi'. injection Hi' as <-.
    cbn. unfold votes. rewrite <- Hv, elem_of_bit_set, (acc_fresh _ _ _ _ _ _ Hacc). done.
  - rewrite app_comm_cons, app_assoc in Hl. apply app_inj_tail in Hl as [Hl _]. by eapply IH.
Qed.

Lemma history_witnessed s0 l s v : history s0 l s -> v ∈ l -> vote_witnessed s0 l s v.
Proof.
  induction 1 as [|C l s msg i bm s' Hh IH Ha Hi Hb|l s s' _ IH Hq]; [by intros H%elem_of_nil| |].
  - apply Attest_ok_inv in Ha as (i' & bm' & e & eb & Hacc & ->). intros Hv.
    assert (prefix l (l ++ [vote_of msg i bm])) as Hp by apply prefix_app_r, reflexivity.
    apply elem_of_app in Hv as [Hv|Hv%list_elem_of_singleton].
    + destruct (IH Hv) as [Hs (l1 & s1 & H1 & H2 & H3)]. split.
      * cbn. rewrite lookup_insert_is_Some'. by right.
      * exists l1, s1. split; [done|]. split; [by etrans|done].
    + subst v. split.
      * cbn. rewrite lookup_insert_is_Some'. by left.
      * exists l, s. split_and!; try done. apply (acc_member _ _ _ _ _ _ Hacc).
  - intros Hv. destruct (IH Hv) as [Hs Hw]. split; [|exact Hw].
    by destruct (quiet_step_keeps _ _ Hq) as [_ ->].
Qed.

(** C7: Every vote that counts was cast.  In any history of the module the votes
    of a height are those it started with and the indices of the accepted
    attestations for it, each recorded once; every one of them was sent by a
    validator that was an attester with this index at the time and its
    signature is stored.  Joining, leaving, new parameters and end blockers
    never add, move or remove a vote. *)
Theorem votes_are_cast s0 l s :
  history s0 l s ->
  (forall h, votes s h = votes s0 h ∪ cast_set h l) /\
  (forall l1 v l2, l = l1 ++ v :: l2 -> vote_Recorded v = true ->
     vote_Index v ∉ votes s0 (vote_Height v) ∪ cast_set (vote_Height v) l1) /\
  (forall v, v ∈ l -> vote_witnessed s0 l s v).
Proof.
  intros H. split_and!.
  - intros h. by apply history_votes.
  - by eapply history_fresh.
  - intros v. by apply history_witnessed.
Qed.
(** C23: A recorded vote cannot be repeated while the validator keeps its index.
    After any history in which the validator's vote for a height was recorded,
    and in every context, a second message of the validator for this height is
    refused and changes nothing, provided that the validator still has the index
    with which it voted; and when it is still an attester and the height still
    takes votes, the error says that it has already attested.  (With another
    index it can vote again: [rebuild_reassigns_votes].) *)
Theorem second_vote_refused (C : Ctx) s0 l s v msg :
  history s0 l s -> v ∈ l -> vote_Recorded v = true ->
  attest_Validator msg = vote_Validator v -> attest_Height msg = vote_Height v ->
  ValidatorIndex s !! vote_Validator v = Some (vote_Index v) ->
  exists r, Attest msg s = (s, r) /\ is_ok r = false /\
    (attest_Validator msg ∈ AttesterSet s -> takes_votes s (attest_Height msg) ->
     r = Err (ErrWrap "validator already attested" ErrInvalidRequest)).
Proof.
  intros Hh Hv Hrec Ha Hm Hi. apply (Attest_recorded s msg (vote_Index v)); [by rewrite Ha|].
  rewrite Hm, (history_votes s0 l s) by done. apply elem_of_union. right.
  apply elem_of_list_to_set, list_elem_of_fmap. exists v. split; [done|].
  by apply list_elem_of_filter.
Qed.
End history.

(** ** A rebuild of the index gives the votes to other validators *)

(** From height 9 on a validator that is listed before Alice has joined the
    bonded set, with power [p]. *)
Definition ctx_aaron (p h : Z) : Ctx := {|
  BlockHeight := h;
  stakingKeeper := demo_staking
    [mkValidator "aaron" (mkAny "ed25519" [4]) "z" true p; alice; carol; bob] (30 + p)
|}.

Definition demo_start : State := (InitGenesis demo_genesis empty_State).1.

Lemma demo_start_ok : InitGenesis demo_genesis empty_State = (demo_start, Ok tt).
Proof. vm_compute. reflexivity. Qed.

(** [who] votes for height 20 at height 5; then the epoch ends. *)
Definition demo_early_vote (who : string) : State :=
  (Attest (C := demo_ctx 5) (attest_msg who 20) demo_start).1.
Definition demo_rebuilt (p : Z) (who : string) : State :=
  (EndBlocker (C := ctx_aaron p 9) (demo_early_vote who)).1.
Definition demo_second_vote : State :=
  (Attest (C := ctx_aaron 60 11) (attest_msg "alice" 20) (demo_rebuilt 60 "alice")).1.

Lemma demo_second_vote_history :
  history demo_start [mkVote "alice" 0 20 true; mkVote "alice" 1 20 true] demo_second_vote.
Proof.
  apply (history_attest demo_start (ctx_aaron 60 11) [mkVote "alice" 0 20 true] (demo_rebuilt 60 "alice")
    (attest_msg "alice" 20) 1 [1]); [|vm_compute; reflexivity..].
  apply (history_quiet demo_start _ (demo_early_vote "alice")).
  - apply (history_attest demo_start (demo_ctx 5) [] demo_start (attest_msg "alice" 20) 0 [0]);
      [constructor|vm_compute; reflexivity..].
  - apply (quiet_end_block _ _ (ctx_aaron 60 9)). vm_compute. reflexivity.
Qed.

Lemma demo_second_vote_reachable : reachable demo_second_vote.
Proof.
  apply (reachable_demo _ demo_start demo_start_ok).
  apply (star_step _ _ (demo_early_vote "alice")).
  { apply (step_attest _ _ (demo_ctx 5) (attest_msg "alice" 20)). vm_compute. reflexivity. }
  apply (star_step _ _ (demo_rebuilt 60 "alice")).
  { apply (step_end_block _ _ (ctx_aaron 60 9)). vm_compute. reflexivity. }
  eapply star_step; [|apply star_refl].
  apply (step_attest _ _ (ctx_aaron 60 11) (attest_msg "alice" 20)). vm_compute. reflexivity.
Qed.

(** C31: A confirmation without a quorum, and one that is taken back.  There is a
    history from a genesis without votes in which only Alice ever votes for
    height 20, twice, with a ninth of the total power, and the height is soft
    confirmed: after the rebuild her first vote counts for the validator that
    took over her index, and her new index is free to vote again.  And there is
    a reachable state in which a height is soft confirmed before an end blocker
    and not after it, because the voter's index went to a weaker validator. *)
Theorem rebuild_reassigns_votes :
  (exists s0 l s, reachable s /\ history s0 l s /\ votes s0 20 = ∅ /\
     l = [mkVote "alice" 0 20 true; mkVote "alice" 1 20 true] /\
     ValidatorIndex s !! "alice"%string = Some 1 /\ ValidatorPower s !! 1 = Some 10 /\
     GetLastTotalPower (@stakingKeeper (ctx_aaron 60 12)) = Ok 90 /\
     IsSoftConfirmed (C := ctx_aaron 60 12) 20 s = (s, Ok true)) /\
  (exists s s', reachable s /\ IsSoftConfirmed (C := ctx_aaron 1 9) 20 s = (s, Ok true) /\
     EndBlocker (C := ctx_aaron 1 9) s = (s', Ok tt) /\ votes s' 20 = votes s 20 /\
     IsSoftConfirmed (C := ctx_aaron 1 9) 20 s' = (s', Ok false)).
Proof.
  split.
  - exists demo_start. eexists. exists demo_second_vote. split; [apply demo_second_vote_reachable|].
    split; [apply demo_second_vote_history|]. split_and!; vm_compute; reflexivity.
  - exists (demo_early_vote "bob"), (demo_rebuilt 1 "bob"). split.
    + apply (reachable_demo _ demo_start demo_start_ok). eapply star_step; [|apply star_refl].
      apply (step_attest _ _ (demo_ctx 5) (attest_msg "bob" 20)). vm_compute. reflexivity.
    + split_and!; vm_compute; reflexivity.
Qed.

Lemma votes_are_cast_witness :
  votes demo_second_vote 20 = {[0; 1]} /\
  vote_witnessed demo_start [mkVote "alice" 0 20 true; mkVote "alice" 1 20 true] demo_second_vote
    (mkVote "alice" 1 20 true).
Proof.
  destruct (votes_are_cast _ _ _ demo_second_vote_history) as (Hv & _ & Hw). split.
  - rewrite Hv. vm_compute. reflexivity.
  - apply Hw. right. left.
Defined.

(** Alice has voted with index 0; in the next epoch, after an end blocker that
    gives her the same index, she cannot vote again. *)
Definition demo_kept : State := (EndBlocker (C := demo_ctx 9) (demo_early_vote "alice")).1.

Lemma second_vote_refused_witness :
  Attest (C := demo_ctx 11) (NewMsgAttest "alice" 20 [9]) demo_kept =
    (demo_kept, Err (ErrWrap "validator already attested" ErrInvalidRequest)).
Proof.
  destruct (second_vote_refused (demo_ctx 11) demo_start [mkVote "alice" 0 20 true] demo_kept
    (mkVote "alice" 0 20 true) (NewMsgAttest "alice" 20 [9])) as (r & Hr & _ & He).
  - apply (history_quiet demo_start _ (demo_early_vote "alice")).
    + apply (history_attest demo_start (demo_ctx 5) [] demo_start (attest_msg "alice" 20) 0 [0]);
        [constructor|vm_compute; reflexivity..].
    + apply (quiet_end_block _ _ (demo_ctx 9)). vm_compute. reflexivity.
  - left.
  - reflexivity.
  - reflexivity.
  - reflexivity.
  - vm_compute. reflexivity.
  - rewrite Hr, He; [reflexivity| |].
    + vm_compute. reflexivity.
    + split; vm_compute; [discriminate|reflexivity].
Defined.
