(* ===== verification/LivenessProps.v ===== *)
(** * Votes that arrive confirm their height

    Attestations are delivered over the blocks of a chain, each in the context
    of its own block and the way the message router does it: a message that
    fails leaves no trace.  Between them the other steps of the module are taken
    (end blockers, which may rebuild the indices, joins, leaves and new
    parameters), and messages for other heights and of other validators, refused
    ones and repeated ones come in between, in any order. *)

From Stdlib Require Import ZArith Lia.
From stdpp Require Import base gmap strings list fin_maps sorting pretty.
From S2P Require Import Prelude Bitmap Sdk Types Keeper MsgServer EndBlock Genesis.
From S2P Require Import NetworkInvariant NetworkDemo AttestProps NetworkHistory.

Open Scope Z_scope.

Lemma set_power_mono s X Y : powers_ok s -> X ⊆ Y -> set_power s X <= set_power s Y.
Proof.
  intros Hok. revert Y. induction X as [|i X Hi IH] using set_ind_L; intros Y HXY.
  - change (set_power s ∅) with 0. by apply set_power_nonneg.
  - rewrite set_power_insert by done.
    assert (Y = {[i]} ∪ (Y ∖ {[i]})) as HY.
    { apply set_eq. intros x. destruct (decide (x = i)); set_solver. }
    rewrite HY, set_power_insert by set_solver. specialize (IH (Y ∖ {[i]}) ltac:(set_solver)). lia.
Qed.

Section liveness.
Context {CH : Chain} {HL : LegacyDecLaws Dec}.

(** Delivering a message: its writes are kept only when it succeeds. *)
Definition deliver (s : State) (C : Ctx) (msg : MsgAttest) : State :=
  match Attest msg s with (s', Ok _) => s' | _ => s end.

(** A delivered message, with its context and the state that it met. *)
Record Delivery : Type := mkDelivery {
  dl_State : State;
  dl_Ctx : Ctx;
  dl_Msg : MsgAttest
}.

(** The deliveries on the way from [s0], among the other steps. *)
Inductive deliveries (s0 : State) : list Delivery -> State -> Prop :=
| deliveries_start : deliveries s0 [] s0
| deliveries_message l s C msg :
    deliveries s0 l s -> deliveries s0 (l ++ [mkDelivery s C msg]) (deliver s C msg)
| deliveries_quiet l s s' : deliveries s0 l s -> quiet_step s s' -> deliveries s0 l s'.

(** The vote of [a] for [h], delivered while [a] is an attester with index [i]
    and the height takes votes. *)
Record good_vote (h : Z) (a : string) (i : Z) (d : Delivery) : Prop := {
  gv_validator : attest_Validator (dl_Msg d) = a;
  gv_height : attest_Height (dl_Msg d) = h;
  gv_member : a ∈ AttesterSet (dl_State d);
  gv_index : ValidatorIndex (dl_State d) !! a = Some i;
  gv_takes : takes_votes (dl_State d) h
}.

(** The bitmap of [h] has a bit for [i], when it is there at the start and
    whenever an attestation for [h] makes it. *)
Record room (s0 : State) (l : list Delivery) (h i : Z) : Prop := {
  room_index : 0 <= i;
  room_start bm : AttestationBitmap s0 !! h = Some bm -> i < bit_len bm;
  room_made : Forall (fun d => attest_Height (dl_Msg d) = h -> exists bm,
    bitmap_or_new_value (C := dl_Ctx d) None = Ok bm /\ i < bit_len bm) l
}.

Lemma deliver_step s C msg : deliver s C msg = s \/ net_step s (deliver s C msg).
Proof.
  unfold deliver. destruct (Attest msg s) as [s' [[]|e|t]] eqn:E; [right|by left..].
  by apply (step_attest _ _ C msg).
Qed.

Lemma deliveries_Inv s0 l s : deliveries s0 l s -> Inv s0 -> Inv s.
Proof.
  induction 1 as [|l s C msg _ IH|l s s' _ IH Hq]; intros HI; [done| |].
  - destruct (deliver_step s C msg) as [->|Hs]; [auto|]. eapply Inv_step; [|exact Hs]. auto.
  - eapply Inv_step; [by apply IH|by apply quiet_net_step].
Qed.

(** Votes only accumulate. *)
Lemma deliver_votes s C msg h : votes s h ⊆ votes (deliver s C msg) h.
Proof.
  unfold deliver. destruct (Attest msg s) as [s' [[]|e|t]] eqn:E; [|done..].
  apply Attest_ok_inv in E as (i & bm & e & eb & Hacc & ->).
  destruct (decide (h = attest_Height msg)) as [->|Hne].
  - rewrite (votes_after_attest _ _ _ _ _ _ Hacc). case_decide; set_solver.
  - by rewrite votes_attest_state, decide_False.
Qed.

Lemma room_kept s0 l s h i :
  deliveries s0 l s -> room s0 l h i -> forall bm, AttestationBitmap s !! h = Some bm -> i < bit_len bm.
Proof.
  intros Hd [Hi H0 Hl]. induction Hd as [|l s C msg _ IH|l s s' _ IH Hq]; [done| |].
  - apply Forall_app in Hl as [Hl [Hmade _]%Forall_cons]. specialize (IH Hl). cbn [dl_Msg dl_Ctx] in Hmade.
    intros bm. unfold deliver. destruct (Attest msg s) as [s' [[]|e|t]] eqn:E; [|apply IH..].
    apply Attest_ok_inv in E as (j & bm' & e & eb & Hacc & ->). cbn. intros Hbm.
    apply lookup_insert_Some in Hbm as [[Hh <-]|[_ Hbm]]; [|by apply IH].
    rewrite bit_len_SetBit. pose proof (acc_bitmap _ _ _ _ _ _ Hacc) as Hb. rewrite Hh in Hb.
    destruct (AttestationBitmap s !! h) as [b|]; [injection Hb as <-; by apply IH|].
    destruct (Hmade Hh) as (b & Hb' & Hlt). rewrite Hb in Hb'. by injection Hb' as ->.
  - destruct (quiet_step_keeps _ _ Hq) as [-> _]. by apply IH.
Qed.

(** A good vote is recorded, unless it was already. *)
Lemma deliver_good s C msg h a i :
  good_vote h a i (mkDelivery s C msg) -> 0 <= i ->
  (forall bm, AttestationBitmap s !! h = Some bm -> i < bit_len bm) ->
  (exists bm, bitmap_or_new_value None = Ok bm /\ i < bit_len bm) ->
  i ∈ votes (deliver s C msg) h.
Proof.
  intros [<- <- Hm Hi [Hlen Hcp]] Hr Hb (bm0 & Hbm0 & Hlt). cbn in *.
  destruct (decide (i ∈ votes s (attest_Height msg))) as [Hin|Hin]; [by apply deliver_votes|].
  set (bm := default bm0 (AttestationBitmap s !! attest_Height msg)).
  set (e := u64 BlockHeight / EpochLength (default zero_Params (ParamsItem s))).
  set (eb := default bm0 (EpochBitmap s !! e)).
  assert (attest_accepts s msg i bm e eb) as Hacc.
  { split; try done.
    - subst bm. by destruct (AttestationBitmap s !! attest_Height msg).
    - revert Hin. unfold votes. subst bm. destruct (AttestationBitmap s !! _) as [b|]; cbn.
      + rewrite elem_of_bit_set. by destruct (IsSet b i).
      + intros _. pose proof (bit_set_before None bm0 Hbm0) as He. cbn in He.
        apply not_true_is_false. rewrite <- elem_of_bit_set, He. set_solver.
    - subst eb. by destruct (EpochBitmap s !! e). }
  unfold deliver. rewrite (Attest_accepts_run _ _ _ _ _ _ Hacc).
  rewrite (votes_after_attest _ _ _ _ _ _ Hacc), decide_True; [set_solver|].
  split; [done|]. subst bm. destruct (AttestationBitmap s !! _) eqn:Eb; cbn; [by apply Hb|done].
Qed.

(** It then stays, whatever comes after it. *)
Lemma good_vote_counts s0 l s h a i d :
  deliveries s0 l s -> room s0 l h i -> d ∈ l -> good_vote h a i d -> i ∈ votes s h.
Proof.
  intros Hd Hroom Hin Hg. revert Hroom Hin.
  induction Hd as [|l s C msg Hd IH|l s s' Hd IH Hq]; intros Hroom Hin; [by inversion Hin| |].
  - pose proof Hroom as [Hi H0 Hl]. apply Forall_app in Hl as [Hl [Hmade _]%Forall_cons].
    apply elem_of_app in Hin as [Hin|Hin%list_elem_of_singleton].
    + apply deliver_votes, IH; [by split|done].
    + subst d. apply (deliver_good s C msg h a i); [done|done| |].
      * by apply (room_kept s0 l).
      * apply Hmade, (gv_height _ _ _ _ Hg).
  - unfold votes. destruct (quiet_step_keeps _ _ Hq) as [-> _]. by apply IH.
Qed.

Lemma votes_confirm {C : Ctx} s0 l s h p q total (A : gmap string Z) :
  deliveries s0 l s -> Inv s0 -> ParamsItem s = Some p -> unit_fraction (QuorumFraction p) q ->
  (forall a i, A !! a = Some i -> room s0 l h i /\ exists d, d ∈ l /\ good_vote h a i d) ->
  (forall i, i ∈ votes s h -> is_Some (ValidatorPower s !! u16 i)) ->
  GetLastTotalPower stakingKeeper = Ok total -> 0 <= total <= max_i64 -> A <> ∅ ->
  total * raw q / precision <= set_power s (map_img A) ->
  set_power s (votes s h) <= max_u64 ->
  IsSoftConfirmed h s = (s, Ok true).
Proof.
  intros Hd HI0 Hp Hq HA Hpow Ht Htot Hne Hquorum Hmax.
  pose proof (deliveries_Inv _ _ _ Hd HI0) as HI.
  assert (map_img (SA := gset Z) A ⊆ votes s h) as HAs.
  { intros i (a & Ha)%elem_of_map_img. destruct (HA a i Ha) as (Hr & d & Hin & Hg).
    by apply (good_vote_counts s0 l s h a i d). }
  assert (exists bm, AttestationBitmap s !! h = Some bm) as [bm Hbm].
  { destruct (AttestationBitmap s !! h) as [bm|] eqn:E; [by exists bm|]. exfalso.
    unfold votes in HAs at 1. rewrite E in HAs.
    destruct (map_choose A Hne) as (a & i & Ha). apply (elem_of_map_img_2 (SA := gset Z)) in Ha. set_solver. }
  assert (bit_set bm = votes s h) as Hbs by (unfold votes; by rewrite Hbm).
  rewrite (IsSoftConfirmed_some s h bm total); try done.
  - rewrite (CheckQuorum_small s p q) by done. do 2 f_equal. apply Z.leb_le.
    etransitivity; [apply Hquorum|]. rewrite Hbs. apply set_power_mono; [apply (inv_powers s HI)|done].
  - by apply (has_powers_votes s h bm Hbm).
  - apply (inv_powers s HI).
  - by rewrite Hbs.
  - unfold_int. lia.
Qed.

End liveness.

(** *** Votes in two epochs

    Carol's message is refused, Bob votes for height 20 twice, of which the
    second time is refused; the epoch ends and the indices are rebuilt; then
    Alice votes. *)
Definition demo_bob : State :=
  let s := deliver demo_indexed (demo_ctx 11) (attest_msg "carol" 20) in
  deliver (deliver s (demo_ctx 12) (attest_msg "bob" 20)) (demo_ctx 13) (attest_msg "bob" 20).
Definition demo_next_epoch : State := (EndBlocker (C := demo_ctx 19) demo_bob).1.
Definition demo_voted_state : State := deliver demo_next_epoch (demo_ctx 21) (attest_msg "alice" 20).

Definition demo_messages : list Delivery :=
  let s1 := deliver demo_indexed (demo_ctx 11) (attest_msg "carol" 20) in
  let s2 := deliver s1 (demo_ctx 12) (attest_msg "bob" 20) in
  [mkDelivery demo_indexed (demo_ctx 11) (attest_msg "carol" 20);
   mkDelivery s1 (demo_ctx 12) (attest_msg "bob" 20);
   mkDelivery s2 (demo_ctx 13) (attest_msg "bob" 20);
   mkDelivery demo_next_epoch (demo_ctx 21) (attest_msg "alice" 20)].

Lemma demo_epoch_end : EndBlocker (C := demo_ctx 19) demo_bob = (demo_next_epoch, Ok tt).
Proof. vm_compute. reflexivity. Qed.

Lemma demo_deliveries : deliveries demo_indexed demo_messages demo_voted_state.
Proof.
  apply (deliveries_message _ [_; _; _]). eapply deliveries_quiet.
  - apply (deliveries_message _ [_; _]), (deliveries_message _ [_]), (deliveries_message _ []), deliveries_start.
  - apply (quiet_end_block _ _ (demo_ctx 19)), demo_epoch_end.
Qed.

Lemma demo_room i : 0 <= i < 8 -> room demo_indexed demo_messages 20 i.
Proof.
  intros Hi. split; [lia|done|].
  assert (exists bm, NewBitmap 2 = Ok bm /\ bit_len bm = 8) as (bm & Hbm & Hlen)
    by (eexists; split; reflexivity).
  repeat constructor; intros _; exists bm; (split; [exact Hbm|lia]).
Qed.

Lemma demo_takes s : ParamsItem s = Some DefaultParams -> takes_votes s 20.
Proof. unfold takes_votes. intros ->. split; [discriminate|reflexivity]. Qed.

Lemma demo_all_voted a i :
  ({["alice" := 0; "bob" := 1]}%string : gmap string Z) !! a = Some i ->
  room demo_indexed demo_messages 20 i /\ exists d, d ∈ demo_messages /\ good_vote 20 a i d.
Proof.
  intros Ha. apply lookup_insert_Some in Ha as [[<- <-]|[_ Ha]].
  - split; [by apply demo_room|]. eexists. split; [do 3 right; left|].
    split; [done|done|by vm_compute|by vm_compute|by apply demo_takes; vm_compute].
  - apply lookup_singleton_Some in Ha as [<- <-]. split; [by apply demo_room|].
    eexists. split; [right; left|].
    split; [done|done|by vm_compute|by vm_compute|by apply demo_takes; vm_compute].
Qed.

Lemma demo_voted_powers i :
  i ∈ votes demo_voted_state 20 -> is_Some (ValidatorPower demo_voted_state !! u16 i).
Proof.
  assert (votes demo_voted_state 20 = {[0; 1]}) as -> by (vm_compute; reflexivity).
  intros Hi. apply elem_of_union in Hi as [->%elem_of_singleton| ->%elem_of_singleton];
    eexists; vm_compute; reflexivity.
Qed.

