(* ===== verification/Comet.v ===== *)
(** * CometBFT and rollkit as the execution adapter sees them

    The records below are the third-party data whose fields the code reads or
    writes; the functions of [Comet] are third-party code and stay parameters,
    with what the theorems need of them in [CometLaws]. *)

From Stdlib Require Import ZArith Lia.
From stdpp Require Import base gmap strings list.
From S2P Require Import Prelude Bitmap.

Open Scope Z_scope.

(** A [time.Time]: the instant in nanoseconds and the location pointer, which
    [==] compares too. *)
Record Time : Type := mkTime { time_UnixNano : Z; time_Location : Z }.

(** [time.Unix(0, nanoseconds)]: in the location [&localLoc], which is not the
    nil pointer of UTC (0). *)
Definition time_Local : Z := 1.
Definition time_Unix (nanoseconds : Z) : Time := mkTime nanoseconds time_Local.

#[global] Instance Time_eq_dec : EqDecision Time.
Proof. solve_decision. Defined.

Record PartSetHeader : Type := mkPartSetHeader { psh_Total : Z; psh_Hash : bytes }.
Record BlockID : Type := mkBlockID { bid_Hash : bytes; bid_PartSetHeader : PartSetHeader }.

#[global] Instance PartSetHeader_eq_dec : EqDecision PartSetHeader.
Proof. solve_decision. Defined.
#[global] Instance BlockID_eq_dec : EqDecision BlockID.
Proof. solve_decision. Defined.

Definition zero_BlockID : BlockID := mkBlockID [] (mkPartSetHeader 0 []).

(** [cmttypes.BlockIDFlag]: a byte; the protobuf enum has the same values. *)
Definition BlockIDFlagCommit : Z := 2.

Record CommitSig : Type := mkCommitSig {
  cs_BlockIDFlag : Z;
  cs_ValidatorAddress : bytes;
  cs_Timestamp : Time;
  cs_Signature : bytes
}.

Record Commit : Type := mkCommit {
  commit_Height : Z;        (* int64 *)
  commit_Round : Z;         (* int32 *)
  commit_BlockID : BlockID;
  commit_Signatures : list CommitSig
}.

Record CmtHeader : Type := mkCmtHeader {
  hdr_Version_Block : Z;
  hdr_Version_App : Z;
  hdr_ChainID : string;
  hdr_Height : Z;           (* int64 *)
  hdr_Time : Time;
  hdr_LastBlockID : BlockID;
  hdr_LastCommitHash : bytes;
  hdr_DataHash : bytes;
  hdr_ValidatorsHash : bytes;
  hdr_NextValidatorsHash : bytes;
  hdr_ConsensusHash : bytes;
  hdr_AppHash : bytes;
  hdr_LastResultsHash : bytes;
  hdr_EvidenceHash : bytes;
  hdr_ProposerAddress : bytes
}.

(** The evidence list of a block, by its hashes; the code only publishes it. *)
Record Block : Type := mkBlock {
  blk_Header : CmtHeader;
  blk_Txs : list bytes;
  blk_Evidence : list bytes;
  blk_LastCommit : Commit
}.

Record BlockMeta : Type := mkBlockMeta {
  meta_BlockID : BlockID;
  meta_BlockSize : Z;
  meta_Header : CmtHeader;
  meta_NumTxs : Z
}.

(** [rollkit/types.Header] and [SignedHeader]. *)
Record RlkHeader : Type := mkRlkHeader {
  rh_Height : Z;            (* uint64 *)
  rh_Time : Time;
  rh_ChainID : string;
  rh_Version_App : Z;
  rh_DataHash : bytes;
  rh_ConsensusHash : bytes;
  rh_AppHash : bytes;
  rh_LastResultsHash : bytes;
  rh_ProposerAddress : bytes;
  rh_ValidatorHash : bytes
}.
Record SignedHeader : Type := mkSignedHeader { sh_Header : RlkHeader; sh_Signature : bytes }.

(** [abci.ExecTxResult] and [abci.Event]: what the code reads of them. *)
Record ExecTxResult : Type := mkExecTxResult { txr_Code : Z; txr_Data : bytes; txr_Log : string }.
Record AbciEvent : Type := mkAbciEvent {
  aev_Type : string;
  aev_Attributes : list (string * string)
}.

#[global] Instance AbciEvent_eq_dec : EqDecision AbciEvent.
Proof. solve_decision. Defined.

(** [cmttypes.Validator] without its proposer priority. *)
Record CmtValidator : Type := mkCmtValidator {
  cv_PubKey : bytes;
  cv_Address : bytes;
  cv_VotingPower : Z
}.

(** [cmttypes.GenesisValidator] without its name. *)
Record GenesisValidator : Type := mkGenesisValidator {
  gv_Address : bytes;
  gv_PubKey : bytes;
  gv_Power : Z
}.

Record PbValidatorUpdate : Type := mkPbValidatorUpdate { pbu_PubKey : bytes; pbu_Power : Z }.

Class CometTypes : Type := { ConsensusParams : Type; ValidatorSet : Type; ConsensusParamsPb : Type }.

Section data.
Context `{CT : CometTypes}.

(** [abci.ResponseFinalizeBlock] *)
Record ResponseFinalizeBlock : Type := mkResponse {
  fb_Events : list AbciEvent;
  fb_TxResults : list ExecTxResult;
  fb_ValidatorUpdates : list PbValidatorUpdate;
  fb_ConsensusParamUpdates : option ConsensusParamsPb;
  fb_AppHash : bytes
}.

(** [cmtstate.State]: the fields the adapter assigns; it leaves the others at
    their zero values. *)
Record CmtState : Type := mkCmtState {
  st_ChainID : string;
  st_LastBlockHeight : Z;                 (* int64 *)
  st_Validators : ValidatorSet;
  st_NextValidators : ValidatorSet;
  st_LastValidators : ValidatorSet;
  st_LastHeightValidatorsChanged : Z;     (* int64 *)
  st_ConsensusParams : ConsensusParams;
  st_LastHeightConsensusParamsChanged : Z;
  st_AppHash : bytes
}.
End data.

Class Comet `{CT : CometTypes} : Type := {
  header_Hash : CmtHeader -> bytes;
  commit_Hash : Commit -> bytes;
  empty_EvidenceHash : bytes;
  BlockProtocol : Z;
  MakePartSet : Block -> outcome PartSetHeader;
  block_Size : Block -> Z;
  pubkey_Address : bytes -> bytes;
  (** [NewValidatorSet], and the sets' operations. *)
  NewValidatorSet : list CmtValidator -> ValidatorSet;
  vs_Validators : ValidatorSet -> list CmtValidator;
  vs_Proposer : ValidatorSet -> option CmtValidator;
  vs_Hash : ValidatorSet -> bytes;
  UpdateWithChangeSet : ValidatorSet -> list CmtValidator -> outcome ValidatorSet;
  IncrementProposerPriority : ValidatorSet -> Z -> ValidatorSet;
  PB2TM_ValidatorUpdates : list PbValidatorUpdate -> outcome (list CmtValidator);
  TM2PB_ValidatorUpdates : ValidatorSet -> list PbValidatorUpdate;
  params_ToProto : ConsensusParams -> ConsensusParamsPb;
  params_FromProto : ConsensusParamsPb -> ConsensusParams;
  params_Update : ConsensusParams -> ConsensusParamsPb -> ConsensusParams;
  params_ValidateBasic : ConsensusParams -> outcome unit;
  params_ValidateUpdate : ConsensusParams -> ConsensusParamsPb -> Z -> outcome unit;
  params_MaxBytes : ConsensusParams -> Z;
  (** [state.MakeBlock(height, txs, lastCommit, nil, proposer)] *)
  MakeBlock : CmtState -> Z -> list bytes -> Commit -> bytes -> Block;
  (** [cmttypes.VoteSignBytes] of a precommit of round 0 and validator index 0:
      chain, height, block, time, address. *)
  VoteSignBytes : string -> Z -> BlockID -> Time -> bytes -> bytes
}.

(** The documented shape of [MakeBlock]'s result. *)
Class CometLaws `{CM : Comet} : Prop := {
  MakeBlock_Height s h txs c p : hdr_Height (blk_Header (MakeBlock s h txs c p)) = h;
  MakeBlock_AppHash s h txs c p : hdr_AppHash (blk_Header (MakeBlock s h txs c p)) = st_AppHash s;
  MakeBlock_Txs s h txs c p : blk_Txs (MakeBlock s h txs c p) = txs;
  MakeBlock_Evidence s h txs c p : blk_Evidence (MakeBlock s h txs c p) = []
}.
