(* ===== verification/Store.v ===== *)
(** * The execution store ([pkg/store/store.go])

    Three kinds of values (the state, a block ID per height, a block response
    per height) under one prefix of a datastore.  The datastore is a finite map
    from key strings to bytes, and [Get] of a missing key is its [ErrNotFound];
    the protobuf encodings are parameters ([StoreCodec]). *)

From Stdlib Require Import ZArith Lia.
From stdpp Require Import base gmap strings list pretty.
From S2P Require Import Prelude Bitmap Comet.

Open Scope Z_scope.

Class StoreCodec `{CM : Comet} : Type := {
  State_Marshal : CmtState -> outcome bytes;            (* ToProto, then Marshal *)
  State_Unmarshal : bytes -> outcome CmtState;          (* Unmarshal, then FromProto *)
  BlockID_Marshal : BlockID -> outcome bytes;
  BlockID_Unmarshal : bytes -> outcome BlockID;
  Response_Marshal : ResponseFinalizeBlock -> outcome bytes;
  Response_Unmarshal : bytes -> outcome ResponseFinalizeBlock;
  (** The zero [cmtstate.State]. *)
  empty_CmtState : CmtState
}.

(** What CometBFT's encoding of a state keeps: before the first block there are
    no last validators, and [ToProto] leaves them out. *)
Definition stored_state `{CM : Comet} (s : CmtState) : CmtState :=
  if 1 <=? st_LastBlockHeight s then s
  else {| st_ChainID := st_ChainID s; st_LastBlockHeight := st_LastBlockHeight s;
          st_Validators := st_Validators s; st_NextValidators := st_NextValidators s;
          st_LastValidators := NewValidatorSet [];
          st_LastHeightValidatorsChanged := st_LastHeightValidatorsChanged s;
          st_ConsensusParams := st_ConsensusParams s;
          st_LastHeightConsensusParamsChanged := st_LastHeightConsensusParamsChanged s;
          st_AppHash := st_AppHash s |}.

(** The encodings round-trip. *)
Class StoreCodecLaws `{SC : StoreCodec} : Prop := {
  State_roundtrip s d : State_Marshal s = Ok d -> State_Unmarshal d = Ok (stored_state s);
  BlockID_roundtrip b d : BlockID_Marshal b = Ok d -> BlockID_Unmarshal d = Ok b;
  Response_roundtrip r d : Response_Marshal r = Ok d -> Response_Unmarshal d = Ok r
}.

Abbreviation datastore := (gmap string bytes).

Definition ds_ErrNotFound : error := ErrSentinel "datastore.ErrNotFound".

(** [prefixedStore.Get]: the value may be nil for a key that exists. *)
Definition ds_Get (db : datastore) (key : string) : outcome (option bytes) :=
  match db !! key with Some v => Ok (Some v) | None => Err ds_ErrNotFound end.
Definition ds_Put (key : string) (value : bytes) (db : datastore) : datastore :=
  <[key := value]> db.

Definition keyPrefix : string := "abci".
Definition stateKey : string := "s".
Definition blockResponseKey : string := "br".
Definition blockIDKey : string := "bid".

(** [ds.NewKey(k)] and [ChildString]; the wrapped store puts its prefix first. *)
Definition NewKey (k : string) : string := "/" +:+ k.
Definition ChildString (k s : string) : string := k +:+ "/" +:+ s.
Definition prefixed (k : string) : string := NewKey keyPrefix +:+ k.

Definition key_state : string := prefixed (NewKey stateKey).
Definition key_blockID (height : Z) : string :=
  prefixed (ChildString (NewKey blockIDKey) (format_uint height)).
Definition key_blockResponse (height : Z) : string :=
  prefixed (ChildString (NewKey blockResponseKey) (format_uint height)).

Section store.
Context `{SC : StoreCodec}.

Definition LoadState (db : datastore) : outcome CmtState :=
  data ← wrap_outcome "failed to get state metadata" (ds_Get db key_state);
  match data with
  | None => Ok empty_CmtState
  | Some data => wrap_outcome "failed to unmarshal state" (State_Unmarshal data)
  end.

Definition SaveState (state : CmtState) (db : datastore) : outcome datastore :=
  data ← wrap_outcome "failed to marshal state" (State_Marshal state);
  Ok (ds_Put key_state data db).

Definition SaveBlockID (height : Z) (blockID : BlockID) (db : datastore) : outcome datastore :=
  data ← wrap_outcome "failed to marshal block ID" (BlockID_Marshal blockID);
  Ok (ds_Put (key_blockID height) data db).

Definition GetBlockID (db : datastore) (height : Z) : outcome BlockID :=
  data ← wrap_outcome "failed to get block ID" (ds_Get db (key_blockID height));
  match data with
  | None => Err (ErrText "block ID not found for height")
  | Some data => wrap_outcome "failed to unmarshal block ID" (BlockID_Unmarshal data)
  end.

Definition SaveBlockResponse (height : Z) (resp : ResponseFinalizeBlock) (db : datastore) :
    outcome datastore :=
  data ← wrap_outcome "failed to marshal block response" (Response_Marshal resp);
  Ok (ds_Put (key_blockResponse height) data db).

Definition GetBlockResponse (db : datastore) (height : Z) : outcome ResponseFinalizeBlock :=
  data ← wrap_outcome "failed to get block response" (ds_Get db (key_blockResponse height));
  match data with
  | None => Err (ErrText "block response not found for height")
  | Some data => wrap_outcome "failed to unmarshal block response" (Response_Unmarshal data)
  end.
End store.
