(* ===== verification/Cometcompat.v ===== *)
(** * Conversions between rollkit and CometBFT ([pkg/cometcompat], [pkg/signer])

    [convert.go], [signer.go], [validator_hasher.go] and the key wrapper of
    [pkg/signer/signer.go]. *)

From Stdlib Require Import ZArith Lia.
From stdpp Require Import base gmap strings list pretty.
From S2P Require Import Prelude Bitmap Comet Store.

Open Scope Z_scope.

(** ** [convert.go] *)

Section convert.
Context `{CM : Comet}.

Definition ToABCIHeader (header : RlkHeader) (lastCommit : Commit) : outcome CmtHeader :=
  if (length (rh_ProposerAddress header) =? 0)%nat
  then Err (ErrText "proposer address is not set")
  else Ok {| hdr_Version_Block := BlockProtocol;
             hdr_Version_App := rh_Version_App header;
             hdr_Height := i64 (rh_Height header);
             hdr_Time := rh_Time header;
             hdr_LastBlockID := commit_BlockID lastCommit;
             hdr_LastCommitHash := commit_Hash lastCommit;
             hdr_DataHash := rh_DataHash header;
             hdr_ConsensusHash := rh_ConsensusHash header;
             hdr_AppHash := rh_AppHash header;
             hdr_LastResultsHash := rh_LastResultsHash header;
             hdr_EvidenceHash := empty_EvidenceHash;
             hdr_ProposerAddress := rh_ProposerAddress header;
             hdr_ChainID := rh_ChainID header;
             hdr_ValidatorsHash := rh_ValidatorHash header;
             hdr_NextValidatorsHash := rh_ValidatorHash header |}.

Definition ToABCIBlock (header : CmtHeader) (lastCommit : Commit) (data_Txs : list bytes) :
    outcome Block :=
  Ok {| blk_Header := header; blk_Txs := data_Txs; blk_Evidence := []; blk_LastCommit := lastCommit |}.

Definition ToABCIBlockMeta (abciBlock : Block) : outcome BlockMeta :=
  blockParts ← wrap_outcome "make part set" (MakePartSet abciBlock);
  Ok {| meta_BlockID := mkBlockID (header_Hash (blk_Header abciBlock)) blockParts;
        meta_BlockSize := block_Size abciBlock;
        meta_Header := blk_Header abciBlock;
        meta_NumTxs := Z.of_nat (length (blk_Txs abciBlock)) |}.
End convert.

(** ** [signer.go] *)

Section payload.
Context `{SC : StoreCodec}.

(** A failed [GetBlockID] returns a nil block ID, whose [ToProto] is the empty
    protobuf block ID. *)
Definition SignaturePayloadProvider (db : datastore) (header : RlkHeader) : outcome bytes :=
  match GetBlockID db (rh_Height header) with
  | Panic t => Panic t
  | r =>
      if (match r with Err _ => true | _ => false end) && (1 <? rh_Height header)
      then r ≫= fun _ => Ok []
      else
        let blockID := match r with Ok b => b | _ => zero_BlockID end in
        Ok (VoteSignBytes (rh_ChainID header) (i64 (rh_Height header)) blockID (rh_Time header)
              (rh_ProposerAddress header))
  end.
End payload.

(** ** [validator_hasher.go] *)

(** A libp2p public key: its type and the result of [Raw]. *)
Inductive libp2p_KeyType : Type := KeyEd25519 | KeyOther (name : string).
Record libp2p_PubKey : Type := mkLibp2pPubKey {
  pk_Type : libp2p_KeyType;
  pk_Raw : outcome bytes
}.

Definition PubKeySize : Z := 32.
Definition sha256_Size : nat := 32.

(** [copy] into a fresh slice of [n] bytes *)
Definition copy_into (n : nat) (src : bytes) : bytes := take n (src ++ replicate n 0).

Section hasher.
Context `{CM : Comet}.

Definition ValidatorHasherProvider (proposerAddress : bytes) (pubKey : libp2p_PubKey) :
    outcome bytes :=
  cometBftPubKey ←
    (match pk_Type pubKey with
     | KeyEd25519 =>
         rawKey ← wrap_outcome "failed to get raw bytes from libp2p public key" (pk_Raw pubKey);
         if negb (Z.of_nat (length rawKey) =? PubKeySize)
         then Err (ErrText "libp2p public key size does not match CometBFT Ed25519 PubKeySize")
         else Ok rawKey
     | KeyOther _ => Err (ErrText "unsupported public key type")
     end);
  let votingPower := 1 in
  let derivedAddress := pubkey_Address cometBftPubKey in
  let sequencerValidator := mkCmtValidator cometBftPubKey derivedAddress votingPower in
  if negb (bool_decide (derivedAddress = proposerAddress))
  then Err (ErrText "CRITICAL MISMATCH - derived validator address does not match expected proposer address")
  else
    let hashSumBytes := vs_Hash (NewValidatorSet [sequencerValidator]) in
    Ok (copy_into sha256_Size hashSumBytes).
End hasher.

(** ** [pkg/signer/signer.go] *)

(** A CometBFT private key: its type, bytes and address. *)
Record cmt_PrivKey : Type := mkCmtPrivKey {
  priv_Type : string;
  priv_Bytes : bytes;
  priv_Address : bytes
}.

(** The libp2p library: Ed25519 private keys. *)
Class Libp2p : Type := {
  p2p_PrivKey : Type;
  UnmarshalEd25519PrivateKey : bytes -> outcome p2p_PrivKey;
  priv_GetPublic : p2p_PrivKey -> libp2p_PubKey;
  priv_Sign : p2p_PrivKey -> bytes -> outcome bytes
}.

Definition ed25519_KeyType : string := "ed25519".
Definition errNilKey : error := ErrSentinel "node key is nil".
Definition errUnsupportedKeyType : error := ErrSentinel "unsupported key type".

Section signer.
Context `{LP : Libp2p}.

Record signerWrapper : Type := mkSignerWrapper { cmtPrivKey : cmt_PrivKey; p2pPrivKey : p2p_PrivKey }.

(** A nil node key, and a node key without a private key, are [None]. *)
Definition GetNodeKey (nodeKey : option (option cmt_PrivKey)) : outcome p2p_PrivKey :=
  match nodeKey with
  | None | Some None => Err errNilKey
  | Some (Some priv) =>
      if bool_decide (priv_Type priv = ed25519_KeyType) then
        wrap_outcome "error unmarshalling node private key"
          (UnmarshalEd25519PrivateKey (priv_Bytes priv))
      else Err errUnsupportedKeyType
  end.

Definition NewSignerWrapper (cmtPrivKey : option cmt_PrivKey) : outcome signerWrapper :=
  p2pPrivKey ← wrap_outcome "failed to get node key" (GetNodeKey (Some cmtPrivKey));
  match cmtPrivKey with
  | Some priv => Ok (mkSignerWrapper priv p2pPrivKey)
  | None => Err errNilKey
  end.

Definition GetAddress (s : signerWrapper) : outcome bytes := Ok (priv_Address (cmtPrivKey s)).
Definition GetPublic (s : signerWrapper) : outcome libp2p_PubKey := Ok (priv_GetPublic (p2pPrivKey s)).
Definition Sign (s : signerWrapper) (message : bytes) : outcome bytes :=
  priv_Sign (p2pPrivKey s) message.
End signer.
