(* ===== verification/MempoolIDs.v ===== *)
(** * Peer identifiers of the mempool ([pkg/adapter/mempool_ids.go])

    The three operations, which hold the mutex from their first to their last
    step and are therefore atomic, with the search loop of [nextPeerID] and its
    termination. *)

From Stdlib Require Import ZArith Lia.
From stdpp Require Import base gmap strings list fin_maps fin_sets.
From S2P Require Import Prelude.

Open Scope Z_scope.

Definition maxActiveIDs : Z := max_u16.

Record mempoolIDs : Type := mkMempoolIDs {
  peerMap : gmap string Z;     (* peer.ID -> uint16 *)
  nextID : Z;                  (* uint16 *)
  activeIDs : gset Z           (* of uint16 *)
}.

Definition newMempoolIDs : mempoolIDs := mkMempoolIDs ∅ 1 {[0]}.

(** The loop of [nextPeerID]: [None] when the fuel runs out. *)
Fixpoint search (fuel : nat) (activeIDs : gset Z) (nextID : Z) : option Z :=
  match fuel with
  | O => None
  | S fuel' =>
      if bool_decide (nextID ∈ activeIDs) then search fuel' activeIDs (u16 (nextID + 1))
      else Some nextID
  end.

(** The identifiers are uint16 values, so 65536 rounds visit all of them. *)
Definition search_fuel : nat := Z.to_nat 65536.

Definition nextPeerID : M mempoolIDs Z := fun ids =>
  if Z.of_nat (size (activeIDs ids)) =? maxActiveIDs
  then (ids, Panic "node has maximum active IDs and wanted to get one more")
  else
    match search search_fuel (activeIDs ids) (nextID ids) with
    | None => (ids, Panic "the loop does not end")
    | Some curID => (mkMempoolIDs (peerMap ids) (u16 (curID + 1)) (activeIDs ids), Ok curID)
    end.

Definition assign (peer : string) (id : Z) (ids : mempoolIDs) : mempoolIDs :=
  mkMempoolIDs (<[peer := id]> (peerMap ids)) (nextID ids) ({[id]} ∪ activeIDs ids).

Definition ReserveForPeer (peer : string) : M mempoolIDs unit :=
  curID ← nextPeerID;
  modify (assign peer curID).

Definition Reclaim (peer : string) (ids : mempoolIDs) : mempoolIDs :=
  match peerMap ids !! peer with
  | Some removedID =>
      mkMempoolIDs (delete peer (peerMap ids)) (nextID ids) (activeIDs ids ∖ {[removedID]})
  | None => ids
  end.

Definition GetForPeer (peer : string) : M mempoolIDs Z :=
  o ← gets (fun ids => peerMap ids !! peer);
  match o with
  | Some id => mret id
  | None =>
      id ← nextPeerID;
      modify (assign peer id) ;;
      mret id
  end.

(** ** The search *)

(** [k] steps of the counter, with its wrap-around. *)
Lemma search_spec fuel act n id :
  is_u16 n -> search fuel act n = Some id -> is_u16 id /\ id ∉ act.
Proof.
  revert n. induction fuel as [|fuel IH]; intros n Hn; cbn [search]; [done|].
  case_bool_decide; [apply IH, u16_range|]. by intros [= <-].
Qed.

Lemma search_none fuel act n :
  is_u16 n -> search fuel act n = None ->
  forall k, 0 <= k < Z.of_nat fuel -> u16 (n + k) ∈ act.
Proof.
  revert n. induction fuel as [|fuel IH]; intros n Hn; cbn [search]; [lia|].
  case_bool_decide as Hin; [|done]. intros Hs k Hk.
  destruct (decide (k = 0)) as [->|Hk0]; [by rewrite Z.add_0_r, u16_small|].
  replace (u16 (n + k)) with (u16 (u16 (n + 1) + (k - 1))) by int_lia.
  apply IH; [apply u16_range|done|lia].
Qed.

(** With a free identifier the loop ends. *)
Lemma search_total act n id :
  is_u16 n -> is_u16 id -> id ∉ act -> is_Some (search search_fuel act n).
Proof.
  intros Hn Hid Hfree. destruct (search search_fuel act n) eqn:E; [by eexists|].
  destruct Hfree. pose proof (search_none _ _ _ Hn E ((id - n) mod 65536)) as H.
  replace (u16 (n + (id - n) mod 65536)) with id in H by int_lia. apply H.
  unfold search_fuel. rewrite Z2Nat.id by lia. apply Z.mod_pos_bound. lia.
Qed.

Lemma free_below (n : Z) (act : gset Z) :
  Z.of_nat (size act) < n -> exists id, 0 <= id < n /\ id ∉ act.
Proof.
  intros Hs. set (all := list_to_set (seqZ 0 n) : gset Z).
  destruct (decide (set_Forall (fun id => id ∈ act) all)) as [Hall|Hex].
  - assert (all ⊆ act) as Hsub by (intros x Hx; by apply Hall).
    apply subseteq_size in Hsub. unfold all in Hsub.
    rewrite size_list_to_set in Hsub by apply NoDup_seqZ. rewrite length_seqZ in Hsub. lia.
  - apply not_set_Forall_Exists in Hex; [|apply _]. destruct Hex as (id & Hin & Hid).
    exists id. split; [|done]. unfold all in Hin.
    rewrite elem_of_list_to_set, elem_of_seqZ in Hin. lia.
Qed.

(** Fewer than 65536 active identifiers leave one free. *)
Lemma free_id (act : gset Z) :
  Z.of_nat (size act) < 65536 -> exists id, is_u16 id /\ id ∉ act.
Proof.
  intros Hs. destruct (free_below 65536 act Hs) as (id & Hid & Hf).
  exists id. split; [unfold_int; lia|done].
Qed.

(** ** The invariant *)

(** Distinct peers hold distinct identifiers, which are active and not 0 (the
    identifier of transactions that come from no peer). *)
Record ids_ok (ids : mempoolIDs) : Prop := {
  ids_next : is_u16 (nextID ids);
  ids_zero : 0 ∈ activeIDs ids;
  ids_range : forall id, id ∈ activeIDs ids -> is_u16 id;
  ids_active : forall p id, peerMap ids !! p = Some id -> id ∈ activeIDs ids /\ id <> 0;
  ids_inj : forall p q id, peerMap ids !! p = Some id -> peerMap ids !! q = Some id -> p = q
}.

Lemma ids_ok_new : ids_ok newMempoolIDs.
Proof.
  split; cbn.
  - unfold_int. lia.
  - set_solver.
  - intros id ->%elem_of_singleton. unfold_int. lia.
  - intros p id. by rewrite lookup_empty.
  - intros p q id. by rewrite lookup_empty.
Qed.

Lemma nextPeerID_run ids :
  ids_ok ids -> Z.of_nat (size (activeIDs ids)) < maxActiveIDs ->
  exists id, nextPeerID ids = (mkMempoolIDs (peerMap ids) (u16 (id + 1)) (activeIDs ids), Ok id) /\
    is_u16 id /\ id ∉ activeIDs ids.
Proof.
  intros Hok Hs. unfold nextPeerID, maxActiveIDs, max_u16 in *.
  destruct (Z.eqb_spec (Z.of_nat (size (activeIDs ids))) 65535); [lia|].
  destruct (free_id (activeIDs ids)) as (id0 & Hu & Hf); [lia|].
  destruct (search_total _ (nextID ids) id0 (ids_next ids Hok) Hu Hf) as [id E]. rewrite E.
  exists id. split; [done|]. by eapply search_spec, E; apply Hok.
Qed.

Lemma ids_ok_assign ids peer id n :
  ids_ok ids -> is_u16 id -> id ∉ activeIDs ids -> is_u16 n ->
  ids_ok (assign peer id (mkMempoolIDs (peerMap ids) n (activeIDs ids))).
Proof.
  intros Hok Hu Hf Hn. split; cbn.
  - done.
  - apply elem_of_union_r, Hok.
  - intros j [->%elem_of_singleton|Hj]%elem_of_union; [done|]. by apply Hok.
  - intros p j [[-> <-]|[Hne Hp]]%lookup_insert_Some.
    + split; [set_solver|]. intros ->. destruct Hf. apply Hok.
    + destruct (ids_active ids Hok _ _ Hp) as [Ha H0]. split; [|done].
      apply elem_of_union_r, Ha.
  - intros p q j Hp Hq. apply lookup_insert_Some in Hp, Hq.
    destruct Hp as [[? ?]|[? Hp]], Hq as [[? ?]|[? Hq]]; subst; try done.
    + destruct Hf. by destruct (ids_active ids Hok _ _ Hq).
    + destruct Hf. by destruct (ids_active ids Hok _ _ Hp).
    + by eapply (ids_inj ids Hok).
Qed.

Lemma ids_ok_Reclaim ids peer : ids_ok ids -> ids_ok (Reclaim peer ids).
Proof.
  intros Hok. unfold Reclaim. destruct (peerMap ids !! peer) as [r|] eqn:E; [|done].
  pose proof (ids_active ids Hok _ _ E) as [Hr Hr0]. split; cbn.
  - apply Hok.
  - apply elem_of_difference. split; [apply Hok|]. rewrite elem_of_singleton. congruence.
  - intros id [Hid _]%elem_of_difference. by apply Hok.
  - intros p id [Hne Hp]%lookup_delete_Some. pose proof (ids_active ids Hok _ _ Hp) as [Ha H0].
    split; [|done]. apply elem_of_difference. split; [done|].
    rewrite elem_of_singleton. intros ->. apply Hne. by eapply (ids_inj ids Hok).
  - intros p q id [_ Hp]%lookup_delete_Some [_ Hq]%lookup_delete_Some. by eapply (ids_inj ids Hok).
Qed.

(** ** The properties *)

(** While fewer than 65535 identifiers are active, asking for a peer's
    identifier ends and gives one: the peer's own when it has one, else one that
    was not active; it is never 0, distinct peers keep distinct identifiers, and
    asking again gives the same without changing anything. *)
Theorem GetForPeer_spec ids peer :
  ids_ok ids -> Z.of_nat (size (activeIDs ids)) < maxActiveIDs ->
  exists ids' id, GetForPeer peer ids = (ids', Ok id) /\ ids_ok ids' /\
    peerMap ids' = <[peer := id]> (peerMap ids) /\ is_u16 id /\ id <> 0 /\
    (peerMap ids !! peer = None -> id ∉ activeIDs ids) /\
    GetForPeer peer ids' = (ids', Ok id).
Proof.
  intros Hok Hs. unfold GetForPeer. rewrite run_bind, run_gets.
  destruct (peerMap ids !! peer) as [id|] eqn:E.
  - exists ids, id. split; [done|]. split; [done|]. split; [by rewrite insert_id|].
    destruct (ids_active ids Hok _ _ E) as [Ha H0].
    split; [by apply (ids_range ids Hok)|]. split; [done|]. split; [done|].
    rewrite run_bind, run_gets, E. done.
  - destruct (nextPeerID_run ids Hok Hs) as (id & Hrun & Hu & Hf).
    rewrite run_bind, Hrun, run_bind, run_modify, run_ret.
    set (ids' := assign _ _ _). exists ids', id. split; [done|].
    assert (ids_ok ids') as Hok'.
    { unfold ids'. apply (ids_ok_assign ids peer id _ Hok Hu Hf). apply u16_range. }
    split; [done|]. split; [done|]. split; [done|]. split; [|split; [done|]].
    + intros ->. apply Hf, Hok.
    + rewrite run_bind, run_gets. unfold ids'. cbn. by rewrite lookup_insert_eq.
Qed.

Lemma GetForPeer_spec_witness :
  exists ids' id, GetForPeer "a" newMempoolIDs = (ids', Ok id) /\ id <> 0.
Proof.
  destruct (GetForPeer_spec newMempoolIDs "a") as (ids' & id & Hrun & _ & _ & _ & H0 & _).
  - apply ids_ok_new.
  - vm_compute. reflexivity.
  - by exists ids', id.
Defined.

(** Reclaiming undoes the assignment of a fresh identifier: the peer loses
    its identifier, the identifier becomes free again and the other peers keep
    theirs. *)
Theorem Reclaim_GetForPeer ids peer ids' id :
  ids_ok ids -> peerMap ids !! peer = None -> GetForPeer peer ids = (ids', Ok id) ->
  peerMap (Reclaim peer ids') = peerMap ids /\ activeIDs (Reclaim peer ids') = activeIDs ids /\
  ids_ok (Reclaim peer ids').
Proof.
  intros Hok Hnone. unfold GetForPeer. rewrite run_bind, run_gets, Hnone.
  rewrite run_bind. unfold nextPeerID. destruct (_ =? _); [done|].
  destruct (search _ _ _) as [j|] eqn:E; [|done].
  destruct (search_spec _ _ _ _ (ids_next ids Hok) E) as [Hu Hf].
  rewrite run_bind, run_modify, run_ret. intros [= <- ->]. clear E.
  pose proof (ids_ok_assign ids peer id (u16 (id + 1)) Hok Hu Hf (u16_range _)) as Hok'.
  split; [|split; [|by apply ids_ok_Reclaim]].
  - unfold Reclaim, assign. cbn. rewrite lookup_insert_eq. cbn. by apply delete_insert_id.
  - unfold Reclaim, assign. cbn. rewrite lookup_insert_eq. cbn. set_solver.
Qed.

Lemma Reclaim_GetForPeer_witness :
  let r := GetForPeer "a" newMempoolIDs in
  r.2 = Ok 1 /\ activeIDs (Reclaim "a" r.1) = {[0]}.
Proof.
  cbv zeta. split; [vm_compute; reflexivity|].
  apply (Reclaim_GetForPeer newMempoolIDs "a" _ 1).
  - apply ids_ok_new.
  - reflexivity.
  - vm_compute. reflexivity.
Defined.

(** With 65535 active identifiers the node panics on the next new peer, and
    nothing in the adapter gives an identifier back. *)
Theorem GetForPeer_exhausted ids peer :
  peerMap ids !! peer = None -> Z.of_nat (size (activeIDs ids)) = maxActiveIDs ->
  GetForPeer peer ids =
    (ids, Panic "node has maximum active IDs and wanted to get one more").
Proof.
  intros Hnone Hs. unfold GetForPeer. rewrite run_bind, run_gets, Hnone, run_bind.
  unfold nextPeerID. by rewrite Hs, Z.eqb_refl.
Qed.

(** The identifiers 0 to 65534, as when 65534 peers have been seen. *)
Definition demo_full : mempoolIDs :=
  mkMempoolIDs ∅ 65535 (list_to_set (seqZ 0 65535)).

Lemma demo_full_size : Z.of_nat (size (activeIDs demo_full)) = maxActiveIDs.
Proof.
  unfold demo_full, activeIDs. rewrite size_list_to_set by apply NoDup_seqZ.
  rewrite length_seqZ. reflexivity.
Qed.

Lemma GetForPeer_exhausted_witness :
  GetForPeer "a" demo_full = (demo_full, Panic "node has maximum active IDs and wanted to get one more").
Proof. apply GetForPeer_exhausted; [reflexivity|apply demo_full_size]. Defined.
