(* ===== verification/Adapter.v ===== *)
(** * The execution adapter ([pkg/adapter/adapter.go])

    [Node] is what the adapter keeps: the datastore behind its store, the stack
    of block events that wait for a soft confirmation, and the heap of the block
    responses, because the stack holds pointers to them.  [Effects] lists the
    calls to the application, the mempool and the event bus in their order.
    [Env] holds the answers of the collaborators during one call. *)

From Stdlib Require Import ZArith Lia.
From stdpp Require Import base gmap strings list pretty.
From S2P Require Import Prelude Bitmap Comet Store Cometcompat MempoolIDs.

Open Scope Z_scope.

(** ** Requests *)

Record VoteInfo : Type := mkVoteInfo {
  vi_ValidatorAddress : bytes;
  vi_ValidatorPower : Z;
  vi_BlockIdFlag : Z
}.
Record CommitInfo : Type := mkCommitInfo { ci_Round : Z; ci_Votes : list VoteInfo }.

Record RequestProcessProposal : Type := mkProcessProposal {
  pp_Hash : bytes;
  pp_Height : Z;
  pp_Time : Time;
  pp_Txs : list bytes;
  pp_ProposedLastCommit : CommitInfo;
  pp_ProposerAddress : bytes;
  pp_NextValidatorsHash : bytes
}.
Record RequestFinalizeBlock : Type := mkFinalizeBlock {
  rf_Hash : bytes;
  rf_NextValidatorsHash : bytes;
  rf_ProposerAddress : bytes;
  rf_Height : Z;
  rf_Time : Time;
  rf_DecidedLastCommit : CommitInfo;
  rf_Txs : list bytes
}.
Record RequestPrepareProposal : Type := mkPrepareProposal {
  rp_Txs : list bytes;
  rp_MaxTxBytes : Z;
  rp_Height : Z;
  rp_Time : Time;
  rp_NextValidatorsHash : bytes;
  rp_ProposerAddress : bytes
}.

Section data.
Context `{CT : CometTypes}.

Record RequestInitChain : Type := mkInitChain {
  ri_Time : Time;
  ri_ChainId : string;
  ri_ConsensusParams : ConsensusParamsPb;
  ri_Validators : list PbValidatorUpdate;
  ri_AppStateBytes : bytes;
  ri_InitialHeight : Z
}.
Record ResponseInitChain : Type := mkInitChainResponse {
  ric_ConsensusParams : option ConsensusParamsPb;
  ric_Validators : list PbValidatorUpdate;
  ric_AppHash : bytes
}.

(** [genutiltypes.AppGenesis] with its consensus part; the pointers may be nil. *)
Record AppGenesis : Type := mkAppGenesis {
  ag_GenesisTime : Time;
  ag_ChainID : string;
  ag_InitialHeight : Z;                     (* int64 *)
  ag_Consensus : option (list GenesisValidator * option ConsensusParams);
  ag_AppState : bytes
}.

(** A stacked event: the response is an address of the heap. *)
Record StackedEvent : Type := mkStacked {
  se_blockID : BlockID;
  se_block : Block;
  se_abciResponse : nat;
  se_validatorUpdates : list CmtValidator
}.

Inductive Effect : Type :=
| CallInitChain (req : RequestInitChain)
| CallProcessProposal (req : RequestProcessProposal)
| CallFinalizeBlock (req : RequestFinalizeBlock)
| CallPrepareProposal (req : RequestPrepareProposal)
| MempoolLock
| MempoolUnlock
| CallFlushAppConn
| CallCommit
| CallUpdate (height : Z) (txs : list bytes) (results : list ExecTxResult)
| PublishNewBlock (block : Block) (blockID : BlockID) (response : ResponseFinalizeBlock)
| PublishNewBlockHeader (header : CmtHeader)
| PublishNewBlockEvents (height : Z) (events : list AbciEvent) (numTxs : Z)
| PublishNewEvidence (evidence : bytes) (height : Z)
| PublishTx (height index : Z) (tx : bytes) (result : ExecTxResult)
| PublishValidatorSetUpdates (updates : list CmtValidator).

Record Node : Type := mkNode {
  node_db : datastore;
  node_heap : list ResponseFinalizeBlock;
  stackedEvents : list StackedEvent;
  Effects : list Effect
}.

Definition set_db (db : datastore) (n : Node) : Node :=
  mkNode db (node_heap n) (stackedEvents n) (Effects n).
Definition set_heap (f : list ResponseFinalizeBlock -> list ResponseFinalizeBlock) (n : Node) : Node :=
  mkNode (node_db n) (f (node_heap n)) (stackedEvents n) (Effects n).
Definition set_stack (f : list StackedEvent -> list StackedEvent) (n : Node) : Node :=
  mkNode (node_db n) (node_heap n) (f (stackedEvents n)) (Effects n).
Definition set_Effects (f : list Effect -> list Effect) (n : Node) : Node :=
  mkNode (node_db n) (node_heap n) (stackedEvents n) (f (Effects n)).

(** Replacing the events of a response. *)
Definition set_fb_Events (events : list AbciEvent) (r : ResponseFinalizeBlock) :
    ResponseFinalizeBlock :=
  mkResponse events (fb_TxResults r) (fb_ValidatorUpdates r) (fb_ConsensusParamUpdates r)
    (fb_AppHash r).
End data.

Class Env `{CT : CometTypes} : Type := {
  app_InitChain : RequestInitChain -> outcome ResponseInitChain;
  app_ProcessProposal : RequestProcessProposal -> outcome Z;
  app_FinalizeBlock : RequestFinalizeBlock -> outcome ResponseFinalizeBlock;
  app_Commit : outcome unit;
  app_PrepareProposal : RequestPrepareProposal -> outcome (list bytes);
  (** [None]: no mempool is set. *)
  mempool_Reap : option (Z -> Z -> list bytes);
  mempool_FlushAppConn : outcome unit;
  mempool_Update : Z -> list bytes -> list ExecTxResult -> outcome unit;
  RollkitStore_GetHeader : Z -> outcome SignedHeader;
  RollkitStore_Height : outcome Z;
  HeaderFromContext : option RlkHeader;
  EventBus_Publish : Effect -> outcome unit;
  IsPublishable : Z -> bool;
  (** The context when it is looked at for the event at a position. *)
  ctx_Done : nat -> bool;
  time_Now : Time;
  AppGenesis_doc : option AppGenesis
}.

Definition ResponseProcessProposal_ACCEPT : Z := 1.

Section adapter.
Context `{SC : StoreCodec} {E : Env}.

(** ** Steps on the node *)

Definition call (e : Effect) : M Node unit := modify (set_Effects (fun es => es ++ [e])).

(** A publication is attempted, then may fail. *)
Definition publish (text : string) (e : Effect) : M Node unit :=
  call e ;; wrap_err text (lift (EventBus_Publish e)).

Definition update_db (f : datastore -> outcome datastore) : M Node unit :=
  db ← gets node_db;
  db' ← lift (f db);
  modify (set_db db').

(** A new response in memory, and its address. *)
Definition alloc (r : ResponseFinalizeBlock) : M Node nat :=
  addr ← gets (fun n => length (node_heap n));
  modify (set_heap (fun h => h ++ [r])) ;;
  mret addr.

Definition deref (addr : nat) : M Node ResponseFinalizeBlock :=
  o ← gets (fun n => node_heap n !! addr);
  match o with Some r => mret r | None => panic "nil pointer dereference" end.

Definition store_at (addr : nat) (f : ResponseFinalizeBlock -> ResponseFinalizeBlock) : M Node unit :=
  modify (set_heap (alter f addr)).

Definition proposer_Address (vs : ValidatorSet) : outcome bytes :=
  match vs_Proposer vs with
  | Some v => Ok (cv_Address v)
  | None => Panic "nil pointer dereference"
  end.

(** ** InitChain *)

Definition validate_genesis (genesisTime : Time) (initialHeight : Z) (chainID : string) :
    outcome AppGenesis :=
  match AppGenesis_doc with
  | None => Err (ErrText "app genesis not loaded")
  | Some ag =>
      if negb (bool_decide (ag_GenesisTime ag = genesisTime))
      then Err (ErrText "genesis time mismatch")
      else if negb (bool_decide (ag_ChainID ag = chainID))
      then Err (ErrText "chain ID mismatch")
      else if negb (initialHeight =? u64 (ag_InitialHeight ag))
      then Err (ErrText "initial height mismatch")
      else Ok ag
  end.

Definition InitChain (genesisTime : Time) (initialHeight : Z) (chainID : string) :
    M Node (bytes * Z) :=
  ag ← lift (validate_genesis genesisTime initialHeight chainID);
  consensus ← lift (match ag_Consensus ag with
    | Some (vs, Some params) => Ok (vs, params)
    | _ => Panic "nil pointer dereference" end);
  let '(genesisValidators, genesisParams) := consensus in
  let validators :=
    (fun v => mkCmtValidator (gv_PubKey v) (pubkey_Address (gv_PubKey v)) (gv_Power v)) <$> genesisValidators in
  let consensusParams := params_ToProto genesisParams in
  let req := {| ri_Time := genesisTime; ri_ChainId := chainID;
                ri_ConsensusParams := consensusParams;
                ri_Validators := TM2PB_ValidatorUpdates (NewValidatorSet validators);
                ri_AppStateBytes := ag_AppState ag; ri_InitialHeight := i64 initialHeight |} in
  call (CallInitChain req) ;;
  res ← wrap_err "app initialize chain" (lift (app_InitChain req));
  let params := match ric_ConsensusParams res with
                | Some p => params_FromProto p
                | None => params_FromProto consensusParams end in
  vals ← wrap_err "validator updates" (lift (PB2TM_ValidatorUpdates (ric_Validators res)));
  let nValSet := NewValidatorSet vals in
  if negb (length (vs_Validators nValSet) =? 1)%nat
  then fail (ErrText "expected exactly one validator")
  else
    let vset := NewValidatorSet (vs_Validators nValSet) in
    let s := {| st_ChainID := chainID; st_LastBlockHeight := 0;
                st_Validators := vset; st_NextValidators := IncrementProposerPriority vset 1;
                st_LastValidators := vset;
                st_LastHeightValidatorsChanged := i64 initialHeight;
                st_ConsensusParams := params;
                st_LastHeightConsensusParamsChanged := i64 initialHeight;
                st_AppHash := ric_AppHash res |} in
    wrap_err "save initial state" (update_db (SaveState s)) ;;
    mret (ric_AppHash res, u64 (params_MaxBytes params)).

(** ** The last commit *)

Definition GetLastCommit (blockHeight : Z) (db : datastore) : outcome Commit :=
  if 1 <? blockHeight then
    header ← wrap_outcome "get previous block data" (RollkitStore_GetHeader (blockHeight - 1));
    blockID ← wrap_outcome "get previous block ID" (GetBlockID db (blockHeight - 1));
    Ok {| commit_Height := i64 (rh_Height (sh_Header header));
          commit_Round := 0;
          commit_BlockID := blockID;
          commit_Signatures :=
            [{| cs_BlockIDFlag := BlockIDFlagCommit;
                cs_ValidatorAddress := rh_ProposerAddress (sh_Header header);
                cs_Timestamp := rh_Time (sh_Header header);
                cs_Signature := sh_Signature header |}] |}
  else
    Ok {| commit_Height := 0; commit_Round := 0; commit_BlockID := zero_BlockID;
          commit_Signatures := [] |}.

Definition cometCommitToABCICommitInfo (commit : Commit) : CommitInfo :=
  if (length (commit_Signatures commit) =? 0)%nat
  then {| ci_Round := commit_Round commit; ci_Votes := [] |}
  else
    let votes := (fun sig => {| vi_ValidatorAddress := cs_ValidatorAddress sig;
                                vi_ValidatorPower := 1;
                                vi_BlockIdFlag := cs_BlockIDFlag sig |})
                   <$> commit_Signatures commit in
    {| ci_Round := commit_Round commit; ci_Votes := votes |}.

(** ** Events *)

Definition publish_evidence (block : Block) (ev : bytes) : M Node unit :=
  publish "publish new evidence event" (PublishNewEvidence ev (hdr_Height (blk_Header block))).

Definition publish_tx (block : Block) (abciResponse : ResponseFinalizeBlock) (itx : nat * bytes) :
    M Node unit :=
  match fb_TxResults abciResponse !! itx.1 with
  | None => panic "index out of range"
  | Some result =>
      publish "publish event TX"
        (PublishTx (hdr_Height (blk_Header block)) (u32 (Z.of_nat itx.1)) itx.2 result)
  end.

Definition indexed (txs : list bytes) : list (nat * bytes) := imap (fun i tx => (i, tx)) txs.

Definition fireEvents (block : Block) (blockID : BlockID) (abciResponse : ResponseFinalizeBlock)
    (validatorUpdates : list CmtValidator) : M Node unit :=
  publish "publish new block event" (PublishNewBlock block blockID abciResponse) ;;
  publish "publish new block header event" (PublishNewBlockHeader (blk_Header block)) ;;
  publish "publish block events"
    (PublishNewBlockEvents (hdr_Height (blk_Header block)) (fb_Events abciResponse)
       (Z.of_nat (length (blk_Txs block)))) ;;
  for_each (blk_Evidence block) (publish_evidence block) ;;
  for_each (indexed (blk_Txs block)) (publish_tx block abciResponse) ;;
  if (0 <? length validatorUpdates)%nat
  then publish "publish valset update event" (PublishValidatorSetUpdates validatorUpdates)
  else mret tt.

Definition stackBlockCommitEvents (blockID : BlockID) (block : Block) (abciResponse : nat)
    (validatorUpdates : list CmtValidator) : M Node unit :=
  modify (set_stack (fun es => es ++ [mkStacked blockID block abciResponse validatorUpdates])).

(** ** ExecuteTxs *)

(** The validator sets and parameters after the block. *)
Definition next_validators (s : CmtState) (validatorUpdates : list CmtValidator) :
    outcome ValidatorSet :=
  let nValSet := st_NextValidators s in
  nValSet ← (if (0 <? length validatorUpdates)%nat
             then wrap_outcome "changing validator set" (UpdateWithChangeSet nValSet validatorUpdates)
             else Ok nValSet);
  Ok (IncrementProposerPriority nValSet 1).

Definition next_params (s : CmtState) (blockHeight : Z) (updates : option ConsensusParamsPb) :
    outcome (ConsensusParams * Z) :=
  match updates with
  | None => Ok (st_ConsensusParams s, st_LastHeightConsensusParamsChanged s)
  | Some updates =>
      let nextParams := params_Update (st_ConsensusParams s) updates in
      _ ← wrap_outcome "validating new consensus params" (params_ValidateBasic nextParams);
      _ ← wrap_outcome "updating consensus params"
            (params_ValidateUpdate (st_ConsensusParams s) updates (i64 blockHeight));
      Ok (nextParams, i64 (i64 blockHeight + 1))
  end.

Definition next_state (s : CmtState) (blockHeight : Z) (fbResp : ResponseFinalizeBlock)
    (validatorUpdates : list CmtValidator) : outcome CmtState :=
  nValSet ← next_validators s validatorUpdates;
  let lastHeightValsChanged :=
    if (0 <? length validatorUpdates)%nat then i64 (i64 blockHeight + 2)
    else st_LastHeightValidatorsChanged s in
  r ← next_params s blockHeight (fb_ConsensusParamUpdates fbResp);
  let '(params, lastHeightParamsChanged) := r in
  Ok {| st_ChainID := st_ChainID s;
        st_LastBlockHeight := i64 blockHeight;
        st_Validators := nValSet;
        st_NextValidators := IncrementProposerPriority nValSet 1;
        st_LastValidators := st_Validators s;
        st_LastHeightValidatorsChanged := lastHeightValsChanged;
        st_ConsensusParams := params;
        st_LastHeightConsensusParamsChanged := lastHeightParamsChanged;
        st_AppHash := fb_AppHash fbResp |}.

(** Running [m], then the deferred unlock, whatever the outcome of [m]. *)
Definition with_lock {A} (m : M Node A) : M Node A := fun n =>
  let '(n1, _) := call MempoolLock n in
  let '(n2, r) := m n1 in
  let '(n3, _) := call MempoolUnlock n2 in
  (n3, r).

Definition commit_block (blockHeight : Z) (txs : list bytes) (results : list ExecTxResult) :
    M Node unit :=
  with_lock (
    call CallFlushAppConn ;;
    lift mempool_FlushAppConn ;;
    call CallCommit ;;
    lift app_Commit ;;
    call (CallUpdate (i64 blockHeight) txs results) ;;
    lift (mempool_Update (i64 blockHeight) txs results)).

(** The loop that logs every result indexes [TxResults]. *)
Definition log_results (txs : list bytes) (results : list ExecTxResult) : outcome unit :=
  if (length results <? length txs)%nat then Panic "index out of range" else Ok tt.

(** The block of the new state, and the ID with the hash of the rollkit header
    that is saved for it. *)
Definition save_block_ID (s' : CmtState) (txs : list bytes) (blockHeight : Z) (lastCommit : Commit)
    (abciHeader : CmtHeader) : M Node (Block * BlockID) :=
  proposer ← lift (proposer_Address (st_Validators s'));
  let abciBlock := MakeBlock s' (i64 blockHeight) txs lastCommit proposer in
  blockParts ← wrap_err "make part set" (lift (MakePartSet abciBlock));
  let currentBlockID := mkBlockID (header_Hash abciHeader) blockParts in
  wrap_err "save block ID" (update_db (SaveBlockID blockHeight currentBlockID)) ;;
  mret (abciBlock, currentBlockID).

(** Saving the response and either firing or stacking the block's events. *)
Definition publish_or_stack (header : RlkHeader) (blockHeight : Z) (abciBlock : Block)
    (currentBlockID : BlockID) (fbResp : nat) (validatorUpdates : list CmtValidator) :
    M Node unit :=
  if IsPublishable (i64 (rh_Height header)) then
    resp ← deref fbResp;
    wrap_err "save block response" (update_db (SaveBlockResponse blockHeight resp)) ;;
    wrap_err "fire events" (fireEvents abciBlock currentBlockID resp validatorUpdates)
  else
    stackBlockCommitEvents currentBlockID abciBlock fbResp validatorUpdates ;;
    store_at fbResp (set_fb_Events []) ;;
    resp ← deref fbResp;
    wrap_err "save block response" (update_db (SaveBlockResponse blockHeight resp)).

Definition ExecuteTxs (txs : list bytes) (blockHeight : Z) (timestamp : Time) :
    M Node (bytes * Z) :=
  db ← gets node_db;
  s ← wrap_err "load state" (lift (LoadState db));
  header ← lift (match HeaderFromContext with
    | Some h => Ok h
    | None => Err (ErrText "rollkit header not found in context") end);
  lastCommit ← wrap_err "get last commit" (lift (GetLastCommit blockHeight db));
  abciHeader ← wrap_err "compute header hash" (lift (ToABCIHeader header lastCommit));
  proposer ← lift (proposer_Address (st_Validators s));
  let ppReq := {| pp_Hash := header_Hash abciHeader; pp_Height := i64 blockHeight;
                  pp_Time := timestamp; pp_Txs := txs;
                  pp_ProposedLastCommit := cometCommitToABCICommitInfo lastCommit;
                  pp_ProposerAddress := proposer;
                  pp_NextValidatorsHash := vs_Hash (st_NextValidators s) |} in
  call (CallProcessProposal ppReq) ;;
  status ← lift (app_ProcessProposal ppReq);
  if negb (status =? ResponseProcessProposal_ACCEPT)
  then fail (ErrText "proposal rejected by app")
  else
    let fbReq := {| rf_Hash := header_Hash abciHeader;
                    rf_NextValidatorsHash := vs_Hash (st_NextValidators s);
                    rf_ProposerAddress := proposer; rf_Height := i64 blockHeight;
                    rf_Time := timestamp;
                    rf_DecidedLastCommit := cometCommitToABCICommitInfo lastCommit;
                    rf_Txs := txs |} in
    call (CallFinalizeBlock fbReq) ;;
    resp ← lift (app_FinalizeBlock fbReq);
    fbResp ← alloc resp;
    lift (log_results txs (fb_TxResults resp)) ;;
    validatorUpdates ← lift (PB2TM_ValidatorUpdates (fb_ValidatorUpdates resp));
    s' ← lift (next_state s blockHeight resp validatorUpdates);
    wrap_err "save state" (update_db (SaveState s')) ;;
    commit_block blockHeight txs (fb_TxResults resp) ;;
    b ← save_block_ID s' txs blockHeight lastCommit abciHeader;
    let '(abciBlock, currentBlockID) := b in
    publish_or_stack header blockHeight abciBlock currentBlockID fbResp validatorUpdates ;;
    mret (fb_AppHash resp, u64 (params_MaxBytes (st_ConsensusParams s'))).

(** ** GetTxs *)

Definition GetTxs : M Node (list bytes) :=
  db ← gets node_db;
  s ← wrap_err "load state for GetTxs" (lift (LoadState db));
  match mempool_Reap with
  | None => fail (ErrText "mempool not initialized")
  | Some reap =>
      let txsBytes := reap (params_MaxBytes (st_ConsensusParams s)) (-1) in
      currentHeight ← lift RollkitStore_Height;
      proposer ← lift (proposer_Address (st_Validators s));
      let req := {| rp_Txs := txsBytes; rp_MaxTxBytes := params_MaxBytes (st_ConsensusParams s);
                    rp_Height := i64 (u64 (currentHeight + 1)); rp_Time := time_Now;
                    rp_NextValidatorsHash := vs_Hash (st_NextValidators s);
                    rp_ProposerAddress := proposer |} in
      call (CallPrepareProposal req) ;;
      lift (app_PrepareProposal req)
  end.

(** ** SetFinal *)

(** The last position whose block may be released, -1 when there is none. *)
Definition max_pos_released (persistedHeight : Z) (events : list StackedEvent) : Z :=
  foldl (fun maxPosReleased iv =>
    let h := hdr_Height (blk_Header (se_block iv.2)) in
    if (h <=? persistedHeight) && IsPublishable h then Z.of_nat iv.1 else maxPosReleased)
    (-1) (imap (fun i v => (i, v)) events).

(** One turn of the release loop: the events of the pointed-to response are
    added to the stored response, then everything is published. *)
Definition release_event (evnt : StackedEvent) : M Node unit :=
  let height := u64 (hdr_Height (blk_Header (se_block evnt))) in
  db ← gets node_db;
  blockRsp ← wrap_err "get block response" (lift (GetBlockResponse db height));
  abciResponse ← deref (se_abciResponse evnt);
  let blockRsp := set_fb_Events (fb_Events abciResponse) blockRsp in
  wrap_err "save block response" (update_db (SaveBlockResponse height blockRsp)) ;;
  wrap_err "fire events"
    (fireEvents (se_block evnt) (se_blockID evnt) abciResponse (se_validatorUpdates evnt)).

(** The loop over the positions up to [maxPosReleased]; its result is the value
    of [maxPosReleased] when it ends, which a cancelled context changes. *)
Fixpoint release_loop (maxPosReleased : Z) (i : nat) (events : list StackedEvent) : M Node Z :=
  match events with
  | [] => mret maxPosReleased
  | evnt :: events' =>
      if maxPosReleased <? Z.of_nat i then mret maxPosReleased
      else if ctx_Done i then mret (Z.of_nat i)
      else release_event evnt ;; release_loop maxPosReleased (S i) events'
  end.

Definition publishQueuedBlockEvents (persistedHeight : Z) : M Node unit :=
  events ← gets stackedEvents;
  let maxPosReleased := max_pos_released persistedHeight events in
  if maxPosReleased =? -1 then mret tt
  else
    maxPosReleased ← release_loop maxPosReleased 0 events;
    modify (set_stack (drop (Z.to_nat (maxPosReleased + 1)))).

Definition SetFinal (blockHeight : Z) : M Node unit := publishQueuedBlockEvents (i64 blockHeight).
End adapter.

(** ** The validator of gossiped transactions *)

(** What the [select] on the response channel sees first. *)
Inductive check_event : Type :=
| CtxDone
| CheckTxResponse (code : Z)
| CheckTxTimeout.

(** [errors.Is] of the mempool's errors: the sentinel, or one of the struct
    errors. *)
Class MempoolErrors : Type := {
  Is_ErrTxInCache : error -> bool;
  Is_ErrMempoolIsFull : error -> bool;
  Is_ErrTxTooLarge : error -> bool;
  Is_ErrPreCheck : error -> bool
}.

Definition CodeTypeOK : Z := 0.

(** The validator of one message: [CheckTx] is given the sender's identifier,
    which is assigned if the peer is new. *)
Definition newTxValidator `{MempoolErrors} (CheckTx : Z -> option error) (received : check_event)
    (peer : string) : M mempoolIDs bool :=
  senderID ← GetForPeer peer;
  match CheckTx senderID with
  | Some e =>
      if Is_ErrTxInCache e then mret true
      else if Is_ErrMempoolIsFull e then mret true
      else if Is_ErrTxTooLarge e then mret false
      else if Is_ErrPreCheck e then mret false
      else mret false
  | None =>
      match received with
      | CtxDone => mret false
      | CheckTxResponse code => mret (code =? CodeTypeOK)
      | CheckTxTimeout => mret false
      end
  end.
