(* ===== verification/StoreProps.v ===== *)
(** * The execution store: keys, round trips and frames *)

From Stdlib Require Import ZArith Lia.
From stdpp Require Import base gmap strings list pretty.
From S2P Require Import Prelude Bitmap Comet Store.

Open Scope Z_scope.

(** ** The keys are distinct *)

Lemma app_inj_r (k s1 s2 : string) : k +:+ s1 = k +:+ s2 -> s1 = s2.
Proof. induction k as [|c k IH]; cbn; [done|]. intros [= H]. auto. Qed.

Lemma key_blockID_inj h h' : 0 <= h -> 0 <= h' -> key_blockID h = key_blockID h' -> h = h'.
Proof.
  intros H H' E. unfold key_blockID, prefixed, ChildString in E.
  do 3 apply app_inj_r in E. by apply format_uint_inj.
Qed.

Lemma key_blockResponse_inj h h' :
  0 <= h -> 0 <= h' -> key_blockResponse h = key_blockResponse h' -> h = h'.
Proof.
  intros H H' E. unfold key_blockResponse, prefixed, ChildString in E.
  do 3 apply app_inj_r in E. by apply format_uint_inj.
Qed.

Lemma key_state_blockID h : key_state <> key_blockID h.
Proof. cbn. discriminate. Qed.
Lemma key_state_blockResponse h : key_state <> key_blockResponse h.
Proof. cbn. discriminate. Qed.
Lemma key_blockID_blockResponse h h' : key_blockID h <> key_blockResponse h'.
Proof. cbn. discriminate. Qed.

#[export] Hint Resolve key_state_blockID key_state_blockResponse key_blockID_blockResponse : core.

(** ** Reading back *)

Section props.
Context `{SL : StoreCodecLaws}.

Lemma ds_Get_Put_eq db k v : ds_Get (ds_Put k v db) k = Ok (Some v).
Proof. unfold ds_Get, ds_Put. by rewrite lookup_insert_eq. Qed.
Lemma ds_Get_Put_ne db k k' v : k <> k' -> ds_Get (ds_Put k v db) k' = ds_Get db k'.
Proof. intros H. unfold ds_Get, ds_Put. by rewrite lookup_insert_ne. Qed.

Lemma SaveState_inv s db db' :
  SaveState s db = Ok db' -> exists d, State_Marshal s = Ok d /\ db' = ds_Put key_state d db.
Proof. unfold SaveState. destruct (State_Marshal s); cbn; intros; simplify_eq. eauto. Qed.
Lemma SaveBlockID_inv h b db db' :
  SaveBlockID h b db = Ok db' ->
  exists d, BlockID_Marshal b = Ok d /\ db' = ds_Put (key_blockID h) d db.
Proof. unfold SaveBlockID. destruct (BlockID_Marshal b); cbn; intros; simplify_eq. eauto. Qed.
Lemma SaveBlockResponse_inv h r db db' :
  SaveBlockResponse h r db = Ok db' ->
  exists d, Response_Marshal r = Ok d /\ db' = ds_Put (key_blockResponse h) d db.
Proof. unfold SaveBlockResponse. destruct (Response_Marshal r); cbn; intros; simplify_eq. eauto. Qed.

Lemma GetBlockResponse_Save h r db db' :
  SaveBlockResponse h r db = Ok db' -> GetBlockResponse db' h = Ok r.
Proof.
  intros (d & Hd & ->)%SaveBlockResponse_inv. unfold GetBlockResponse.
  rewrite ds_Get_Put_eq. cbn. by rewrite (Response_roundtrip r d).
Qed.

Lemma GetBlockResponse_Save_ne h h' r db db' :
  SaveBlockResponse h r db = Ok db' -> 0 <= h -> 0 <= h' -> h <> h' ->
  GetBlockResponse db' h' = GetBlockResponse db h'.
Proof.
  intros (d & Hd & ->)%SaveBlockResponse_inv H H' Hne. unfold GetBlockResponse.
  rewrite ds_Get_Put_ne; [done|]. intros E. by apply Hne, key_blockResponse_inj.
Qed.

Lemma stored_state_height s : st_LastBlockHeight (stored_state s) = st_LastBlockHeight s.
Proof. unfold stored_state. by destruct (_ <=? _). Qed.
Lemma stored_state_id s : 1 <= st_LastBlockHeight s -> stored_state s = s.
Proof. unfold stored_state. by intros ->%Z.leb_le. Qed.

Lemma LoadState_Save s db db' : SaveState s db = Ok db' -> LoadState db' = Ok (stored_state s).
Proof.
  intros (d & Hd & ->)%SaveState_inv. unfold LoadState. rewrite ds_Get_Put_eq. cbn.
  by rewrite (State_roundtrip s d).
Qed.

Lemma GetBlockID_Save h b db db' : SaveBlockID h b db = Ok db' -> GetBlockID db' h = Ok b.
Proof.
  intros (d & Hd & ->)%SaveBlockID_inv. unfold GetBlockID. rewrite ds_Get_Put_eq. cbn.
  by rewrite (BlockID_roundtrip b d).
Qed.

Lemma GetBlockID_Put_other db k d h :
  (forall h', k <> key_blockID h') -> GetBlockID (ds_Put k d db) h = GetBlockID db h.
Proof. intros H. unfold GetBlockID. by rewrite ds_Get_Put_ne. Qed.
Lemma LoadState_Put_other db k d :
  k <> key_state -> LoadState (ds_Put k d db) = LoadState db.
Proof. intros H. unfold LoadState. by rewrite ds_Get_Put_ne. Qed.
Lemma GetBlockResponse_Put_other db k d h :
  (forall h', k <> key_blockResponse h') ->
  GetBlockResponse (ds_Put k d db) h = GetBlockResponse db h.
Proof. intros H. unfold GetBlockResponse. by rewrite ds_Get_Put_ne. Qed.

(** The store is three independent maps: what is saved is what is loaded,
    for the state and for the block ID and the response of a height, and a
    save leaves the values of the other heights and of the other kinds. *)
Theorem store_roundtrip db h s b r db1 db2 db3 :
  0 <= h -> SaveState s db = Ok db1 -> SaveBlockID h b db = Ok db2 ->
  SaveBlockResponse h r db = Ok db3 ->
  (LoadState db1 = Ok (stored_state s) /\ forall h', GetBlockID db1 h' = GetBlockID db h' /\
     GetBlockResponse db1 h' = GetBlockResponse db h') /\
  (GetBlockID db2 h = Ok b /\ LoadState db2 = LoadState db /\
   forall h', GetBlockResponse db2 h' = GetBlockResponse db h' /\
     (0 <= h' -> h' <> h -> GetBlockID db2 h' = GetBlockID db h')) /\
  (GetBlockResponse db3 h = Ok r /\ LoadState db3 = LoadState db /\
   forall h', GetBlockID db3 h' = GetBlockID db h' /\
     (0 <= h' -> h' <> h -> GetBlockResponse db3 h' = GetBlockResponse db h')).
Proof.
  intros Hh H1 H2 H3. split; [|split].
  - split; [by eapply LoadState_Save|]. apply SaveState_inv in H1 as (d & _ & ->).
    intros h'. split; [by apply GetBlockID_Put_other|by apply GetBlockResponse_Put_other].
  - split; [by eapply GetBlockID_Save|]. apply SaveBlockID_inv in H2 as (d & _ & ->).
    split; [by apply LoadState_Put_other, not_eq_sym|].
    intros h'. split; [by apply GetBlockResponse_Put_other|]. intros Hh' Hne.
    unfold GetBlockID. rewrite ds_Get_Put_ne; [done|]. intros E. by apply Hne, eq_sym, key_blockID_inj.
  - split; [by eapply GetBlockResponse_Save|].
    pose proof H3 as H3'. apply SaveBlockResponse_inv in H3 as (d & _ & ->).
    split; [by apply LoadState_Put_other, not_eq_sym|].
    intros h'. split; [by apply GetBlockID_Put_other, (fun h0 => not_eq_sym (key_blockID_blockResponse h0 h))|].
    intros Hh' Hne. by eapply GetBlockResponse_Save_ne.
Qed.

(** A store without a state makes [LoadState] fail with the datastore's
    "not found", although its comment promises an empty state. *)
Theorem LoadState_empty :
  LoadState ∅ = Err (ErrWrap "failed to get state metadata" ds_ErrNotFound).
Proof. reflexivity. Qed.
End props.
