(* ===== verification/AdapterDemo.v ===== *)
(** * A concrete CometBFT for the witnesses of the adapter's theorems

    Validator sets are lists, the consensus parameters a maximum block size, and
    the encodings number the values. *)

From Stdlib Require Import ZArith Lia.
From stdpp Require Import base gmap strings list countable pretty.
From S2P Require Import Prelude Bitmap Comet Store Cometcompat MempoolIDs Adapter StoreProps.

Open Scope Z_scope.

#[global] Instance demo_types : CometTypes :=
  { ConsensusParams := Z; ValidatorSet := list CmtValidator; ConsensusParamsPb := Z }.

#[global] Instance demo_comet : Comet := {
  header_Hash := fun h => hdr_Height h :: 7 :: hdr_AppHash h;
  commit_Hash := fun c => [commit_Height c; 8];
  empty_EvidenceHash := [9];
  BlockProtocol := 11;
  MakePartSet := fun b => Ok (mkPartSetHeader 1 [hdr_Height (blk_Header b)]);
  block_Size := fun b => Z.of_nat (length (blk_Txs b));
  pubkey_Address := fun k => k;
  NewValidatorSet := fun l => l;
  vs_Validators := fun l => l;
  vs_Proposer := fun l => head l;
  vs_Hash := fun l => concat (map cv_PubKey l);
  UpdateWithChangeSet := fun l us => Ok us;
  IncrementProposerPriority := fun l n => l;
  PB2TM_ValidatorUpdates := fun l =>
    Ok (map (fun u => mkCmtValidator (pbu_PubKey u) (pbu_PubKey u) (pbu_Power u)) l);
  TM2PB_ValidatorUpdates := fun l =>
    map (fun v => mkPbValidatorUpdate (cv_PubKey v) (cv_VotingPower v)) l;
  params_ToProto := fun p => p;
  params_FromProto := fun p => p;
  params_Update := fun p u => u;
  params_ValidateBasic := fun p => Ok tt;
  params_ValidateUpdate := fun p u h => Ok tt;
  params_MaxBytes := fun p => p;
  MakeBlock := fun s h txs c p =>
    mkBlock (mkCmtHeader 11 0 (st_ChainID s) h (mkTime 0 0) zero_BlockID [] [] [] [] [] (st_AppHash s) [] [] p)
      txs [] c;
  VoteSignBytes := fun c h b t a => h :: bid_Hash b ++ a
}.

#[global] Instance demo_comet_laws : CometLaws.
Proof. by split. Qed.

(** Numbering of the stored values. *)
#[global] Instance PartSetHeader_countable : Countable PartSetHeader.
Proof.
  apply (inj_countable' (fun p => (psh_Total p, psh_Hash p)) (fun t => mkPartSetHeader t.1 t.2)).
  by intros [].
Defined.
#[global] Instance BlockID_countable : Countable BlockID.
Proof.
  apply (inj_countable' (fun b => (bid_Hash b, bid_PartSetHeader b)) (fun t => mkBlockID t.1 t.2)).
  by intros [].
Defined.
#[global] Instance CmtValidator_eq_dec : EqDecision CmtValidator.
Proof. solve_decision. Defined.
#[global] Instance CmtValidator_countable : Countable CmtValidator.
Proof.
  apply (inj_countable' (fun v => (cv_PubKey v, cv_Address v, cv_VotingPower v))
    (fun t => mkCmtValidator t.1.1 t.1.2 t.2)). by intros [].
Defined.
#[global] Instance PbValidatorUpdate_eq_dec : EqDecision PbValidatorUpdate.
Proof. solve_decision. Defined.
#[global] Instance PbValidatorUpdate_countable : Countable PbValidatorUpdate.
Proof.
  apply (inj_countable' (fun v => (pbu_PubKey v, pbu_Power v)) (fun t => mkPbValidatorUpdate t.1 t.2)).
  by intros [].
Defined.
#[global] Instance ExecTxResult_eq_dec : EqDecision ExecTxResult.
Proof. solve_decision. Defined.
#[global] Instance ExecTxResult_countable : Countable ExecTxResult.
Proof.
  apply (inj_countable' (fun r => (txr_Code r, txr_Data r, txr_Log r))
    (fun t => mkExecTxResult t.1.1 t.1.2 t.2)). by intros [].
Defined.
#[global] Instance AbciEvent_countable : Countable AbciEvent.
Proof.
  apply (inj_countable' (fun e => (aev_Type e, aev_Attributes e)) (fun t => mkAbciEvent t.1 t.2)).
  by intros [].
Defined.

Definition number {A} `{Countable A} (a : A) : bytes := [Zpos (encode a)].
Definition unnumber {A} `{Countable A} (d : bytes) : outcome A :=
  match d with
  | [Zpos p] => match decode p with Some a => Ok a | None => Err (ErrText "proto") end
  | _ => Err (ErrText "proto")
  end.

Lemma unnumber_number {A} `{Countable A} (a : A) d :
  Ok (number a) = Ok d -> unnumber d = Ok a.
Proof. intros [= <-]. cbn. by rewrite decode_encode. Qed.

Definition state_tuple (s : CmtState) :=
  (st_ChainID s, st_LastBlockHeight s, (st_Validators s : list CmtValidator),
   (st_NextValidators s : list CmtValidator), (st_LastValidators s : list CmtValidator),
   st_LastHeightValidatorsChanged s, (st_ConsensusParams s : Z),
   st_LastHeightConsensusParamsChanged s, st_AppHash s).
Definition response_tuple (r : ResponseFinalizeBlock) :=
  (fb_Events r, fb_TxResults r, fb_ValidatorUpdates r, (fb_ConsensusParamUpdates r : option Z),
   fb_AppHash r).

#[global] Instance demo_codec : StoreCodec := {
  State_Marshal := fun s => Ok (number (state_tuple s));
  State_Unmarshal := fun d =>
    '(c, lh, v, nv, lv, hv, p, hp, ah) ← unnumber (A := string * Z * list CmtValidator *
      list CmtValidator * list CmtValidator * Z * Z * Z * bytes) d;
    Ok (stored_state (mkCmtState (CT := demo_types) c lh v nv lv hv p hp ah));
  BlockID_Marshal := fun b => Ok (number b);
  BlockID_Unmarshal := unnumber;
  Response_Marshal := fun r => Ok (number (response_tuple r));
  Response_Unmarshal := fun d =>
    '(e, t, v, c, a) ← unnumber (A := list AbciEvent * list ExecTxResult * list PbValidatorUpdate *
      option Z * bytes) d;
    Ok (mkResponse (CT := demo_types) e t v c a);
  empty_CmtState := mkCmtState (CT := demo_types) "" 0 [] [] [] 0 0 0 []
}.

#[global] Instance demo_codec_laws : StoreCodecLaws.
Proof.
  split.
  - intros [] d H. cbn in *. by rewrite (unnumber_number _ _ H).
  - intros b d H. by apply unnumber_number.
  - intros [] d H. cbn in *. by rewrite (unnumber_number _ _ H).
Qed.

Definition demo_stored_state : CmtState := empty_CmtState.
Definition demo_stored_id : BlockID := mkBlockID [1; 2] (mkPartSetHeader 1 [3]).
Definition demo_stored_response : ResponseFinalizeBlock := mkResponse (CT := demo_types) [] [] [] None [4].

Definition demo_db1 : datastore := ds_Put key_state (number (state_tuple demo_stored_state)) ∅.
Definition demo_db2 : datastore := ds_Put (key_blockID 5) (number demo_stored_id) ∅.
Definition demo_db3 : datastore :=
  ds_Put (key_blockResponse 5) (number (response_tuple demo_stored_response)) ∅.

Lemma store_roundtrip_witness :
  LoadState demo_db1 = Ok demo_stored_state /\ GetBlockID demo_db2 5 = Ok demo_stored_id /\
  GetBlockResponse demo_db3 5 = Ok demo_stored_response.
Proof.
  assert (E1 : SaveState demo_stored_state ∅ = Ok demo_db1) by reflexivity.
  assert (E2 : SaveBlockID 5 demo_stored_id ∅ = Ok demo_db2) by reflexivity.
  assert (E3 : SaveBlockResponse 5 demo_stored_response ∅ = Ok demo_db3) by reflexivity.
  destruct (store_roundtrip ∅ 5 demo_stored_state demo_stored_id demo_stored_response
    demo_db1 demo_db2 demo_db3 ltac:(lia) E1 E2 E3) as ((H1 & _) & (H2 & _) & (H3 & _)).
  exact (conj H1 (conj H2 H3)).
Defined.
