(* ===== verification/AdapterProps.v ===== *)
(** * Publishing: the order of the events, the stack and its release *)

From Stdlib Require Import ZArith Lia.
From stdpp Require Import base gmap strings list pretty.
From S2P Require Import Prelude Bitmap Comet Store Cometcompat MempoolIDs Adapter StoreProps AdapterDemo.

Open Scope Z_scope.

Lemma set_Effects_id `{CT : CometTypes} n : set_Effects (fun es => es ++ []) n = n.
Proof. destruct n. unfold set_Effects. cbn. by rewrite app_nil_r. Qed.

Section fire.
Context `{SC : StoreCodec} {E : Env}.

Definition bus_ok : Prop := forall e, EventBus_Publish e = Ok tt.

(** The publications of one block, in CometBFT's order. *)
Definition tx_effects (block : Block) (results : list ExecTxResult) : list Effect :=
  imap (fun i p => PublishTx (hdr_Height (blk_Header block)) (u32 (Z.of_nat i)) p.1 p.2)
    (zip (blk_Txs block) results).

Definition block_effects (block : Block) (blockID : BlockID) (r : ResponseFinalizeBlock)
    (updates : list CmtValidator) : list Effect :=
  [PublishNewBlock block blockID r; PublishNewBlockHeader (blk_Header block);
   PublishNewBlockEvents (hdr_Height (blk_Header block)) (fb_Events r)
     (Z.of_nat (length (blk_Txs block)))]
  ++ ((fun ev => PublishNewEvidence ev (hdr_Height (blk_Header block))) <$> blk_Evidence block)
  ++ tx_effects block (fb_TxResults r)
  ++ (if (0 <? length updates)%nat then [PublishValidatorSetUpdates updates] else []).

Definition emits (m : M Node unit) (es : list Effect) : Prop :=
  forall n, m n = (set_Effects (fun l => l ++ es) n, Ok tt).

Lemma emits_ret : emits (mret tt) [].
Proof. intros n. by rewrite set_Effects_id. Qed.

Lemma emits_bind m1 m2 es1 es2 :
  emits m1 es1 -> emits m2 es2 -> emits (m1 ;; m2) (es1 ++ es2).
Proof.
  intros H1 H2 n. rewrite run_bind, H1, H2. unfold set_Effects. cbn. by rewrite app_assoc.
Qed.

Lemma emits_publish t e : bus_ok -> emits (publish t e) [e].
Proof. intros Hb n. unfold publish, call. run. by rewrite Hb. Qed.

Lemma emits_for_each {A} (l : list A) body (f : A -> list Effect) :
  (forall x, x ∈ l -> emits (body x) (f x)) -> emits (for_each l body) (concat (f <$> l)).
Proof.
  induction l as [|x l IH]; intros H; cbn [for_each fmap list_fmap concat]; [apply emits_ret|].
  apply emits_bind; [apply H; by left|]. apply IH. intros y Hy. apply H. by right.
Qed.

Lemma fmap_concat_singleton {A B} (f : A -> B) (l : list A) :
  concat ((fun x => [f x]) <$> l) = f <$> l.
Proof. induction l as [|x l IH]; [done|]. cbn. by rewrite IH. Qed.

Lemma tx_effects_emits block r :
  bus_ok -> (length (blk_Txs block) <= length (fb_TxResults r))%nat ->
  emits (for_each (indexed (blk_Txs block)) (publish_tx block r)) (tx_effects block (fb_TxResults r)).
Proof.
  intros Hb Hl.
  set (f := fun it : nat * bytes => match fb_TxResults r !! it.1 with
    | Some res => [PublishTx (hdr_Height (blk_Header block)) (u32 (Z.of_nat it.1)) it.2 res]
    | None => [] end).
  assert (tx_effects block (fb_TxResults r) = concat (f <$> indexed (blk_Txs block))) as ->.
  { unfold tx_effects, indexed, f. rewrite fmap_imap. clear f.
    assert (forall k txs res, (length txs <= length res)%nat ->
      imap (fun i p => PublishTx (hdr_Height (blk_Header block)) (u32 (Z.of_nat (k + i))) p.1 p.2)
        (zip txs res) =
      concat (imap (fun i tx => match res !! i with
        | Some rs => [PublishTx (hdr_Height (blk_Header block)) (u32 (Z.of_nat (k + i))) tx rs]
        | None => [] end) txs)) as Hgen.
    { intros k txs. revert k. induction txs as [|tx txs IH]; intros k res Hlen; [done|].
      destruct res as [|rs res]; [cbn in Hlen; lia|]. cbn [zip zip_with]. rewrite !imap_cons.
      cbn [concat lookup list_lookup app fst snd]. f_equal.
      etrans; [|etrans; [apply (IH (S k) res); cbn in Hlen; lia|]].
      - apply imap_ext. intros i x _. cbn. do 3 f_equal. lia.
      - f_equal. apply imap_ext. intros i x _. cbn. destruct (res !! i); [|done].
        do 4 f_equal. lia. }
    etrans; [|etrans; [apply (Hgen 0%nat _ _ Hl)|]]; [by apply imap_ext|].
    done. }
  apply emits_for_each. intros [i tx] Hin. unfold publish_tx, f. cbn.
  unfold indexed in Hin. apply list_elem_of_lookup in Hin as [j Hj].
  rewrite list_lookup_imap in Hj. destruct (blk_Txs block !! j) eqn:Ej; [|done].
  cbn in Hj. injection Hj as -> ->. apply lookup_lt_Some in Ej.
  destruct (lookup_lt_is_Some_2 (fb_TxResults r) i) as [res Hres]; [lia|]. rewrite Hres.
  by apply emits_publish.
Qed.

Lemma fireEvents_emits block blockID r updates :
  bus_ok -> (length (blk_Txs block) <= length (fb_TxResults r))%nat ->
  emits (fireEvents block blockID r updates) (block_effects block blockID r updates).
Proof.
  intros Hb Hl. unfold fireEvents, block_effects. cbn [app].
  repeat (eapply (emits_bind _ _ [_]); [by apply emits_publish|]).
  apply emits_bind.
  { rewrite <- fmap_concat_singleton. apply emits_for_each. intros ev _. by apply emits_publish. }
  apply emits_bind; [by apply tx_effects_emits|].
  destruct (0 <? length updates)%nat; [by apply emits_publish|apply emits_ret].
Qed.
End fire.

Section release.
Context `{SL : StoreCodecLaws} {E : Env}.

Definition ev_height (ev : StackedEvent) : Z := hdr_Height (blk_Header (se_block ev)).

(** The publications of a stacked event, given what its pointer points to. *)
Definition ev_effects (heap : list ResponseFinalizeBlock) (ev : StackedEvent) : list Effect :=
  match heap !! se_abciResponse ev with
  | Some r => block_effects (se_block ev) (se_blockID ev) r (se_validatorUpdates ev)
  | None => []
  end.

(** A stacked event whose block was executed: its pointer is valid, it has a
    result per transaction and its response is stored. *)
Definition releasable (heap : list ResponseFinalizeBlock) (db : datastore) (ev : StackedEvent) : Prop :=
  0 <= ev_height ev <= max_i64 /\
  (exists r, heap !! se_abciResponse ev = Some r /\
     (length (blk_Txs (se_block ev)) <= length (fb_TxResults r))%nat) /\
  exists b, GetBlockResponse db (ev_height ev) = Ok b.

Definition marshals : Prop := forall r, exists d, Response_Marshal r = Ok d.

Definition publishable (h : Z) (ev : StackedEvent) : bool :=
  (ev_height ev <=? h) && IsPublishable (ev_height ev).

Lemma max_pos_released_snoc h evs ev :
  max_pos_released h (evs ++ [ev]) =
    if publishable h ev then Z.of_nat (length evs) else max_pos_released h evs.
Proof.
  unfold max_pos_released. rewrite imap_app. cbn [imap]. rewrite foldl_app. cbn [foldl].
  rewrite Nat.add_0_r. done.
Qed.

(** The number of events that are released: up to the last publishable one. *)
Lemma max_pos_released_spec h evs :
  let p := max_pos_released h evs in
  -1 <= p < Z.of_nat (length evs) /\
  (0 <= p -> exists ev, evs !! Z.to_nat p = Some ev /\ publishable h ev = true) /\
  (forall i ev, evs !! i = Some ev -> publishable h ev = true -> Z.of_nat i <= p).
Proof.
  induction evs as [|ev evs IH] using rev_ind; cbv zeta.
  { cbn. split; [lia|]. split; [lia|]. intros i ev Hi. done. }
  rewrite max_pos_released_snoc, length_app. cbn [length]. cbv zeta in IH.
  destruct IH as (Hr & Hp & Hl). destruct (publishable h ev) eqn:Epub.
  - split; [lia|]. split.
    + intros _. exists ev. rewrite Nat2Z.id, lookup_app_r, Nat.sub_diag by lia. done.
    + intros i ev' Hi _. apply lookup_lt_Some in Hi. rewrite length_app in Hi. cbn in Hi. lia.
  - split; [lia|]. split.
    + intros H0. destruct (Hp H0) as (ev' & He & Hpub). exists ev'. split; [|done].
      rewrite lookup_app_l by lia. done.
    + intros i ev' Hi Hpub. apply lookup_app_Some in Hi as [Hi|[Hge Hi]]; [eauto|].
      destruct (i - length evs)%nat; [|done]. cbn in Hi. congruence.
Qed.

Lemma release_event_run ev n r b :
  bus_ok -> marshals -> 0 <= ev_height ev <= max_i64 ->
  node_heap n !! se_abciResponse ev = Some r ->
  (length (blk_Txs (se_block ev)) <= length (fb_TxResults r))%nat ->
  GetBlockResponse (node_db n) (ev_height ev) = Ok b ->
  exists db', SaveBlockResponse (ev_height ev) (set_fb_Events (fb_Events r) b) (node_db n) = Ok db' /\
    release_event ev n =
      (set_Effects (fun l => l ++ ev_effects (node_heap n) ev) (set_db db' n), Ok tt).
Proof.
  intros Hbus Hm Hh Hr Hl Hb. destruct (Hm (set_fb_Events (fb_Events r) b)) as [d Hd].
  eexists. split; [unfold SaveBlockResponse; rewrite Hd; reflexivity|].
  unfold release_event. rewrite run_bind, run_gets. fold (ev_height ev).
  rewrite u64_small by (unfold_int; lia). rewrite run_bind, run_wrap_err, run_lift, Hb.
  cbn [fst snd wrap_outcome]. rewrite run_bind. unfold deref. rewrite run_bind, run_gets, Hr, run_ret.
  unfold update_db. run. unfold SaveBlockResponse. rewrite Hd. cbn [wrap_outcome mbind outcome_bind].
  run. rewrite (fireEvents_emits _ _ _ _ Hbus Hl). run. unfold ev_effects. cbn. by rewrite Hr.
Qed.

Lemma releasable_frame heap db db' h r ev :
  SaveBlockResponse h r db = Ok db' -> 0 <= h -> h <> ev_height ev ->
  releasable heap db ev -> releasable heap db' ev.
Proof.
  intros Hs Hh Hne (Hr & He & b & Hb). split; [done|]. split; [done|].
  exists b. rewrite (GetBlockResponse_Save_ne h (ev_height ev) r db db') by (done || lia). done.
Qed.

Definition stored_events (heap : list ResponseFinalizeBlock) (db : datastore) (ev : StackedEvent) : Prop :=
  exists r b, heap !! se_abciResponse ev = Some r /\
    GetBlockResponse db (ev_height ev) = Ok b /\ fb_Events b = fb_Events r.

(** The loop releases [k] events and stops: at the end, or because the context
    is cancelled. *)
Lemma release_loop_run k : forall evs i n maxPos v,
  bus_ok -> marshals -> maxPos < Z.of_nat i + Z.of_nat (length evs) ->
  (forall j, (j < i + k)%nat -> ctx_Done j = false) ->
  (Z.of_nat (i + k) = maxPos + 1 /\ v = maxPos \/
   Z.of_nat (i + k) <= maxPos /\ ctx_Done (i + k) = true /\ v = Z.of_nat (i + k)) ->
  (forall ev, ev ∈ take k evs -> releasable (node_heap n) (node_db n) ev) ->
  NoDup (ev_height <$> take k evs) ->
  exists db', release_loop maxPos i evs n =
      (set_Effects (fun l => l ++ concat (ev_effects (node_heap n) <$> take k evs)) (set_db db' n), Ok v) /\
    (forall ev, ev ∈ take k evs -> stored_events (node_heap n) db' ev) /\
    (forall h, 0 <= h -> h ∉ ev_height <$> take k evs ->
       GetBlockResponse db' h = GetBlockResponse (node_db n) h).
Proof.
  induction k as [|k IH]; intros evs i n maxPos v Hbus Hm Hlen Hctx Hstop Hrel Hnd.
  - rewrite Nat.add_0_r in *. exists (node_db n). split; [|split; [by intros ev H; inversion H|done]].
    change (concat (ev_effects (node_heap n) <$> take 0 evs)) with (@nil Effect).
    assert (set_db (node_db n) n = n) as -> by (by destruct n). rewrite set_Effects_id.
    destruct evs as [|ev evs]; cbn [release_loop length] in *.
    { destruct Hstop as [[H ->]|(H & _ & _)]; [done|lia]. }
    destruct Hstop as [[H ->]|(H & Hd & ->)].
    + destruct (Z.ltb_spec maxPos (Z.of_nat i)); [done|lia].
    + destruct (Z.ltb_spec maxPos (Z.of_nat i)); [lia|]. by rewrite Hd.
  - destruct evs as [|ev evs]; [cbn [length] in Hlen; lia|].
    cbn [take fmap list_fmap concat release_loop length] in *.
    destruct (Z.ltb_spec maxPos (Z.of_nat i)); [lia|]. rewrite Hctx by lia.
    apply NoDup_cons in Hnd as [Hnin Hnd].
    destruct (Hrel ev) as (Hh & (r & Hr & Hl) & b & Hb); [by left|].
    destruct (release_event_run ev n r b) as (db1 & Hs1 & Hrun); try done.
    rewrite run_bind, Hrun.
    set (n1 := set_Effects _ (set_db db1 n)).
    destruct (IH evs (S i) n1 maxPos v) as (db' & Hloop & Hst & Hfr); try done.
    + lia.
    + intros j Hj. apply Hctx. lia.
    + by rewrite <- Nat.add_succ_comm in Hstop.
    + intros ev' Hev'. cbn. eapply releasable_frame; [exact Hs1|lia| |by apply Hrel; right].
      intros Heq. apply Hnin. rewrite Heq. by apply list_elem_of_fmap_2.
    + exists db'. cbn in Hst, Hfr. split; [|split].
      * rewrite Hloop. unfold n1, set_Effects, set_db. cbn. by rewrite <- app_assoc.
      * intros ev' [->|Hev']%elem_of_cons; [|by apply Hst].
        exists r, (set_fb_Events (fb_Events r) b). split; [done|]. split; [|done].
        rewrite Hfr by (done || lia). by eapply GetBlockResponse_Save.
      * intros h Hh0 Hhn. apply not_elem_of_cons in Hhn as [Hhe Hhn].
        rewrite Hfr by done. eapply GetBlockResponse_Save_ne; [exact Hs1|lia|done|congruence].
Qed.
End release.

(** ** SetFinal *)

Section set_final.
Context `{SL : StoreCodecLaws} {E : Env}.

(** Every stacked event can be released. *)
Definition stack_ok (n : Node) : Prop :=
  (forall ev, ev ∈ stackedEvents n -> releasable (node_heap n) (node_db n) ev) /\
  NoDup (ev_height <$> stackedEvents n).

Lemma stack_ok_take n k :
  stack_ok n ->
  (forall ev, ev ∈ take k (stackedEvents n) -> releasable (node_heap n) (node_db n) ev) /\
  NoDup (ev_height <$> take k (stackedEvents n)).
Proof.
  intros [Hr Hnd]. split.
  - intros ev Hev. apply Hr. by apply (subseteq_take k).
  - rewrite fmap_take. rewrite <- (take_drop k (ev_height <$> stackedEvents n)) in Hnd.
    by apply NoDup_app in Hnd as [Hnd _].
Qed.

Definition released (n : Node) (k : nat) (rest : list StackedEvent) (db' : datastore) : Node :=
  mkNode db' (node_heap n) rest
    (Effects n ++ concat (ev_effects (node_heap n) <$> take k (stackedEvents n))).

Lemma publishQueued_run n h k v :
  bus_ok -> marshals -> stack_ok n ->
  let p := max_pos_released h (stackedEvents n) in
  0 <= p -> (forall j, (j < k)%nat -> ctx_Done j = false) ->
  (Z.of_nat k = p + 1 /\ v = p \/ Z.of_nat k <= p /\ ctx_Done k = true /\ v = Z.of_nat k) ->
  exists db', publishQueuedBlockEvents h n =
      (released n k (drop (Z.to_nat (v + 1)) (stackedEvents n)) db', Ok tt) /\
    (forall ev, ev ∈ take k (stackedEvents n) -> stored_events (node_heap n) db' ev).
Proof.
  cbv zeta. intros Hbus Hm Hok Hp Hctx Hstop.
  pose proof (max_pos_released_spec h (stackedEvents n)) as (Hr & _).
  destruct (stack_ok_take n k Hok) as [Hrel Hnd].
  assert (max_pos_released h (stackedEvents n) < Z.of_nat 0 + Z.of_nat (length (stackedEvents n)))
    as Hlen by lia.
  destruct (release_loop_run k (stackedEvents n) 0 n (max_pos_released h (stackedEvents n)) v
    Hbus Hm Hlen Hctx Hstop Hrel Hnd) as (db' & Hloop & Hst & _).
  exists db'. split; [|exact Hst]. unfold publishQueuedBlockEvents. rewrite run_bind, run_gets.
  destruct (Z.eqb_spec (max_pos_released h (stackedEvents n)) (-1)); [lia|].
  by rewrite run_bind, Hloop, run_modify.
Qed.

Lemma SetFinal_run n height :
  bus_ok -> marshals -> stack_ok n -> (forall j, ctx_Done j = false) ->
  exists k db',
    SetFinal height n = (released n k (drop k (stackedEvents n)) db', Ok tt) /\
    (forall i ev, stackedEvents n !! i = Some ev -> publishable (i64 height) ev = true -> (i < k)%nat) /\
    (k = 0%nat \/ exists ev, stackedEvents n !! (k - 1)%nat = Some ev /\
                     publishable (i64 height) ev = true) /\
    (forall ev, ev ∈ take k (stackedEvents n) -> stored_events (node_heap n) db' ev).
Proof.
  intros Hbus Hm Hok Hctx. unfold SetFinal. set (h := i64 height).
  pose proof (max_pos_released_spec h (stackedEvents n)) as (Hr & Hlast & Hmax).
  set (p := max_pos_released h (stackedEvents n)) in *.
  destruct (decide (p = -1)) as [Hp|Hp].
  - exists 0%nat, (node_db n). split; [|split; [|split; [by left|by intros ev H; inversion H]]].
    + unfold publishQueuedBlockEvents. rewrite run_bind, run_gets. fold p. rewrite Hp. cbn.
      unfold released. cbn. rewrite app_nil_r. by destruct n.
    + intros i ev Hi Hpub. pose proof (Hmax i ev Hi Hpub). lia.
  - destruct (publishQueued_run n h (Z.to_nat (p + 1)) p Hbus Hm Hok) as (db' & Hrun & Hst).
    + fold p. lia.
    + done.
    + left. split; [fold p; lia|done].
    + exists (Z.to_nat (p + 1)), db'. split; [exact Hrun|]. split; [|split; [|exact Hst]].
      * intros i ev Hi Hpub. pose proof (Hmax i ev Hi Hpub). lia.
      * right. destruct Hlast as (ev & Hev & Hpub); [lia|]. exists ev. split; [|done].
        by replace (Z.to_nat (p + 1) - 1)%nat with (Z.to_nat p) by lia.
Qed.

(** C5: With a working event bus, stored responses and a context that is not
    cancelled, finalising a height publishes, in the order in which they were
    executed, the events of the stacked blocks up to the last one that is at
    most at this height and publishable, stores the events with their
    responses, and keeps exactly the later ones in the stack. *)
Theorem SetFinal_releases n height :
  bus_ok -> marshals -> stack_ok n -> (forall j, ctx_Done j = false) ->
  exists k db',
    SetFinal height n = (released n k (drop k (stackedEvents n)) db', Ok tt) /\
    (forall i ev, stackedEvents n !! i = Some ev -> publishable (i64 height) ev = true -> (i < k)%nat) /\
    (k = 0%nat \/ exists ev, stackedEvents n !! (k - 1)%nat = Some ev /\
                     publishable (i64 height) ev = true) /\
    (forall ev, ev ∈ take k (stackedEvents n) -> stored_events (node_heap n) db' ev).
Proof. apply SetFinal_run. Qed.

(** When the context is cancelled before the event at position [c] is
    released, this event is dropped from the stack although it was not
    published: the events before it were, the ones after it stay. *)
Theorem SetFinal_cancelled_drops_event n height c :
  bus_ok -> marshals -> stack_ok n ->
  Z.of_nat c <= max_pos_released (i64 height) (stackedEvents n) ->
  (forall j, (j < c)%nat -> ctx_Done j = false) -> ctx_Done c = true ->
  exists db', SetFinal height n = (released n c (drop (S c) (stackedEvents n)) db', Ok tt).
Proof.
  intros Hbus Hm Hok Hc Hctx Hdone.
  destruct (publishQueued_run n (i64 height) c (Z.of_nat c) Hbus Hm Hok) as (db' & Hrun & _).
  - lia.
  - done.
  - by right.
  - exists db'. unfold SetFinal. rewrite Hrun. by replace (Z.to_nat (Z.of_nat c + 1)) with (S c) by lia.
Qed.
End set_final.
