(* ===== verification/StackProps.v ===== *)
(** * What happens to the events of a stacked block

    The stack points to the response whose events [ExecuteTxs] clears right
    after stacking it: in every reachable state the stacked events are empty. *)

From Stdlib Require Import ZArith Lia.
From stdpp Require Import base gmap strings list pretty.
From S2P Require Import Prelude Bitmap Comet Store Cometcompat MempoolIDs Adapter StoreProps.
From S2P Require Import AdapterDemo AdapterProps.

Open Scope Z_scope.

Section erasure.
Context `{SC : StoreCodec}.

(** Every stacked event points to a response without events. *)
Definition erased (n : Node) : Prop :=
  forall ev, ev ∈ stackedEvents n ->
    exists r, node_heap n !! se_abciResponse ev = Some r /\ fb_Events r = [].

(** ... and [a] is a valid address. *)
Definition erased_at (a : nat) (n : Node) : Prop := erased n /\ (a < length (node_heap n))%nat.

Section steps.
Context {E : Env}.

(** Operations that leave the heap and the stack. *)
Definition keeps {A} (m : M Node A) : Prop :=
  forall n, node_heap (m n).1 = node_heap n /\ stackedEvents (m n).1 = stackedEvents n.

Lemma keeps_bind {A B} (m : M Node A) (k : A -> M Node B) :
  keeps m -> (forall a, keeps (k a)) -> keeps (m ≫= k).
Proof.
  intros Hm Hk n. rewrite run_bind. destruct (Hm n) as [H1 H2].
  destruct (m n) as [n' [a|e|t]]; cbn in *; [|done..].
  destruct (Hk a n') as [H3 H4]. by rewrite H3, H4.
Qed.
Lemma keeps_ret {A} (a : A) : keeps (mret a).
Proof. done. Qed.
Lemma keeps_lift {A} (r : outcome A) : keeps (lift r).
Proof. done. Qed.
Lemma keeps_gets {A} (f : Node -> A) : keeps (gets f).
Proof. done. Qed.
Lemma keeps_panic {A} t : keeps (panic t : M Node A).
Proof. done. Qed.
Lemma keeps_fail {A} e : keeps (fail e : M Node A).
Proof. done. Qed.
Lemma keeps_call e : keeps (call e).
Proof. done. Qed.
Lemma keeps_wrap {A} t (m : M Node A) : keeps m -> keeps (wrap_err t m).
Proof. intros Hm n. rewrite run_wrap_err. apply Hm. Qed.
Lemma keeps_publish t e : keeps (publish t e).
Proof. apply keeps_bind; [apply keeps_call|]. intros []. apply keeps_wrap, keeps_lift. Qed.
Lemma keeps_update_db f : keeps (update_db f).
Proof.
  apply keeps_bind; [apply keeps_gets|]. intros db. apply keeps_bind; [apply keeps_lift|].
  by intros db' n.
Qed.
Lemma keeps_deref a : keeps (deref a).
Proof. apply keeps_bind; [apply keeps_gets|]. intros [r|]; [apply keeps_ret|apply keeps_panic]. Qed.
Lemma keeps_for_each {A} (l : list A) body : (forall a, keeps (body a)) -> keeps (for_each l body).
Proof.
  intros Hb. induction l as [|x l IH]; cbn [for_each]; [apply keeps_ret|].
  apply keeps_bind; [apply Hb|]. by intros [].
Qed.

Lemma keeps_fireEvents b i r u : keeps (fireEvents b i r u).
Proof.
  unfold fireEvents. do 3 (apply keeps_bind; [apply keeps_publish|intros []]).
  repeat (apply keeps_bind; [|intros []]).
  - apply keeps_for_each. intros ev. apply keeps_publish.
  - apply keeps_for_each. intros [j tx]. unfold publish_tx. cbn.
    destruct (_ !! _); [apply keeps_publish|apply keeps_panic].
  - destruct (_ <? _)%nat; [apply keeps_publish|apply keeps_ret].
Qed.

Lemma keeps_commit_block h txs rs : keeps (commit_block h txs rs).
Proof.
  unfold commit_block, with_lock. set (m := call CallFlushAppConn ;; _).
  assert (keeps m) as Hm.
  { unfold m. repeat (apply keeps_bind; [|intros []]); apply keeps_call || apply keeps_lift. }
  intros n. unfold call. rewrite run_modify. cbn.
  destruct (Hm (set_Effects (fun es => es ++ [MempoolLock]) n)) as [H1 H2].
  destruct (m (set_Effects _ n)) as [n' r]. cbn in *. done.
Qed.

Lemma keeps_preserves {A} (m : M Node A) a : keeps m -> preserves (erased_at a) m.
Proof.
  intros Hm n [He Ha]. destruct (Hm n) as [H1 H2]. split; [|by rewrite H1].
  intros ev Hev. rewrite H2 in Hev. rewrite H1. by apply He.
Qed.

Lemma keeps_preserves_erased {A} (m : M Node A) : keeps m -> preserves erased m.
Proof.
  intros Hm n He. destruct (Hm n) as [H1 H2].
  intros ev Hev. rewrite H2 in Hev. rewrite H1. by apply He.
Qed.

Lemma preserves_alloc_bind {A} r (k : nat -> M Node A) :
  (forall a n, erased_at a n -> erased (k a n).1) -> preserves erased (alloc r ≫= k).
Proof.
  intros Hk n He. rewrite run_bind. unfold alloc. rewrite run_bind, run_gets, run_bind, run_modify, run_ret.
  apply Hk. split; cbn; [|rewrite length_app; cbn; lia].
  intros ev Hev. destruct (He ev Hev) as (r' & Hr' & Hnil). exists r'.
  split; [|done]. cbn. rewrite lookup_app_l; [done|]. by apply lookup_lt_Some in Hr'.
Qed.

(** Stacking a response and clearing its events. *)
Lemma erased_stack_clear a b i u n :
  erased_at a n ->
  erased_at a ((stackBlockCommitEvents i b a u ;; store_at a (set_fb_Events [])) n).1.
Proof.
  intros [He Ha]. unfold stackBlockCommitEvents, store_at. run. split; cbn; [|by rewrite length_alter].
  destruct (lookup_lt_is_Some_2 _ _ Ha) as [ra Hra].
  intros ev Hev. cbn in *. destruct (decide (se_abciResponse ev = a)) as [->|Hne].
  - exists (set_fb_Events [] ra). by rewrite list_lookup_alter_eq, Hra.
  - apply elem_of_app in Hev as [Hev|Hev]; [|by apply list_elem_of_singleton in Hev; subst].
    rewrite list_lookup_alter_ne by done. by apply He.
Qed.

Lemma erased_at_bind {A B} a (m : M Node A) (k : A -> M Node B) n :
  preserves (erased_at a) m -> (forall x n', erased_at a n' -> erased (k x n').1) ->
  erased_at a n -> erased ((m ≫= k) n).1.
Proof.
  intros Hm Hk Hn. specialize (Hm n Hn). rewrite run_bind.
  destruct (m n) as [n' [x|e|t]]; cbn in *; [by apply Hk|apply Hm|apply Hm].
Qed.

Lemma preserves_publish_or_stack header h b i a u :
  preserves (erased_at a) (publish_or_stack header h b i a u).
Proof.
  unfold publish_or_stack. destruct (IsPublishable _).
  - apply keeps_preserves. apply keeps_bind; [apply keeps_deref|]. intros r.
    apply keeps_bind; [apply keeps_wrap, keeps_update_db|]. intros [].
    apply keeps_wrap, keeps_fireEvents.
  - set (rest := deref a ≫= _). intros n Hn.
    assert (keeps rest) as Hrest.
    { apply keeps_bind; [apply keeps_deref|]. intros r. apply keeps_wrap, keeps_update_db. }
    pose proof (erased_stack_clear a b i u n Hn) as Hs.
    rewrite run_bind in Hs |- *. unfold stackBlockCommitEvents in *. rewrite run_modify in Hs |- *.
    rewrite run_bind. unfold store_at in *. rewrite run_modify in Hs |- *.
    by apply (keeps_preserves _ _ Hrest).
Qed.

Lemma keeps_save_block_ID s' txs h lc ah : keeps (save_block_ID s' txs h lc ah).
Proof.
  apply keeps_bind; [apply keeps_lift|intros p].
  apply keeps_bind; [apply keeps_wrap, keeps_lift|intros parts].
  apply keeps_bind; [apply keeps_wrap, keeps_update_db|intros []]. by intros n.
Qed.

Lemma erased_ExecuteTxs txs h t : preserves erased (ExecuteTxs txs h t).
Proof.
  unfold ExecuteTxs.
  apply preserves_bind; [by intros n|intros db].
  apply preserves_bind; [apply preserves_wrap, preserves_lift|intros s].
  apply preserves_bind; [apply preserves_lift|intros header].
  apply preserves_bind; [apply preserves_wrap, preserves_lift|intros lc].
  apply preserves_bind; [apply preserves_wrap, preserves_lift|intros ah].
  apply preserves_bind; [apply preserves_lift|intros p].
  apply preserves_bind; [by intros n|intros []].
  apply preserves_bind; [apply preserves_lift|intros st].
  apply preserves_if; [apply preserves_fail|].
  apply preserves_bind; [by intros n|intros []].
  apply preserves_bind; [apply preserves_lift|intros resp].
  apply preserves_alloc_bind. intros a n Hn. revert n Hn.
  refine (fun n Hn => erased_at_bind a (lift _) _ n (preserves_lift _ _) _ Hn).
  clear n Hn. intros [] n Hn.
  refine (erased_at_bind a (lift _) _ n (preserves_lift _ _) _ Hn). clear n Hn. intros us n Hn.
  refine (erased_at_bind a (lift _) _ n (preserves_lift _ _) _ Hn). clear n Hn. intros s' n Hn.
  refine (erased_at_bind a _ _ n (keeps_preserves _ _ (keeps_wrap _ _ (keeps_update_db _))) _ Hn).
  clear n Hn. intros [] n Hn.
  refine (erased_at_bind a _ _ n (keeps_preserves _ _ (keeps_commit_block _ _ _)) _ Hn).
  clear n Hn. intros [] n Hn.
  refine (erased_at_bind a _ _ n (keeps_preserves _ _ (keeps_save_block_ID _ _ _ _ _)) _ Hn).
  clear n Hn. intros [block bid] n Hn.
  refine (erased_at_bind a _ _ n (preserves_publish_or_stack _ _ _ _ _ _) _ Hn).
  clear n Hn. by intros [] n [Hn _].
Qed.

Lemma keeps_release_event ev : keeps (release_event ev).
Proof.
  apply keeps_bind; [apply keeps_gets|intros db].
  apply keeps_bind; [apply keeps_wrap, keeps_lift|intros b].
  apply keeps_bind; [apply keeps_deref|intros r].
  apply keeps_bind; [apply keeps_wrap, keeps_update_db|intros []].
  apply keeps_wrap, keeps_fireEvents.
Qed.

Lemma keeps_release_loop p i evs : keeps (release_loop p i evs).
Proof.
  revert i. induction evs as [|ev evs IH]; intros i; cbn [release_loop]; [apply keeps_ret|].
  destruct (_ <? _); [apply keeps_ret|]. destruct (ctx_Done i); [apply keeps_ret|].
  apply keeps_bind; [apply keeps_release_event|]. intros []. apply IH.
Qed.

Lemma erased_SetFinal h : preserves erased (SetFinal h).
Proof.
  unfold SetFinal, publishQueuedBlockEvents. apply preserves_bind; [by intros n|intros evs].
  apply preserves_if; [apply preserves_ret|].
  apply preserves_bind; [apply keeps_preserves_erased, keeps_release_loop|intros p].
  apply preserves_modify. intros n He ev Hev. apply He.
  rewrite <- (take_drop (Z.to_nat (p + 1)) (stackedEvents n)). apply elem_of_app. by right.
Qed.

Lemma erased_InitChain t h c : preserves erased (InitChain t h c).
Proof.
  apply keeps_preserves_erased. unfold InitChain.
  apply keeps_bind; [apply keeps_lift|intros ag]. apply keeps_bind; [apply keeps_lift|intros [vs ps]].
  apply keeps_bind; [apply keeps_call|intros []].
  apply keeps_bind; [apply keeps_wrap, keeps_lift|intros res].
  apply keeps_bind; [apply keeps_wrap, keeps_lift|intros vals].
  destruct (negb _); [apply keeps_fail|].
  apply keeps_bind; [apply keeps_wrap, keeps_update_db|intros []]. apply keeps_ret.
Qed.

Lemma erased_GetTxs : preserves erased GetTxs.
Proof.
  apply keeps_preserves_erased. unfold GetTxs.
  apply keeps_bind; [apply keeps_gets|intros db].
  apply keeps_bind; [apply keeps_wrap, keeps_lift|intros s].
  destruct mempool_Reap; [|apply keeps_fail].
  apply keeps_bind; [apply keeps_lift|intros h]. apply keeps_bind; [apply keeps_lift|intros p].
  apply keeps_bind; [apply keeps_call|intros []]. apply keeps_lift.
Qed.

(** *** What a release publishes *)

(** Publications that carry block events carry none. *)
Definition no_block_events (e : Effect) : Prop :=
  match e with
  | PublishNewBlock _ _ r => fb_Events r = []
  | PublishNewBlockEvents _ evs _ => evs = []
  | _ => True
  end.

(** The calls that [m] makes all satisfy [P]. *)
Definition tells (P : Effect -> Prop) {A} (m : M Node A) : Prop :=
  forall n, exists es, Effects (m n).1 = Effects n ++ es /\ Forall P es.

Section tells.
Context (P : Effect -> Prop).

Lemma tells_bind {A B} (m : M Node A) (k : A -> M Node B) :
  tells P m -> (forall a, tells P (k a)) -> tells P (m ≫= k).
Proof.
  intros Hm Hk n. rewrite run_bind. destruct (Hm n) as (es & H1 & H2).
  destruct (m n) as [n' [a|e|t]]; cbn in *; [|by eauto..].
  destruct (Hk a n') as (es' & H3 & H4). exists (es ++ es'). split; [|by apply Forall_app].
  by rewrite H3, H1, app_assoc.
Qed.
Lemma tells_quiet {A} (m : M Node A) : (forall n, Effects (m n).1 = Effects n) -> tells P m.
Proof. intros H n. exists []. split; [by rewrite app_nil_r|constructor]. Qed.
Lemma tells_wrap {A} t (m : M Node A) : tells P m -> tells P (wrap_err t m).
Proof. intros Hm n. rewrite run_wrap_err. apply Hm. Qed.
Lemma tells_call e : P e -> tells P (call e).
Proof. intros He n. exists [e]. split; [done|by repeat constructor]. Qed.
Lemma tells_publish t e : P e -> tells P (publish t e).
Proof. intros He. apply tells_bind; [by apply tells_call|]. intros []. by apply tells_quiet. Qed.
Lemma tells_for_each {A} (l : list A) body :
  (forall a, tells P (body a)) -> tells P (for_each l body).
Proof.
  intros Hb. induction l as [|x l IH]; cbn [for_each]; [by apply tells_quiet|].
  apply tells_bind; [apply Hb|]. by intros [].
Qed.
Lemma tells_update_db f : tells P (update_db f).
Proof.
  apply tells_quiet. intros n. unfold update_db. rewrite run_bind, run_gets, run_bind, run_lift.
  by destruct (f (node_db n)).
Qed.
Lemma tells_publish_tx block r itx :
  (forall h i tx res, P (PublishTx h i tx res)) -> tells P (publish_tx block r itx).
Proof.
  intros HP. unfold publish_tx. destruct (_ !! _); [by apply tells_publish|by apply tells_quiet].
Qed.
End tells.

Lemma silent_fireEvents b i r u : fb_Events r = [] -> tells no_block_events (fireEvents b i r u).
Proof.
  intros Hr. unfold fireEvents. do 3 (apply tells_bind; [by apply tells_publish|intros []]).
  apply tells_bind; [|intros []; apply tells_bind; [|intros []]].
  - apply tells_for_each. intros ev. by apply tells_publish.
  - apply tells_for_each. intros itx. by apply tells_publish_tx.
  - destruct (_ <? _)%nat; [by apply tells_publish|by apply tells_quiet].
Qed.

Lemma release_event_silent ev n r :
  node_heap n !! se_abciResponse ev = Some r -> fb_Events r = [] ->
  exists es, Effects (release_event ev n).1 = Effects n ++ es /\ Forall no_block_events es.
Proof.
  intros Hr Hnil. unfold release_event. rewrite run_bind, run_gets, run_bind, run_wrap_err, run_lift.
  destruct (GetBlockResponse _ _) as [b|e|t]; cbn [fst snd wrap_outcome];
    [|exists []; split; [by rewrite app_nil_r|constructor]..].
  rewrite run_bind. unfold deref. rewrite run_bind, run_gets, Hr, run_ret.
  refine (tells_bind _ _ _ (tells_wrap _ _ _ (tells_update_db _ _)) _ n). intros [].
  by apply tells_wrap, silent_fireEvents.
Qed.

Lemma release_loop_silent p i evs n :
  (forall ev, ev ∈ evs -> exists r, node_heap n !! se_abciResponse ev = Some r /\ fb_Events r = []) ->
  exists es, Effects (release_loop p i evs n).1 = Effects n ++ es /\ Forall no_block_events es.
Proof.
  revert i n. induction evs as [|ev evs IH]; intros i n Hev; cbn [release_loop];
    [exists []; split; [by rewrite app_nil_r|constructor]|].
  destruct (_ <? _); [exists []; split; [by rewrite app_nil_r|constructor]|].
  destruct (ctx_Done i); [exists []; split; [by rewrite app_nil_r|constructor]|].
  destruct (Hev ev) as (r & Hr & Hnil); [by left|].
  destruct (release_event_silent ev n r Hr Hnil) as (es & H1 & H2).
  destruct (keeps_release_event ev n) as [Hh _]. rewrite run_bind.
  destruct (release_event ev n) as [n' [[]|e|t]]; cbn in *; [|by eauto..].
  destruct (IH (S i) n') as (es' & H3 & H4).
  { intros ev' Hev'. rewrite Hh. apply Hev. by right. }
  exists (es ++ es'). split; [by rewrite H3, H1, app_assoc|by apply Forall_app].
Qed.
End steps.

(** One step of the adapter, whatever its outcome. *)
Inductive node_step (n n' : Node) : Prop :=
| step_init (E : Env) t h c r : InitChain t h c n = (n', r) -> node_step n n'
| step_execute (E : Env) txs h t r : ExecuteTxs txs h t n = (n', r) -> node_step n n'
| step_get_txs (E : Env) r : GetTxs n = (n', r) -> node_step n n'
| step_set_final (E : Env) h r : SetFinal h n = (n', r) -> node_step n n'.

Lemma erased_step n n' : erased n -> node_step n n' -> erased n'.
Proof.
  intros He [E t h c r H|E txs h t r H|E r H|E h r H].
  - pose proof (erased_InitChain t h c n He) as Hn. by rewrite H in Hn.
  - pose proof (erased_ExecuteTxs txs h t n He) as Hn. by rewrite H in Hn.
  - pose proof (erased_GetTxs n He) as Hn. by rewrite H in Hn.
  - pose proof (erased_SetFinal h n He) as Hn. by rewrite H in Hn.
Qed.

(** C28: In every state that a node reaches from an empty stack, whatever the
    application returned, finalising a height publishes no block event at all:
    the events of the blocks that waited for their confirmation are lost,
    because the stack shares the response whose events [ExecuteTxs] clears. *)
Theorem SetFinal_loses_events (E : Env) n0 n n' height r :
  stackedEvents n0 = [] -> star node_step n0 n -> SetFinal height n = (n', r) ->
  exists es, Effects n' = Effects n ++ es /\ Forall no_block_events es.
Proof.
  intros H0 Hs Hf. assert (erased n0) as He0 by (intros ev; rewrite H0; by intros H%elem_of_nil).
  pose proof (star_invariant node_step erased erased_step n0 n Hs He0) as He. clear Hs He0.
  assert (n' = (SetFinal height n).1) as -> by (by rewrite Hf). clear Hf.
  unfold SetFinal, publishQueuedBlockEvents. rewrite run_bind, run_gets.
  destruct (_ =? -1); [exists []; split; [by rewrite app_nil_r|constructor]|].
  rewrite run_bind.
  destruct (release_loop_silent (max_pos_released (i64 height) (stackedEvents n)) 0
    (stackedEvents n) n He) as (es & H1 & H2).
  destruct (release_loop _ _ _ n) as [n1 [v|e|t]]; cbn in *; by eauto.
Qed.
End erasure.
