(* ===== verification/ExecuteProps.v ===== *)
(** * Executing a block

    What a successful [ExecuteTxs] asks of the application, the mempool and the
    event bus, in which order, and what it stores. *)

From Stdlib Require Import ZArith Lia.
From stdpp Require Import base gmap strings list pretty.
From S2P Require Import Prelude Bitmap Comet Store Cometcompat MempoolIDs Adapter StoreProps.
From S2P Require Import AdapterDemo AdapterProps StackProps.

Open Scope Z_scope.

Section execute.
Context `{SL : StoreCodecLaws} {CL : CometLaws} {E : Env}.

Definition proposal_request (txs : list bytes) (h : Z) (t : Time) (s : CmtState) (c : Commit)
    (ah : CmtHeader) (p : CmtValidator) : RequestProcessProposal :=
  mkProcessProposal (header_Hash ah) (i64 h) t txs (cometCommitToABCICommitInfo c) (cv_Address p)
    (vs_Hash (st_NextValidators s)).

Definition finalize_request (txs : list bytes) (h : Z) (t : Time) (s : CmtState) (c : Commit)
    (ah : CmtHeader) (p : CmtValidator) : RequestFinalizeBlock :=
  mkFinalizeBlock (header_Hash ah) (vs_Hash (st_NextValidators s)) (cv_Address p) (i64 h) t
    (cometCommitToABCICommitInfo c) txs.

(** The collaborators' answers on the way of a successful execution. *)
Record exec_ok (n : Node) (txs : list bytes) (h : Z) (t : Time) (s : CmtState) (header : RlkHeader)
    (c : Commit) (ah : CmtHeader) (p : CmtValidator) (resp : ResponseFinalizeBlock)
    (updates : list CmtValidator) (s' : CmtState) (p' : CmtValidator) (parts : PartSetHeader) :
    Prop := {
  x_state : LoadState (node_db n) = Ok s;
  x_header : HeaderFromContext = Some header;
  x_commit : GetLastCommit h (node_db n) = Ok c;
  x_abci : ToABCIHeader header c = Ok ah;
  x_proposer : vs_Proposer (st_Validators s) = Some p;
  x_process : app_ProcessProposal (proposal_request txs h t s c ah p) = Ok ResponseProcessProposal_ACCEPT;
  x_finalize : app_FinalizeBlock (finalize_request txs h t s c ah p) = Ok resp;
  x_results : (length txs <= length (fb_TxResults resp))%nat;
  x_updates : PB2TM_ValidatorUpdates (fb_ValidatorUpdates resp) = Ok updates;
  x_next : next_state s h resp updates = Ok s';
  x_flush : mempool_FlushAppConn = Ok tt;
  x_app_commit : app_Commit = Ok tt;
  x_update : mempool_Update (i64 h) txs (fb_TxResults resp) = Ok tt;
  x_proposer' : vs_Proposer (st_Validators s') = Some p';
  x_parts : MakePartSet (MakeBlock s' (i64 h) txs c (cv_Address p')) = Ok parts;
  x_marshal_state : exists d, State_Marshal s' = Ok d;
  x_marshal_id : forall b, exists d, BlockID_Marshal b = Ok d;
  x_marshal_resp : marshals;
  x_bus : bus_ok
}.

(** The calls of an execution, before anything is published. *)
Definition exec_effects (txs : list bytes) (h : Z) (t : Time) (s : CmtState) (c : Commit)
    (ah : CmtHeader) (p : CmtValidator) (resp : ResponseFinalizeBlock) : list Effect :=
  [CallProcessProposal (proposal_request txs h t s c ah p);
   CallFinalizeBlock (finalize_request txs h t s c ah p);
   MempoolLock; CallFlushAppConn; CallCommit; CallUpdate (i64 h) txs (fb_TxResults resp);
   MempoolUnlock].

Lemma commit_block_run h txs rs n :
  mempool_FlushAppConn = Ok tt -> app_Commit = Ok tt -> mempool_Update (i64 h) txs rs = Ok tt ->
  commit_block h txs rs n =
    (set_Effects (fun es => es ++ [MempoolLock; CallFlushAppConn; CallCommit;
       CallUpdate (i64 h) txs rs; MempoolUnlock]) n, Ok tt).
Proof.
  intros H1 H2 H3. unfold commit_block, with_lock, call. run. rewrite ?H1. run. rewrite ?H2. run.
  rewrite ?H3. run. unfold set_Effects. cbn. by rewrite <- !app_assoc.
Qed.

Lemma update_db_run t f n db' :
  f (node_db n) = Ok db' -> wrap_err t (update_db f) n = (set_db db' n, Ok tt).
Proof. intros H. unfold update_db. run. rewrite ?H. by run. Qed.

Lemma publish_or_stack_run header h block bid a r updates n db' :
  bus_ok -> node_heap n !! a = Some r -> (length (blk_Txs block) <= length (fb_TxResults r))%nat ->
  SaveBlockResponse h (if IsPublishable (i64 (rh_Height header)) then r else set_fb_Events [] r)
    (node_db n) = Ok db' ->
  publish_or_stack header h block bid a updates n =
    (if IsPublishable (i64 (rh_Height header))
     then set_Effects (fun es => es ++ block_effects block bid r updates) (set_db db' n)
     else set_db db' (set_heap (alter (set_fb_Events []) a)
            (set_stack (fun es => es ++ [mkStacked bid block a updates]) n)), Ok tt).
Proof.
  intros Hb Ha Hl Hs. unfold publish_or_stack. destruct (IsPublishable _).
  - unfold deref. rewrite run_bind, run_bind, run_gets, Ha, run_ret, run_bind.
    rewrite (update_db_run _ _ _ db') by done.
    by rewrite run_wrap_err, (fireEvents_emits _ _ _ _ Hb Hl).
  - unfold stackBlockCommitEvents, store_at, deref.
    rewrite run_bind, run_modify, run_bind, run_modify, run_bind, run_bind, run_gets.
    cbn [node_heap set_heap set_stack]. rewrite list_lookup_alter_eq, Ha. cbn [fmap option_fmap option_map].
    rewrite run_ret. by rewrite (update_db_run _ _ _ db').
Qed.

(** What an execution saves, and what is then in the store. *)
Lemma save_block db h s b r ds di dr :
  State_Marshal s = Ok ds -> BlockID_Marshal b = Ok di -> Response_Marshal r = Ok dr ->
  exists db1 db2 db3, SaveState s db = Ok db1 /\ SaveBlockID h b db1 = Ok db2 /\
    SaveBlockResponse h r db2 = Ok db3 /\
    (LoadState db3 = Ok (stored_state s) /\ GetBlockID db3 h = Ok b /\ GetBlockResponse db3 h = Ok r) /\
    forall k, 0 <= k -> 0 <= h -> k <> h -> GetBlockID db3 k = GetBlockID db k.
Proof.
  intros Hs Hb Hr. unfold SaveState, SaveBlockID, SaveBlockResponse. rewrite Hs, Hb, Hr.
  cbn [wrap_outcome mbind outcome_bind]. do 3 eexists. do 3 (split; [reflexivity|]). split_and!.
  - rewrite !LoadState_Put_other by (apply not_eq_sym; done).
    apply (LoadState_Save s db). unfold SaveState. by rewrite Hs.
  - rewrite GetBlockID_Put_other by (intros h'; apply not_eq_sym; done).
    eapply GetBlockID_Save. unfold SaveBlockID. by rewrite Hb.
  - eapply GetBlockResponse_Save. unfold SaveBlockResponse. by rewrite Hr.
  - intros k Hk Hh Hne. rewrite GetBlockID_Put_other by (intros h'; apply not_eq_sym; done).
    unfold GetBlockID at 1. rewrite ds_Get_Put_ne; [|intros E0; by apply Hne, eq_sym, key_blockID_inj].
    apply GetBlockID_Put_other. intros h'. done.
Qed.

Lemma ExecuteTxs_run n txs h t s header c ah p resp updates s' p' parts :
  exec_ok n txs h t s header c ah p resp updates s' p' parts ->
  let block := MakeBlock s' (i64 h) txs c (cv_Address p') in
  let bid := mkBlockID (header_Hash ah) parts in
  let pub := IsPublishable (i64 (rh_Height header)) in
  exists n', ExecuteTxs txs h t n = (n', Ok (fb_AppHash resp, u64 (params_MaxBytes (st_ConsensusParams s')))) /\
    LoadState (node_db n') = Ok (stored_state s') /\ GetBlockID (node_db n') h = Ok bid /\
    GetBlockResponse (node_db n') h = Ok (if pub then resp else set_fb_Events [] resp) /\
    Effects n' = Effects n ++ exec_effects txs h t s c ah p resp
      ++ (if pub then block_effects block bid resp updates else []) /\
    stackedEvents n' = stackedEvents n
      ++ (if pub then [] else [mkStacked bid block (length (node_heap n)) updates]) /\
    forall k, 0 <= k -> 0 <= h -> k <> h -> GetBlockID (node_db n') k = GetBlockID (node_db n) k.
Proof.
  intros [] block bid pub.
  set (stored := if pub then resp else set_fb_Events [] resp).
  destruct x_marshal_state0 as [ds Hds]. destruct (x_marshal_id0 bid) as [di Hdi].
  destruct (x_marshal_resp0 stored) as [dr Hdr].
  destruct (save_block (node_db n) h s' bid stored ds di dr Hds Hdi Hdr)
    as (db1 & db2 & db3 & H1 & H2 & H3 & Hdb & Hframe).
  unfold ExecuteTxs. rewrite run_bind, run_gets, run_bind, run_wrap_err, run_lift, x_state0.
  cbn [fst snd wrap_outcome]. rewrite run_bind, run_lift, x_header0.
  rewrite run_bind, run_wrap_err, run_lift, x_commit0. cbn [fst snd wrap_outcome].
  rewrite run_bind, run_wrap_err, run_lift, x_abci0. cbn [fst snd wrap_outcome].
  rewrite run_bind, run_lift. unfold proposer_Address at 1. rewrite x_proposer0.
  rewrite run_bind. unfold call. rewrite run_modify.
  rewrite run_bind, run_lift. unfold proposal_request in x_process0. rewrite x_process0.
  cbn [negb Z.eqb Pos.eqb ResponseProcessProposal_ACCEPT].
  rewrite run_bind, run_modify, run_bind, run_lift.
  unfold finalize_request in x_finalize0. rewrite x_finalize0.
  rewrite run_bind. unfold alloc. rewrite run_bind, run_gets, run_bind, run_modify, run_ret.
  rewrite run_bind, run_lift. unfold log_results.
  destruct (Nat.ltb_spec (length (fb_TxResults resp)) (length txs)); [lia|].
  rewrite run_bind, run_lift, x_updates0, run_bind, run_lift, x_next0.
  rewrite run_bind, (update_db_run _ _ _ db1) by done.
  rewrite run_bind, commit_block_run by done.
  unfold save_block_ID. rewrite run_bind, run_bind, run_lift.
  unfold proposer_Address. rewrite x_proposer'0.
  rewrite run_bind, run_wrap_err, run_lift, x_parts0. cbn [fst snd wrap_outcome].
  fold bid. rewrite run_bind, (update_db_run _ _ _ db2) by done.
  rewrite run_ret, run_bind.
  rewrite (publish_or_stack_run _ _ _ _ _ resp _ _ db3); [|done| | |done].
  2: { cbn. rewrite lookup_app_r, Nat.sub_diag by done. done. }
  2: { by rewrite MakeBlock_Txs. }
  rewrite run_ret. eexists. split; [done|]. fold pub.
  unfold stored in Hdb. destruct pub; cbn in *; (split; [apply Hdb|]); (split; [apply Hdb|]);
    (split; [apply Hdb|]); rewrite <- ?app_assoc, ?app_nil_r; done.
Qed.

(** C4: A successful execution asks the application to process and then to
    finalise the block under the hash of the rollkit header's CometBFT form,
    commits under the mempool's lock, stores the state (as CometBFT encodes it,
    which from height 1 on is the whole of it) and the block ID with this hash, and returns the application's hash.  A publishable block's
    response is stored and its events are published in CometBFT's order; the
    response of another block is stored without events, nothing is published
    and the block is stacked. *)
Theorem ExecuteTxs_spec n txs h t s header c ah p resp updates s' p' parts :
  exec_ok n txs h t s header c ah p resp updates s' p' parts ->
  let block := MakeBlock s' (i64 h) txs c (cv_Address p') in
  let bid := mkBlockID (header_Hash ah) parts in
  let pub := IsPublishable (i64 (rh_Height header)) in
  exists n', ExecuteTxs txs h t n = (n', Ok (fb_AppHash resp, u64 (params_MaxBytes (st_ConsensusParams s')))) /\
    LoadState (node_db n') = Ok (stored_state s') /\ GetBlockID (node_db n') h = Ok bid /\
    GetBlockResponse (node_db n') h = Ok (if pub then resp else set_fb_Events [] resp) /\
    Effects n' = Effects n ++ exec_effects txs h t s c ah p resp
      ++ (if pub then block_effects block bid resp updates else []) /\
    stackedEvents n' = stackedEvents n
      ++ (if pub then [] else [mkStacked bid block (length (node_heap n)) updates]).
Proof.
  intros Hx block bid pub. destruct (ExecuteTxs_run _ _ _ _ _ _ _ _ _ _ _ _ _ _ Hx) as (n' & H).
  exists n'. tauto.
Qed.
End execute.

(** ** A concrete run *)

Definition demo_response (ev : string) : ResponseFinalizeBlock :=
  mkResponse (CT := demo_types) [mkAbciEvent ev []] [mkExecTxResult 0 [] ""] [] None [42].
Definition demo_rheader (h : Z) : RlkHeader :=
  mkRlkHeader h (mkTime 5 0) "chain" 0 [1] [2] [3] [4] [5] [6].
Definition demo_val : CmtValidator := mkCmtValidator [5] [5] 1.
Definition demo_params : Z := 1000.
Definition demo_genesis_doc : AppGenesis :=
  mkAppGenesis (CT := demo_types) (mkTime 1 0) "chain" 1 (Some ([mkGenesisValidator [5] [5] 1], Some demo_params)) [].

(** A block at height [h] whose execution emits one event; [pub] decides which
    heights are publishable and [done] where the context is cancelled, [commit] and
    [bus] how the application commits and what the event bus answers. *)
Definition demo_env_with (commit : outcome unit) (bus : Effect -> outcome unit) (doc : AppGenesis)
    (h : Z) (pub : Z -> bool) (done_ : nat -> bool) : Env := {|
  app_InitChain := fun req => Ok (mkInitChainResponse (CT := demo_types) None (ri_Validators req) [0]);
  app_ProcessProposal := fun _ => Ok 1;
  app_FinalizeBlock := fun _ => Ok (demo_response "transfer");
  app_Commit := commit;
  app_PrepareProposal := fun r => Ok (rp_Txs r);
  mempool_Reap := Some (fun _ _ => []);
  mempool_FlushAppConn := Ok tt;
  mempool_Update := fun _ _ _ => Ok tt;
  RollkitStore_GetHeader := fun h => Ok (mkSignedHeader (demo_rheader h) [9]);
  RollkitStore_Height := Ok h;
  HeaderFromContext := Some (demo_rheader h);
  EventBus_Publish := bus;
  IsPublishable := pub;
  ctx_Done := done_;
  time_Now := mkTime 7 0;
  AppGenesis_doc := Some doc
|}.
Definition demo_env_of : AppGenesis -> Z -> (Z -> bool) -> (nat -> bool) -> Env :=
  demo_env_with (Ok tt) (fun _ => Ok tt).
Definition demo_env : Z -> (Z -> bool) -> (nat -> bool) -> Env := demo_env_of demo_genesis_doc.

Definition always (b : bool) {A} (a : A) : bool := b.

Definition demo_state : CmtState :=
  mkCmtState (CT := demo_types) "chain" 0 [demo_val] [demo_val] [] 1 demo_params 1 [0].

(** A node that has only been initialised. *)
Definition demo_node : Node :=
  mkNode (ds_Put key_state (number (state_tuple demo_state)) ∅) [] [] [].

Lemma demo_marshals : marshals.
Proof. intros r. eexists. reflexivity. Qed.

Lemma ExecuteTxs_spec_witness :
  exists n', ExecuteTxs (E := demo_env 1 (always false) (always false)) [[1; 2]] 1 (mkTime 5 0) demo_node =
      (n', Ok ([42], 1000)) /\
    GetBlockResponse (node_db n') 1 = Ok (set_fb_Events [] (demo_response "transfer")).
Proof.
  set (c := mkCommit 0 0 zero_BlockID []).
  set (ah := mkCmtHeader 11 0 "chain" 1 (mkTime 5 0) zero_BlockID [0; 8] [1] [6] [6] [2] [3] [4] [9] [5]).
  destruct (ExecuteTxs_spec (E := demo_env 1 (always false) (always false)) demo_node [[1; 2]] 1
    (mkTime 5 0) demo_state (demo_rheader 1) c ah demo_val (demo_response "transfer") []
    (mkCmtState (CT := demo_types) "chain" 1 [demo_val] [demo_val] [demo_val] 1 demo_params 1 [42])
    demo_val (mkPartSetHeader 1 [1])) as (n' & Hrun & _ & _ & Hresp & _).
  - split; try reflexivity.
    + eexists. reflexivity.
    + intros b. eexists. reflexivity.
    + exact demo_marshals.
    + intros e. reflexivity.
  - exists n'. split; [exact Hrun|exact Hresp].
Defined.

(** Two executed blocks that wait for their confirmation. *)
Definition demo_stacked : Node := Eval vm_compute in
  let n1 := (ExecuteTxs (E := demo_env 1 (always false) (always false)) [[1]] 1 (mkTime 5 0) demo_node).1 in
  (ExecuteTxs (E := demo_env 2 (always false) (always false)) [[2]] 2 (mkTime 6 0) n1).1.

Lemma demo_stack_ok : stack_ok demo_stacked.
Proof.
  split.
  - assert (Forall (releasable (node_heap demo_stacked) (node_db demo_stacked))
      (stackedEvents demo_stacked)) as H; [|by rewrite Forall_forall in H].
    cbn [stackedEvents demo_stacked].
    constructor; [|constructor; [|constructor]].
    + split; [split; vm_compute; discriminate|]. split.
      * eexists. split; [vm_compute; reflexivity|]. cbn. lia.
      * eexists. vm_compute. reflexivity.
    + split; [split; vm_compute; discriminate|]. split.
      * eexists. split; [vm_compute; reflexivity|]. cbn. lia.
      * eexists. vm_compute. reflexivity.
  - vm_compute. apply NoDup_ListNoDup. repeat constructor; cbn; intuition discriminate.
Qed.

Lemma SetFinal_releases_witness :
  exists k db', SetFinal (E := demo_env 2 (always true) (always false)) 1 demo_stacked =
    (released demo_stacked k (drop k (stackedEvents demo_stacked)) db', Ok tt).
Proof.
  destruct (SetFinal_releases (E := demo_env 2 (always true) (always false)) demo_stacked 1)
    as (k & db' & Hrun & _).
  - intros e. reflexivity.
  - exact demo_marshals.
  - exact demo_stack_ok.
  - reflexivity.
  - exists k, db'. exact Hrun.
Defined.

Definition done_at (c : nat) (j : nat) : bool := bool_decide (j = c).

Lemma SetFinal_cancelled_drops_event_witness :
  exists db', SetFinal (E := demo_env 2 (always true) (done_at 1)) 2 demo_stacked =
    (released demo_stacked 1 (drop 2 (stackedEvents demo_stacked)) db', Ok tt) /\
    drop 2 (stackedEvents demo_stacked) = [].
Proof.
  destruct (SetFinal_cancelled_drops_event (E := demo_env 2 (always true) (done_at 1)) demo_stacked 2 1)
    as (db' & Hrun).
  - intros e. reflexivity.
  - exact demo_marshals.
  - exact demo_stack_ok.
  - vm_compute. discriminate.
  - intros j Hj. apply bool_decide_eq_false. lia.
  - reflexivity.
  - exists db'. split; [exact Hrun|]. vm_compute. reflexivity.
Defined.

(** ** InitChain and the last commit *)

Section init.
Context `{SL : StoreCodecLaws} {E : Env}.

Lemma InitChain_inv n t h chainID n' r :
  InitChain t h chainID n = (n', r) ->
  match r with
  | Ok (hash, maxBytes) =>
      exists ag s, AppGenesis_doc = Some ag /\ ag_GenesisTime ag = t /\ ag_ChainID ag = chainID /\
        u64 (ag_InitialHeight ag) = h /\ SaveState s (node_db n) = Ok (node_db n') /\ st_LastBlockHeight s = 0 /\
        st_ChainID s = chainID /\ st_AppHash s = hash /\ st_LastValidators s = st_Validators s /\
        st_NextValidators s = IncrementProposerPriority (st_Validators s) 1 /\
        (exists v, st_Validators s = NewValidatorSet [v]) /\
        maxBytes = u64 (params_MaxBytes (st_ConsensusParams s))
  | _ => node_db n' = node_db n
  end.
Proof.
  unfold InitChain. rewrite run_bind, run_lift. unfold validate_genesis.
  destruct AppGenesis_doc as [ag|]; [|by intros [= <- <-]].
  case_bool_decide as Ht; cbn [negb]; [|by intros [= <- <-]].
  case_bool_decide as Hc; cbn [negb]; [|by intros [= <- <-]].
  destruct (Z.eqb_spec h (u64 (ag_InitialHeight ag))) as [Hh|]; cbn [negb]; [|by intros [= <- <-]].
  rewrite run_bind, run_lift. destruct (ag_Consensus ag) as [[vs [ps|]]|];
    [|by intros [= <- <-]..].
  set (req := mkInitChain _ _ _ _ _ _). rewrite run_bind. unfold call. rewrite run_modify.
  rewrite run_bind, run_wrap_err, run_lift.
  destruct (app_InitChain req) as [res|e|x]; cbn [fst snd wrap_outcome]; [|by intros [= <- <-]..].
  rewrite run_bind, run_wrap_err, run_lift.
  destruct (PB2TM_ValidatorUpdates (ric_Validators res)) as [vals|e|x]; cbn [fst snd wrap_outcome];
    [|by intros [= <- <-]..].
  destruct (vs_Validators (NewValidatorSet vals)) as [|v [|]] eqn:Ev; cbn [length Nat.eqb negb];
    [by intros [= <- <-]| |by intros [= <- <-]].
  set (s := mkCmtState _ _ _ _ _ _ _ _ _). rewrite run_bind. unfold update_db.
  rewrite run_wrap_err, run_bind, run_gets, run_bind, run_lift.
  destruct (SaveState s _) as [db'|e|x] eqn:Es; cbn [fst snd wrap_outcome]; [|by intros [= <- <-]..].
  rewrite run_modify, run_ret. cbn [fst snd wrap_outcome]. intros [= <- <-].
  exists ag, s. split_and!; try done. by exists v.
Qed.

(** A chain is initialised only for the genesis the node was given (same
    time, identifier and initial height) and only with exactly one validator;
    the stored state then has this validator set, the application's hash and
    parameters (and no last validators: CometBFT's encoding leaves them out), and what is returned is the hash and the block size limit.
    Whenever it fails with an error the store is unchanged. *)
Theorem InitChain_spec n t h chainID n' r :
  InitChain t h chainID n = (n', r) ->
  match r with
  | Ok (hash, maxBytes) =>
      exists ag s, AppGenesis_doc = Some ag /\ ag_GenesisTime ag = t /\ ag_ChainID ag = chainID /\
        u64 (ag_InitialHeight ag) = h /\ LoadState (node_db n') = Ok s /\
        st_ChainID s = chainID /\ st_AppHash s = hash /\ st_LastValidators s = NewValidatorSet [] /\
        st_NextValidators s = IncrementProposerPriority (st_Validators s) 1 /\
        (exists v, st_Validators s = NewValidatorSet [v]) /\
        maxBytes = u64 (params_MaxBytes (st_ConsensusParams s))
  | _ => node_db n' = node_db n
  end.
Proof.
  intros H%InitChain_inv. destruct r as [[hash maxBytes]|e|x]; [|done..].
  destruct H as (ag & s & H1 & H2 & H3 & H4 & Hs%LoadState_Save & H0 & Hc & Ha & _ & H).
  exists ag, (stored_state s). unfold stored_state in *. by rewrite H0 in *.
Qed.

(** Without the previous block's ID a block above height 1 cannot be executed:
    the execution stops at the last commit, before anything is sent to the
    application, and leaves the node as it was. *)
Lemma ExecuteTxs_no_block_id n txs h t e :
  1 < h -> GetBlockID (node_db n) (h - 1) = Err e ->
  (ExecuteTxs txs h t n).1 = n /\ is_ok (ExecuteTxs txs h t n).2 = false.
Proof.
  intros Hh Hid. unfold ExecuteTxs. rewrite run_bind, run_gets, run_bind, run_wrap_err, run_lift.
  destruct (LoadState (node_db n)); cbn [fst snd wrap_outcome]; [|done..].
  rewrite run_bind, run_lift. destruct HeaderFromContext; [|done].
  rewrite run_bind, run_wrap_err, run_lift. unfold GetLastCommit.
  destruct (Z.ltb_spec 1 h); [|lia]. rewrite Hid.
  by destruct (RollkitStore_GetHeader (h - 1)).
Qed.

(** Above height 1 the last commit is the previous block's: its stored
    block ID, signed by the previous header's proposer with its signature; it
    is handed to the application as one vote with power 1.  At the first
    height the commit is empty. *)
Theorem GetLastCommit_spec db h c :
  GetLastCommit h db = Ok c ->
  if 1 <? h then
    exists sh bid, RollkitStore_GetHeader (h - 1) = Ok sh /\ GetBlockID db (h - 1) = Ok bid /\
      commit_BlockID c = bid /\ commit_Height c = i64 (rh_Height (sh_Header sh)) /\
      cometCommitToABCICommitInfo c =
        mkCommitInfo 0 [mkVoteInfo (rh_ProposerAddress (sh_Header sh)) 1 BlockIDFlagCommit] /\
      cs_Signature <$> commit_Signatures c = [sh_Signature sh]
  else commit_BlockID c = zero_BlockID /\ cometCommitToABCICommitInfo c = mkCommitInfo 0 [].
Proof.
  unfold GetLastCommit. destruct (1 <? h); [|by intros [= <-]].
  destruct (RollkitStore_GetHeader (h - 1)) as [sh|?|?]; cbn; [|done..].
  destruct (GetBlockID db (h - 1)) as [bid|?|?]; cbn; [|done..].
  intros [= <-]. by exists sh, bid.
Qed.
End init.

(** A chain whose initial height is above 1 cannot execute its first block:
    right after the initialisation of an empty node there is no block ID below
    the initial height, whatever the collaborators answer later. *)
Theorem late_genesis_cannot_execute `{SL : StoreCodecLaws} (E E' : Env) n t h chainID n' r txs t' :
  node_db n = ∅ -> InitChain (E := E) t h chainID n = (n', Ok r) -> 1 < h ->
  (ExecuteTxs (E := E') txs h t' n').1 = n' /\ is_ok (ExecuteTxs (E := E') txs h t' n').2 = false.
Proof.
  intros He Hi Hh. apply InitChain_inv in Hi. destruct r as [hash maxBytes].
  destruct Hi as (ag & s & _ & _ & _ & _ & (d & _ & Hdb)%SaveState_inv & _).
  eapply (ExecuteTxs_no_block_id (E := E')); [done|].
  rewrite Hdb, GetBlockID_Put_other by (intros h'; apply key_state_blockID). by rewrite He.
Qed.

(** The genesis of [demo_genesis_doc] at height 5. *)
Definition demo_late_genesis : AppGenesis :=
  mkAppGenesis (CT := demo_types) (mkTime 1 0) "chain" 5 (Some ([mkGenesisValidator [5] [5] 1], Some demo_params)) [].

Lemma late_genesis_cannot_execute_witness :
  let n := (InitChain (E := demo_env_of demo_late_genesis 0 (always true) (always false))
    (mkTime 1 0) 5 "chain" (mkNode ∅ [] [] [])).1 in
  is_ok (ExecuteTxs (E := demo_env 5 (always true) (always false)) [[1]] 5 (mkTime 6 0) n).2 = false.
Proof.
  destruct (late_genesis_cannot_execute (demo_env_of demo_late_genesis 0 (always true) (always false))
    (demo_env 5 (always true) (always false)) (mkNode ∅ [] [] []) (mkTime 1 0) 5 "chain"
    (InitChain (E := demo_env_of demo_late_genesis 0 (always true) (always false))
       (mkTime 1 0) 5 "chain" (mkNode ∅ [] [] [])).1 ([0], 1000) [[1]] (mkTime 6 0)) as [_ H].
  - reflexivity.
  - vm_compute. reflexivity.
  - lia.
  - exact H.
Defined.

Lemma InitChain_spec_witness :
  exists s, LoadState (node_db (InitChain (E := demo_env 0 (always true) (always false))
    (mkTime 1 0) 1 "chain" demo_node).1) = Ok s /\ st_ChainID s = "chain"%string.
Proof.
  pose proof (InitChain_spec (E := demo_env 0 (always true) (always false)) demo_node (mkTime 1 0) 1
    "chain" (InitChain (E := demo_env 0 (always true) (always false)) (mkTime 1 0) 1 "chain" demo_node).1
    (Ok ([0], 1000))) as H.
  destruct H as (ag & s & _ & _ & _ & _ & Hs & Hc & _).
  - vm_compute. reflexivity.
  - exists s. split; [exact Hs|exact Hc].
Defined.

Lemma GetLastCommit_spec_witness :
  exists sh bid c, GetLastCommit (E := demo_env 2 (always true) (always false)) 2 (node_db demo_stacked) = Ok c /\
    cs_Signature <$> commit_Signatures c = [sh_Signature sh] /\ commit_BlockID c = bid.
Proof.
  set (c := mkCommit 1 0 (mkBlockID [1; 7; 3] (mkPartSetHeader 1 [1]))
    [mkCommitSig 2 [5] (mkTime 5 0) [9]]).
  destruct (GetLastCommit_spec (E := demo_env 2 (always true) (always false)) (node_db demo_stacked) 2 c)
    as (sh & bid & _ & _ & Hb & _ & _ & Hs).
  - vm_compute. reflexivity.
  - exists sh, bid, c. split; [vm_compute; reflexivity|]. split; [exact Hs|exact Hb].
Defined.

Lemma SetFinal_loses_events_witness :
  exists es,
    Effects (SetFinal (E := demo_env 2 (always true) (always false)) 2 demo_stacked).1 =
      Effects demo_stacked ++ es /\ Forall no_block_events es /\ length es = 8%nat.
Proof.
  destruct (SetFinal_loses_events (demo_env 2 (always true) (always false)) demo_node demo_stacked
    (SetFinal (E := demo_env 2 (always true) (always false)) 2 demo_stacked).1 2 (Ok tt))
    as (es & He & Hes).
  - reflexivity.
  - eapply star_step.
    { apply (step_execute _ _ (demo_env 1 (always false) (always false)) [[1]] 1 (mkTime 5 0)
        (Ok ([42], 1000))). vm_compute. reflexivity. }
    eapply star_step; [|apply star_refl].
    apply (step_execute _ _ (demo_env 2 (always false) (always false)) [[2]] 2 (mkTime 6 0)
      (Ok ([42], 1000))). vm_compute. reflexivity.
  - vm_compute. reflexivity.
  - exists es. split; [exact He|]. split; [exact Hes|].
    apply (f_equal length) in He. rewrite length_app in He.
    assert (length (Effects (SetFinal (E := demo_env 2 (always true) (always false)) 2 demo_stacked).1)
      = length (Effects demo_stacked) + 8)%nat as H8 by (vm_compute; reflexivity).
    rewrite H8 in He. apply Nat.add_cancel_l in He. by rewrite He.
Defined.
