(* ===== verification/RpcUtils.v ===== *)
(** * Shared parts of the RPC server ([pkg/rpc/core/env.go], [utils.go])

    The pagination of the searches, the window of [BlockchainInfo], the node
    identifiers and the access to a block of a height.  [RpcEnv] holds what the
    RPC reads of rollkit's store and of CometBFT's indexers. *)

From Stdlib Require Import ZArith Lia Ascii Sorting.Sorted.
From stdpp Require Import base gmap strings list numbers sorting pretty.
From S2P Require Import Prelude Bitmap Comet Store Cometcompat MempoolIDs Adapter.

Open Scope Z_scope.

(** ** [env.go] *)

Definition defaultPerPage : Z := 30.
Definition maxPerPage : Z := 100.

Definition validateSkipCount (page perPage : Z) : Z :=
  let skipCount := i64 (i64 (page - 1) * perPage) in
  if skipCount <? 0 then 0 else skipCount.

(** Go's [int] division truncates towards zero. *)
Definition validatePage (pagePtr : option Z) (perPage totalCount : Z) : outcome Z :=
  if perPage <? 1 then Panic "zero or negative perPage"
  else
    match pagePtr with
    | None => Ok 1
    | Some page =>
        let pages := i64 (Z.quot (i64 (totalCount - 1)) perPage + 1) in
        let pages := if pages =? 0 then 1 else pages in
        if (page <=? 0) || (pages <? page)
        then Err (ErrText "page should be within [1, pages] range")
        else Ok page
    end.

Definition validatePerPage (perPagePtr : option Z) : Z :=
  match perPagePtr with
  | None => defaultPerPage
  | Some perPage =>
      if perPage <? 1 then defaultPerPage
      else if maxPerPage <? perPage then maxPerPage
      else perPage
  end.

(** ** [sort.Slice]

    The sort of the standard library is not stable: what it promises is a
    permutation in which no element is less than an earlier one. *)
Class SortSlice : Type := {
  sort_Slice : forall {A : Type}, (A -> A -> bool) -> list A -> list A;
}.
Class SortSliceLaws `{SS : SortSlice} : Prop := {
  sort_Slice_perm {A} (less : A -> A -> bool) l : sort_Slice less l ≡ₚ l;
  sort_Slice_sorted {A} (less : A -> A -> bool) l :
    (forall x y, less x y = true -> less y x = false) ->
    (forall x y z, less y x = false -> less z y = false -> less z x = false) ->
    Sorted (fun x y => less y x = false) (sort_Slice less l)
}.

(** ** Pagination, as both searches do it *)

Fixpoint map_ok {A B} (f : A -> outcome B) (l : list A) : outcome (list B) :=
  match l with
  | [] => Ok []
  | x :: xs => y ← f x; ys ← map_ok f xs; Ok (y :: ys)
  end.

(** [for i := skipCount; i < skipCount+pageSize; i++]: the body gets
    [results[i]]. *)
Definition for_range {A B} (results : list A) (skipCount pageSize : Z) (body : A -> outcome B) :
    outcome (list B) :=
  map_ok (fun i => match results !! Z.to_nat i with
                   | Some r => body r
                   | None => Panic "index out of range" end) (seqZ skipCount pageSize).

Definition search_page {A B} (results : list A) (pagePtr perPagePtr : option Z)
    (body : A -> outcome B) : outcome (list B * Z) :=
  let totalCount := Z.of_nat (length results) in
  let perPage := validatePerPage perPagePtr in
  page ← validatePage pagePtr perPage totalCount;
  let skipCount := validateSkipCount page perPage in
  let pageSize := Z.min perPage (totalCount - skipCount) in
  if pageSize <? 0 then Panic "makeslice: cap out of range"
  else
    apiResults ← for_range results skipCount pageSize body;
    Ok (apiResults, totalCount).

(** ** [utils.go] *)

Definition filterMinMax (base height mini maxi limit : Z) : outcome (Z * Z) :=
  if (mini <? 0) || (maxi <? 0) then Err (ErrText "height must be greater than zero")
  else
    let mini := if mini =? 0 then 1 else mini in
    let maxi := if maxi =? 0 then height else maxi in
    let maxi := Z.min height maxi in
    let mini := Z.max base mini in
    let mini := Z.max mini (i64 (i64 (maxi - limit) + 1)) in
    if maxi <? mini
    then Err (ErrWrap "min height can't be greater than max height" (ErrText "invalid request"))
    else Ok (mini, maxi).

(** *** Hexadecimal text ([encoding/hex]) *)

Definition hex_value (c : ascii) : option Z :=
  let n := Z.of_N (N_of_ascii c) in
  if (48 <=? n) && (n <=? 57) then Some (n - 48)
  else if (97 <=? n) && (n <=? 102) then Some (n - 87)
  else if (65 <=? n) && (n <=? 70) then Some (n - 55)
  else None.

Fixpoint hex_DecodeString (s : string) : outcome bytes :=
  match s with
  | EmptyString => Ok []
  | String a EmptyString =>
      match hex_value a with
      | None => Err (ErrText "encoding/hex: invalid byte")
      | Some _ => Err (ErrText "encoding/hex: odd length hex string")
      end
  | String a (String b s') =>
      match hex_value a, hex_value b with
      | Some x, Some y => rest ← hex_DecodeString s'; Ok (16 * x + y :: rest)
      | _, _ => Err (ErrText "encoding/hex: invalid byte")
      end
  end.

Definition hex_digit (z : Z) : ascii :=
  ascii_of_N (Z.to_N (if z <? 10 then z + 48 else z + 87)).

Fixpoint hex_EncodeToString (bs : bytes) : string :=
  match bs with
  | [] => EmptyString
  | b :: bs' =>
      String (hex_digit (b / 16)) (String (hex_digit (b mod 16)) (hex_EncodeToString bs'))
  end.

Definition NodeIDByteLength : Z := 20.

Definition TruncateNodeID (idStr : string) : outcome string :=
  idBytes ← wrap_outcome "failed to decode node ID" (hex_DecodeString idStr);
  if Z.of_nat (length idBytes) <? NodeIDByteLength
  then Err (ErrText "node ID too short")
  else Ok (hex_EncodeToString (take (Z.to_nat NodeIDByteLength) idBytes)).

(** ** Blocks of a height *)

(** A [GetBlockData] answer: both pointers may be nil. *)
Class RpcEnv : Type := {
  RollkitStore_GetBlockData : Z -> outcome (option SignedHeader * option (list bytes));
  RollkitStore_GetBlockByHash : bytes -> outcome (option SignedHeader * option (list bytes));
  RollkitStore_GetMetadata : string -> outcome bytes;
  DAIncludedHeightKey : string;
  (** [cmquery.New], then the search; the block indexer gives heights. *)
  cmquery_New : string -> outcome unit;
  BlockIndexer_Search : string -> outcome (list Z)
}.

Section blocks.
Context `{SC : StoreCodec} {E : Env} {RE : RpcEnv}.

Definition normalizeHeight (height : option Z) : outcome Z :=
  match height with
  | Some height =>
      if height <? 0 then wrap_outcome "failed to get current height" RollkitStore_Height
      else Ok (u64 height)
  | None => wrap_outcome "failed to get current height" RollkitStore_Height
  end.

(** Log the error and return nil. *)
Definition or_nil {A B} (r : outcome A) (k : A -> outcome (option B)) : outcome (option B) :=
  match r with Ok a => k a | Err _ => Ok None | Panic t => Panic t end.

(** The meta data and the block are nil together. *)
Definition getBlockMeta (db : datastore) (n : Z) : outcome (option (BlockMeta * Block)) :=
  or_nil (RollkitStore_GetBlockData n) (fun hd =>
  match hd with
  | (Some header, Some data) =>
      or_nil (GetLastCommit n db) (fun lastCommit =>
      or_nil (ToABCIHeader (sh_Header header) lastCommit) (fun abciHeader =>
      or_nil (ToABCIBlock abciHeader lastCommit data) (fun abciBlock =>
      or_nil (ToABCIBlockMeta abciBlock) (fun abciBlockMeta =>
      Ok (Some (abciBlockMeta, abciBlock))))))
  | _ => Ok None
  end).
End blocks.
