(* ===== verification/RpcBlocks.v ===== *)
(** * The block and transaction queries ([pkg/rpc/core/blocks.go], [tx.go]) *)

From Stdlib Require Import ZArith Lia Sorting.Sorted.
From stdpp Require Import base gmap strings list numbers sorting pretty.
From S2P Require Import Prelude Bitmap Comet Store Cometcompat MempoolIDs Adapter RpcUtils.

Open Scope Z_scope.

(** ** Results *)

Record ResultBlock : Type := mkResultBlock { rb_BlockID : BlockID; rb_Block : option Block }.

Record ResultCommit : Type := mkResultCommit {
  rc_Header : CmtHeader;
  rc_Commit : Commit;
  rc_CanonicalCommit : bool
}.

Record ResultBlockchainInfo : Type := mkResultBlockchainInfo {
  bi_LastHeight : Z;
  bi_BlockMetas : list (option BlockMeta)
}.

Section results.
Context `{CT : CometTypes}.

Record ResultBlockResults : Type := mkResultBlockResults {
  br_Height : Z;
  br_TxsResults : list ExecTxResult;
  br_FinalizeBlockEvents : list AbciEvent;
  br_ValidatorUpdates : list PbValidatorUpdate;
  br_ConsensusParamUpdates : option ConsensusParamsPb;
  br_AppHash : bytes
}.
End results.

(** [abci.TxResult], the record of the transaction index. *)
Record TxResult : Type := mkTxResult {
  tr_Height : Z;            (* int64 *)
  tr_Index : Z;             (* uint32 *)
  tr_Tx : bytes;
  tr_Result : ExecTxResult
}.

Record TxProof : Type := mkTxProof {
  proof_RootHash : bytes;
  proof_Data : bytes;
  proof_Proof : list bytes
}.
Definition zero_TxProof : TxProof := mkTxProof [] [] [].

Record ResultTx : Type := mkResultTx {
  rt_Hash : bytes;
  rt_Height : Z;
  rt_Index : Z;
  rt_TxResult : ExecTxResult;
  rt_Tx : bytes;
  rt_Proof : TxProof
}.

(** CometBFT's transaction index, hashes and Merkle proofs. *)
Class TxEnv : Type := {
  TxIndexer_Get : bytes -> outcome (option TxResult);
  TxIndexer_Search : string -> outcome (list TxResult);
  tmhash_Sum : bytes -> bytes;
  tx_Hash : bytes -> bytes;
  merkle_ProofsFromByteSlices : list bytes -> bytes * list (list bytes)
}.

(** The order of a search: [None] is refused. *)
Definition order_less {A} (less : A -> A -> bool) (orderBy : string) : option (A -> A -> bool) :=
  if bool_decide (orderBy = "desc") then Some (fun x y => less y x)
  else if bool_decide (orderBy = "asc") || bool_decide (orderBy = "") then Some less
  else None.

Definition bad_order : error :=
  ErrText "expected order_by to be either `asc` or `desc` or empty".

Section queries.
Context `{SC : StoreCodec} {E : Env} {RE : RpcEnv} {SS : SortSlice} {TE : TxEnv}.

(** ** [blocks.go] *)

Definition header_of (header : option SignedHeader) : outcome RlkHeader :=
  match header with
  | Some header => Ok (sh_Header header)
  | None => Panic "nil pointer dereference"
  end.
Definition txs_of (data : option (list bytes)) : outcome (list bytes) :=
  match data with Some txs => Ok txs | None => Panic "nil pointer dereference" end.

(** From rollkit's block to the result: the common end of [BlockSearch] and
    [BlockByHash]. *)
Definition result_block (header : option SignedHeader) (data : option (list bytes))
    (lastCommit : Commit) : outcome ResultBlock :=
  rlkHeader ← header_of header;
  abciHeader ← wrap_outcome "failed to convert header to ABCI format"
    (ToABCIHeader rlkHeader lastCommit);
  txs ← txs_of data;
  abciBlock ← ToABCIBlock abciHeader lastCommit txs;
  blockParts ← wrap_outcome "make part set" (MakePartSet abciBlock);
  Ok (mkResultBlock (mkBlockID (header_Hash abciHeader) blockParts) (Some abciBlock)).

Definition search_block (db : datastore) (height : Z) : outcome ResultBlock :=
  hd ← RollkitStore_GetBlockData (u64 height);
  lastCommit ← wrap_outcome "failed to get last commit for block" (GetLastCommit (u64 height) db);
  result_block hd.1 hd.2 lastCommit.

Definition BlockSearch (db : datastore) (query : string) (pagePtr perPagePtr : option Z)
    (orderBy : string) : outcome (list ResultBlock * Z) :=
  _ ← cmquery_New query;
  results ← BlockIndexer_Search query;
  match order_less Z.ltb orderBy with
  | None => Err bad_order
  | Some less => search_page (sort_Slice less results) pagePtr perPagePtr (search_block db)
  end.

Definition LittleEndian_Uint64 (bs : bytes) : Z := foldr (fun b acc => b + 256 * acc) 0 bs.

(** The height -1 is the DA included height; any other negative one is the
    latest. *)
Definition block_height (heightPtr : option Z) : outcome Z :=
  if bool_decide (heightPtr = Some (-1)) then
    rawVal ← wrap_outcome "failed to get DA included height"
      (RollkitStore_GetMetadata DAIncludedHeightKey);
    if negb (length rawVal =? 8)%nat
    then Err (ErrText "invalid finalized height data length")
    else Ok (LittleEndian_Uint64 rawVal)
  else normalizeHeight heightPtr.

Definition Query_Block (db : datastore) (heightPtr : option Z) : outcome ResultBlock :=
  heightValue ← block_height heightPtr;
  r ← getBlockMeta db heightValue;
  match r with
  | None => Ok (mkResultBlock zero_BlockID None)
  | Some (blockMeta, block) => Ok (mkResultBlock (meta_BlockID blockMeta) (Some block))
  end.

Definition BlockByHash (db : datastore) (hash : bytes) : outcome ResultBlock :=
  hd ← RollkitStore_GetBlockByHash hash;
  header ← header_of hd.1;
  lastCommit ← wrap_outcome "failed to get last commit for block"
    (GetLastCommit (rh_Height header) db);
  result_block hd.1 hd.2 lastCommit.

(** A nil result without an error when the block is missing. *)
Definition Query_Commit (db : datastore) (heightPtr : option Z) : outcome (option ResultCommit) :=
  height ← normalizeHeight heightPtr;
  r ← getBlockMeta db height;
  match r with
  | None => Ok None
  | Some (blockMeta, _) =>
      commit ← wrap_outcome "failed to get last commit for height"
        (GetLastCommit (u64 (height + 1)) db);
      Ok (Some (mkResultCommit (meta_Header blockMeta) commit true))
  end.

Definition BlockResults (db : datastore) (heightPtr : option Z) : outcome ResultBlockResults :=
  height ← normalizeHeight heightPtr;
  resp ← GetBlockResponse db height;
  Ok {| br_Height := i64 height;
        br_TxsResults := fb_TxResults resp;
        br_FinalizeBlockEvents := fb_Events resp;
        br_ValidatorUpdates := fb_ValidatorUpdates resp;
        br_ConsensusParamUpdates := fb_ConsensusParamUpdates resp;
        br_AppHash := fb_AppHash resp |}.

Definition Query_Header (db : datastore) (heightPtr : option Z) : outcome CmtHeader :=
  height ← normalizeHeight heightPtr;
  r ← getBlockMeta db height;
  match r with
  | None => Err (ErrText "block at height not found")
  | Some (blockMeta, _) => Ok (meta_Header blockMeta)
  end.

Definition HeaderByHash (db : datastore) (hash : bytes) : outcome CmtHeader :=
  hd ← RollkitStore_GetBlockByHash hash;
  header ← header_of hd.1;
  lastCommit ← wrap_outcome "failed to get last commit for block"
    (GetLastCommit (rh_Height header) db);
  wrap_outcome "failed to convert header to ABCI format" (ToABCIHeader header lastCommit).

Definition blockchain_limit : Z := 20.

(** The heights from [maxHeight] down to [minHeight]. *)
Definition BlockchainInfo (db : datastore) (minHeight maxHeight : Z) :
    outcome ResultBlockchainInfo :=
  height ← RollkitStore_Height;
  window ← filterMinMax 0 (i64 height) minHeight maxHeight blockchain_limit;
  let '(minHeight, maxHeight) := window in
  metas ← map_ok (fun h =>
              match getBlockMeta db (u64 h) with
              | Ok r => Ok (fst <$> r)
              | Err e => Err e
              | Panic t => Panic t
              end) (rev (seqZ minHeight (maxHeight - minHeight + 1)));
  Ok (mkResultBlockchainInfo (i64 height) metas).

(** ** [tx.go] *)

Definition hashList (txs : list bytes) : list bytes := tmhash_Sum <$> txs.

(** [txs[i]] and [*proofs[i]] panic outside the block. *)
Definition proofTXExists (txs : list bytes) (i : Z) : outcome TxProof :=
  let '(root, proofs) := merkle_ProofsFromByteSlices (hashList txs) in
  match txs !! Z.to_nat i, proofs !! Z.to_nat i with
  | Some tx, Some proof => Ok (mkTxProof root tx proof)
  | _, _ => Panic "index out of range"
  end.

Definition buildProof (blockHeight txIndex : Z) : outcome TxProof :=
  hd ← wrap_outcome "failed to get block data" (RollkitStore_GetBlockData (u64 blockHeight));
  txs ← txs_of hd.2;
  proofTXExists txs txIndex.

Definition proof_if (prove : bool) (height index : Z) : outcome TxProof :=
  if prove then buildProof height index else Ok zero_TxProof.

Definition Tx (hash : bytes) (prove : bool) : outcome ResultTx :=
  res ← TxIndexer_Get hash;
  match res with
  | None => Err (ErrText "tx not found")
  | Some res =>
      proof ← proof_if prove (tr_Height res) (tr_Index res);
      Ok {| rt_Hash := hash; rt_Height := tr_Height res; rt_Index := tr_Index res;
            rt_TxResult := tr_Result res; rt_Tx := tr_Tx res; rt_Proof := proof |}
  end.

Definition tx_less (a b : TxResult) : bool :=
  if tr_Height a =? tr_Height b then tr_Index a <? tr_Index b
  else tr_Height a <? tr_Height b.

Definition search_tx (prove : bool) (r : TxResult) : outcome ResultTx :=
  proof ← proof_if prove (tr_Height r) (tr_Index r);
  Ok {| rt_Hash := tx_Hash (tr_Tx r); rt_Height := tr_Height r; rt_Index := tr_Index r;
        rt_TxResult := tr_Result r; rt_Tx := tr_Tx r; rt_Proof := proof |}.

Definition TxSearch (query : string) (prove : bool) (pagePtr perPagePtr : option Z)
    (orderBy : string) : outcome (list ResultTx * Z) :=
  _ ← cmquery_New query;
  results ← TxIndexer_Search query;
  match order_less tx_less orderBy with
  | None => Err bad_order
  | Some less => search_page (sort_Slice less results) pagePtr perPagePtr (search_tx prove)
  end.
End queries.
