(* ===== verification/RpcProps.v ===== *)
(** * Theorems about the RPC queries: the pages of the searches, the window of
    [BlockchainInfo], node identifiers *)

From Stdlib Require Import ZArith Lia Sorting.Sorted Ascii.
From stdpp Require Import base gmap strings list numbers sorting pretty.
From S2P Require Import Prelude Bitmap Comet Store Cometcompat MempoolIDs Adapter StoreProps.
From S2P Require Import AdapterDemo ExecuteProps RpcUtils RpcBlocks.

Open Scope Z_scope.

(** ** Pages *)

(** Bounds of [int], without the divisions of [int_lia]. *)
Ltac i64_lia := unfold is_i64, max_i64 in *; lia.

Lemma map_ok_Forall2 {A B} (g : A -> outcome B) l ys :
  Forall2 (fun x y => g x = Ok y) l ys -> map_ok g l = Ok ys.
Proof. induction 1 as [|x y l ys Hx _ IH]; cbn; [done|]. by rewrite Hx, IH. Qed.

Lemma for_range_run {A B} (results : list A) skip size (body : A -> outcome B) f :
  (forall r, r ∈ results -> body r = Ok (f r)) ->
  0 <= skip -> 0 <= size -> skip + size <= Z.of_nat (length results) ->
  for_range results skip size body
    = Ok (f <$> take (Z.to_nat size) (drop (Z.to_nat skip) results)).
Proof.
  intros Hb H1 H2 H3. apply map_ok_Forall2, Forall2_same_length_lookup. split.
  - rewrite length_seqZ, length_fmap, length_take, length_drop. lia.
  - intros i x y Hx Hy. apply lookup_seqZ in Hx as [-> Hi].
    rewrite list_lookup_fmap, lookup_take_lt, lookup_drop in Hy by lia.
    replace (Z.to_nat (skip + Z.of_nat i)) with (Z.to_nat skip + i)%nat by lia.
    destruct (results !! (Z.to_nat skip + i)%nat) as [r|] eqn:E; [|done].
    cbn in Hy. simplify_eq. apply Hb. by eapply list_elem_of_lookup_2.
Qed.

Lemma validatePerPage_range pp : 1 <= validatePerPage pp <= 100.
Proof.
  unfold validatePerPage, defaultPerPage, maxPerPage.
  repeat case_match; rewrite ?Z.ltb_lt, ?Z.ltb_ge in *; lia.
Qed.

(** The number of pages. *)
Definition page_count (per total : Z) : Z := Z.max 1 ((total - 1) / per + 1).

Lemma validatePage_run p per total :
  1 <= per <= 100 -> 0 <= total <= max_i64 ->
  validatePage (Some p) per total =
    (if bool_decide (1 <= p <= page_count per total) then Ok p
     else Err (ErrText "page should be within [1, pages] range")).
Proof.
  intros Hper Ht. unfold validatePage, page_count. case_match eqn:E; [lia|]. clear E.
  rewrite (i64_small (total - 1)) by i64_lia.
  assert (0 <= (total - 1) / per + 1 <= max_i64 /\
          (if Z.quot (total - 1) per + 1 =? 0 then 1 else Z.quot (total - 1) per + 1)
            = Z.max 1 ((total - 1) / per + 1) /\ 0 <= Z.quot (total - 1) per + 1 <= max_i64)
    as (_ & E & Hq).
  { destruct (decide (total = 0)) as [->|].
    - destruct (decide (per = 1)) as [->|]; [done|].
      replace (Z.quot (0 - 1) per) with 0 by (symmetry; apply Z.quot_small_iff; lia).
      replace ((0 - 1) / per) with (-1) by (apply (Z.div_unique _ _ _ (per - 1)); lia).
      simpl. i64_lia.
    - rewrite Z.quot_div_nonneg by lia.
      assert (0 <= (total - 1) / per) by (apply Z.div_pos; lia).
      assert ((total - 1) / per <= total - 1) by (apply Z.div_le_upper_bound; nia).
      case_match eqn:E1; [lia|]. i64_lia. }
  rewrite i64_small by i64_lia. rewrite E.
  case_bool_decide as Hp; destruct (Z.leb_spec p 0); cbn; try lia; try done;
    destruct (Z.ltb_spec (Z.max 1 ((total - 1) / per + 1)) p); cbn; lia || done.
Qed.

(** What the pages before a valid one hold. *)
Lemma page_skip p per total :
  1 <= per -> 0 <= total -> 1 <= p <= page_count per total ->
  0 <= p - 1 <= (p - 1) * per /\ (p - 1) * per <= total.
Proof.
  unfold page_count. intros Hper Ht Hp. destruct (decide (total = 0)) as [->|].
  - assert ((0 - 1) / per <= 0) by (apply Z.div_le_upper_bound; lia).
    assert ((0 - 1) / per < 0) by (apply Z.div_lt_upper_bound; lia).
    assert (p = 1) as -> by lia. lia.
  - pose proof (Z.mul_div_le (total - 1) per). assert (0 <= (total - 1) / per) by (apply Z.div_pos; lia).
    assert (p - 1 <= (total - 1) / per) by lia. nia.
Qed.

Definition page_of {A} (per p : Z) (l : list A) : list A :=
  take (Z.to_nat per) (drop (Z.to_nat ((p - 1) * per)) l).

Lemma search_page_run {A B} (results : list A) pp (body : A -> outcome B) f p :
  let total := Z.of_nat (length results) in
  let per := validatePerPage pp in
  (forall r, r ∈ results -> body r = Ok (f r)) -> total <= max_i64 ->
  search_page results (Some p) pp body =
    (if bool_decide (1 <= p <= page_count per total)
     then Ok (f <$> page_of per p results, total)
     else Err (ErrText "page should be within [1, pages] range")).
Proof.
  intros total per Hb Ht. pose proof (validatePerPage_range pp) as Hper. fold per in Hper.
  unfold search_page. fold per total.
  rewrite validatePage_run by lia. case_bool_decide as Hp; [|done]. cbn.
  pose proof (page_skip p per total ltac:(lia) ltac:(lia) Hp) as [H1 H2].
  unfold validateSkipCount.
  rewrite (i64_small (p - 1)), (i64_small ((p - 1) * per)) by i64_lia.
  destruct (Z.ltb_spec ((p - 1) * per) 0); [lia|].
  destruct (Z.ltb_spec (Z.min per (total - (p - 1) * per)) 0); [lia|].
  rewrite (for_range_run _ _ _ _ f) by (done || lia). cbn. do 3 f_equal. unfold page_of.
  destruct (Z.le_ge_cases per (total - (p - 1) * per)).
  - by rewrite Z.min_l by done.
  - rewrite Z.min_r by done. rewrite !take_ge; [done| |]; rewrite length_drop; lia.
Qed.

Lemma concat_pages {A} (per n : nat) (l : list A) :
  concat ((fun k => take per (drop (k * per) l)) <$> seq 0 n) = take (n * per) l.
Proof.
  induction n as [|n IH]; [done|].
  rewrite seq_S, fmap_app, concat_app, IH. cbn. rewrite app_nil_r, take_take_drop. f_equal. lia.
Qed.

(** All pages of a list, in order. *)
Definition pages {A} (per : Z) (l : list A) : list (list A) :=
  (fun k => take (Z.to_nat per) (drop (k * Z.to_nat per) l))
    <$> seq 0 (Z.to_nat (page_count per (Z.of_nat (length l)))).

Lemma concat_all_pages {A} per (l : list A) : 1 <= per -> concat (pages per l) = l.
Proof.
  intros Hper. unfold pages. rewrite concat_pages. apply take_ge. unfold page_count.
  pose proof (Z.mod_pos_bound (Z.of_nat (length l) - 1) per ltac:(lia)).
  pose proof (Z.div_mod (Z.of_nat (length l) - 1) per ltac:(lia)).
  set (q := (Z.of_nat (length l) - 1) / per) in *.
  apply Nat2Z.inj_le. rewrite Nat2Z.inj_mul, !Z2Nat.id by lia.
  assert ((q + 1) * per <= Z.max 1 (q + 1) * per) by (apply Z.mul_le_mono_nonneg_r; lia). lia.
Qed.

Lemma lookup_pages {A} per (l : list A) p :
  1 <= per -> 1 <= p <= page_count per (Z.of_nat (length l)) ->
  pages per l !! Z.to_nat (p - 1) = Some (page_of per p l).
Proof.
  intros Hper Hp. unfold pages, page_of. rewrite list_lookup_fmap, lookup_seq_lt by lia.
  cbn. do 3 f_equal. rewrite Z2Nat.inj_mul by lia. lia.
Qed.

Lemma length_pages {A} per (l : list A) :
  Z.of_nat (length (pages per l)) = page_count per (Z.of_nat (length l)).
Proof. unfold pages. rewrite length_fmap, length_seq. unfold page_count. lia. Qed.

Lemma pages_short {A} per (l : list A) :
  Forall (fun pg => Z.of_nat (length pg) <= Z.max 0 per) (pages per l).
Proof.
  unfold pages. apply Forall_fmap, Forall_true. intros k. cbn. rewrite length_take. lia.
Qed.

Lemma fmap_pages {A B} per (f : A -> B) (l : list A) :
  (fun pg : list A => f <$> pg) <$> pages per l = pages per (f <$> l).
Proof.
  unfold pages. rewrite length_fmap, <- list_fmap_compose. apply list_fmap_ext.
  intros i k _. cbn. by rewrite <- fmap_drop, <- fmap_take.
Qed.

(** What a paginated search promises: with the results sorted, the pages cut
    the list of answers, and a page number outside of them is an error. *)
Definition paginated {A B} (answer : option Z -> outcome (list B * Z)) (per : Z) (sorted : list A)
    (f : A -> B) : Prop :=
  let total := Z.of_nat (length sorted) in
  exists pgs : list (list B),
    concat pgs = f <$> sorted /\
    Forall (fun pg => Z.of_nat (length pg) <= per) pgs /\
    (forall p pg, pgs !! p = Some pg -> answer (Some (Z.of_nat p + 1)) = Ok (pg, total)) /\
    (forall p, p < 1 \/ Z.of_nat (length pgs) < p ->
       answer (Some p) = Err (ErrText "page should be within [1, pages] range")) /\
    answer None = answer (Some 1).

Lemma search_page_paginated {A B} (sorted : list A) pp (body : A -> outcome B) f :
  (forall r, r ∈ sorted -> body r = Ok (f r)) -> Z.of_nat (length sorted) <= max_i64 ->
  paginated (fun p => search_page sorted p pp body) (validatePerPage pp) sorted f.
Proof.
  intros Hb Ht. pose proof (validatePerPage_range pp) as Hper.
  exists (pages (validatePerPage pp) (f <$> sorted)).
  split; [apply concat_all_pages; lia|]. split; [|split; [|split]].
  - eapply Forall_impl; [apply pages_short|]. cbn. lia.
  - intros p pg Hp. pose proof (lookup_lt_Some _ _ _ Hp) as Hlen.
    assert (1 <= Z.of_nat p + 1 <= page_count (validatePerPage pp) (Z.of_nat (length sorted))).
    { rewrite <- (length_fmap f sorted), <- length_pages. lia. }
    rewrite (search_page_run _ _ _ f) by done. rewrite bool_decide_eq_true_2 by done.
    rewrite <- fmap_pages, list_lookup_fmap in Hp.
    pose proof (lookup_pages (validatePerPage pp) sorted (Z.of_nat p + 1)) as Hl.
    rewrite Z.add_simpl_r, Nat2Z.id in Hl. rewrite Hl in Hp by lia. cbn in Hp. by simplify_eq.
  - intros p Hp. rewrite length_pages, length_fmap in Hp.
    rewrite (search_page_run _ _ _ f) by done. rewrite bool_decide_eq_false_2 by lia. done.
  - rewrite (search_page_run _ _ _ f) by done.
    rewrite bool_decide_eq_true_2 by (unfold page_count; lia).
    pose proof (search_page_run sorted pp body f 1 Hb Ht) as H1. cbn zeta in H1.
    rewrite bool_decide_eq_true_2 in H1 by (unfold page_count; lia). rewrite <- H1.
    unfold search_page. rewrite validatePage_run by lia.
    rewrite bool_decide_eq_true_2 by (unfold page_count; lia).
    unfold validatePage. destruct (Z.ltb_spec (validatePerPage pp) 1); [lia|done].
Qed.

Lemma Sorted_weaken {A} (R1 R2 : A -> A -> Prop) l :
  (forall x y, R1 x y -> R2 x y) -> Sorted R1 l -> Sorted R2 l.
Proof.
  intros HR. induction 1 as [|x l _ IH H]; constructor; [done|].
  destruct H; constructor; auto.
Qed.

Section search.
Context `{SL : StoreCodecLaws} {E : Env} {RE : RpcEnv} {TE : TxEnv} `{SO : SortSliceLaws}.

Definition search_order (orderBy : string) : Z -> Z -> Prop :=
  if bool_decide (orderBy = "desc") then Z.ge else Z.le.

(** C34: A block search answers the found blocks in the asked order, each page
    of at most [per_page] (1 to 100) blocks: the pages put together are exactly
    the found blocks, without loss or repetition, every answer carries the
    total count, a page outside the range is an error, and no page means the
    first one. *)
Theorem BlockSearch_pages db q pp orderBy results f :
  cmquery_New q = Ok tt -> BlockIndexer_Search q = Ok results ->
  Z.of_nat (length results) <= max_i64 -> orderBy ∈ ["asc"; ""; "desc"] ->
  (forall h, h ∈ results -> search_block db h = Ok (f h)) ->
  exists sorted, sorted ≡ₚ results /\ Sorted (search_order orderBy) sorted /\
    paginated (fun p => BlockSearch db q p pp orderBy) (validatePerPage pp) sorted f.
Proof.
  intros Hq Hs Hlen Ho Hf. unfold BlockSearch. rewrite Hq, Hs. cbn.
  assert (exists less, order_less Z.ltb orderBy = Some less /\
    (forall x y, less y x = false <-> search_order orderBy x y)) as (less & -> & Hless).
  { unfold search_order, order_less.
    destruct (decide (orderBy = "desc")) as [->|Hd].
    - exists (fun x y => Z.ltb y x). split; [reflexivity|]. intros x y.
      rewrite Z.ltb_ge, bool_decide_eq_true_2 by reflexivity. lia.
    - exists Z.ltb. rewrite !(bool_decide_eq_false_2 (orderBy = "desc")) by done. split.
      + destruct (decide (orderBy = "asc")) as [->|]; [reflexivity|].
        destruct (decide (orderBy = "")) as [->|]; [reflexivity|].
        rewrite !elem_of_cons, elem_of_nil in Ho. tauto.
      + intros x y. rewrite Z.ltb_ge. lia. }
  exists (sort_Slice less results). pose proof (sort_Slice_perm less results) as Hperm.
  split; [done|]. split.
  - assert (forall x y, less x y = true -> less y x = false) as H1.
    { intros x y H. destruct (less y x) eqn:E1; [|done]. exfalso.
      assert (~ search_order orderBy y x) by (rewrite <- Hless; congruence).
      assert (~ search_order orderBy x y) by (rewrite <- Hless; congruence).
      unfold search_order in *. case_bool_decide; lia. }
    assert (forall x y z, less y x = false -> less z y = false -> less z x = false) as H2.
    { intros x y z. rewrite !Hless. unfold search_order. case_bool_decide; lia. }
    apply (Sorted_weaken (fun x y => less y x = false)); [|by apply sort_Slice_sorted].
    intros x y. apply Hless.
  - apply search_page_paginated.
    + intros h Hh. apply Hf. by rewrite <- Hperm.
    + by rewrite Hperm.
Qed.
End search.

(** ** The window of [BlockchainInfo] *)

Section window.
Context `{SC : StoreCodec} {E : Env} {RE : RpcEnv}.

Definition window_max (height maxHeight : Z) : Z :=
  if maxHeight =? 0 then height else Z.min height maxHeight.
Definition window_min (height minHeight maxHeight : Z) : Z :=
  Z.max (if minHeight =? 0 then 1 else minHeight) (window_max height maxHeight - 19).

Lemma filterMinMax_run height minHeight maxHeight :
  0 <= height <= max_i64 -> is_i64 minHeight -> is_i64 maxHeight ->
  filterMinMax 0 height minHeight maxHeight 20 =
    if (minHeight <? 0) || (maxHeight <? 0) then Err (ErrText "height must be greater than zero")
    else if window_max height maxHeight <? window_min height minHeight maxHeight
    then Err (ErrWrap "min height can't be greater than max height" (ErrText "invalid request"))
    else Ok (window_min height minHeight maxHeight, window_max height maxHeight).
Proof.
  intros Hh Hmin Hmax. unfold filterMinMax.
  destruct (Z.ltb_spec minHeight 0), (Z.ltb_spec maxHeight 0); cbn [orb]; [done..|].
  assert (Z.min height (if maxHeight =? 0 then height else maxHeight) = window_max height maxHeight)
    as -> by (unfold window_max; case_match; lia).
  assert (0 <= window_max height maxHeight <= height) by (unfold window_max; case_match; lia).
  rewrite (i64_small (window_max _ _ - 20)), i64_small by i64_lia.
  assert (Z.max (Z.max 0 (if minHeight =? 0 then 1 else minHeight)) (window_max height maxHeight - 20 + 1)
    = window_min height minHeight maxHeight) as -> by (unfold window_min; case_match; lia).
  done.
Qed.

(** [BlockchainInfo] answers the meta data of the heights of its window,
    the highest first: the window ends at the asked maximum or at the chain's
    height, begins at the asked minimum or at 1, and is cut to the twenty
    highest blocks; a negative bound or an empty window is an error. *)
Theorem BlockchainInfo_window db height minHeight maxHeight (meta : Z -> option (BlockMeta * Block)) :
  RollkitStore_Height = Ok height -> 0 <= height <= max_i64 ->
  is_i64 minHeight -> is_i64 maxHeight ->
  (forall h, 1 <= h <= height -> getBlockMeta db h = Ok (meta h)) ->
  let hi := window_max height maxHeight in
  let lo := window_min height minHeight maxHeight in
  BlockchainInfo db minHeight maxHeight =
    (if (minHeight <? 0) || (maxHeight <? 0)
     then Err (ErrText "height must be greater than zero")
     else if hi <? lo
     then Err (ErrWrap "min height can't be greater than max height" (ErrText "invalid request"))
     else Ok (mkResultBlockchainInfo height
            ((fun h => fst <$> meta h) <$> rev (seqZ lo (hi - lo + 1))))) /\
  hi - lo + 1 <= 20.
Proof.
  intros Hh Hr Hmin Hmax Hmeta hi lo. split; [|unfold lo, hi, window_min; lia].
  unfold BlockchainInfo. rewrite Hh. cbn.
  rewrite (i64_small height) by i64_lia. unfold blockchain_limit.
  rewrite filterMinMax_run by done. fold hi lo.
  destruct (_ || _) eqn:Eneg; [done|]. destruct (Z.ltb_spec hi lo) as [|Hle]; [done|]. cbn.
  rewrite (map_ok_Forall2 _ _ ((fun h => fst <$> meta h) <$> rev (seqZ lo (hi - lo + 1)))); [done|].
  apply Forall2_fmap_r, Forall_Forall2_diag, Forall_forall. intros h Hin.
  apply list_elem_of_In in Hin. rewrite <- in_rev in Hin. apply list_elem_of_In in Hin.
  apply elem_of_seqZ in Hin.
  assert (1 <= lo /\ hi <= height) as [H1 H2].
  { apply orb_false_iff in Eneg as [E1%Z.ltb_ge E2%Z.ltb_ge].
    unfold lo, hi, window_min, window_max in *. repeat case_match; lia. }
  rewrite u64_small by (unfold is_u64, max_u64; unfold max_i64 in *; lia).
  by rewrite Hmeta by lia.
Qed.
End window.

(** ** Node identifiers *)

Lemma hex_value_digit z : 0 <= z < 16 -> hex_value (hex_digit z) = Some z.
Proof.
  intros H. unfold hex_value, hex_digit.
  assert (Z.of_N (N_of_ascii (ascii_of_N (Z.to_N (if z <? 10 then z + 48 else z + 87))))
    = if z <? 10 then z + 48 else z + 87) as ->.
  { rewrite N_ascii_embedding; destruct (Z.ltb_spec z 10); lia. }
  destruct (Z.ltb_spec z 10).
  - destruct (Z.leb_spec 48 (z + 48)), (Z.leb_spec (z + 48) 57); try lia. cbn. f_equal. lia.
  - destruct (Z.leb_spec 48 (z + 87)), (Z.leb_spec (z + 87) 57), (Z.leb_spec 97 (z + 87)),
      (Z.leb_spec (z + 87) 102); try lia. cbn. f_equal. lia.
Qed.

Lemma hex_Decode_Encode bs :
  Forall (fun b => 0 <= b < 256) bs -> hex_DecodeString (hex_EncodeToString bs) = Ok bs.
Proof.
  induction 1 as [|b bs Hb _ IH]; [done|]. cbn [hex_EncodeToString hex_DecodeString].
  rewrite !hex_value_digit by (Z.to_euclidean_division_equations; lia). rewrite IH. cbn.
  do 2 f_equal. Z.to_euclidean_division_equations; lia.
Qed.

Lemma hex_value_range c z : hex_value c = Some z -> 0 <= z < 16.
Proof.
  unfold hex_value. repeat case_match; intros; simplify_eq;
    repeat match goal with
    | H : (_ && _) = true |- _ => apply andb_true_iff in H as [?%Z.leb_le ?%Z.leb_le]
    end; lia.
Qed.

Lemma hex_Decode_bytes s bs :
  hex_DecodeString s = Ok bs -> Forall (fun b => 0 <= b < 256) bs.
Proof.
  revert s bs. fix IH 1. intros [|a [|b s]] bs; cbn; [|case_match; done|].
  - intros [= <-]. constructor.
  - destruct (hex_value a) as [x|] eqn:Ha; [|done]. destruct (hex_value b) as [y|] eqn:Hb; [|done].
    destruct (hex_DecodeString s) as [rest| |] eqn:Hs; cbn; intros [= <-].
    apply hex_value_range in Ha, Hb. constructor; [lia|]. by apply (IH s).
Qed.

(** A truncated identifier is the text of the first twenty bytes, and
    truncating it again gives it back. *)
Theorem TruncateNodeID_spec idStr id :
  TruncateNodeID idStr = Ok id <->
  exists bs, hex_DecodeString idStr = Ok bs /\ (20 <= length bs)%nat /\
    hex_DecodeString id = Ok (take 20 bs) /\ id = hex_EncodeToString (take 20 bs).
Proof.
  unfold TruncateNodeID, NodeIDByteLength. split.
  - destruct (hex_DecodeString idStr) as [bs| |] eqn:Hd; cbn; [|done..].
    destruct (Z.ltb_spec (Z.of_nat (length bs)) 20); [done|]. intros [= <-].
    exists bs. split; [done|]. split; [lia|]. split; [|done]. apply hex_Decode_Encode.
    by eapply Forall_take, hex_Decode_bytes.
  - intros (bs & -> & Hl & _ & ->). cbn. destruct (Z.ltb_spec (Z.of_nat (length bs)) 20); [lia|done].
Qed.

(** ** A concrete node *)

Definition not_less {A} (less : A -> A -> bool) (x y : A) : Prop := less y x = false.
#[global] Instance not_less_dec {A} (less : A -> A -> bool) : RelDecision (not_less less).
Proof. intros x y. unfold not_less. apply _. Defined.

#[global] Instance demo_sort : SortSlice :=
  { sort_Slice := fun A less l => merge_sort (not_less less) l }.

#[global] Instance demo_sort_laws : SortSliceLaws.
Proof.
  split; intros A less l.
  - apply merge_sort_Permutation.
  - intros H1 H2. assert (Total (not_less less)).
    { intros x y. unfold not_less. destruct (less y x) eqn:E; [|by left]. right. by apply H1. }
    exact (Sorted_merge_sort (not_less less) l).
Qed.

(** Three blocks; the index finds two of them. *)
#[global] Instance demo_rpc : RpcEnv := {
  RollkitStore_GetBlockData := fun h =>
    if (1 <=? h) && (h <=? 3) then Ok (Some (mkSignedHeader (demo_rheader h) [9]), Some [[h]])
    else Err ds_ErrNotFound;
  RollkitStore_GetBlockByHash := fun _ => Err ds_ErrNotFound;
  RollkitStore_GetMetadata := fun _ => Ok [2; 0; 0; 0; 0; 0; 0; 0];
  DAIncludedHeightKey := "d";
  cmquery_New := fun _ => Ok tt;
  BlockIndexer_Search := fun _ => Ok [1; 3]
}.

Definition demo_block_id (h : Z) : BlockID := mkBlockID [h] (mkPartSetHeader 1 [h]).
Definition demo_rpc_db : datastore := Eval vm_compute in
  ds_Put (key_blockID 2) (number (demo_block_id 2)) (ds_Put (key_blockID 1) (number (demo_block_id 1)) ∅).
Definition demo_rpc_env : Env := demo_env 3 (always true) (always false).

Definition ok_or {A} (d : A) (r : outcome A) : A := match r with Ok a => a | _ => d end.

Lemma BlockSearch_pages_witness :
  exists sorted, sorted ≡ₚ [1; 3] /\ Sorted (search_order "desc") sorted /\
    paginated (fun p => BlockSearch (E := demo_rpc_env) demo_rpc_db "q" p (Some 1) "desc") 1 sorted
      (fun h => ok_or (mkResultBlock zero_BlockID None) (search_block (E := demo_rpc_env) demo_rpc_db h)).
Proof.
  apply (BlockSearch_pages (E := demo_rpc_env) demo_rpc_db "q" (Some 1) "desc" [1; 3]).
  - reflexivity.
  - reflexivity.
  - vm_compute. discriminate.
  - set_solver.
  - intros h Hh. apply elem_of_cons in Hh as [->|Hh]; [vm_compute; reflexivity|].
    apply list_elem_of_singleton in Hh as ->. vm_compute. reflexivity.
Defined.

Lemma BlockchainInfo_window_witness :
  exists metas, BlockchainInfo (E := demo_rpc_env) demo_rpc_db 2 0 =
    Ok (mkResultBlockchainInfo 3 metas) /\ length metas = 2%nat.
Proof.
  destruct (BlockchainInfo_window (E := demo_rpc_env) demo_rpc_db 3 2 0
    (fun h => ok_or None (getBlockMeta (E := demo_rpc_env) demo_rpc_db h))) as [H _].
  - reflexivity.
  - vm_compute. split; discriminate.
  - vm_compute. split; discriminate.
  - vm_compute. split; discriminate.
  - intros h Hh. assert (h = 1 \/ h = 2 \/ h = 3) as [->|[->| ->]] by lia; vm_compute; reflexivity.
  - eexists. split; [exact H|]. vm_compute. reflexivity.
Defined.
