(* ===== verification/CommitProps.v ===== *)
(** * The light client's view of an executed block

    [ExecuteTxs] stores the block ID, the sequencer signs the payload of
    [SignaturePayloadProvider], rollkit stores the signed header, and the RPC
    server puts the commit together.  [light_valid] is what a CometBFT light
    client checks of the result. *)

From Stdlib Require Import ZArith Lia.
From stdpp Require Import base gmap strings list pretty.
From S2P Require Import Prelude Bitmap Comet Store Cometcompat MempoolIDs Adapter StoreProps.
From S2P Require Import AdapterDemo AdapterProps StackProps ExecuteProps RpcUtils RpcBlocks.

Open Scope Z_scope.

Section light.
Context `{CM : Comet} (signed_by : bytes -> bytes -> bytes -> Prop).

(** A header and a commit that a light client accepts from a chain with the
    single validator of public key [key]: [signed_by key message signature]. *)
Record light_valid (key : bytes) (hd : CmtHeader) (c : Commit) : Prop := {
  lv_hash : bid_Hash (commit_BlockID c) = header_Hash hd;
  lv_height : commit_Height c = hdr_Height hd;
  lv_validators : hdr_ValidatorsHash hd =
    vs_Hash (NewValidatorSet [mkCmtValidator key (pubkey_Address key) 1]);
  lv_signature : exists sig, commit_Signatures c = [sig] /\ cs_BlockIDFlag sig = BlockIDFlagCommit /\
    cs_ValidatorAddress sig = pubkey_Address key /\
    signed_by key
      (VoteSignBytes (hdr_ChainID hd) (commit_Height c) (commit_BlockID c) (cs_Timestamp sig)
         (cs_ValidatorAddress sig)) (cs_Signature sig)
}.
End light.

Section commit.
Context `{SL : StoreCodecLaws} {CL : CometLaws}.

Lemma ToABCIHeader_inv header c ah :
  ToABCIHeader header c = Ok ah ->
  hdr_Height ah = i64 (rh_Height header) /\ hdr_ChainID ah = rh_ChainID header /\
  hdr_Time ah = rh_Time header /\ hdr_ProposerAddress ah = rh_ProposerAddress header /\
  hdr_ValidatorsHash ah = rh_ValidatorHash header /\ hdr_AppHash ah = rh_AppHash header.
Proof. unfold ToABCIHeader. destruct (_ =? 0)%nat; [done|]. by intros [= <-]. Qed.

Lemma ValidatorHasherProvider_inv proposer pk hash :
  ValidatorHasherProvider proposer pk = Ok hash ->
  exists key, pk_Raw pk = Ok key /\ pubkey_Address key = proposer /\
    hash = copy_into sha256_Size (vs_Hash (NewValidatorSet [mkCmtValidator key (pubkey_Address key) 1])).
Proof.
  unfold ValidatorHasherProvider. destruct (pk_Type pk); [|done].
  destruct (pk_Raw pk) as [key| |]; cbn [wrap_outcome mbind outcome_bind]; [|done..].
  destruct (negb _); [done|]. cbn [mbind outcome_bind].
  destruct (bool_decide_reflect (pubkey_Address key = proposer)) as [Hp|]; cbn [negb]; [|done].
  intros [= <-]. by exists key.
Qed.

Lemma copy_into_same n (l : bytes) : length l = n -> copy_into n l = l.
Proof. intros <-. unfold copy_into. by rewrite take_app_length. Qed.

(** The block data that the RPC server reads after block [h] was executed in
    the environment [E] and rollkit stored it with its signature. *)
Record rollkit_stored (E E' : Env) {RE : RpcEnv} (h : Z) (sh : SignedHeader) (txs : list bytes) :
    Prop := {
  rs_data : RollkitStore_GetBlockData h = Ok (Some sh, Some txs);
  rs_header : RollkitStore_GetHeader (Env := E') h = Ok sh;
  rs_previous : RollkitStore_GetHeader (Env := E') (h - 1) = RollkitStore_GetHeader (Env := E) (h - 1)
}.

(** The block IDs that the commit of [h] is read from are those of before. *)
Lemma GetLastCommit_frame (E E' : Env) {RE : RpcEnv} h sh txs db db' c :
  rollkit_stored E E' h sh txs -> 1 <= h ->
  (forall k, 0 <= k -> 0 <= h -> k <> h -> GetBlockID db' k = GetBlockID db k) ->
  GetLastCommit (E := E) h db = Ok c -> GetLastCommit (E := E') h db' = Ok c.
Proof.
  intros [_ _ Hp] Hh Hf. unfold GetLastCommit. destruct (Z.ltb_spec 1 h); [|done].
  by rewrite Hp, Hf by lia.
Qed.

(** C11: After a block has been executed and stored with the sequencer's
    signature of the payload that the signature provider gives for it, the
    commit that the RPC server answers for its height passes the light client's
    checks: its block ID has the hash of the returned header, its only
    signature is the sequencer's over the vote for this block ID, and the
    header's validator hash is that of the set of this sequencer alone. *)
Theorem Commit_passes_light_client (signed_by : bytes -> bytes -> bytes -> Prop) (E E' : Env)
    (RE : RpcEnv) n txs h t s header c ah p resp updates s' p' parts sh pk :
  exec_ok (E := E) n txs h t s header c ah p resp updates s' p' parts ->
  1 <= h < max_i64 -> rh_Height header = h -> sh_Header sh = header ->
  rollkit_stored E E' h sh txs ->
  (exists bp, MakePartSet (mkBlock ah txs [] c) = Ok bp) ->
  ValidatorHasherProvider (rh_ProposerAddress header) pk = Ok (rh_ValidatorHash header) ->
  (forall key, pk_Raw pk = Ok key ->
     length (vs_Hash (NewValidatorSet [mkCmtValidator key (pubkey_Address key) 1])) = sha256_Size) ->
  exists n', ExecuteTxs (E := E) txs h t n =
      (n', Ok (fb_AppHash resp, u64 (params_MaxBytes (st_ConsensusParams s')))) /\
    forall key, pk_Raw pk = Ok key ->
      (forall payload, SignaturePayloadProvider (node_db n') header = Ok payload ->
         signed_by key payload (sh_Signature sh)) ->
      exists commit, Query_Commit (E := E') (node_db n') (Some h)
          = Ok (Some (mkResultCommit ah commit true)) /\
        light_valid signed_by key ah commit.
Proof.
  intros Hx Hh Hheight <- Hst [bp Hbp] Hvh Hlen.
  destruct (ExecuteTxs_run (E := E) _ _ _ _ _ _ _ _ _ _ _ _ _ _ Hx)
    as (n' & Hrun & _ & Hid & _ & _ & _ & Hframe).
  exists n'. split; [exact Hrun|]. intros key Hkey Hsig.
  pose proof (ToABCIHeader_inv _ _ _ (x_abci _ _ _ _ _ _ _ _ _ _ _ _ _ _ Hx))
    as (Hah & Hchain & Htime & Hprop & Hval & _).
  apply ValidatorHasherProvider_inv in Hvh as (key' & Hkey' & Haddr & Hvhash).
  assert (key' = key) as -> by congruence. rewrite copy_into_same in Hvhash by (by apply Hlen).
  assert (GetLastCommit (E := E') h (node_db n') = Ok c) as Hc.
  { eapply (GetLastCommit_frame E E'); [done|lia|done|apply (x_commit _ _ _ _ _ _ _ _ _ _ _ _ _ _ Hx)]. }
  set (sig := mkCommitSig BlockIDFlagCommit (rh_ProposerAddress (sh_Header sh))
    (rh_Time (sh_Header sh)) (sh_Signature sh)).
  exists (mkCommit (i64 h) 0 (mkBlockID (header_Hash ah) parts) [sig]). split.
  - unfold Query_Commit, normalizeHeight. destruct (Z.ltb_spec h 0); [lia|].
    rewrite u64_small by (unfold_int; lia). cbn [mbind outcome_bind].
    unfold getBlockMeta. rewrite (rs_data _ _ _ _ _ Hst). cbn [or_nil]. rewrite Hc. cbn [or_nil].
    rewrite (x_abci _ _ _ _ _ _ _ _ _ _ _ _ _ _ Hx). cbn [or_nil ToABCIBlock].
    unfold ToABCIBlockMeta. rewrite Hbp. cbn [wrap_outcome mbind outcome_bind or_nil].
    rewrite u64_small by (unfold_int; lia). unfold GetLastCommit.
    destruct (Z.ltb_spec 1 (h + 1)); [|lia]. replace (h + 1 - 1) with h by lia.
    rewrite (rs_header _ _ _ _ _ Hst), Hid. cbn. by rewrite Hheight.
  - split; cbn; [done| |by rewrite Hval|].
    + by rewrite Hah, Hheight.
    + exists sig. split_and!; [done|done|by rewrite Haddr|]. apply Hsig.
      unfold SignaturePayloadProvider. rewrite Hheight, Hid. cbn [andb]. by rewrite Hchain.
Qed.

(** The state after a block holds the application's answer. *)
Lemma next_state_AppHash s h resp updates s' :
  next_state s h resp updates = Ok s' -> st_AppHash s' = fb_AppHash resp.
Proof.
  unfold next_state. intros (vs & _ & (p & _ & H)%outcome_bind_ok)%outcome_bind_ok.
  destruct p. by injection H as <-.
Qed.

(** C40: The block that is published with its events is built from the state
    after the block, while the block ID it is published under is the hash of
    the rollkit header: when the block changed the application's hash, the
    published block does not hash to the published block ID. *)
Theorem published_block_differs (E : Env) n txs h t s header c ah p resp updates s' p' parts :
  exec_ok n txs h t s header c ah p resp updates s' p' parts ->
  IsPublishable (i64 (rh_Height header)) = true ->
  fb_AppHash resp <> rh_AppHash header ->
  (forall other, header_Hash other = header_Hash ah -> hdr_AppHash other = hdr_AppHash ah) ->
  exists block bid,
    PublishNewBlock block bid resp ∈ Effects (ExecuteTxs txs h t n).1 /\
    GetBlockID (node_db (ExecuteTxs txs h t n).1) h = Ok bid /\
    header_Hash (blk_Header block) <> bid_Hash bid.
Proof.
  intros Hx Hpub Hne Hinj.
  destruct (ExecuteTxs_run _ _ _ _ _ _ _ _ _ _ _ _ _ _ Hx)
    as (n' & -> & _ & Hid & _ & He & _ & _).
  exists (MakeBlock s' (i64 h) txs c (cv_Address p')), (mkBlockID (header_Hash ah) parts).
  split_and!; [|exact Hid|].
  - cbn [fst]. rewrite He, Hpub. unfold block_effects. set_solver.
  - cbn [bid_Hash]. intros Heq%Hinj. apply Hne.
    rewrite MakeBlock_AppHash in Heq.
    rewrite (next_state_AppHash _ _ _ _ _ (x_next _ _ _ _ _ _ _ _ _ _ _ _ _ _ Hx)) in Heq.
    rewrite Heq. apply (ToABCIHeader_inv _ _ _ (x_abci _ _ _ _ _ _ _ _ _ _ _ _ _ _ Hx)).
Qed.
End commit.

(** ** A sequencer with a key of 32 bytes *)

Definition light_key : bytes := replicate 32 5.
Definition light_val : CmtValidator := mkCmtValidator light_key light_key 1.
Definition light_header : RlkHeader :=
  mkRlkHeader 1 (mkTime 5 0) "chain" 0 [1] [2] [3] [4] light_key light_key.

(** A signature is the key before the message. *)
Definition light_signed (key message signature : bytes) : Prop := signature = key ++ message.
Definition light_signature : bytes := light_key ++ [1; 1; 7; 3] ++ light_key.

Definition light_env (pub : bool) : Env := {|
  app_InitChain := fun req => Ok (mkInitChainResponse (CT := demo_types) None (ri_Validators req) [0]);
  app_ProcessProposal := fun _ => Ok 1;
  app_FinalizeBlock := fun _ => Ok (demo_response "transfer");
  app_Commit := Ok tt;
  app_PrepareProposal := fun r => Ok (rp_Txs r);
  mempool_Reap := Some (fun _ _ => []);
  mempool_FlushAppConn := Ok tt;
  mempool_Update := fun _ _ _ => Ok tt;
  RollkitStore_GetHeader := fun h => Ok (mkSignedHeader light_header light_signature);
  RollkitStore_Height := Ok 1;
  HeaderFromContext := Some light_header;
  EventBus_Publish := fun _ => Ok tt;
  IsPublishable := always pub;
  ctx_Done := always false;
  time_Now := mkTime 7 0;
  AppGenesis_doc := Some demo_genesis_doc
|}.

Definition light_rpc : RpcEnv := {|
  RollkitStore_GetBlockData := fun h =>
    Ok (Some (mkSignedHeader light_header light_signature), Some [[1; 2]]);
  RollkitStore_GetBlockByHash := fun _ => Err ds_ErrNotFound;
  RollkitStore_GetMetadata := fun _ => Ok [1; 0; 0; 0; 0; 0; 0; 0];
  DAIncludedHeightKey := "d";
  cmquery_New := fun _ => Ok tt;
  BlockIndexer_Search := fun _ => Ok []
|}.

Definition light_state (h : Z) (app_hash : bytes) : CmtState :=
  mkCmtState (CT := demo_types) "chain" h [light_val] [light_val]
    (if 1 <=? h then [light_val] else []) 1 demo_params 1 app_hash.
Definition light_node : Node :=
  mkNode (ds_Put key_state (number (state_tuple (light_state 0 [0]))) ∅) [] [] [].
Definition light_last : Commit := mkCommit 0 0 zero_BlockID [].
Definition light_abci : CmtHeader :=
  mkCmtHeader 11 0 "chain" 1 (mkTime 5 0) zero_BlockID [0; 8] [1] light_key light_key [2] [3] [4] [9]
    light_key.

Lemma light_exec pub :
  exec_ok (E := light_env pub) light_node [[1; 2]] 1 (mkTime 5 0) (light_state 0 [0]) light_header
    light_last light_abci light_val (demo_response "transfer") [] (light_state 1 [42]) light_val
    (mkPartSetHeader 1 [1]).
Proof.
  split; try reflexivity.
  - eexists. reflexivity.
  - intros b. eexists. reflexivity.
  - exact demo_marshals.
  - intros e. reflexivity.
Qed.

Lemma Commit_passes_light_client_witness :
  exists n' commit,
    Query_Commit (E := light_env true) (RE := light_rpc) (node_db n') (Some 1) =
      Ok (Some (mkResultCommit light_abci commit true)) /\
    light_valid light_signed light_key light_abci commit.
Proof.
  destruct (Commit_passes_light_client light_signed (light_env false) (light_env true) light_rpc
    light_node [[1; 2]] 1 (mkTime 5 0) (light_state 0 [0]) light_header light_last light_abci light_val
    (demo_response "transfer") [] (light_state 1 [42]) light_val (mkPartSetHeader 1 [1])
    (mkSignedHeader light_header light_signature) (mkLibp2pPubKey KeyEd25519 (Ok light_key)))
    as (n' & Hrun & H).
  - apply light_exec.
  - unfold_int; lia.
  - reflexivity.
  - reflexivity.
  - split; reflexivity.
  - eexists. reflexivity.
  - vm_compute. reflexivity.
  - intros key [= <-]. reflexivity.
  - destruct (H light_key) as (commit & Hc & Hl).
    + reflexivity.
    + intros payload. replace n' with (ExecuteTxs (E := light_env false) [[1; 2]] 1 (mkTime 5 0) light_node).1
        by (by rewrite Hrun).
      vm_compute. intros [= <-]. reflexivity.
    + exists n', commit. exact (conj Hc Hl).
Defined.

Lemma published_block_differs_witness :
  exists block bid,
    PublishNewBlock block bid (demo_response "transfer") ∈
      Effects (ExecuteTxs (E := light_env true) [[1; 2]] 1 (mkTime 5 0) light_node).1 /\
    header_Hash (blk_Header block) <> bid_Hash bid.
Proof.
  destruct (published_block_differs (light_env true) light_node [[1; 2]] 1 (mkTime 5 0)
    (light_state 0 [0]) light_header light_last light_abci light_val (demo_response "transfer") []
    (light_state 1 [42]) light_val (mkPartSetHeader 1 [1])) as (block & bid & H1 & _ & H2).
  - apply light_exec.
  - reflexivity.
  - discriminate.
  - intros other [= _ H]. exact H.
  - exists block, bid. exact (conj H1 H2).
Defined.
