(* ===== verification/ChainProps.v ===== *)
(** * The chain of executed blocks

    A node executes block after block; between two blocks it finalises heights
    and is asked for transactions.  [runs] is such a history.  The stored block
    IDs link the headers of the blocks. *)

From Stdlib Require Import ZArith Lia.
From stdpp Require Import base gmap strings list pretty.
From S2P Require Import Prelude Bitmap Comet Store Cometcompat MempoolIDs Adapter StoreProps.
From S2P Require Import AdapterDemo AdapterProps StackProps ExecuteProps CommitProps.

Open Scope Z_scope.

Section chain.
Context `{SL : StoreCodecLaws}.

(** ** What the operations write

    [P] is a property of the datastore.  Operations that save nothing keep it;
    the others keep it if what they save does. *)

Definition db_keeps (P : datastore -> Prop) (g : datastore -> outcome datastore) : Prop :=
  forall db db', P db -> g db = Ok db' -> P db'.

Section env.
Context {E : Env} (P : datastore -> Prop).
Notation preserved := (preserves (fun n => P (node_db n))).

Lemma db_update_db g : db_keeps P g -> preserved (update_db g).
Proof.
  intros Hg n Hn. unfold update_db. run. destruct (g (node_db n)) as [db'|e|t] eqn:Eg; run; [|done..].
  cbn. by apply (Hg (node_db n)).
Qed.
Lemma db_modify (g : Node -> Node) : (forall n, node_db (g n) = node_db n) -> preserved (modify g).
Proof. intros Hg. apply preserves_modify. intros n Hn. by rewrite Hg. Qed.
Lemma db_call e : preserved (call e).
Proof. by apply db_modify. Qed.

#[local] Hint Resolve db_call db_update_db : preserves.
#[local] Hint Extern 1 (preserves _ (modify _)) => apply db_modify; done : preserves.

Lemma db_publish t e : preserved (publish t e).
Proof. unfold publish. auto with preserves. Qed.
Lemma db_deref a : preserved (deref a).
Proof. unfold deref. auto with preserves. Qed.
#[local] Hint Resolve db_publish db_deref : preserves.

Lemma db_fireEvents b i r u : preserved (fireEvents b i r u).
Proof.
  unfold fireEvents. do 3 (apply preserves_bind; [apply db_publish|intros []]).
  apply preserves_bind; [apply preserves_for_each; intros ev; apply db_publish|intros []].
  apply preserves_bind; [apply preserves_for_each; intros [j tx]; unfold publish_tx|intros []].
  - destruct (_ !! _); auto with preserves.
  - destruct (_ <? _)%nat; auto with preserves.
Qed.
#[local] Hint Resolve db_fireEvents : preserves.

Lemma db_commit_block h txs rs : preserved (commit_block h txs rs).
Proof.
  unfold commit_block, with_lock. set (m := call CallFlushAppConn ;; _).
  assert (preserved m) as Hm by (unfold m; auto 20 with preserves).
  intros n Hn. unfold call. rewrite run_modify.
  specialize (Hm (set_Effects (fun es => es ++ [MempoolLock]) n) Hn).
  destruct (m _) as [n' r]. exact Hm.
Qed.

Lemma db_GetTxs : preserved GetTxs.
Proof. unfold GetTxs. auto 20 with preserves. Qed.

Context (Hresp : forall h r, db_keeps P (SaveBlockResponse h r)).

Lemma db_publish_or_stack header h b i a u : preserved (publish_or_stack header h b i a u).
Proof. unfold publish_or_stack, stackBlockCommitEvents, store_at. auto 20 with preserves. Qed.

Lemma db_SetFinal h : preserved (SetFinal h).
Proof.
  assert (forall ev, preserved (release_event ev)) as Hev.
  { intros ev. unfold release_event. auto 20 with preserves. }
  assert (forall es m i, preserved (release_loop m i es)) as Hl.
  { induction es as [|ev es IH]; intros m i; cbn [release_loop]; auto 20 with preserves. }
  unfold SetFinal, publishQueuedBlockEvents. auto 20 with preserves.
Qed.
End env.

(** In particular the block IDs, as a function of the height. *)
Definition ids_are (f : Z -> outcome BlockID) (db : datastore) : Prop :=
  forall k, GetBlockID db k = f k.

Lemma ids_state f s : db_keeps (ids_are f) (SaveState s).
Proof.
  intros db db' Hf (d & _ & ->)%SaveState_inv k. rewrite <- Hf. apply GetBlockID_Put_other.
  intros h. apply key_state_blockID.
Qed.

Lemma ids_response f h r : db_keeps (ids_are f) (SaveBlockResponse h r).
Proof.
  intros db db' Hf (d & _ & ->)%SaveBlockResponse_inv k. rewrite <- Hf. apply GetBlockID_Put_other.
  intros h'. done.
Qed.

(** An operation that keeps every assignment of block IDs, whatever its
    outcome. *)
Lemma ids_same {A} (m : M Node A) n n' r :
  (forall f, preserves (fun n => ids_are f (node_db n)) m) -> m n = (n', r) ->
  forall k, GetBlockID (node_db n') k = GetBlockID (node_db n) k.
Proof. intros Hm Hr. specialize (Hm _ n (fun k => eq_refl)). by rewrite Hr in Hm. Qed.

(** ** One block *)

(** The CometBFT header of the block that is executed at [h]. *)
Definition abci_header (E : Env) (h : Z) (n : Node) : outcome CmtHeader :=
  header ← match HeaderFromContext with Some x => Ok x | None => Err (ErrText "no header") end;
  lastCommit ← GetLastCommit h (node_db n);
  ToABCIHeader header lastCommit.

Lemma update_db_ok t g n n' :
  wrap_err t (update_db g) n = (n', Ok tt) -> exists db', g (node_db n) = Ok db' /\ n' = set_db db' n.
Proof.
  rewrite wrap_err_ok. unfold update_db. run. destruct (g (node_db n)); run; [|done..].
  intros [= <-]. eauto.
Qed.

Lemma save_block_ID_ok s' txs h lc ah n n' b :
  save_block_ID s' txs h lc ah n = (n', Ok b) ->
  bid_Hash b.2 = header_Hash ah /\ GetBlockID (node_db n') h = Ok b.2 /\
  forall k, 0 <= k -> 0 <= h -> k <> h -> GetBlockID (node_db n') k = GetBlockID (node_db n) k.
Proof.
  unfold save_block_ID. intros (? & p & [= <- _] & H)%bind_ok.
  apply bind_ok in H as (? & parts & Hp & H). apply wrap_err_ok in Hp. injection Hp as <- _.
  apply bind_ok in H as (n1 & [] & Hu & H). injection H as <- <-. cbn [snd].
  apply update_db_ok in Hu as (db' & Hdb & ->). split; [done|]. cbn [node_db set_db].
  split; [by eapply GetBlockID_Save|]. apply SaveBlockID_inv in Hdb as (d & _ & ->).
  intros k Hk Hh Hne. unfold GetBlockID. rewrite ds_Get_Put_ne; [done|].
  intros E0. by apply Hne, eq_sym, key_blockID_inj.
Qed.

(** The end of an execution, from the state that is saved. *)
Lemma execution_end (E : Env) s' txs h lc ah header a us results n n1 n2 n3 n' b u0 u1 :
  wrap_err "save state" (update_db (SaveState s')) n = (n1, Ok u0) ->
  commit_block h txs results n1 = (n2, Ok u1) ->
  save_block_ID s' txs h lc ah n2 = (n3, Ok b) ->
  publish_or_stack header h b.1 b.2 a us n3 = (n', Ok tt) -> 0 <= h ->
  (exists id, GetBlockID (node_db n') h = Ok id /\ bid_Hash id = header_Hash ah) /\
  forall k, 0 <= k -> k <> h -> GetBlockID (node_db n') k = GetBlockID (node_db n) k.
Proof.
  intros Hs Hc Hb Hp Hh. destruct u0.
  pose proof (ids_same _ _ _ _ (fun f => db_publish_or_stack _ (ids_response f) header h _ _ a us) Hp) as H3.
  apply save_block_ID_ok in Hb as (Hhash & Hid & H2).
  pose proof (ids_same _ _ _ _ (fun f => db_commit_block _ h txs results) Hc) as H1.
  apply update_db_ok in Hs as (db' & Hs & ->). split.
  - exists b.2. by rewrite H3.
  - intros k Hk Hne. rewrite H3, H2, H1 by done. cbn. by apply (ids_state _ s' (node_db n) db' (fun k => eq_refl)).
Qed.

(** The stages of a successful execution: what was read, the node after the
    application's answers ([n1]), after the state was saved ([n2]), after the
    commit ([n3]) and after the block ID was saved ([n4]). *)
Record execution (E : Env) (txs : list bytes) (h : Z) (n n' : Node) (header : RlkHeader) (lc : Commit)
    (ah : CmtHeader) (resp : ResponseFinalizeBlock) (us : list CmtValidator) (s' : CmtState)
    (b : Block * BlockID) (pp : RequestProcessProposal) (fb : RequestFinalizeBlock)
    (n1 n2 n3 n4 : Node) : Prop := {
  ex_header : HeaderFromContext = Some header;
  ex_commit : GetLastCommit h (node_db n) = Ok lc;
  ex_abci : ToABCIHeader header lc = Ok ah;
  ex_db : node_db n1 = node_db n;
  ex_stack : stackedEvents n1 = stackedEvents n;
  ex_calls : Effects n1 = Effects n ++ [CallProcessProposal pp; CallFinalizeBlock fb];
  ex_state : wrap_err "save state" (update_db (SaveState s')) n1 = (n2, Ok tt);
  ex_block : commit_block h txs (fb_TxResults resp) n2 = (n3, Ok tt);
  ex_id : save_block_ID s' txs h lc ah n3 = (n4, Ok b);
  ex_publish : publish_or_stack header h b.1 b.2 (length (node_heap n)) us n4 = (n', Ok tt)
}.

Lemma ExecuteTxs_stages (E : Env) txs h t n n' r :
  ExecuteTxs txs h t n = (n', Ok r) ->
  exists header lc ah resp us s' b pp fb n1 n2 n3 n4,
    execution E txs h n n' header lc ah resp us s' b pp fb n1 n2 n3 n4.
Proof.
  unfold ExecuteTxs. intros (? & db & [= <- <-] & H)%bind_ok.
  apply bind_ok in H as (? & s & [= <- _]%wrap_err_ok & H).
  destruct HeaderFromContext as [header|] eqn:Hd; [|done].
  apply bind_ok in H as (? & ? & [= <- <-] & H).
  apply bind_ok in H as (? & lc & H1%wrap_err_ok & H). injection H1 as <- Hc.
  apply bind_ok in H as (? & ah & H1%wrap_err_ok & H). injection H1 as <- Ha.
  apply bind_ok in H as (? & p & [= <- _] & H). apply bind_ok in H as (n1 & [] & [= <-] & H).
  apply bind_ok in H as (? & st & [= <- _] & H). destruct (negb _); [done|].
  apply bind_ok in H as (n2 & [] & [= <-] & H). apply bind_ok in H as (? & resp & [= <- _] & H).
  apply bind_ok in H as (n3 & a & [= <- <-] & H). apply bind_ok in H as (? & ? & [= <- _] & H).
  apply bind_ok in H as (? & us & [= <- _] & H). apply bind_ok in H as (? & s' & [= <- _] & H).
  apply bind_ok in H as (n4 & [] & Hs & H). apply bind_ok in H as (n5 & [] & Hcb & H).
  apply bind_ok in H as (n6 & [block id] & Hb & H). apply bind_ok in H as (n7 & [] & Hp & H).
  injection H as <- _. eexists header, lc, ah, resp, us, s', (block, id), _, _, _, n4, n5, n6.
  split; [done|done|done| | | |exact Hs|exact Hcb|exact Hb|exact Hp]; [done|done|].
  cbn. by rewrite <- app_assoc.
Qed.

(** A block that was executed: its ID has the hash of its header and is stored
    under its height; the IDs of other heights stay, and the header names the
    ID of the height below. *)
Lemma ExecuteTxs_links (E : Env) txs h t n n' r ah :
  ExecuteTxs txs h t n = (n', Ok r) -> abci_header E h n = Ok ah -> 0 <= h ->
  ((exists id, GetBlockID (node_db n') h = Ok id /\ bid_Hash id = header_Hash ah) /\
  (forall k, 0 <= k -> k <> h -> GetBlockID (node_db n') k = GetBlockID (node_db n) k)) /\
  (1 < h -> GetBlockID (node_db n) (h - 1) = Ok (hdr_LastBlockID ah)).
Proof.
  intros H Ha Hh. unfold abci_header in Ha.
  apply outcome_bind_ok in Ha as (header & Hd & (c & Hc & Hah)%outcome_bind_ok).
  split.
  2: { intros H1. unfold GetLastCommit in Hc. destruct (Z.ltb_spec 1 h); [|lia].
       apply outcome_bind_ok in Hc as (sh & _ & (id & Hid & [= <-])%outcome_bind_ok).
       unfold ToABCIHeader in Hah. destruct (_ =? 0)%nat; [done|]. injection Hah as <-. cbn.
       by destruct (GetBlockID _ (h - 1)). }
  apply ExecuteTxs_stages in H as (header' & lc & ah' & resp & us & s' & b & pp & fb & n1 & n2 & n3 & n4 & [Hd' Hc' Ha' Hdb _ _ Hs Hcb Hid Hpub]).
  rewrite Hd' in Hd. injection Hd as ->.
  rewrite Hc in Hc'. injection Hc' as ->.
  rewrite Hah in Ha'. injection Ha' as ->.
  destruct (execution_end _ _ _ _ _ _ _ _ _ _ _ _ _ _ _ _ _ _ Hs Hcb Hid Hpub Hh)
    as [Hi Hk].
  split; [exact Hi|]. intros k Hk0 Hne. rewrite Hk by done. by rewrite Hdb.
Qed.

(** ** Histories *)

(** From a node, the blocks of consecutive heights from [h0] are executed, each
    with the answers of its own environment; finalisations and requests for
    transactions come in between, and may fail. *)
Inductive runs (h0 : Z) (n0 : Node) : list CmtHeader -> Node -> Prop :=
| runs_start : runs h0 n0 [] n0
| runs_block l n (E : Env) txs t n' r ah :
    runs h0 n0 l n -> ExecuteTxs txs (h0 + Z.of_nat (length l)) t n = (n', Ok r) ->
    abci_header E (h0 + Z.of_nat (length l)) n = Ok ah -> runs h0 n0 (l ++ [ah]) n'
| runs_final l n (E : Env) h n' r : runs h0 n0 l n -> SetFinal h n = (n', r) -> runs h0 n0 l n'
| runs_txs l n (E : Env) n' r : runs h0 n0 l n -> GetTxs n = (n', r) -> runs h0 n0 l n'.

(** The stored IDs of the heights from [h0] link the headers. *)
Definition linked (h0 : Z) (l : list CmtHeader) (n : Node) : Prop :=
  forall i ah, l !! i = Some ah ->
    exists id, GetBlockID (node_db n) (h0 + Z.of_nat i) = Ok id /\ bid_Hash id = header_Hash ah /\
      forall ah', l !! S i = Some ah' -> hdr_LastBlockID ah' = id.

Lemma linked_ids h0 l n n' :
  (forall k, GetBlockID (node_db n') k = GetBlockID (node_db n) k) -> linked h0 l n -> linked h0 l n'.
Proof.
  intros Hk Hl i ah Hi. destruct (Hl i ah Hi) as (id & H1 & H). exists id. by rewrite Hk.
Qed.

(** C12: The blocks form a chain.  After any history of executed blocks of
    consecutive heights, with finalisations and requests for transactions in
    between, the block ID that is stored for each of the heights has the hash
    of the header that was executed there, and the header executed next names
    exactly this ID as its last block. *)
Theorem blocks_are_linked h0 n0 l n : 1 <= h0 -> runs h0 n0 l n -> linked h0 l n.
Proof.
  intros Hh Hr.
  induction Hr as [|l n E txs t n' r ah Hr IH Hx Ha|l n E h n' r Hr IH Hx|l n E n' r Hr IH Hx].
  - intros i ah Hi. by rewrite lookup_nil in Hi.
  - destruct (ExecuteTxs_links E _ _ _ _ _ _ _ Hx Ha) as (((id & Hid & Hhash) & Hkeep) & Hlast); [lia|].
    intros i ah1 [[_ Hi]|[-> <-]]%lookup_snoc_Some.
    2: { exists id. split_and!; [done..|]. intros ah' H%lookup_lt_Some.
         rewrite length_app in H. cbn in H. lia. }
    destruct (IH i ah1 Hi) as (id1 & H1 & H2 & H3). pose proof (lookup_lt_Some _ _ _ Hi) as Hlt.
    exists id1. rewrite Hkeep by lia. split_and!; [done..|].
    intros ah' [[_ H]|[Hlen <-]]%lookup_snoc_Some; [by apply H3|].
    rewrite <- Hlen in Hlast. replace (h0 + Z.of_nat (S i) - 1) with (h0 + Z.of_nat i) in Hlast by lia.
    rewrite H1 in Hlast. specialize (Hlast ltac:(lia)). by injection Hlast as <-.
  - eapply linked_ids; [|exact IH]. eapply ids_same; [|exact Hx]. intros f. apply db_SetFinal, ids_response.
  - eapply linked_ids; [|exact IH]. eapply ids_same; [|exact Hx]. intros f. apply db_GetTxs.
Qed.
End chain.

(** Two blocks, with a finalisation in between. *)
Lemma blocks_are_linked_witness :
  exists n ah1 ah2 id, linked 1 [ah1; ah2] n /\ GetBlockID (node_db n) 1 = Ok id /\
    hdr_LastBlockID ah2 = id.
Proof.
  set (E h := demo_env h (always false) (always false)).
  set (n1 := (ExecuteTxs (E := E 1) [[1]] 1 (mkTime 5 0) demo_node).1).
  set (n2 := (SetFinal (E := E 1) 1 n1).1).
  set (n3 := (ExecuteTxs (E := E 2) [[2]] 2 (mkTime 6 0) n2).1).
  set (ok r := match r with Ok ah => ah | _ => mkCmtHeader 0 0 "" 0 (mkTime 0 0) zero_BlockID
    [] [] [] [] [] [] [] [] [] end).
  assert (runs 1 demo_node [ok (abci_header (E 1) 1 demo_node); ok (abci_header (E 2) 2 n2)] n3) as Hr.
  { eapply (runs_block 1 demo_node [_] n2 (E 2) [[2]] (mkTime 6 0) n3 ([42], 1000)).
    - eapply (runs_final _ _ _ n1 (E 1) 1 n2 (Ok tt)); [|vm_compute; reflexivity].
      eapply (runs_block 1 demo_node [] demo_node (E 1) [[1]] (mkTime 5 0) n1 ([42], 1000));
        [constructor|vm_compute; reflexivity|vm_compute; reflexivity].
    - vm_compute; reflexivity.
    - vm_compute; reflexivity. }
  pose proof (blocks_are_linked 1 demo_node _ n3 ltac:(lia) Hr) as Hl.
  destruct (Hl 0%nat _ eq_refl) as (id & H1 & _ & H2).
  do 4 eexists. split; [exact Hl|]. split; [exact H1|]. exact (H2 _ eq_refl).
Defined.
