(* ===== verification/PublishProps.v ===== *)
(** * Which blocks are published

    The heights of the published blocks and of those that wait in the stack,
    along a history of executions and finalisations: no block is lost and none
    is published twice, as long as every step succeeds and no context is
    cancelled.  A release that fails half-way publishes again. *)

From Stdlib Require Import ZArith Lia.
From stdpp Require Import base gmap strings list pretty.
From S2P Require Import Prelude Bitmap Comet Store Cometcompat MempoolIDs Adapter StoreProps.
From S2P Require Import AdapterDemo AdapterProps StackProps ExecuteProps ChainProps.

Open Scope Z_scope.

Section publications.
Context `{SL : StoreCodecLaws} {CL : CometLaws}.

Definition block_height (e : Effect) : option Z :=
  match e with PublishNewBlock block _ _ => Some (hdr_Height (blk_Header block)) | _ => None end.

(** The heights of the published blocks, in the order of their publication, and
    of the blocks in the stack. *)
Definition published (n : Node) : list Z := omap block_height (Effects n).
Definition waiting (n : Node) : list Z := ev_height <$> stackedEvents n.

Definition no_block (e : Effect) : Prop := block_height e = None.

Lemma tells_published {A} (m : M Node A) n :
  tells no_block m -> published (m n).1 = published n.
Proof.
  intros Hm. destruct (Hm n) as (es & He & Hf). unfold published. rewrite He, omap_app.
  assert (omap block_height es = []) as ->; [|by rewrite app_nil_r].
  clear He. induction Hf as [|e es H _ IH]; [done|]. cbn. by rewrite H.
Qed.

Lemma tells_keeps {A} (m : M Node A) n n' r :
  tells no_block m -> keeps m -> m n = (n', r) -> published n' = published n /\ waiting n' = waiting n.
Proof.
  intros Ht Hk Hm. pose proof (tells_published m n Ht) as Hp. destruct (Hk n) as [_ Hs].
  unfold waiting. by rewrite Hm in Hp, Hs; cbn in Hp, Hs; rewrite Hp, Hs.
Qed.

Section steps.
Context {E : Env}.

(** *** The calls that publish no block *)

Lemma tells_GetTxs : tells no_block GetTxs.
Proof.
  apply tells_bind; [by apply tells_quiet|intros db].
  apply tells_bind; [apply tells_wrap; by apply tells_quiet|intros s].
  destruct mempool_Reap; [|by apply tells_quiet].
  apply tells_bind; [by apply tells_quiet|intros h]. apply tells_bind; [by apply tells_quiet|intros p].
  apply tells_bind; [by apply tells_call|intros []]. by apply tells_quiet.
Qed.

Lemma keeps_GetTxs : keeps GetTxs.
Proof.
  unfold GetTxs. apply keeps_bind; [apply keeps_gets|intros db].
  apply keeps_bind; [apply keeps_wrap, keeps_lift|intros s].
  destruct mempool_Reap; [|apply keeps_fail].
  apply keeps_bind; [apply keeps_lift|intros h]. apply keeps_bind; [apply keeps_lift|intros p].
  apply keeps_bind; [apply keeps_call|intros []]. apply keeps_lift.
Qed.

Lemma tells_commit_block h txs rs : tells no_block (commit_block h txs rs).
Proof.
  unfold commit_block. set (m := call CallFlushAppConn ;; _).
  assert (tells no_block m) as Hm.
  { unfold m. repeat (apply tells_bind; [by apply tells_call || by apply tells_quiet|intros []]).
    by apply tells_quiet. }
  intros n. unfold with_lock, call. rewrite run_modify.
  destruct (Hm (set_Effects (fun es => es ++ [MempoolLock]) n)) as (es & He & Hf).
  destruct (m _) as [n' r]. rewrite run_modify. cbn in *. rewrite He.
  exists ([MempoolLock] ++ es ++ [MempoolUnlock]). split; [by rewrite <- !app_assoc|].
  apply Forall_app. split; [by repeat constructor|]. apply Forall_app. split; [done|by repeat constructor].
Qed.

Lemma tells_save_block_ID s' txs h lc ah : tells no_block (save_block_ID s' txs h lc ah).
Proof.
  apply tells_bind; [by apply tells_quiet|intros p].
  apply tells_bind; [apply tells_wrap; by apply tells_quiet|intros parts].
  apply tells_bind; [apply tells_wrap, tells_update_db|intros []]. by apply tells_quiet.
Qed.

Lemma save_block_ID_block s' txs h lc ah n n' b :
  save_block_ID s' txs h lc ah n = (n', Ok b) -> hdr_Height (blk_Header b.1) = i64 h.
Proof.
  unfold save_block_ID. intros (? & p & _ & H)%bind_ok. apply bind_ok in H as (? & parts & _ & H).
  apply bind_ok in H as (n1 & [] & _ & H). injection H as _ <-. apply MakeBlock_Height.
Qed.

(** *** The calls that do *)

(** Firing a block's events publishes the block first, and only once. *)
Lemma fireEvents_published block bid r us n :
  published (fireEvents block bid r us n).1 = published n ++ [hdr_Height (blk_Header block)].
Proof.
  unfold fireEvents. rewrite run_bind. unfold publish at 1, call.
  rewrite run_bind, run_modify, run_wrap_err, run_lift.
  set (n1 := set_Effects _ n).
  assert (published n1 = published n ++ [hdr_Height (blk_Header block)]) as Hn1.
  { unfold published, n1. cbn. by rewrite omap_app. }
  destruct (EventBus_Publish _) as [[]|?|?]; cbn [fst snd wrap_outcome]; [|done..].
  rewrite tells_published; [done|].
  do 2 (apply tells_bind; [by apply tells_publish|intros []]).
  apply tells_bind; [|intros []; apply tells_bind; [|intros []]].
  - apply tells_for_each. intros ev. by apply tells_publish.
  - apply tells_for_each. intros itx. by apply tells_publish_tx.
  - destruct (_ <? _)%nat; [by apply tells_publish|by apply tells_quiet].
Qed.

Lemma update_db_same t f n n' r :
  wrap_err t (update_db f) n = (n', r) -> published n' = published n /\ waiting n' = waiting n.
Proof.
  apply tells_keeps; [apply tells_wrap, tells_update_db|apply keeps_wrap, keeps_update_db].
Qed.

(** A block is either published or put on the stack. *)
Lemma publish_or_stack_heights header h block bid a us n n' :
  publish_or_stack header h block bid a us n = (n', Ok tt) ->
  let fire := IsPublishable (i64 (rh_Height header)) in
  published n' = published n ++ (if fire then [hdr_Height (blk_Header block)] else []) /\
  waiting n' = waiting n ++ (if fire then [] else [hdr_Height (blk_Header block)]).
Proof.
  unfold publish_or_stack. cbv zeta. destruct (IsPublishable _).
  - intros (n1 & r & Hd & H)%bind_ok. apply bind_ok in H as (n2 & [] & Hu & H).
    pose proof (keeps_deref a n) as [_ Hk]. rewrite Hd in Hk. cbn in Hk.
    assert (Effects n1 = Effects n) as He.
    { revert Hd. unfold deref. rewrite run_bind, run_gets. destruct (_ !! _); by intros [= <- _]. }
    apply update_db_same in Hu as [Hu1 Hu2]. apply wrap_err_ok in H.
    pose proof (fireEvents_published block bid r us n2) as Hp.
    destruct (keeps_fireEvents block bid r us n2) as [_ Hs]. rewrite H in Hp, Hs. cbn in Hp, Hs.
    split; [by rewrite Hp, Hu1; unfold published; rewrite He|].
    rewrite app_nil_r. unfold waiting in *. by rewrite Hs, Hu2, Hk.
  - intros (n1 & [] & [= <-] & H)%bind_ok. apply bind_ok in H as (n2 & [] & [= <-] & H).
    apply bind_ok in H as (n3 & r & Hd & H). apply update_db_same in H as [H1 H2].
    pose proof (keeps_deref a (set_heap (alter (set_fb_Events []) a)
      (set_stack (fun es => es ++ [mkStacked bid block a us]) n))) as [_ Hk].
    rewrite Hd in Hk. cbn in Hk. revert Hd. unfold deref. rewrite run_bind, run_gets.
    destruct (_ !! _); [|done]. intros [= <- _]. rewrite H1, H2. cbn. rewrite app_nil_r.
    unfold waiting. cbn. by rewrite fmap_app.
Qed.

(** An execution either publishes its block or stacks it. *)
Lemma ExecuteTxs_heights txs h t n n' r :
  ExecuteTxs txs h t n = (n', Ok r) ->
  exists header, HeaderFromContext = Some header /\
    let fire := IsPublishable (i64 (rh_Height header)) in
    published n' = published n ++ (if fire then [i64 h] else []) /\
    waiting n' = waiting n ++ (if fire then [] else [i64 h]).
Proof.
  intros (header & lc & ah & resp & us & s' & b & pp & fb & n1 & n2 & n3 & n4 & [Hhd _ _ _ Hst Hcalls Hs Hcb Hid Hpub])%ExecuteTxs_stages.
  exists header. split; [done|].
  pose proof (publish_or_stack_heights _ _ _ _ _ _ _ _ Hpub) as Hp. cbv zeta in Hp |- *.
  rewrite (save_block_ID_block _ _ _ _ _ _ _ _ Hid) in Hp.
  apply tells_keeps in Hid as [H4 H4']; [|apply tells_save_block_ID|apply keeps_save_block_ID].
  apply tells_keeps in Hcb as [H3 H3']; [|apply tells_commit_block|apply keeps_commit_block].
  apply update_db_same in Hs as [H2 H2'].
  assert (published n1 = published n) as H1.
  { unfold published. rewrite Hcalls, omap_app. cbn. by rewrite app_nil_r. }
  assert (waiting n1 = waiting n) as H1' by (unfold waiting; by rewrite Hst).
  by rewrite H4, H3, H2, H1, H4', H3', H2', H1' in Hp.
Qed.

(** *** The release of the stack *)

Lemma release_event_heights ev n :
  stackedEvents (release_event ev n).1 = stackedEvents n /\
  match (release_event ev n).2 with
  | Ok _ => published (release_event ev n).1 = published n ++ [ev_height ev]
  | _ => published (release_event ev n).1 = published n \/
         published (release_event ev n).1 = published n ++ [ev_height ev]
  end.
Proof.
  split; [apply keeps_release_event|]. unfold release_event.
  rewrite run_bind, run_gets, run_bind, run_wrap_err, run_lift.
  destruct (GetBlockResponse _ _) as [b|e|t]; cbn [fst snd wrap_outcome]; [|by left..].
  rewrite run_bind. unfold deref. rewrite run_bind, run_gets.
  destruct (node_heap n !! _) as [r|]; [rewrite run_ret|by left]. rewrite run_bind.
  destruct (wrap_err _ (update_db _) n) as [n1 u] eqn:Hu. apply update_db_same in Hu as [H1 _].
  destruct u as [[]|e|t]; [|by left..]. rewrite run_wrap_err.
  pose proof (fireEvents_published (se_block ev) (se_blockID ev) r (se_validatorUpdates ev) n1) as Hp.
  rewrite H1 in Hp. cbn. destruct (fireEvents _ _ _ _ n1) as [n2 [[]|e|t]]; cbn in *; auto.
Qed.

(** Whatever its outcome, the loop publishes a prefix of the blocks up to the
    last one; when it succeeds and is not cancelled, all of them. *)
Lemma release_loop_heights maxPos i evs n :
  stackedEvents (release_loop maxPos i evs n).1 = stackedEvents n /\
  exists k, published (release_loop maxPos i evs n).1 = published n ++ take k (ev_height <$> evs) /\
    (k <= Z.to_nat (maxPos + 1 - Z.of_nat i))%nat /\
    forall v, (release_loop maxPos i evs n).2 = Ok v -> (forall j, ctx_Done j = false) ->
      v = maxPos /\ take k (ev_height <$> evs) = take (Z.to_nat (maxPos + 1 - Z.of_nat i)) (ev_height <$> evs).
Proof.
  split; [apply keeps_release_loop|]. revert i n. induction evs as [|ev evs IH]; intros i n; cbn [release_loop].
  { exists 0%nat. cbn. rewrite app_nil_r. split; [done|]. split; [lia|]. intros v [= <-] _. split; [done|].
    by rewrite take_nil. }
  destruct (Z.ltb_spec maxPos (Z.of_nat i)) as [Hlt|Hge].
  { exists 0%nat. cbn. rewrite app_nil_r. split; [done|]. split; [lia|]. intros v [= <-] _. split; [done|].
    by replace (Z.to_nat _) with 0%nat by lia. }
  replace (Z.to_nat (maxPos + 1 - Z.of_nat i)) with (S (Z.to_nat (maxPos + 1 - Z.of_nat (S i)))) by lia.
  destruct (ctx_Done i) eqn:Hc.
  { exists 0%nat. cbn. rewrite app_nil_r. split; [done|]. split; [lia|]. intros v _ Hno. by rewrite Hno in Hc. }
  rewrite run_bind. destruct (release_event_heights ev n) as [_ Hp].
  destruct (release_event ev n) as [n1 [[]|e|t]]; cbn [fst snd] in *.
  - destruct (IH (S i) n1) as (k & Hk & Hle & Hv). exists (S k). rewrite Hk, Hp. cbn.
    split; [by rewrite <- app_assoc|]. split; [lia|]. intros v Hr Hno.
    destruct (Hv v Hr Hno) as [-> Ht]. split; [done|]. by rewrite Ht.
  - destruct Hp as [->| ->]; [exists 0%nat|exists 1%nat]; cbn; rewrite ?take_0, ?app_nil_r;
      (split; [done|]); split; [lia|done|lia|done].
  - destruct Hp as [->| ->]; [exists 0%nat|exists 1%nat]; cbn; rewrite ?take_0, ?app_nil_r;
      (split; [done|]); split; [lia|done|lia|done].
Qed.

(** How many blocks a finalisation releases. *)
Definition release_count (height : Z) (n : Node) : nat :=
  Z.to_nat (max_pos_released (i64 height) (stackedEvents n) + 1).

Lemma SetFinal_heights height n :
  exists k, (k <= release_count height n)%nat /\
    published (SetFinal height n).1 = published n ++ take k (waiting n) /\
    match (SetFinal height n).2 with
    | Ok _ => (forall j, ctx_Done j = false) ->
        take k (waiting n) = take (release_count height n) (waiting n) /\
        waiting (SetFinal height n).1 = drop (release_count height n) (waiting n)
    | _ => stackedEvents (SetFinal height n).1 = stackedEvents n
    end.
Proof.
  unfold SetFinal, publishQueuedBlockEvents, release_count. rewrite run_bind, run_gets.
  set (p := max_pos_released _ _). destruct (Z.eqb_spec p (-1)) as [->|Hp].
  { exists 0%nat. cbn. rewrite app_nil_r. by split; [lia|]. }
  destruct (max_pos_released_spec (i64 height) (stackedEvents n)) as ((Hlo & _) & _). fold p in Hlo.
  destruct (release_loop_heights p 0 (stackedEvents n) n) as (Hs & k & Hk & Hle & Hv).
  rewrite Z.sub_0_r in Hle, Hv. exists k. split; [done|]. rewrite run_bind.
  destruct (release_loop p 0 (stackedEvents n) n) as [n1 [v|e|t]]; cbn in *.
  - split; [exact Hk|]. intros Hno. destruct (Hv v eq_refl Hno) as [-> Ht]. split; [exact Ht|].
    unfold waiting. cbn. by rewrite Hs, fmap_drop.
  - by split.
  - by split.
Qed.
End steps.

(** ** Histories *)

(** A block that is published when it is executed finds the stack empty. *)
Definition in_order (E : Env) (n : Node) : Prop :=
  forall header, HeaderFromContext = Some header -> IsPublishable (i64 (rh_Height header)) = true ->
    waiting n = [].

(** A node executes blocks, finalises heights with success and without being
    cancelled, and is asked for transactions; the list has the heights of the
    executed blocks.  With [strict], every execution is in order. *)
Inductive operates (strict : bool) (n0 : Node) : list Z -> Node -> Prop :=
| op_start : operates strict n0 [] n0
| op_block (E : Env) l n txs h t n' r :
    operates strict n0 l n -> ExecuteTxs txs h t n = (n', Ok r) ->
    (strict = true -> in_order E n) -> operates strict n0 (l ++ [i64 h]) n'
| op_final (E : Env) l n h n' :
    operates strict n0 l n -> SetFinal h n = (n', Ok tt) -> (forall j, ctx_Done j = false) ->
    operates strict n0 l n'
| op_txs (E : Env) l n n' r : operates strict n0 l n -> GetTxs n = (n', r) -> operates strict n0 l n'.

(** C13: In a history whose executions and finalisations succeed and whose
    finalisations are not cancelled, every executed block is published exactly
    once or still waits: the heights of the publications and of the stack together are those that
    waited at the start and the executed ones.  If moreover no block was
    published over the heads of waiting ones, they are in the order of
    execution, the published ones first. *)
Theorem blocks_published_once strict n0 l n :
  operates strict n0 l n ->
  exists ps, published n = published n0 ++ ps /\ ps ++ waiting n ≡ₚ waiting n0 ++ l /\
    (strict = true -> ps ++ waiting n = waiting n0 ++ l).
Proof.
  induction 1 as [|E l n txs h t n' r _ (ps & Hp & Hw & Ho) Hx Hs|E l n h n' _ (ps & Hp & Hw & Ho) Hf Hno
    |E l n n' r _ (ps & Hp & Hw & Ho) Hg].
  - exists []. by rewrite !app_nil_r.
  - apply ExecuteTxs_heights in Hx as (header & Hd & Hp' & Hw').
    exists (ps ++ if IsPublishable (i64 (rh_Height header)) then [i64 h] else []).
    split; [by rewrite Hp', Hp, app_assoc|]. rewrite Hw'. destruct (IsPublishable _) eqn:Hpub.
    + split.
      * rewrite app_nil_r, (app_assoc (waiting n0)), <- Hw, <- !app_assoc. by rewrite (Permutation_app_comm (waiting n)).
      * intros Ht. rewrite app_nil_r, (app_assoc (waiting n0)), <- (Ho Ht).
        rewrite (Hs Ht header Hd Hpub). by rewrite !app_nil_r.
    + rewrite app_nil_r. split; [by rewrite !app_assoc, Hw|]. intros Ht. by rewrite !app_assoc, (Ho Ht).
  - destruct (SetFinal_heights h n) as (k & _ & Hp' & Hrest). rewrite Hf in Hp', Hrest. cbn in Hp', Hrest.
    destruct (Hrest Hno) as [Hk Hw'].
    exists (ps ++ take (release_count h n) (waiting n)). rewrite Hp', Hp, Hk, Hw', <- app_assoc.
    split; [done|]. by rewrite <- app_assoc, take_drop.
  - apply tells_keeps in Hg as [Hp' Hw']; [|apply tells_GetTxs|apply keeps_GetTxs].
    exists ps. by rewrite Hp', Hw'.
Qed.

Lemma release_count_ext (E E' : Env) height n :
  (forall h, IsPublishable (Env := E') h = IsPublishable (Env := E) h) ->
  release_count (E := E') height n = release_count (E := E) height n.
Proof.
  intros Hsame. unfold release_count. do 2 f_equal.
  induction (stackedEvents n) as [|ev evs IH] using rev_ind; [done|].
  rewrite !(max_pos_released_snoc (E := _)), IH. unfold publishable. by rewrite Hsame.
Qed.

(** C29: A finalisation that fails half-way is repeated from the start.  It leaves
    the stack as it was although it has published the first [k] waiting blocks,
    and the next one that succeeds publishes them again. *)
Theorem failed_release_repeats (E E' : Env) n height n1 err n2 :
  SetFinal (E := E) height n = (n1, Err err) ->
  SetFinal (E := E') height n1 = (n2, Ok tt) -> (forall j, ctx_Done (Env := E') j = false) ->
  (forall h, IsPublishable (Env := E') h = IsPublishable (Env := E) h) ->
  exists k c, (k <= c)%nat /\ published n1 = published n ++ take k (waiting n) /\
    published n2 = published n ++ take k (waiting n) ++ take c (waiting n) /\
    waiting n2 = drop c (waiting n).
Proof.
  intros H1 H2 Hno Hsame. destruct (SetFinal_heights (E := E) height n) as (k & Hk & Hp1 & Hw1).
  destruct (SetFinal_heights (E := E') height n1) as (k' & _ & Hp2 & Hw2).
  rewrite H1 in Hp1, Hw1. rewrite H2 in Hp2, Hw2. cbn in *. destruct (Hw2 Hno) as [Hk' Hw2'].
  assert (waiting n1 = waiting n) as Hw by (unfold waiting; by rewrite Hw1).
  exists k, (release_count (E := E') height n1). rewrite Hp2, Hk', Hp1, Hw2', Hw, <- app_assoc.
  split; [|done]. unfold release_count at 1. rewrite Hw1. fold (release_count (E := E') height n).
  by rewrite (release_count_ext E E').
Qed.
End publications.

(** *** Two blocks *)

(** Block 1 is published at once; block 2 waits and is released. *)
Lemma blocks_published_once_witness :
  exists n, operates true demo_node [1; 2] n /\ published n = [1; 2] /\ waiting n = [].
Proof.
  set (E1 := demo_env 1 (always true) (always false)). set (E2 := demo_env 2 (always false) (always false)).
  set (E3 := demo_env 2 (always true) (always false)).
  set (n1 := (ExecuteTxs (E := E1) [[1]] 1 (mkTime 5 0) demo_node).1).
  set (n2 := (ExecuteTxs (E := E2) [[2]] 2 (mkTime 6 0) n1).1).
  set (n3 := (SetFinal (E := E3) 2 n2).1).
  assert (operates true demo_node [1; 2] n3) as Ho.
  { apply (op_final true demo_node E3 _ n2 2); [|vm_compute; reflexivity|done].
    apply (op_block true demo_node E2 [1] n1 [[2]] 2 (mkTime 6 0) n2 ([42], 1000)); [|vm_compute; reflexivity|done].
    apply (op_block true demo_node E1 [] demo_node [[1]] 1 (mkTime 5 0) n1 ([42], 1000));
      [constructor|vm_compute; reflexivity|done]. }
  exists n3. split; [exact Ho|]. destruct (blocks_published_once true demo_node _ n3 Ho) as (ps & Hp & _ & Hs).
  assert (waiting n3 = []) as Hw by (vm_compute; reflexivity). split; [|exact Hw].
  specialize (Hs eq_refl). rewrite Hw, app_nil_r in Hs. rewrite Hp, Hs. reflexivity.
Defined.

(** The bus refuses the header of block 2 the first time. *)
Definition demo_bad_bus : Env :=
  demo_env_with (Ok tt)
    (fun e => match e with
     | PublishNewBlockHeader h => if hdr_Height h =? 2 then Err (ErrText "bus") else Ok tt
     | _ => Ok tt end)
    demo_genesis_doc 2 (always true) (always false).

Lemma failed_release_repeats_witness :
  let n1 := (SetFinal (E := demo_bad_bus) 2 demo_stacked).1 in
  let n2 := (SetFinal (E := demo_env 2 (always true) (always false)) 2 n1).1 in
  (exists c, published n2 = published demo_stacked ++ [1; 2] ++ take c [1; 2]) /\
  published n2 = [1; 2; 1; 2].
Proof.
  cbv zeta. split; [|vm_compute; reflexivity].
  destruct (failed_release_repeats demo_bad_bus (demo_env 2 (always true) (always false)) demo_stacked 2
    (SetFinal (E := demo_bad_bus) 2 demo_stacked).1
    (ErrWrap "fire events" (ErrWrap "publish new block header event" (ErrText "bus")))
    (SetFinal (E := demo_env 2 (always true) (always false)) 2
      (SetFinal (E := demo_bad_bus) 2 demo_stacked).1).1) as (k & c & Hkc & Hp1 & Hp2 & _).
  - vm_compute. reflexivity.
  - vm_compute. reflexivity.
  - reflexivity.
  - reflexivity.
  - exists c. assert (take k (waiting demo_stacked) = [1; 2]) as Hk.
    { vm_compute in Hp1. exact (eq_sym Hp1). }
    rewrite Hp2, Hk. reflexivity.
Defined.
