(* ===== verification/FailureProps.v ===== *)
(** * Executions that fail

    An execution writes the store at three points: the state, then, after the
    application has committed, the block ID, and at last the response.  What a
    failed execution leaves behind depends on the point it reached; nothing is
    rolled back. *)

From Stdlib Require Import ZArith Lia.
From stdpp Require Import base gmap strings list pretty.
From S2P Require Import Prelude Bitmap Comet Store Cometcompat MempoolIDs Adapter StoreProps.
From S2P Require Import AdapterDemo AdapterProps StackProps ExecuteProps ChainProps PublishProps.

Open Scope Z_scope.

(** ** Triples

    From a state in [P] an operation ends with a value in [Q], or it fails in
    [K]. *)
Definition triple {S A} (P : S -> Prop) (m : M S A) (Q : A -> S -> Prop) (K : S -> Prop) : Prop :=
  forall s, P s -> match m s with (s', Ok a) => Q a s' | (s', _) => K s' end.

Section triple.
Context {S : Type}.
Implicit Types (P K : S -> Prop).

Lemma triple_bind {A B} P (m : M S A) Q (k : A -> M S B) R K :
  triple P m Q K -> (forall a, triple (Q a) (k a) R K) -> triple P (m ≫= k) R K.
Proof.
  intros Hm Hk s Hs. rewrite run_bind. specialize (Hm s Hs).
  destruct (m s) as [s' [a|e|t]]; [by apply Hk|done|done].
Qed.

(** Reading and outcomes that are known beforehand leave the state. *)
Lemma triple_lift {A} P (r : outcome A) (Q : A -> S -> Prop) K :
  (forall s a, P s -> r = Ok a -> Q a s) -> (forall s, P s -> K s) -> triple P (lift r) Q K.
Proof. intros HQ HK s Hs. rewrite run_lift. destruct r; eauto. Qed.
Lemma triple_gets {A} P (f : S -> A) K : triple P (gets f) (fun a s => P s /\ a = f s) K.
Proof. intros s Hs. by rewrite run_gets. Qed.
Lemma triple_wrap {A} P t (m : M S A) Q K : triple P m Q K -> triple P (wrap_err t m) Q K.
Proof.
  intros Hm s Hs. rewrite run_wrap_err. specialize (Hm s Hs). by destruct (m s) as [s' [a|e|t']].
Qed.
Lemma triple_fail {A} P e (Q : A -> S -> Prop) K : (forall s, P s -> K s) -> triple P (fail e) Q K.
Proof. intros HK s Hs. by apply HK. Qed.
Lemma triple_preserves {A} P (m : M S A) : preserves P m -> triple P m (fun _ => P) P.
Proof. intros Hm s Hs. specialize (Hm s Hs). by destruct (m s) as [s' [a|e|t]]. Qed.
Lemma triple_weaken {A} (P P' : S -> Prop) (m : M S A) (Q Q' : A -> S -> Prop) K K' :
  triple P m Q K -> (forall s, P' s -> P s) -> (forall a s, Q a s -> Q' a s) ->
  (forall s, K s -> K' s) -> triple P' m Q' K'.
Proof.
  intros Hm HP HQ HK s Hs. specialize (Hm s (HP s Hs)). destruct (m s) as [s' [a|e|t]]; auto.
Qed.
Lemma triple_pure {A} P (phi : Prop) (m : M S A) Q K :
  (phi -> triple P m Q K) -> triple (fun s => P s /\ phi) m Q K.
Proof. intros Hm s [Hs Hphi]. by apply (Hm Hphi s). Qed.
End triple.

Section failure.
Context `{SL : StoreCodecLaws} {E : Env}.

(** ** The three phases

    [d0]: the datastore before the execution; [ps] and [ws]: what was published
    and what waited.  A node in the second phase has the state of the block and
    nothing else of it; in the third the block ID, too, and possibly the
    response. *)
Section phases.
Context (d0 : datastore) (ps ws : list Z) (h : Z).

Definition nothing_stored (n : Node) : Prop :=
  node_db n = d0 /\ published n = ps /\ waiting n = ws.

Definition state_stored (s' : CmtState) (n : Node) : Prop :=
  SaveState s' d0 = Ok (node_db n) /\ published n = ps /\ waiting n = ws.

(** The datastore with the state and the block ID. *)
Definition with_id (s' : CmtState) (id : BlockID) (d2 : datastore) : Prop :=
  exists d1, SaveState s' d0 = Ok d1 /\ SaveBlockID h id d1 = Ok d2.

Definition id_stored (s' : CmtState) (id : BlockID) (n : Node) : Prop :=
  exists d2, with_id s' id d2 /\
    (node_db n = d2 \/ exists r, SaveBlockResponse h r d2 = Ok (node_db n)).

(** Where a failed execution may have stopped. *)
Definition stopped (n : Node) : Prop :=
  nothing_stored n \/
  exists s', st_LastBlockHeight s' = i64 h /\ (state_stored s' n \/ exists id, id_stored s' id n).

Lemma quiet_preserves {A} (m : M Node A) (P : datastore -> Prop) :
  preserves (fun n => P (node_db n)) m -> tells no_block m -> keeps m ->
  preserves (fun n => P (node_db n) /\ published n = ps /\ waiting n = ws) m.
Proof.
  intros Hd Ht Hk n (Hn & Hp & Hw). split; [by apply Hd|].
  destruct (tells_keeps m n (m n).1 (m n).2 Ht Hk (surjective_pairing _)) as [-> ->]. done.
Qed.

Lemma quiet_call e : no_block e -> preserves nothing_stored (call e).
Proof.
  intros He. apply (quiet_preserves _ (fun d => d = d0)); [apply (db_call (fun d => d = d0))|by apply tells_call|apply keeps_call].
Qed.

Lemma alloc_preserves r : preserves nothing_stored (alloc r).
Proof. intros n Hn. exact Hn. Qed.

(** Saving the state. *)
Lemma save_state_triple s' :
  triple nothing_stored (wrap_err "save state" (update_db (SaveState s')))
    (fun _ => state_stored s') nothing_stored.
Proof.
  intros n (Hd & Hp & Hw). rewrite run_wrap_err. unfold update_db. run. rewrite Hd.
  destruct (SaveState s' d0) as [d| |] eqn:Hs; run; [|done..]. split_and!; [done|exact Hp|exact Hw].
Qed.

Lemma commit_triple s' txs rs :
  triple (state_stored s') (commit_block h txs rs) (fun _ => state_stored s') (state_stored s').
Proof.
  apply triple_preserves, (quiet_preserves _ (fun d => SaveState s' d0 = Ok d));
    [apply (db_commit_block (fun d => SaveState s' d0 = Ok d))|apply tells_commit_block|apply keeps_commit_block].
Qed.

Lemma save_id_triple s' txs lc ah :
  triple (state_stored s') (save_block_ID s' txs h lc ah) (fun b n => with_id s' b.2 (node_db n))
    (state_stored s').
Proof.
  unfold save_block_ID. eapply triple_bind.
  { apply (triple_lift _ _ (fun _ => state_stored s')); auto. }
  intros p. eapply triple_bind.
  { apply triple_wrap, (triple_lift _ _ (fun _ => state_stored s')); auto. }
  intros parts n Hn. rewrite run_bind, run_wrap_err. unfold update_db. run.
  destruct (SaveBlockID h _ (node_db n)) as [d| |] eqn:Hs; run; [|done..].
  destruct Hn as (Hd & _). by exists (node_db n).
Qed.

(** Saving the response: at most once. *)
Definition response_stored (d2 : datastore) (n : Node) : Prop :=
  node_db n = d2 \/ exists r, SaveBlockResponse h r d2 = Ok (node_db n).

Lemma save_response_triple d2 r :
  triple (fun n => node_db n = d2) (wrap_err "save block response" (update_db (SaveBlockResponse h r)))
    (fun _ => response_stored d2) (response_stored d2).
Proof.
  intros n Hd. rewrite run_wrap_err. unfold update_db. run. rewrite Hd.
  destruct (SaveBlockResponse h r d2) as [d| |] eqn:Hs; run; [|by left..]. right. by exists r.
Qed.

Lemma publish_triple d2 header block id a us :
  triple (fun n => node_db n = d2) (publish_or_stack header h block id a us)
    (fun _ => response_stored d2) (response_stored d2).
Proof.
  assert (forall r0 : nat, triple (fun n => node_db n = d2) (deref r0) (fun _ n => node_db n = d2)
    (response_stored d2)) as Hderef.
  { intros r0. eapply triple_weaken; [apply triple_preserves, (db_deref (fun d => d = d2))|auto|auto|by left]. }
  unfold publish_or_stack. destruct (IsPublishable _).
  - eapply triple_bind; [apply Hderef|]. intros r. eapply triple_bind; [apply save_response_triple|].
    intros []. apply triple_wrap, triple_preserves.
    apply (db_fireEvents (fun d => d = d2 \/ exists r, SaveBlockResponse h r d2 = Ok d)).
  - do 2 (apply (triple_bind _ _ (fun _ n => node_db n = d2)); [by intros n Hn|intros []]).
    eapply triple_bind; [apply Hderef|]. intros r. apply save_response_triple.
Qed.
End phases.

Lemma next_state_height s h r us s' : next_state s h r us = Ok s' -> st_LastBlockHeight s' = i64 h.
Proof.
  unfold next_state. intros (v & _ & ([p l] & _ & [= <-])%outcome_bind_ok)%outcome_bind_ok. done.
Qed.

(** A stage before the state is saved: it stops with nothing stored. *)
Ltac unsaved N :=
  eapply triple_bind;
  [ first
    [ apply (triple_lift _ _ (fun _ => N)); [by auto|by left]
    | apply triple_wrap, (triple_lift _ _ (fun _ => N)); [by auto|by left]
    | eapply triple_weaken; [apply triple_preserves, quiet_call; done|by auto|by auto|by left]
    | eapply triple_weaken; [apply triple_preserves, alloc_preserves|by auto|by auto|by left] ]
  | intros ? ].

Lemma ExecuteTxs_triple n txs h t :
  triple (nothing_stored (node_db n) (published n) (waiting n)) (ExecuteTxs txs h t) (fun _ _ => True)
    (stopped (node_db n) (published n) (waiting n) h).
Proof.
  set (N := nothing_stored (node_db n) (published n) (waiting n)). unfold ExecuteTxs.
  eapply triple_bind; [eapply triple_weaken; [apply triple_gets|by auto| |by left]|].
  { intros db m [Hm _]. exact Hm. }
  intros db. do 7 unsaved N.
  destruct (negb _); [by apply triple_fail; left|]. do 5 unsaved N.
  eapply (triple_bind _ _ (fun s' m => N m /\ st_LastBlockHeight s' = i64 h)).
  { apply triple_lift; [|by left]. intros m s' Hm Hs. split; [exact Hm|by eapply next_state_height]. }
  intros s'. apply triple_pure. intros Hs.
  eapply triple_bind; [eapply triple_weaken; [apply save_state_triple|by auto|by auto|by left]|].
  intros []. eapply triple_bind; [eapply triple_weaken; [apply (commit_triple (node_db n) (published n) (waiting n) h s')|by auto|by auto|]|].
  { intros m Hm. right. exists s'. auto. }
  intros []. eapply triple_bind; [eapply triple_weaken; [apply (save_id_triple (node_db n) (published n) (waiting n) h s')|by auto|by auto|]|].
  { intros m Hm. right. exists s'. auto. }
  intros [block id]. apply (triple_bind _ _ (fun _ _ => True)); [|by intros [] m].
  intros m Hm.
  match goal with |- context [publish_or_stack ?hd ?hh ?b ?i ?a ?us m] =>
    pose proof (publish_triple h (node_db m) hd b i a us m eq_refl) as Hp;
    destruct (publish_or_stack hd hh b i a us m) as [m' [[]|e|x]]; [exact I|..] end.
  - right. exists s'. split; [done|]. right. exists id, (node_db m). by split.
  - right. exists s'. split; [done|]. right. exists id, (node_db m). by split.
Qed.

(** *** What the store answers then *)

Lemma state_stored_answers d0 ps ws s' n :
  state_stored d0 ps ws s' n ->
  LoadState (node_db n) = Ok (stored_state s') /\ forall k, GetBlockID (node_db n) k = GetBlockID d0 k.
Proof.
  intros (Hd & _). split; [by apply (LoadState_Save _ d0)|].
  by apply (ids_state _ s' d0 _ (fun k => eq_refl)).
Qed.

Lemma id_stored_answers d0 h s' id n :
  id_stored d0 h s' id n -> LoadState (node_db n) = Ok (stored_state s') /\ GetBlockID (node_db n) h = Ok id.
Proof.
  intros (d2 & (d1 & H1 & H2) & Hn).
  assert (LoadState d2 = Ok (stored_state s') /\ GetBlockID d2 h = Ok id) as [Hs Hid].
  { split; [|by eapply GetBlockID_Save]. apply SaveBlockID_inv in H2 as (d & _ & ->).
    rewrite LoadState_Put_other by done. by eapply LoadState_Save. }
  destruct Hn as [->|(r & (d & _ & ->)%SaveBlockResponse_inv)]; [done|].
  by rewrite LoadState_Put_other, GetBlockID_Put_other.
Qed.
End failure.

Section failed_execution.
Context `{SL : StoreCodecLaws}.

(** The next height needs the block ID of this one. *)
Lemma no_block_ID_no_execution (E : Env) n h txs t e :
  GetBlockID (node_db n) h = Err e -> 1 <= h ->
  forall n' r, ExecuteTxs txs (h + 1) t n <> (n', Ok r).
Proof.
  intros Hid Hh n' r Hx.
  apply ExecuteTxs_stages in Hx as (header & lc & ah & resp & us & s' & b & pp & fb & n1 & n2 & n3 & n4 & Hx).
  pose proof (ex_commit _ _ _ _ _ _ _ _ _ _ _ _ _ _ _ _ _ _ Hx) as Hc. unfold GetLastCommit in Hc.
  destruct (Z.ltb_spec 1 (h + 1)); [|lia]. rewrite Z.add_simpl_r in Hc.
  apply outcome_bind_ok in Hc as (sh & _ & (id & Hw & _)%outcome_bind_ok).
  by rewrite Hid in Hw.
Qed.

(** C30: What a failed execution leaves behind.  Either the store is as it was.
    Or the node has moved to the state of the block without the application
    having committed it, or without its block ID: nothing was published or
    stacked, and unless a block ID was there before, no execution of the next
    height can succeed, whatever the environment does.  Or the block ID is
    stored as well.  A state that was saved is not taken back. *)
Theorem failed_execution (E : Env) txs h t n n' r :
  ExecuteTxs txs h t n = (n', r) -> (forall v, r <> Ok v) ->
  node_db n' = node_db n \/
  exists s', LoadState (node_db n') = Ok s' /\ st_LastBlockHeight s' = i64 h /\
    ((published n' = published n /\ waiting n' = waiting n /\
      forall (E' : Env) e txs' t', 1 <= h -> GetBlockID (node_db n) h = Err e ->
        forall n'' v, ExecuteTxs (E := E') txs' (h + 1) t' n' <> (n'', Ok v)) \/
     exists id, GetBlockID (node_db n') h = Ok id).
Proof.
  intros H Hr. pose proof (ExecuteTxs_triple n txs h t n) as HT. rewrite H in HT.
  assert (stopped (node_db n) (published n) (waiting n) h n') as Hstop.
  { destruct r as [v|e|x]; [by destruct (Hr v)|by apply HT..]. }
  destruct Hstop as [(Hd & _)|(s' & Hh & [Hst|(id & Hid)])]; [by left|right; exists (stored_state s'); rewrite stored_state_height..].
  - destruct (state_stored_answers _ _ _ _ _ Hst) as [HL Hids]. destruct Hst as (_ & Hp & Hw).
    do 2 (split; [done|]). left. do 2 (split; [done|]). intros E' e txs' t' Hh1 Hnone.
    apply (no_block_ID_no_execution E' n' h txs' t' e); [by rewrite Hids|done].
  - destruct (id_stored_answers _ _ _ _ _ Hid) as [HL Hg]. eauto.
Qed.
End failed_execution.

(** *** A commit that fails *)

(** The application refuses to commit block 1. *)
Definition demo_no_commit : Env :=
  demo_env_with (Err (ErrText "commit")) (fun _ => Ok tt) demo_genesis_doc 1 (always false) (always false).

(** The node moves to height 1 all the same, and height 2 is out of reach. *)
Lemma failed_execution_witness :
  let n' := (ExecuteTxs (E := demo_no_commit) [[1]] 1 (mkTime 5 0) demo_node).1 in
  (exists s', LoadState (node_db n') = Ok s' /\ st_LastBlockHeight s' = 1) /\
  forall (E' : Env) txs t n'' v, ExecuteTxs (E := E') txs 2 t n' <> (n'', Ok v).
Proof.
  intros n'.
  assert (ExecuteTxs (E := demo_no_commit) [[1]] 1 (mkTime 5 0) demo_node = (n', Err (ErrText "commit"))) as Hx.
  { vm_compute. reflexivity. }
  destruct (failed_execution demo_no_commit [[1]] 1 (mkTime 5 0) demo_node n' _ Hx) as
    [Hd|(s' & HL & Hh & [(_ & _ & Hno)|(id & Hid)])]; [discriminate|..].
  - exfalso. apply (f_equal (fun db => s ← LoadState db; Ok (st_LastBlockHeight s))) in Hd.
    vm_compute in Hd. discriminate Hd.
  - split; [exists s'; split; [exact HL|rewrite Hh; reflexivity]|]. intros E' txs t.
    assert (exists e, GetBlockID (node_db demo_node) 1 = Err e) as [e He] by (eexists; vm_compute; reflexivity).
    exact (Hno E' e txs t ltac:(lia) He).
  - exfalso. vm_compute in Hid. discriminate Hid.
Defined.
