(* ===== verification/RpcMempool.v ===== *)
(** * Transactions and subscriptions over RPC ([pkg/rpc/core/mempool.go], [events.go])

    The mempool, the gossip topic and the event bus are CometBFT's and libp2p's:
    a call to them is an entry of the log, in the order of the calls, and its
    answer is given by [MempoolEnv].  What a [select] sees first is an answer
    too. *)

From Stdlib Require Import ZArith Lia.
From stdpp Require Import base gmap strings list pretty.
From S2P Require Import Prelude Bitmap Comet Store Cometcompat MempoolIDs Adapter.

Open Scope Z_scope.

Record ResponseCheckTx : Type := mkResponseCheckTx {
  ctx_Code : Z;
  ctx_Data : bytes;
  ctx_Log : string;
  ctx_Codespace : string
}.

Record ResultBroadcastTx : Type := mkResultBroadcastTx {
  bt_Code : Z;
  bt_Data : bytes;
  bt_Log : string;
  bt_Codespace : string;
  bt_Hash : bytes
}.

Definition zero_ExecTxResult : ExecTxResult := mkExecTxResult 0 [] "".

Record ResultBroadcastTxCommit : Type := mkResultBroadcastTxCommit {
  btc_CheckTx : ResponseCheckTx;
  btc_TxResult : ExecTxResult;
  btc_Hash : bytes;
  btc_Height : Z
}.

Record ResultUnconfirmedTxs : Type := mkResultUnconfirmedTxs {
  ut_Count : Z;
  ut_Total : Z;
  ut_TotalBytes : Z;
  ut_Txs : list bytes
}.

(** The wait for the answer of [CheckTx], and for the transaction's event. *)
Inductive check_wait : Type :=
| CheckResponse (res : ResponseCheckTx)
| CheckCtxDone (err : error).

Inductive deliver_wait : Type :=
| DeliverMsg (data : option (ExecTxResult * Z))   (* [None]: not an [EventDataTx] *)
| DeliverCanceled (err : option error)
| DeliverTimeout
| DeliverCtxDone (err : error).

Inductive RpcCall : Type :=
| MempoolCheckTx (tx : bytes)
| GossiperPublish (tx : bytes)
| MempoolRemoveTxByKey (key : bytes)
| BusSubscribe (subscriber query : string)
| BusUnsubscribe (subscriber query : string)
| BusUnsubscribeAll (subscriber : string).

Abbreviation Log := (list RpcCall).

Class MempoolEnv : Type := {
  Mempool_CheckTx : bytes -> outcome unit;
  Mempool_Response : bytes -> check_wait;
  Mempool_RemoveTxByKey : bytes -> outcome unit;
  Mempool_ReapAll : list bytes;                 (* [ReapMaxTxs(-1)] *)
  Mempool_Size : Z;
  Mempool_SizeBytes : Z;
  TxGossiper_Publish : bytes -> outcome unit;
  tx_Key : bytes -> bytes;
  tx_hash : bytes -> bytes;
  (** [cmttypes.EventQueryTxFor], and [cmtquery.New] with the query's text. *)
  EventQueryTxFor : bytes -> string;
  cmtquery_New : string -> outcome string;
  EventBus_NumClients : Z;
  EventBus_NumClientSubscriptions : string -> Z;
  EventBus_Subscribe : string -> string -> outcome unit;
  EventBus_Unsubscribe : string -> string -> outcome unit;
  EventBus_UnsubscribeAll : string -> outcome unit;
  deliverTx : deliver_wait
}.

(** [env.Config]: what the subscriptions read. *)
Record RPCConfig : Type := mkRPCConfig {
  MaxSubscriptionClients : Z;
  MaxSubscriptionsPerClient : Z;
  CloseOnSlowClient : bool
}.

Section mempool.
Context `{ME : MempoolEnv}.

Definition record (c : RpcCall) : M Log unit := modify (fun l => l ++ [c]).
Definition logged {A} (c : RpcCall) (r : outcome A) : M Log A := record c ;; lift r.

(** The call's error is only logged. *)
Definition ignore_err (m : M Log unit) : M Log unit := fun l =>
  match m l with (l', Err _) => (l', Ok tt) | r => r end.

(** Run [m], then the deferred call, whatever the outcome of [m]; an error of
    the deferred call is only logged. *)
Definition deferring {A} (d : M Log unit) (m : M Log A) : M Log A := fun l =>
  let '(l', r) := m l in
  match ignore_err d l' with (l'', Panic t) => (l'', Panic t) | (l'', _) => (l'', r) end.

(** Publish; when it fails, take the transaction out of the mempool again. *)
Definition gossip_or_remove (text : string) (tx : bytes) : M Log unit := fun l =>
  match logged (GossiperPublish tx) (TxGossiper_Publish tx) l with
  | (l', Err e) =>
      (ignore_err (logged (MempoolRemoveTxByKey (tx_Key tx)) (Mempool_RemoveTxByKey (tx_Key tx))) ;;
       fail (ErrWrap text e)) l'
  | r => r
  end.

Definition BroadcastTxAsync (tx : bytes) : M Log ResultBroadcastTx :=
  wrap_err "error during CheckTx" (logged (MempoolCheckTx tx) (Mempool_CheckTx tx)) ;;
  gossip_or_remove "tx added to local mempool but failed to gossip" tx ;;
  mret {| bt_Code := 0; bt_Data := []; bt_Log := ""; bt_Codespace := ""; bt_Hash := tx_hash tx |}.

Definition BroadcastTxSync (tx : bytes) : M Log ResultBroadcastTx :=
  logged (MempoolCheckTx tx) (Mempool_CheckTx tx) ;;
  match Mempool_Response tx with
  | CheckResponse res =>
      (if ctx_Code res =? CodeTypeOK then gossip_or_remove "failed to gossip tx" tx else mret tt) ;;
      mret {| bt_Code := ctx_Code res; bt_Data := ctx_Data res; bt_Log := ctx_Log res;
              bt_Codespace := ctx_Codespace res; bt_Hash := tx_hash tx |}
  | CheckCtxDone e => fail (ErrWrap "context finished while waiting for CheckTx result" e)
  end.

(** A result may come with an error. *)
Definition commit_result (res : ResponseCheckTx) (result : ExecTxResult) (tx : bytes) (height : Z)
    (err : option error) : ResultBroadcastTxCommit * option error :=
  (mkResultBroadcastTxCommit res result (tx_hash tx) height, err).

Definition wait_for_commit (res : ResponseCheckTx) (tx : bytes) :
    outcome (ResultBroadcastTxCommit * option error) :=
  match deliverTx with
  | DeliverMsg (Some (result, height)) => Ok (commit_result res result tx height None)
  | DeliverMsg None => Panic "interface conversion"
  | DeliverCanceled _ =>
      Ok (commit_result res zero_ExecTxResult tx 0 (Some (ErrText "deliverTxSub was cancelled")))
  | DeliverTimeout =>
      Ok (commit_result res zero_ExecTxResult tx 0
            (Some (ErrText "timed out waiting for tx to be included in a block")))
  | DeliverCtxDone e =>
      Ok (commit_result res zero_ExecTxResult tx 0
            (Some (ErrWrap "context cancelled while waiting for tx commit event" e)))
  end.

Definition maxSubs : Z := 100.
Definition maxClients : Z := 100.

Definition BroadcastTxCommit (tx : bytes) : M Log (ResultBroadcastTxCommit * option error) :=
  let subscriber := ""%string in
  if maxClients <=? EventBus_NumClients then fail (ErrText "max_subscription_clients reached")
  else if maxSubs <=? EventBus_NumClientSubscriptions subscriber
  then fail (ErrText "max_subscriptions_per_client reached")
  else
    let q := EventQueryTxFor tx in
    wrap_err "failed to subscribe to tx"
      (logged (BusSubscribe subscriber q) (EventBus_Subscribe subscriber q)) ;;
    deferring (logged (BusUnsubscribe subscriber q) (EventBus_Unsubscribe subscriber q)) (
      wrap_err "error on broadcastTxCommit" (logged (MempoolCheckTx tx) (Mempool_CheckTx tx)) ;;
      match Mempool_Response tx with
      | CheckCtxDone e => fail (ErrWrap "context finished while waiting for CheckTx result" e)
      | CheckResponse res =>
          if negb (ctx_Code res =? CodeTypeOK)
          then mret (commit_result res zero_ExecTxResult tx 0 None)
          else
            wrap_err "tx added to local mempool but failure to broadcast"
              (logged (GossiperPublish tx) (TxGossiper_Publish tx)) ;;
            lift (wait_for_commit res tx)
      end).

Definition UnconfirmedTxs (limitPtr : option Z) : outcome ResultUnconfirmedTxs :=
  let txs := Mempool_ReapAll in
  let limit := Z.of_nat (length txs) in
  let limit := match limitPtr with
               | None => limit
               | Some l => let limit := Z.min l limit in if limit <? 0 then 0 else limit
               end in
  paginatedTxs ← slice txs 0 limit;
  Ok {| ut_Count := Z.of_nat (length paginatedTxs); ut_Total := Mempool_Size;
        ut_TotalBytes := Mempool_SizeBytes; ut_Txs := paginatedTxs |}.

Definition NumUnconfirmedTxs : outcome ResultUnconfirmedTxs :=
  Ok {| ut_Count := Mempool_Size; ut_Total := Mempool_Size;
        ut_TotalBytes := Mempool_SizeBytes; ut_Txs := [] |}.

Definition Rpc_CheckTx (tx : bytes) : M Log ResponseCheckTx :=
  wrap_err "error submitting tx to mempool CheckTx"
    (logged (MempoolCheckTx tx) (Mempool_CheckTx tx)) ;;
  match Mempool_Response tx with
  | CheckResponse res => mret res
  | CheckCtxDone e => fail (ErrWrap "context cancelled while waiting for CheckTx response" e)
  end.

(** ** Subscriptions *)

Definition maxQueryLength : Z := 512.

(** The synchronous part; on success the pump below runs. *)
Definition Subscribe (config : RPCConfig) (addr query : string) : M Log unit :=
  if MaxSubscriptionClients config <=? EventBus_NumClients
  then fail (ErrText "max_subscription_clients reached")
  else if MaxSubscriptionsPerClient config <=? EventBus_NumClientSubscriptions addr
  then fail (ErrText "max_subscriptions_per_client reached")
  else if maxQueryLength <? Z.of_nat (String.length query)
  then fail (ErrText "maximum query length exceeded")
  else
    q ← wrap_err "failed to parse query" (lift (cmtquery_New query));
    logged (BusSubscribe addr q) (EventBus_Subscribe addr q).

Definition Unsubscribe (addr query : string) : M Log unit :=
  q ← wrap_err "failed to parse query" (lift (cmtquery_New query));
  logged (BusUnsubscribe addr q) (EventBus_Unsubscribe addr q).

Definition UnsubscribeAll (addr : string) : M Log unit :=
  logged (BusUnsubscribeAll addr) (EventBus_UnsubscribeAll addr).
End mempool.

(** The goroutine of a subscription: what it sees, and what it writes to the
    socket. *)
Inductive sub_event : Type :=
| SubMsg (data : bytes) (written : bool)
| SubCanceled (err : option error).

Inductive ws_write : Type :=
| WsEvent (data : bytes)
| WsServerError (err : error).

Definition ErrUnsubscribed : string := "pubsub.ErrUnsubscribed".

Definition cancel_reason (err : option error) : error :=
  match err with
  | None => ErrText "subscription was canceled (reason: CometBFT exited)"
  | Some _ => ErrText "subscription was canceled (reason: the subscription's error)"
  end.

(** The writes it attempts, and whether it still runs after these events. *)
Fixpoint pump (closeIfSlow : bool) (events : list sub_event) : list ws_write * bool :=
  match events with
  | [] => ([], true)
  | SubMsg data written :: events' =>
      if negb written && closeIfSlow
      then ([WsEvent data;
             WsServerError (ErrText "subscription was canceled (reason: slow client)")], false)
      else let '(ws, running) := pump closeIfSlow events' in (WsEvent data :: ws, running)
  | SubCanceled err :: _ =>
      if match err with Some e => errors_Is e ErrUnsubscribed | None => false end
      then ([], false)
      else ([WsServerError (cancel_reason err)], false)
  end.
