(* ===== verification/RpcMempoolProps.v ===== *)
(** * Theorems about broadcasting and subscriptions *)

From Stdlib Require Import ZArith Lia.
From stdpp Require Import base gmap strings list pretty.
From S2P Require Import Prelude Bitmap Comet Store Cometcompat MempoolIDs Adapter RpcMempool.

Open Scope Z_scope.

Section broadcast.
Context `{ME : MempoolEnv}.

Lemma logged_run {A} c (r : outcome A) l : logged c r l = (l ++ [c], r).
Proof. reflexivity. Qed.

Lemma gossip_or_remove_ok text tx l :
  TxGossiper_Publish tx = Ok tt -> gossip_or_remove text tx l = (l ++ [GossiperPublish tx], Ok tt).
Proof. intros H. unfold gossip_or_remove. by rewrite logged_run, H. Qed.

Lemma gossip_or_remove_err text tx e l :
  TxGossiper_Publish tx = Err e -> (forall t, Mempool_RemoveTxByKey (tx_Key tx) <> Panic t) ->
  gossip_or_remove text tx l =
    (l ++ [GossiperPublish tx; MempoolRemoveTxByKey (tx_Key tx)], Err (ErrWrap text e)).
Proof.
  intros H Hp. unfold gossip_or_remove. rewrite logged_run, H, run_bind.
  unfold ignore_err. rewrite logged_run, <- app_assoc. cbn.
  destruct (Mempool_RemoveTxByKey (tx_Key tx)) eqn:E; [destruct a; done|done|].
  by destruct (Hp text0).
Qed.

Hint Rewrite @logged_run : run.

(** A deferred call always happens, and its error does not show. *)
Lemma deferring_run {A} c (d : outcome unit) (m : M Log A) l l' r :
  m l = (l', r) ->
  deferring (logged c d) m l = (l' ++ [c], match d with Panic t => Panic t | _ => r end).
Proof. intros H. unfold deferring, ignore_err. rewrite H, logged_run. by destruct d as [[]|e|t]. Qed.

(** The subscriptions that the bus has, after a sequence of calls: a call that
    it refuses changes nothing. *)
Definition bus_step (live : gset (string * string)) (c : RpcCall) : gset (string * string) :=
  match c with
  | BusSubscribe s q => if is_ok (EventBus_Subscribe s q) then {[(s, q)]} ∪ live else live
  | BusUnsubscribe s q => if is_ok (EventBus_Unsubscribe s q) then live ∖ {[(s, q)]} else live
  | BusUnsubscribeAll s =>
      if is_ok (EventBus_UnsubscribeAll s) then filter (fun p => p.1 <> s) live else live
  | _ => live
  end.
Definition subscriptions (l : Log) : gset (string * string) := foldl bus_step ∅ l.

(** A subscription for the transaction is possible. *)
Record may_subscribe (tx : bytes) : Prop := {
  sub_clients : EventBus_NumClients < maxClients;
  sub_subs : EventBus_NumClientSubscriptions "" < maxSubs;
  sub_ok : EventBus_Subscribe "" (EventQueryTxFor tx) = Ok tt
}.

(** When the mempool accepts a transaction but gossiping it fails, the
    three broadcasts answer with an error; the asynchronous and the synchronous
    one take the transaction out of the mempool again, so that it can be sent
    once more, but the committing one leaves it there (and asks the
    bus to end its subscription). *)
Theorem gossip_failure tx res e l :
  Mempool_CheckTx tx = Ok tt -> Mempool_Response tx = CheckResponse res ->
  ctx_Code res = CodeTypeOK -> TxGossiper_Publish tx = Err e ->
  (forall t, Mempool_RemoveTxByKey (tx_Key tx) <> Panic t) -> may_subscribe tx ->
  (forall t, EventBus_Unsubscribe "" (EventQueryTxFor tx) <> Panic t) ->
  let removing := [MempoolCheckTx tx; GossiperPublish tx; MempoolRemoveTxByKey (tx_Key tx)] in
  let q := EventQueryTxFor tx in
  BroadcastTxAsync tx l = (l ++ removing,
    Err (ErrWrap "tx added to local mempool but failed to gossip" e)) /\
  BroadcastTxSync tx l = (l ++ removing, Err (ErrWrap "failed to gossip tx" e)) /\
  BroadcastTxCommit tx l =
    (l ++ [BusSubscribe "" q; MempoolCheckTx tx; GossiperPublish tx; BusUnsubscribe "" q],
     Err (ErrWrap "tx added to local mempool but failure to broadcast" e)).
Proof.
  intros Hc Hr Hok He Hp [H1 H2 H3] Hu removing q. split; [|split].
  - unfold BroadcastTxAsync. run. rewrite Hc. cbn [wrap_outcome].
    rewrite (gossip_or_remove_err _ _ e) by done.
    rewrite <- app_assoc. reflexivity.
  - unfold BroadcastTxSync. rewrite run_bind, logged_run, Hc, Hr, Hok. cbn [Z.eqb CodeTypeOK].
    rewrite run_bind, (gossip_or_remove_err _ _ e) by done. rewrite <- app_assoc. reflexivity.
  - unfold BroadcastTxCommit. destruct (Z.leb_spec maxClients EventBus_NumClients); [lia|].
    destruct (Z.leb_spec maxSubs (EventBus_NumClientSubscriptions "")); [lia|].
    rewrite run_bind, run_wrap_err, logged_run. cbn [fst snd]. rewrite H3. cbn [wrap_outcome].
    erewrite deferring_run.
    2: { rewrite run_bind, run_wrap_err, logged_run. cbn [fst snd]. rewrite Hc, Hr.
      cbn [wrap_outcome]. rewrite Hok. cbn [Z.eqb CodeTypeOK negb].
      rewrite run_bind, run_wrap_err, logged_run. cbn [fst snd]. rewrite He. reflexivity. }
    rewrite <- !app_assoc. destruct (EventBus_Unsubscribe _ _) eqn:E; [done..|]. by destruct (Hu text).
Qed.

(** What a committing broadcast does between subscribing and unsubscribing. *)
Definition commit_calls (tx : bytes) (r : outcome (ResultBroadcastTxCommit * option error))
    (mid : Log) : Prop :=
  (mid = [MempoolCheckTx tx] /\
     (forall c err, r = Ok (c, err) -> ctx_Code (btc_CheckTx c) <> CodeTypeOK /\ err = None)) \/
  (mid = [MempoolCheckTx tx; GossiperPublish tx] /\ Mempool_CheckTx tx = Ok tt /\
     (forall c, r = Ok (c, None) ->
        deliverTx = DeliverMsg (Some (btc_TxResult c, btc_Height c)) /\
        ctx_Code (btc_CheckTx c) = CodeTypeOK)).

(** The part between subscribing and unsubscribing. *)
Lemma commit_body_calls tx l l' r :
  (wrap_err "error on broadcastTxCommit" (logged (MempoolCheckTx tx) (Mempool_CheckTx tx)) ;;
   match Mempool_Response tx with
   | CheckCtxDone e => fail (ErrWrap "context finished while waiting for CheckTx result" e)
   | CheckResponse res =>
       if negb (ctx_Code res =? CodeTypeOK)
       then mret (commit_result res zero_ExecTxResult tx 0 None)
       else
         wrap_err "tx added to local mempool but failure to broadcast"
           (logged (GossiperPublish tx) (TxGossiper_Publish tx)) ;;
         lift (wait_for_commit res tx)
   end) l = (l', r) ->
  exists mid, l' = l ++ mid /\ commit_calls tx r mid.
Proof.
  rewrite run_bind, run_wrap_err, logged_run. cbn [fst snd].
  destruct (Mempool_CheckTx tx) as [[]| |] eqn:Hc; cbn [wrap_outcome].
  2,3: intros [= <- <-]; eexists; (split; [reflexivity|]); left; (split; [reflexivity|]); discriminate.
  destruct (Mempool_Response tx) as [res|e] eqn:Hr.
  2: { intros [= <- <-]. eexists. split; [reflexivity|]. left. split; [reflexivity|]. discriminate. }
  destruct (Z.eqb_spec (ctx_Code res) CodeTypeOK) as [Hok|Hok]; cbn [negb].
  2: { intros [= <- <-]. eexists. split; [reflexivity|]. left. split; [reflexivity|].
    unfold commit_result. intros c err [= <- <-]. done. }
  rewrite run_bind, run_wrap_err, logged_run. cbn [fst snd].
  destruct (TxGossiper_Publish tx) as [[]| |]; cbn [wrap_outcome]; rewrite ?run_lift;
    intros [= <- <-]; rewrite <- app_assoc; eexists; (split; [reflexivity|]); right;
    (split; [reflexivity|]); (split; [exact Hc|]); intros c; [|discriminate..].
  unfold wait_for_commit, commit_result. destruct deliverTx as [[[]|]| | |]; intros [= <-]; done.
Qed.

Lemma subscriptions_between tx r mid l q :
  commit_calls tx r mid ->
  subscriptions (l ++ mid ++ [BusUnsubscribe "" q]) =
    if is_ok (EventBus_Unsubscribe "" q) then subscriptions l ∖ {[(""%string, q)]} else subscriptions l.
Proof. unfold subscriptions. rewrite !foldl_app. by intros [[-> _]|[-> _]]. Qed.

(** C35: A committing broadcast always asks the bus to end its subscription:
    whatever happens after subscribing, its last call unsubscribes.  The
    subscription is gone exactly when the bus accepts this call: the handler
    only logs a refusal, and the subscription stays.  In between, the
    transaction is gossiped at most once and only after the mempool accepted
    it; and an answer without an error whose check passed is the result and the
    height of the transaction's event. *)
Theorem BroadcastTxCommit_calls tx l l' r :
  BroadcastTxCommit tx l = (l', r) ->
  let q := EventQueryTxFor tx in
  (l' = l /\ is_ok r = false) \/
  (l' = l ++ [BusSubscribe "" q] /\ is_ok r = false /\ is_ok (EventBus_Subscribe "" q) = false) \/
  (exists mid, l' = l ++ [BusSubscribe "" q] ++ mid ++ [BusUnsubscribe "" q] /\
     commit_calls tx r mid /\
     (("", q)%string ∈ subscriptions l' <-> is_ok (EventBus_Unsubscribe "" q) = false)).
Proof.
  intros H q. revert H. unfold BroadcastTxCommit. fold q. cbv zeta.
  destruct (maxClients <=? _); [intros [= <- <-]; by left|].
  destruct (maxSubs <=? _); [intros [= <- <-]; by left|].
  rewrite run_bind, run_wrap_err, logged_run. cbn [fst snd].
  destruct (EventBus_Subscribe "" q) as [[]| |] eqn:Hs; cbn [wrap_outcome];
    [|intros [= <- <-]; right; by left..].
  match goal with |- deferring _ ?m _ = _ -> _ => destruct (m (l ++ [BusSubscribe "" q])) as [l1 r1] eqn:Hm end.
  rewrite (deferring_run _ _ _ _ _ _ Hm). apply commit_body_calls in Hm as (mid & -> & Hmid).
  intros [= <- <-]. right. right. exists mid. rewrite <- !app_assoc. split; [done|]. split.
  { destruct (EventBus_Unsubscribe "" q); [done..|].
    destruct Hmid as [[-> _]|(-> & Hc & _)]; [left|right]; (split; [done|]); [|split; [done|]]; discriminate. }
  rewrite (app_assoc l), (subscriptions_between _ _ _ _ _ Hmid).
  assert (("", q)%string ∈ subscriptions (l ++ [BusSubscribe "" q])) as Hin.
  { unfold subscriptions. rewrite foldl_app. cbn. rewrite Hs. cbn. set_solver. }
  destruct (EventBus_Unsubscribe "" q); cbn; set_solver.
Qed.

(** [UnconfirmedTxs] answers the first transactions of the mempool, at most
    as many as the limit (none for a negative one), with their true count; it
    never panics. *)
Theorem UnconfirmedTxs_spec limitPtr :
  exists n, UnconfirmedTxs limitPtr = Ok {| ut_Count := Z.of_nat n; ut_Total := Mempool_Size;
      ut_TotalBytes := Mempool_SizeBytes; ut_Txs := take n Mempool_ReapAll |} /\
    (n <= length Mempool_ReapAll)%nat /\
    match limitPtr with
    | None => n = length Mempool_ReapAll
    | Some limit => Z.of_nat n = Z.max 0 (Z.min limit (Z.of_nat (length Mempool_ReapAll)))
    end.
Proof.
  unfold UnconfirmedTxs.
  set (limit := match limitPtr with None => _ | Some l => _ end).
  assert (0 <= limit <= Z.of_nat (length Mempool_ReapAll)) as Hl.
  { unfold limit. destruct limitPtr as [l|]; [|lia]. destruct (Z.ltb_spec (Z.min l (Z.of_nat (length Mempool_ReapAll))) 0); lia. }
  exists (Z.to_nat limit). unfold slice.
  destruct (Z.leb_spec 0 limit), (Z.leb_spec limit (Z.of_nat (length Mempool_ReapAll))); try lia.
  cbn. rewrite Z.sub_0_r, drop_0, length_take. split; [|split; [lia|]].
  - do 2 f_equal. lia.
  - unfold limit. destruct limitPtr as [l|]; [|lia].
    destruct (Z.ltb_spec (Z.min l (Z.of_nat (length Mempool_ReapAll))) 0); lia.
Qed.
End broadcast.

(** ** The pump of a subscription *)

Definition delivered (events : list sub_event) : list bytes :=
  omap (fun e => match e with SubMsg d _ => Some d | SubCanceled _ => None end) events.

(** The events a subscriber is shown are a prefix of those published, in their
    order; only the end of the subscription adds an error frame, and while it
    runs nothing is left out. *)
Theorem pump_spec closeIfSlow events ws running :
  pump closeIfSlow events = (ws, running) ->
  exists seen tail, ws = (WsEvent <$> seen) ++ tail /\ seen `prefix_of` delivered events /\
    (running = true -> tail = [] /\ seen = delivered events) /\
    (tail = [] \/ exists err, tail = [WsServerError err] /\ running = false).
Proof.
  revert ws running. induction events as [|[d w|err] events IH]; intros ws running; cbn [pump].
  - intros [= <- <-]. exists [], []. split_and!; auto.
  - destruct (negb w && closeIfSlow).
    + intros [= <- <-]. exists [d], [WsServerError (ErrText "subscription was canceled (reason: slow client)")].
      split_and!; [done|cbn; apply prefix_cons, prefix_nil|done|]. right. eauto.
    + destruct (pump closeIfSlow events) as [ws' running'] eqn:E. intros [= <- <-].
      destruct (IH _ _ eq_refl) as (seen & tail & -> & Hp & Hr & Ht).
      exists (d :: seen), tail. split_and!; [done|by apply prefix_cons| |done].
      intros H. destruct (Hr H) as [-> ->]. done.
  - case_match; intros [= <- <-].
    + exists [], []. split_and!; auto; [apply prefix_nil|done].
    + exists [], [WsServerError (cancel_reason err)]. split_and!; [done|apply prefix_nil|done|].
      right. eauto.
Qed.

(** ** A concrete node *)

#[global] Instance demo_mempool : MempoolEnv := {
  Mempool_CheckTx := fun _ => Ok tt;
  Mempool_Response := fun _ => CheckResponse (mkResponseCheckTx 0 [] "" "");
  Mempool_RemoveTxByKey := fun _ => Ok tt;
  Mempool_ReapAll := [[1]; [2]];
  Mempool_Size := 2;
  Mempool_SizeBytes := 2;
  TxGossiper_Publish := fun _ => Err (ErrText "no peers");
  tx_Key := fun tx => tx;
  tx_hash := fun tx => tx;
  EventQueryTxFor := fun _ => "tm.event='Tx'";
  cmtquery_New := fun q => Ok q;
  EventBus_NumClients := 0;
  EventBus_NumClientSubscriptions := fun _ => 0;
  EventBus_Subscribe := fun _ _ => Ok tt;
  EventBus_Unsubscribe := fun _ _ => Ok tt;
  EventBus_UnsubscribeAll := fun _ => Ok tt;
  deliverTx := DeliverTimeout
}.

Lemma gossip_failure_witness :
  (BroadcastTxSync [7] []).1 = [MempoolCheckTx [7]; GossiperPublish [7]; MempoolRemoveTxByKey [7]] /\
  MempoolRemoveTxByKey [7] ∉ (BroadcastTxCommit [7] []).1.
Proof.
  destruct (gossip_failure [7] (mkResponseCheckTx 0 [] "" "") (ErrText "no peers") [])
    as (_ & H2 & H3).
  - reflexivity.
  - reflexivity.
  - reflexivity.
  - reflexivity.
  - intros t. discriminate.
  - split; reflexivity.
  - intros t. discriminate.
  - rewrite H2, H3. split; [reflexivity|]. cbn.
    intros H. repeat (apply elem_of_cons in H as [H|H]; [discriminate|]). by apply elem_of_nil in H.
Defined.

Lemma BroadcastTxCommit_calls_witness :
  (exists mid, (BroadcastTxCommit [7] []).1
    = [BusSubscribe "" "tm.event='Tx'"] ++ mid ++ [BusUnsubscribe "" "tm.event='Tx'"]) /\
  ("", "tm.event='Tx'")%string ∉ subscriptions (BroadcastTxCommit [7] []).1.
Proof.
  destruct (BroadcastTxCommit_calls [7] [] (BroadcastTxCommit [7] []).1 (BroadcastTxCommit [7] []).2)
    as [[H _]|[(H & _ & _)|(mid & H & _ & Hs)]].
  - reflexivity.
  - discriminate H.
  - discriminate H.
  - split; [exists mid; exact H|]. intros Hin. apply Hs in Hin. discriminate Hin.
Defined.

Lemma pump_spec_witness :
  exists seen tail, (pump true [SubMsg [1] true; SubMsg [2] false]).1 = (WsEvent <$> seen) ++ tail.
Proof.
  destruct (pump_spec true [SubMsg [1] true; SubMsg [2] false] _ _ eq_refl) as (seen & tail & H & _).
  exists seen, tail. exact H.
Defined.
