(* ===== verification/RpcNet.v ===== *)
(** * Node information over RPC ([pkg/rpc/core/net.go], [status.go],
    [consensus.go], [abci.go], [evidence.go], [health.go])

    [NetEnv] holds what these handlers read: the peer-to-peer client, the
    genesis, the application and rollkit's state. *)

From Stdlib Require Import ZArith Lia Ascii.
From stdpp Require Import base gmap strings list pretty.
From S2P Require Import Prelude Bitmap Comet Store Cometcompat MempoolIDs Adapter RpcUtils.

Open Scope Z_scope.

Record NodeInfo : Type := mkNodeInfo { ni_NodeID : string; ni_ListenAddr : string; ni_Network : string }.
Record Peer : Type := mkPeer { peer_NodeInfo : NodeInfo; peer_IsOutbound : bool; peer_RemoteIP : string }.

Record ResultNetInfo : Type := mkResultNetInfo {
  rn_Listening : bool;
  rn_Listeners : list string;
  rn_NPeers : Z;
  rn_Peers : list Peer
}.

Record ResultGenesisChunk : Type := mkResultGenesisChunk {
  gc_ChunkNumber : Z;
  gc_TotalChunks : Z;
  gc_Data : string
}.

(** [cmttypes.Validator] as the RPC shows it. *)
Record RpcValidator : Type := mkRpcValidator {
  rv_Address : bytes;
  rv_PubKey : bytes;
  rv_VotingPower : Z;
  rv_ProposerPriority : Z
}.

Record ResultValidators : Type := mkResultValidators {
  vals_BlockHeight : Z;
  vals_Validators : list RpcValidator;
  vals_Count : Z;
  vals_Total : Z
}.

Record SyncInfo : Type := mkSyncInfo {
  sync_LatestBlockHash : bytes;
  sync_LatestAppHash : bytes;
  sync_LatestBlockHeight : Z;
  sync_LatestBlockTime : Time;
  sync_EarliestBlockHash : bytes;
  sync_EarliestAppHash : bytes;
  sync_EarliestBlockHeight : Z;
  sync_EarliestBlockTime : Time;
  sync_CatchingUp : bool
}.

Record StatusNodeInfo : Type := mkStatusNodeInfo {
  sn_ProtocolVersion : Z * Z * Z;         (* P2P, block, app *)
  sn_DefaultNodeID : string;
  sn_ListenAddr : string;
  sn_Network : string;
  sn_Version : string;
  sn_Moniker : string;
  sn_TxIndex : string;
  sn_RPCAddress : string
}.

Record ResultStatus : Type := mkResultStatus {
  rs_NodeInfo : StatusNodeInfo;
  rs_SyncInfo : SyncInfo;
  rs_ValidatorInfo : RpcValidator
}.

(** [cmttypes.ConsensusParams]. *)
Record RpcConsensusParams : Type := mkRpcConsensusParams {
  cp_Block_MaxBytes : Z;
  cp_Block_MaxGas : Z;
  cp_Evidence_MaxAgeNumBlocks : Z;
  cp_Evidence_MaxAgeDuration : Z;
  cp_Evidence_MaxBytes : Z;
  cp_Validator_PubKeyTypes : list string;
  cp_Version_App : Z;
  cp_ABCI_VoteExtensionsEnableHeight : Z
}.

Record RequestQuery : Type := mkRequestQuery {
  rq_Data : bytes;
  rq_Path : string;
  rq_Height : Z;
  rq_Prove : bool
}.
Record ResponseQuery : Type := mkResponseQuery {
  resq_Code : Z;
  resq_Log : string;
  resq_Value : bytes;
  resq_Height : Z
}.

Class NetEnv `{CT : CometTypes} : Type := {
  (** [None]: the client is nil; else its addresses and peers. *)
  P2PClient : option (list string * list Peer);
  P2PClient_Info : outcome (string * string * string);
  (** [None]: [AppGenesis] is nil. *)
  genesis_InitialHeight : Z;
  (** [None]: the consensus part is nil. *)
  genesis_Validators : option (list GenesisValidator);
  (** The JSON of the genesis document; [None]: there is no document. *)
  genesis_loaded : bool;
  ToGenesisDoc : outcome (option (outcome bytes));
  RollkitStore_GetState_App : outcome Z;
  version_P2PProtocol : Z;
  version_TMCoreSemVer : string;
  default_Moniker : string;
  config_ListenAddress : string;
  params_view : ConsensusParams -> RpcConsensusParams;
  app_Query : RequestQuery -> outcome ResponseQuery;
  app_Info : outcome string;
  evidence_Hash : bytes -> bytes
}.

(** ** [encoding/base64] *)

Definition base64_char (z : Z) : ascii :=
  ascii_of_N (Z.to_N
    (if z <? 26 then z + 65 else if z <? 52 then z + 71 else if z <? 62 then z - 4
     else if z =? 62 then 43 else 47)).

Fixpoint base64_EncodeToString (bs : bytes) : string :=
  match bs with
  | [] => EmptyString
  | [a] => String (base64_char (a / 4)) (String (base64_char (a mod 4 * 16)) "==")
  | [a; b] =>
      String (base64_char (a / 4)) (String (base64_char (a mod 4 * 16 + b / 16))
        (String (base64_char (b mod 16 * 4)) "="))
  | a :: b :: c :: bs' =>
      String (base64_char (a / 4)) (String (base64_char (a mod 4 * 16 + b / 16))
        (String (base64_char (b mod 16 * 4 + c / 64)) (String (base64_char (c mod 64))
          (base64_EncodeToString bs'))))
  end.

Definition genesisChunkSize : Z := 16 * 1024 * 1024.

(** The loop over the data from position [i]; a turn per chunk, so the length
    of the data is fuel enough. *)
Fixpoint chunk_loop (fuel : nat) (size : Z) (data : bytes) (i : Z) : outcome (list string) :=
  match fuel with
  | O => Ok []
  | S fuel =>
      if i <? Z.of_nat (length data) then
        let end_ := i64 (i + size) in
        let end_ := if Z.of_nat (length data) <? end_ then Z.of_nat (length data) else end_ in
        part ← slice data i end_;
        rest ← chunk_loop fuel size data (i64 (i + size));
        Ok (base64_EncodeToString part :: rest)
      else Ok []
  end.

Section net.
Context `{SC : StoreCodec} {E : Env} {NE : NetEnv}.

(** ** [net.go] *)

Definition NetInfo : outcome ResultNetInfo :=
  match P2PClient with
  | Some (addrs, peers) =>
      Ok {| rn_Listening := true; rn_Listeners := addrs; rn_NPeers := Z.of_nat (length peers);
            rn_Peers := peers |}
  | None => Ok {| rn_Listening := true; rn_Listeners := []; rn_NPeers := 0; rn_Peers := [] |}
  end.

Definition Rpc_Genesis : outcome (option (outcome bytes)) := ToGenesisDoc.

Definition getGenesisChunks (size : Z) : outcome (list string) :=
  if negb genesis_loaded
  then Err (ErrText "environment or adapter not initialized correctly for genesis access")
  else
    genesisDoc ← wrap_outcome "error getting genesis doc" ToGenesisDoc;
    match genesisDoc with
    | None => Ok []
    | Some json =>
        data ← wrap_outcome "error marshalling genesis doc to json" json;
        chunk_loop (length data) size data 0
    end.

(** [chunk] is a [uint]: the bound is checked on its [int] conversion, the
    element is taken at its own value. *)
Definition GenesisChunked (size chunk : Z) : outcome ResultGenesisChunk :=
  allChunks ← wrap_outcome "error preparing genesis chunks" (getGenesisChunks size);
  let numChunks := Z.of_nat (length allChunks) in
  if numChunks =? 0 then Err (ErrText "genesis document is empty or yields no chunks")
  else if numChunks <=? i64 chunk then Err (ErrText "requested chunk index is out of bounds")
  else if numChunks <=? chunk then Panic "index out of range"
  else
    match allChunks !! Z.to_nat chunk with
    | Some data => Ok {| gc_TotalChunks := numChunks; gc_ChunkNumber := i64 chunk; gc_Data := data |}
    | None => Panic "index out of range"
    end.

(** ** [status.go] *)

Definition zero_Time : Time := mkTime 0 0.

(** [DataHash], [AppHash] and time of the latest header; zero without blocks. *)
Definition latest_info (latestHeight : Z) : outcome (bytes * bytes * Time) :=
  if negb (latestHeight =? 0) then
    header ← wrap_outcome "failed to find latest block" (RollkitStore_GetHeader latestHeight);
    Ok (rh_DataHash (sh_Header header), rh_AppHash (sh_Header header), rh_Time (sh_Header header))
  else Ok ([], [], zero_Time).

(** The only genesis validator. *)
Definition genesis_validator : outcome GenesisValidator :=
  match genesis_Validators with
  | None => Panic "nil pointer dereference"
  | Some [v] => Ok v
  | Some _ => Err (ErrText "there should be exactly one validator in genesis")
  end.

Definition Status : outcome ResultStatus :=
  latestHeight ← wrap_outcome "failed to get latest height" RollkitStore_Height;
  latest ← latest_info latestHeight;
  let '(latestBlockHash, latestAppHash, latestBlockTime) := latest in
  initialHeader ← wrap_outcome "failed to find earliest block"
    (RollkitStore_GetHeader (u64 genesis_InitialHeight));
  genesisValidator ← genesis_validator;
  let validator := mkRpcValidator (gv_Address genesisValidator) (gv_PubKey genesisValidator) 1 0 in
  app ← wrap_outcome "failed to load the last saved state" RollkitStore_GetState_App;
  info ← wrap_outcome "failed to load node p2p2 info" P2PClient_Info;
  let '(id, addr, network) := info in
  processedID ← wrap_outcome "failed to process node ID" (TruncateNodeID id);
  Ok {| rs_NodeInfo :=
          {| sn_ProtocolVersion := (version_P2PProtocol, BlockProtocol, app);
             sn_DefaultNodeID := processedID;
             sn_ListenAddr := addr;
             sn_Network := network;
             sn_Version := version_TMCoreSemVer;
             sn_Moniker := default_Moniker;
             sn_TxIndex := "on";
             sn_RPCAddress := config_ListenAddress |};
        rs_SyncInfo :=
          {| sync_LatestBlockHash := latestBlockHash;
             sync_LatestAppHash := latestAppHash;
             sync_LatestBlockHeight := i64 latestHeight;
             sync_LatestBlockTime := latestBlockTime;
             sync_EarliestBlockHash := rh_DataHash (sh_Header initialHeader);
             sync_EarliestAppHash := rh_AppHash (sh_Header initialHeader);
             sync_EarliestBlockHeight := i64 (rh_Height (sh_Header initialHeader));
             sync_EarliestBlockTime := rh_Time (sh_Header initialHeader);
             sync_CatchingUp := false |};
        rs_ValidatorInfo := validator |}.

(** ** [consensus.go] *)

Definition Validators (heightPtr : option Z) : outcome ResultValidators :=
  height ← wrap_outcome "failed to normalize height" (normalizeHeight heightPtr);
  genesisValidator ← genesis_validator;
  let validator := mkRpcValidator (gv_Address genesisValidator) (gv_PubKey genesisValidator)
                     (gv_Power genesisValidator) 1 in
  Ok {| vals_BlockHeight := i64 height; vals_Validators := [validator];
        vals_Count := 1; vals_Total := 1 |}.

Definition ErrConsensusStateNotAvailable : error :=
  ErrSentinel "consensus state not available in Rollkit".
Definition DumpConsensusState : outcome unit := Err ErrConsensusStateNotAvailable.
Definition ConsensusState : outcome unit := Err ErrConsensusStateNotAvailable.

(** The stored (latest) parameters, whatever the height; their vote-extension
    height is not copied. *)
Definition Query_ConsensusParams (db : datastore) (heightPtr : option Z) :
    outcome (Z * RpcConsensusParams) :=
  height ← wrap_outcome "failed to normalize height" (normalizeHeight heightPtr);
  state ← LoadState db;
  let params := params_view (st_ConsensusParams state) in
  Ok (i64 height,
      {| cp_Block_MaxBytes := cp_Block_MaxBytes params;
         cp_Block_MaxGas := cp_Block_MaxGas params;
         cp_Evidence_MaxAgeNumBlocks := cp_Evidence_MaxAgeNumBlocks params;
         cp_Evidence_MaxAgeDuration := cp_Evidence_MaxAgeDuration params;
         cp_Evidence_MaxBytes := cp_Evidence_MaxBytes params;
         cp_Validator_PubKeyTypes := cp_Validator_PubKeyTypes params;
         cp_Version_App := cp_Version_App params;
         cp_ABCI_VoteExtensionsEnableHeight := 0 |}).

(** ** [abci.go], [evidence.go], [health.go] *)

Definition ABCIQuery (path : string) (data : bytes) (height : Z) (prove : bool) :
    outcome ResponseQuery :=
  app_Query {| rq_Data := data; rq_Path := path; rq_Height := height; rq_Prove := prove |}.

Definition ABCIInfo : outcome string := app_Info.

Definition BroadcastEvidence (ev : bytes) : outcome bytes := Ok (evidence_Hash ev).

Definition Health : outcome unit := Ok tt.
End net.
