(* ===== verification/RpcNetProps.v ===== *)
(** * Theorems about the genesis chunks and the node information *)

From Stdlib Require Import ZArith Lia Ascii.
From stdpp Require Import base gmap strings list numbers pretty.
From S2P Require Import Prelude Bitmap Comet Store Cometcompat MempoolIDs Adapter AdapterDemo.
From S2P Require Import RpcUtils RpcNet.

Open Scope Z_scope.

(** ** Base64 *)

Definition base64_value (c : ascii) : option Z :=
  let n := Z.of_N (N_of_ascii c) in
  if (65 <=? n) && (n <=? 90) then Some (n - 65)
  else if (97 <=? n) && (n <=? 122) then Some (n - 71)
  else if (48 <=? n) && (n <=? 57) then Some (n + 4)
  else if n =? 43 then Some 62
  else if n =? 47 then Some 63
  else None.

Definition is_pad (c : ascii) : bool := Z.of_N (N_of_ascii c) =? 61.

(** Decode a text of whole groups. *)
Fixpoint base64_Decode (s : string) : option bytes :=
  match s with
  | EmptyString => Some []
  | String a (String b (String c (String d s'))) =>
      x ← base64_value a; y ← base64_value b;
      if is_pad c && is_pad d then Some [x * 4 + y / 16]
      else
        z ← base64_value c;
        if is_pad d then Some [x * 4 + y / 16; y mod 16 * 16 + z / 4]
        else
          w ← base64_value d;
          rest ← base64_Decode s';
          Some (x * 4 + y / 16 :: y mod 16 * 16 + z / 4 :: z mod 4 * 64 + w :: rest)
  | _ => None
  end.

Lemma base64_char_code z :
  0 <= z < 64 ->
  Z.of_N (N_of_ascii (base64_char z)) =
    (if z <? 26 then z + 65 else if z <? 52 then z + 71 else if z <? 62 then z - 4
     else if z =? 62 then 43 else 47).
Proof.
  intros H. unfold base64_char. rewrite N_ascii_embedding; repeat case_match; lia.
Qed.

Lemma base64_value_char z : 0 <= z < 64 -> base64_value (base64_char z) = Some z.
Proof.
  intros H. unfold base64_value. rewrite base64_char_code by done.
  destruct (Z.ltb_spec z 26); [|destruct (Z.ltb_spec z 52); [|destruct (Z.ltb_spec z 62)]].
  - destruct (Z.leb_spec 65 (z + 65)), (Z.leb_spec (z + 65) 90); try lia. cbn. f_equal. lia.
  - destruct (Z.leb_spec 65 (z + 71)), (Z.leb_spec (z + 71) 90), (Z.leb_spec 97 (z + 71)),
      (Z.leb_spec (z + 71) 122); try lia. cbn. f_equal. lia.
  - destruct (Z.leb_spec 65 (z - 4)), (Z.leb_spec 97 (z - 4)), (Z.leb_spec 48 (z - 4)),
      (Z.leb_spec (z - 4) 57); try lia. cbn. f_equal. lia.
  - assert (z = 62 \/ z = 63) as [->| ->] by lia; reflexivity.
Qed.

Lemma is_pad_char z : 0 <= z < 64 -> is_pad (base64_char z) = false.
Proof.
  intros H. unfold is_pad. rewrite base64_char_code by done. apply Z.eqb_neq.
  repeat case_match; lia.
Qed.

Definition is_byte (b : Z) : Prop := 0 <= b < 256.

Ltac divmod_lia := unfold is_byte in *; Z.to_euclidean_division_equations; lia.

Lemma base64_Decode_Encode bs :
  Forall is_byte bs -> base64_Decode (base64_EncodeToString bs) = Some bs.
Proof.
  revert bs. fix IH 1. intros [|a [|b [|c bs]]] H; [done|..]; decompose_Forall_hyps.
  - cbn [base64_EncodeToString base64_Decode].
    rewrite !base64_value_char by divmod_lia. cbn. do 2 f_equal. divmod_lia.
  - cbn [base64_EncodeToString base64_Decode].
    rewrite !base64_value_char by divmod_lia. cbn [mbind option_bind].
    rewrite is_pad_char by divmod_lia. cbn. do 2 f_equal; [|f_equal]; divmod_lia.
  - cbn [base64_EncodeToString base64_Decode].
    rewrite !base64_value_char by divmod_lia. cbn [mbind option_bind].
    rewrite !is_pad_char by divmod_lia. cbn [andb]. rewrite (IH bs) by done. cbn.
    do 2 f_equal; [|f_equal; [|f_equal]]; divmod_lia.
Qed.

(** ** Chunks *)

(** The data of the chunks, put together. *)
Fixpoint decode_chunks (chunks : list string) : option bytes :=
  match chunks with
  | [] => Some []
  | c :: cs => d ← base64_Decode c; rest ← decode_chunks cs; Some (d ++ rest)
  end.

Lemma chunk_loop_run fuel size data i :
  1 <= size -> 0 <= i -> Z.of_nat (length data) + size <= max_i64 ->
  i <= Z.of_nat (length data) + size ->
  Z.of_nat (length data) <= i + Z.of_nat fuel -> Forall is_byte data ->
  exists chunks, chunk_loop fuel size data i = Ok chunks /\
    decode_chunks chunks = Some (drop (Z.to_nat i) data) /\
    Z.of_nat (length chunks) = Z.max 0 ((Z.of_nat (length data) - i + size - 1) / size).
Proof.
  intros Hs. revert i. induction fuel as [|fuel IH]; intros i Hi Hmax Hle Hf Hb.
  - exists []. cbn. rewrite drop_ge by lia. split_and!; try done.
    rewrite Z.max_l; [done|]. apply Z.lt_succ_r. apply Z.div_lt_upper_bound; lia.
  - cbn [chunk_loop]. destruct (Z.ltb_spec i (Z.of_nat (length data))) as [Hlt|Hge].
    2: { exists []. cbn. rewrite drop_ge by lia. split_and!; try done.
      rewrite Z.max_l; [done|]. apply Z.lt_succ_r. apply Z.div_lt_upper_bound; lia. }
    rewrite i64_small by (unfold is_i64, max_i64 in *; lia).
    assert ((if Z.of_nat (length data) <? i + size then Z.of_nat (length data) else i + size)
      = Z.min (Z.of_nat (length data)) (i + size)) as -> by (case_match; lia).
    unfold slice. destruct (Z.leb_spec 0 i), (Z.leb_spec i (Z.min (Z.of_nat (length data)) (i + size))),
      (Z.leb_spec (Z.min (Z.of_nat (length data)) (i + size)) (Z.of_nat (length data))); try lia.
    cbn [andb]. destruct (IH (i + size)) as (chunks & Hrun & Hd & Hl); [lia..|done|].
    cbn [mbind outcome_bind]. rewrite Hrun. cbn. eexists. split; [done|].
    cbn [decode_chunks]. rewrite base64_Decode_Encode by by apply Forall_take, Forall_drop.
    cbn. rewrite Hd. cbn. split.
    + f_equal. destruct (Z.le_ge_cases (i + size) (Z.of_nat (length data))).
      * rewrite Z.min_r by done. replace (Z.to_nat (i + size)) with (Z.to_nat i + Z.to_nat (i + size - i))%nat by lia.
        by rewrite <- drop_drop, take_drop.
      * rewrite Z.min_l by done. rewrite (drop_ge _ (Z.to_nat (i + size))), app_nil_r by lia.
        apply take_ge. rewrite length_drop. lia.
    + cbn [length]. rewrite Nat2Z.inj_succ, Hl.
      replace (Z.of_nat (length data) - i + size - 1)
        with (Z.of_nat (length data) - (i + size) + size - 1 + 1 * size) by lia.
      rewrite Z.div_add by lia.
      assert (0 <= (Z.of_nat (length data) - (i + size) + size - 1) / size) by (apply Z.div_pos; lia).
      lia.
Qed.

Section chunks.
Context `{CT : CometTypes} {NE : NetEnv}.

(** C36: The chunks of the genesis document cut its JSON without loss: there is
    a chunk per started block of [size] bytes, decoding and joining them gives
    the document back, the handler answers exactly the chunks below their
    number - and an index of 2^63 or more passes its check and panics. *)
Theorem GenesisChunked_spec size data :
  genesis_loaded = true -> ToGenesisDoc = Ok (Some (Ok data)) -> Forall is_byte data -> data <> [] ->
  1 <= size -> Z.of_nat (length data) + size <= max_i64 ->
  exists chunks, decode_chunks chunks = Some data /\
    Z.of_nat (length chunks) = (Z.of_nat (length data) + size - 1) / size /\
    (forall k c, chunks !! k = Some c ->
       GenesisChunked size (Z.of_nat k) = Ok (mkResultGenesisChunk (Z.of_nat k) (Z.of_nat (length chunks)) c)) /\
    (forall k, Z.of_nat (length chunks) <= k <= max_i64 ->
       GenesisChunked size k = Err (ErrText "requested chunk index is out of bounds")) /\
    (forall k, max_i64 < k <= max_u64 -> GenesisChunked size k = Panic "index out of range").
Proof.
  intros Hl Hdoc Hb Hne Hs Hmax.
  destruct (chunk_loop_run (length data) size data 0) as (chunks & Hrun & Hd & Hlen); [lia..|done|].
  exists chunks. rewrite Z.sub_0_r in Hlen.
  assert (0 < Z.of_nat (length data)) as Hpos by (destruct data; cbn; [done|lia]).
  assert (1 <= (Z.of_nat (length data) + size - 1) / size) by (apply Z.div_le_lower_bound; lia).
  assert ((Z.of_nat (length data) + size - 1) / size <= Z.of_nat (length data)) as Hup
    by (apply Z.lt_succ_r, Z.div_lt_upper_bound; nia).
  rewrite Z.max_r in Hlen by lia.
  assert (getGenesisChunks size = Ok chunks) as Hc.
  { unfold getGenesisChunks. rewrite Hl, Hdoc. cbn. exact Hrun. }
  split; [done|]. split; [done|]. unfold GenesisChunked. rewrite Hc. cbn [wrap_outcome mbind outcome_bind].
  destruct (Z.eqb_spec (Z.of_nat (length chunks)) 0); [lia|]. split; [|split].
  - intros k c Hk. pose proof (lookup_lt_Some _ _ _ Hk).
    rewrite i64_small by (unfold is_i64, max_i64 in *; lia).
    destruct (Z.leb_spec (Z.of_nat (length chunks)) (Z.of_nat k)); [lia|]. by rewrite Nat2Z.id, Hk.
  - intros k Hk. rewrite i64_small by (unfold is_i64, max_i64 in *; lia).
    destruct (Z.leb_spec (Z.of_nat (length chunks)) k); [done|lia].
  - intros k Hk. assert (i64 k < 0) by (unfold max_i64, max_u64 in *; int_lia).
    destruct (Z.leb_spec (Z.of_nat (length chunks)) (i64 k)); [lia|].
    destruct (Z.leb_spec (Z.of_nat (length chunks)) k); [done|]. unfold max_i64 in *. lia.
Qed.
End chunks.

(** ** A concrete node *)

#[global] Instance demo_net : NetEnv := {
  P2PClient := Some (["/ip4/127.0.0.1/tcp/26656"%string], []);
  P2PClient_Info := Ok ("00"%string, ""%string, "chain"%string);
  genesis_InitialHeight := 1;
  genesis_Validators := Some [mkGenesisValidator [5] [5] 1];
  genesis_loaded := true;
  ToGenesisDoc := Ok (Some (Ok [123; 34; 120; 34; 125]));
  RollkitStore_GetState_App := Ok 0;
  version_P2PProtocol := 8;
  version_TMCoreSemVer := "0.38";
  default_Moniker := "node";
  config_ListenAddress := "tcp://127.0.0.1:26657";
  params_view := fun p => mkRpcConsensusParams p (-1) 0 0 0 ["ed25519"%string] 0 0;
  app_Query := fun _ => Err (ErrText "no query");
  app_Info := Ok "info"%string;
  evidence_Hash := fun e => e
}.

Lemma GenesisChunked_spec_witness :
  exists chunks, decode_chunks chunks = Some [123; 34; 120; 34; 125] /\ length chunks = 3%nat /\
    GenesisChunked 2 9223372036854775808 = Panic "index out of range".
Proof.
  destruct (GenesisChunked_spec 2 [123; 34; 120; 34; 125]) as (chunks & H1 & H2 & _ & _ & H3).
  - reflexivity.
  - reflexivity.
  - repeat (constructor; [unfold is_byte; lia|]). constructor.
  - discriminate.
  - lia.
  - vm_compute. discriminate.
  - exists chunks. split; [exact H1|]. split.
    + apply Nat2Z.inj. rewrite H2. reflexivity.
    + apply H3. vm_compute. split; [reflexivity|discriminate].
Defined.

(** The status of a node: its latest "block hash" is the hash of the latest
    block's data, its earliest block the one of the genesis height, and its
    identifier the first twenty bytes. *)
Theorem Status_spec `{SC : StoreCodec} {E : Env} {NE : NetEnv} r :
  Status = Ok r ->
  exists h v id addr network,
    RollkitStore_Height = Ok h /\ genesis_Validators = Some [v] /\
    P2PClient_Info = Ok (id, addr, network) /\
    TruncateNodeID id = Ok (sn_DefaultNodeID (rs_NodeInfo r)) /\
    sync_LatestBlockHeight (rs_SyncInfo r) = i64 h /\
    rs_ValidatorInfo r = mkRpcValidator (gv_Address v) (gv_PubKey v) 1 0 /\
    (h <> 0 -> exists sh, RollkitStore_GetHeader h = Ok sh /\
       sync_LatestBlockHash (rs_SyncInfo r) = rh_DataHash (sh_Header sh) /\
       sync_LatestAppHash (rs_SyncInfo r) = rh_AppHash (sh_Header sh)) /\
    (exists sh, RollkitStore_GetHeader (u64 genesis_InitialHeight) = Ok sh /\
       sync_EarliestBlockHeight (rs_SyncInfo r) = i64 (rh_Height (sh_Header sh))).
Proof.
  unfold Status, genesis_validator, latest_info.
  destruct RollkitStore_Height as [h| |]; cbn; [|done..].
  destruct (Z.eqb_spec h 0) as [->|Hh]; cbn.
  2: destruct (RollkitStore_GetHeader h) as [lh| |] eqn:El; cbn; [|done..].
  all: destruct (RollkitStore_GetHeader (u64 genesis_InitialHeight)) as [ih| |] eqn:Ei; cbn; [|done..].
  all: destruct genesis_Validators as [[|v []]|]; cbn; [done| |done..].
  all: destruct RollkitStore_GetState_App as [app| |]; cbn; [|done..].
  all: destruct P2PClient_Info as [[[id addr] network]| |]; cbn; [|done..].
  all: destruct (TruncateNodeID id) as [pid| |] eqn:Et; cbn; [|done..].
  all: intros [= <-]; do 5 eexists; split_and!; cbn; eauto; done.
Qed.
