(* ===== verification/Wire.v ===== *)
(** * The protobuf wire format of the generated codecs

    The parts every [Marshal], [Size] and [Unmarshal] of the [*.pb.go] files
    repeats: variable-length integers, tags, length-delimited fields, and the
    skipping of unknown fields.  A buffer is the list of its bytes; a writer
    fills it from the end, so it puts its bytes in front of what is written. *)

From Stdlib Require Import ZArith Lia.
From stdpp Require Import base strings list numbers.
From S2P Require Import Prelude Bitmap.

Open Scope Z_scope.

Definition i32 (z : Z) : Z := wrapS 32 z.
Definition is_i32 (z : Z) : Prop := - 2147483648 <= z <= 2147483647.
Definition is_u32 (z : Z) : Prop := 0 <= z <= 4294967295.

Definition ErrInvalidLength : error := ErrText "proto: negative length found during unmarshaling".
Definition ErrIntOverflow : error := ErrText "proto: integer overflow".
Definition ErrUnexpectedEndOfGroup : error := ErrText "proto: unexpected end of group".
Definition ErrUnexpectedEOF : error := ErrSentinel "io.ErrUnexpectedEOF".

(** ** Variable-length integers *)

(** [math_bits.Len64] *)
Definition Len64 (x : Z) : Z := if x =? 0 then 0 else Z.log2 x + 1.

Definition sov (x : Z) : Z := (Len64 (Z.lor x 1) + 6) / 7.

(** The loop of [encodeVarint]; a 64-bit value has at most ten groups of seven
    bits, so nine turns are enough. *)
Fixpoint varint_loop (fuel : nat) (v : Z) : bytes :=
  match fuel with
  | O => [u8 v]
  | S fuel =>
      if 128 <=? v then u8 (Z.lor (Z.land v 127) 128) :: varint_loop fuel (Z.shiftr v 7)
      else [u8 v]
  end.
Definition encodeVarint (v : Z) : bytes := varint_loop 9 v.

(** The reading loop, from its [shift] and the value so far. *)
Fixpoint varint_from (shift acc : Z) (dAtA : bytes) : outcome (Z * bytes) :=
  if 64 <=? shift then Err ErrIntOverflow
  else
    match dAtA with
    | [] => Err ErrUnexpectedEOF
    | b :: rest =>
        let acc := Z.lor acc (u64 (Z.shiftl (Z.land b 127) shift)) in
        if b <? 128 then Ok (acc, rest) else varint_from (shift + 7) acc rest
    end.
Definition decodeVarint (dAtA : bytes) : outcome (Z * bytes) := varint_from 0 0 dAtA.

(** ** Fields, as the writers put them in front of the buffer *)

Definition put_varint (tag v : Z) (dAtA : bytes) : bytes :=
  if negb (v =? 0) then tag :: encodeVarint (u64 v) ++ dAtA else dAtA.

Definition put_bytes (tag : Z) (x dAtA : bytes) : bytes :=
  if (0 <? length x)%nat then tag :: encodeVarint (Z.of_nat (length x)) ++ x ++ dAtA else dAtA.

Definition put_bool (tag : Z) (b : bool) (dAtA : bytes) : bytes :=
  if b then tag :: 1 :: dAtA else dAtA.

(** Their contributions to [Size]. *)
Definition size_varint (v : Z) : Z := if negb (v =? 0) then 1 + sov (u64 v) else 0.
Definition size_bytes (x : bytes) : Z :=
  let l := Z.of_nat (length x) in if 0 <? l then 1 + l + sov l else 0.
Definition size_bool (b : bool) : Z := if b then 2 else 0.

(** ** Skipping an unknown field *)

(** The tail from a position that may lie beyond the end. *)
Definition zdrop (n : Z) (l : bytes) : bytes :=
  if Z.of_nat (length l) <=? n then [] else drop (Z.to_nat n) l.

(** The loop of [skip]: [iNdEx] bytes are consumed, [rest] are left. *)
Fixpoint skip_loop (fuel : nat) (depth iNdEx : Z) (rest : bytes) : outcome Z :=
  match fuel with
  | O => Err ErrUnexpectedEOF
  | S fuel =>
      match rest with
      | [] => Err ErrUnexpectedEOF
      | _ =>
          r ← decodeVarint rest;
          let '(wire, rest1) := r in
          let iNdEx := iNdEx + Z.of_nat (length rest - length rest1) in
          let wireType := Z.land wire 7 in
          let continue (depth iNdEx : Z) (rest : bytes) : outcome Z :=
            if iNdEx <? 0 then Err ErrInvalidLength
            else if depth =? 0 then Ok iNdEx
            else skip_loop fuel depth iNdEx rest in
          if wireType =? 0 then
            r ← decodeVarint rest1;
            let '(_, rest2) := r in
            continue depth (iNdEx + Z.of_nat (length rest1 - length rest2)) rest2
          else if wireType =? 1 then continue depth (iNdEx + 8) (zdrop 8 rest1)
          else if wireType =? 2 then
            r ← decodeVarint rest1;
            let '(len, rest2) := r in
            let iNdEx := iNdEx + Z.of_nat (length rest1 - length rest2) in
            let len := i64 len in
            if len <? 0 then Err ErrInvalidLength
            else continue depth (i64 (iNdEx + len)) (zdrop len rest2)
          else if wireType =? 3 then continue (depth + 1) iNdEx rest1
          else if wireType =? 4 then
            if depth =? 0 then Err ErrUnexpectedEndOfGroup
            else continue (depth - 1) iNdEx rest1
          else if wireType =? 5 then continue depth (iNdEx + 4) (zdrop 4 rest1)
          else Err (ErrText "proto: illegal wireType")
      end
  end.
Definition skip (dAtA : bytes) : outcome Z := skip_loop (S (length dAtA)) 0 0 dAtA.

(** ** Reading *)

(** A field reader gets the wire type and the bytes after the tag; [total] is
    the length of the whole buffer, for the overflow test of [postIndex]. *)
Definition get_varint {A} (wireType : Z) (set : Z -> A) (rest : bytes) : outcome (A * bytes) :=
  if negb (wireType =? 0) then Err (ErrText "proto: wrong wireType")
  else
    r ← decodeVarint rest;
    let '(v, rest) := r in Ok (set v, rest).

Definition get_bytes {A} (total wireType : Z) (set : bytes -> A) (rest : bytes) :
    outcome (A * bytes) :=
  if negb (wireType =? 2) then Err (ErrText "proto: wrong wireType")
  else
    r ← decodeVarint rest;
    let '(len, rest) := r in
    let len := i64 len in
    if len <? 0 then Err ErrInvalidLength
    else if i64 (total - Z.of_nat (length rest) + len) <? 0 then Err ErrInvalidLength
    else if Z.of_nat (length rest) <? len then Err ErrUnexpectedEOF
    else Ok (set (take (Z.to_nat len) rest), drop (Z.to_nat len) rest).

(** The loop of [Unmarshal]: [field] reads the fields the message knows, by
    field number and wire type. *)
Fixpoint unmarshal_loop {A} (fuel : nat) (total : Z)
    (field : A -> Z -> Z -> bytes -> option (outcome (A * bytes)))
    (m : A) (dAtA : bytes) : outcome A :=
  match fuel with
  | O => Ok m
  | S fuel =>
      match dAtA with
      | [] => Ok m
      | _ =>
          r ← decodeVarint dAtA;
          let '(wire, rest) := r in
          let fieldNum := i32 (Z.shiftr wire 3) in
          let wireType := Z.land wire 7 in
          if wireType =? 4 then Err (ErrText "proto: wiretype end group for non-group")
          else if fieldNum <=? 0 then Err (ErrText "proto: illegal tag")
          else
            match field m fieldNum wireType rest with
            | Some r => r' ← r; let '(m', rest') := r' in unmarshal_loop fuel total field m' rest'
            | None =>
                skippy ← skip dAtA;
                if (skippy <? 0) || (i64 (total - Z.of_nat (length dAtA) + skippy) <? 0)
                then Err ErrInvalidLength
                else if Z.of_nat (length dAtA) <? skippy then Err ErrUnexpectedEOF
                else unmarshal_loop fuel total field m (zdrop skippy dAtA)
            end
      end
  end.

Definition unmarshal {A} (field : Z -> A -> Z -> Z -> bytes -> option (outcome (A * bytes)))
    (m : A) (dAtA : bytes) : outcome A :=
  unmarshal_loop (length dAtA) (Z.of_nat (length dAtA)) (field (Z.of_nat (length dAtA))) m dAtA.
