(* ===== verification/Codec.v ===== *)
(** * The codecs of the network module's messages ([*.pb.go])

    For each message: the writer [MarshalToSizedBuffer], its [Size] and the
    reader of its fields, which [Unmarshal] calls.  [ProtoMessage] is what an
    enclosing message or a caller uses of it. *)

From Stdlib Require Import ZArith Lia Ascii.
From stdpp Require Import base gmap strings list numbers pretty.
From S2P Require Import Prelude Bitmap Sdk Types Keeper MsgServer Query Wire.

Open Scope Z_scope.

Class ProtoMessage (A : Type) : Type := {
  proto_zero : A;
  MarshalToSizedBuffer : A -> bytes;
  Size : A -> Z;
  (** the length of the buffer, the message so far, the field number, the wire
      type and the bytes after the tag *)
  read_field : Z -> A -> Z -> Z -> bytes -> option (outcome (A * bytes))
}.

Section message.
Context `{ProtoMessage A}.

(** [Marshal] gives the writer a buffer of [Size] bytes, which it fills from
    the end, and returns as many bytes from the front as were written. *)
Definition Marshal (m : A) : outcome bytes :=
  let written := MarshalToSizedBuffer m in
  if Size m <? Z.of_nat (length written) then Panic "index out of range"
  else Ok (take (length written) (replicate (Z.to_nat (Size m) - length written) 0 ++ written)).

Definition Unmarshal_into (m : A) (dAtA : bytes) : outcome A := unmarshal read_field m dAtA.
Definition Unmarshal (dAtA : bytes) : outcome A := Unmarshal_into proto_zero dAtA.

(** An embedded message, which is written even when it is empty. *)
Definition put_message (tag : Z) (m : A) (dAtA : bytes) : bytes :=
  let written := MarshalToSizedBuffer m in
  tag :: encodeVarint (Z.of_nat (length written)) ++ written ++ dAtA.
Definition size_message (m : A) : Z := let l := Size m in 1 + l + sov l.

Definition put_messages (tag : Z) (ms : list A) (dAtA : bytes) : bytes :=
  foldr (fun m dAtA => put_message tag m dAtA) dAtA ms.
Definition size_messages (ms : list A) : Z := foldl (fun n m => n + size_message m) 0 ms.

(** An embedded message is read into the one that is there. *)
Definition get_message {B} (total wireType : Z) (old : A) (set : A -> B) (rest : bytes) :
    outcome (B * bytes) :=
  r ← get_bytes total wireType id rest;
  let '(x, rest') := r in
  m ← Unmarshal_into old x;
  Ok (set m, rest').
End message.

(** [string(dAtA[i:j])] *)
Definition string_of_bytes (bs : bytes) : string :=
  String.string_of_list_ascii ((fun b => ascii_of_nat (Z.to_nat b)) <$> bs).

Definition put_string (tag : Z) (s : string) (dAtA : bytes) : bytes :=
  put_bytes tag (bytes_of_string s) dAtA.
Definition size_string (s : string) : Z := size_bytes (bytes_of_string s).
Definition get_string {A} (total wireType : Z) (set : string -> A) (rest : bytes) :
    outcome (A * bytes) :=
  get_bytes total wireType (fun x => set (string_of_bytes x)) rest.

(** ** [types.pb.go] *)

Definition Params_MarshalToSizedBuffer (m : Params) : bytes :=
  put_varint 0x8 (EpochLength m) (
  put_string 0x12 (QuorumFraction m) (
  put_string 0x1a (MinParticipation m) (
  put_varint 0x20 (PruneAfter m) (
  put_varint 0x28 (SignMode m) [])))).

Definition Params_Size (m : Params) : Z :=
  size_varint (EpochLength m) + size_string (QuorumFraction m) + size_string (MinParticipation m)
    + size_varint (PruneAfter m) + size_varint (SignMode m).

Definition Params_field (total : Z) (m : Params) (fieldNum wireType : Z) (rest : bytes) :
    option (outcome (Params * bytes)) :=
  let '(mkParams el qf mp pa sm) := m in
  match fieldNum with
  | 1 => Some (get_varint wireType (fun v => mkParams v qf mp pa sm) rest)
  | 2 => Some (get_string total wireType (fun v => mkParams el v mp pa sm) rest)
  | 3 => Some (get_string total wireType (fun v => mkParams el qf v pa sm) rest)
  | 4 => Some (get_varint wireType (fun v => mkParams el qf mp v sm) rest)
  | 5 => Some (get_varint wireType (fun v => mkParams el qf mp pa (i32 v)) rest)
  | _ => None
  end.

#[global] Instance Params_message : ProtoMessage Params := {
  proto_zero := zero_Params; MarshalToSizedBuffer := Params_MarshalToSizedBuffer;
  Size := Params_Size; read_field := Params_field }.

Definition AttestationBitmap_MarshalToSizedBuffer (m : types_AttestationBitmap) : bytes :=
  put_varint 0x8 (ab_Height m) (
  put_bytes 0x12 (default [] (ab_Bitmap m)) (
  put_varint 0x18 (ab_VotedPower m) (
  put_varint 0x20 (ab_TotalPower m) (
  put_bool 0x28 (ab_SoftConfirmed m) [])))).

Definition AttestationBitmap_Size (m : types_AttestationBitmap) : Z :=
  size_varint (ab_Height m) + size_bytes (default [] (ab_Bitmap m))
    + size_varint (ab_VotedPower m) + size_varint (ab_TotalPower m) + size_bool (ab_SoftConfirmed m).

Definition AttestationBitmap_field (total : Z) (m : types_AttestationBitmap) (fieldNum wireType : Z)
    (rest : bytes) : option (outcome (types_AttestationBitmap * bytes)) :=
  let '(mkAttestationBitmap h b vp tp sc) := m in
  match fieldNum with
  | 1 => Some (get_varint wireType (fun v => mkAttestationBitmap (i64 v) b vp tp sc) rest)
  | 2 => Some (get_bytes total wireType (fun v => mkAttestationBitmap h (Some v) vp tp sc) rest)
  | 3 => Some (get_varint wireType (fun v => mkAttestationBitmap h b v tp sc) rest)
  | 4 => Some (get_varint wireType (fun v => mkAttestationBitmap h b vp v sc) rest)
  | 5 => Some (get_varint wireType (fun v => mkAttestationBitmap h b vp tp (negb (i64 v =? 0))) rest)
  | _ => None
  end.

#[global] Instance AttestationBitmap_message : ProtoMessage types_AttestationBitmap := {
  proto_zero := mkAttestationBitmap 0 None 0 0 false;
  MarshalToSizedBuffer := AttestationBitmap_MarshalToSizedBuffer;
  Size := AttestationBitmap_Size; read_field := AttestationBitmap_field }.

Definition ValidatorIndex_MarshalToSizedBuffer (m : types_ValidatorIndex) : bytes :=
  put_string 0xa (vi_Address m) (
  put_varint 0x10 (vi_Index m) (
  put_varint 0x18 (vi_Power m) [])).

Definition ValidatorIndex_Size (m : types_ValidatorIndex) : Z :=
  size_string (vi_Address m) + size_varint (vi_Index m) + size_varint (vi_Power m).

Definition ValidatorIndex_field (total : Z) (m : types_ValidatorIndex) (fieldNum wireType : Z)
    (rest : bytes) : option (outcome (types_ValidatorIndex * bytes)) :=
  let '(mkValidatorIndex a i p) := m in
  match fieldNum with
  | 1 => Some (get_string total wireType (fun v => mkValidatorIndex v i p) rest)
  | 2 => Some (get_varint wireType (fun v => mkValidatorIndex a (u32 v) p) rest)
  | 3 => Some (get_varint wireType (fun v => mkValidatorIndex a i v) rest)
  | _ => None
  end.

#[global] Instance ValidatorIndex_message : ProtoMessage types_ValidatorIndex := {
  proto_zero := mkValidatorIndex "" 0 0;
  MarshalToSizedBuffer := ValidatorIndex_MarshalToSizedBuffer;
  Size := ValidatorIndex_Size; read_field := ValidatorIndex_field }.

(** ** [genesis.pb.go] *)

Definition GenesisState_MarshalToSizedBuffer (m : GenesisState) : bytes :=
  put_message 0xa (gs_Params m) (
  put_messages 0x12 (gs_ValidatorIndices m) (
  put_messages 0x1a (gs_AttestationBitmaps m) [])).

Definition GenesisState_Size (m : GenesisState) : Z :=
  size_message (gs_Params m) + size_messages (gs_ValidatorIndices m)
    + size_messages (gs_AttestationBitmaps m).

(** A repeated field appends a zero message and reads into it. *)
Definition GenesisState_field (total : Z) (m : GenesisState) (fieldNum wireType : Z) (rest : bytes) :
    option (outcome (GenesisState * bytes)) :=
  let '(mkGenesisState p vs bs) := m in
  match fieldNum with
  | 1 => Some (get_message total wireType p (fun v => mkGenesisState v vs bs) rest)
  | 2 => Some (get_message total wireType proto_zero (fun v => mkGenesisState p (vs ++ [v]) bs) rest)
  | 3 => Some (get_message total wireType proto_zero (fun v => mkGenesisState p vs (bs ++ [v])) rest)
  | _ => None
  end.

#[global] Instance GenesisState_message : ProtoMessage GenesisState := {
  proto_zero := mkGenesisState zero_Params [] [];
  MarshalToSizedBuffer := GenesisState_MarshalToSizedBuffer;
  Size := GenesisState_Size; read_field := GenesisState_field }.

(** ** [tx.pb.go] *)

Definition MsgAttest_MarshalToSizedBuffer (m : MsgAttest) : bytes :=
  put_string 0xa (attest_Validator m) (
  put_varint 0x10 (attest_Height m) (
  put_bytes 0x1a (attest_Vote m) [])).

Definition MsgAttest_Size (m : MsgAttest) : Z :=
  size_string (attest_Validator m) + size_varint (attest_Height m) + size_bytes (attest_Vote m).

Definition MsgAttest_field (total : Z) (m : MsgAttest) (fieldNum wireType : Z) (rest : bytes) :
    option (outcome (MsgAttest * bytes)) :=
  let '(NewMsgAttest a h v) := m in
  match fieldNum with
  | 1 => Some (get_string total wireType (fun x => NewMsgAttest x h v) rest)
  | 2 => Some (get_varint wireType (fun x => NewMsgAttest a (i64 x) v) rest)
  | 3 => Some (get_bytes total wireType (fun x => NewMsgAttest a h x) rest)
  | _ => None
  end.

#[global] Instance MsgAttest_message : ProtoMessage MsgAttest := {
  proto_zero := NewMsgAttest "" 0 []; MarshalToSizedBuffer := MsgAttest_MarshalToSizedBuffer;
  Size := MsgAttest_Size; read_field := MsgAttest_field }.

Definition MsgJoinAttesterSet_MarshalToSizedBuffer (m : MsgJoinAttesterSet) : bytes :=
  put_string 0xa (join_Validator m) [].
Definition MsgJoinAttesterSet_Size (m : MsgJoinAttesterSet) : Z := size_string (join_Validator m).
Definition MsgJoinAttesterSet_field (total : Z) (m : MsgJoinAttesterSet) (fieldNum wireType : Z)
    (rest : bytes) : option (outcome (MsgJoinAttesterSet * bytes)) :=
  match fieldNum with
  | 1 => Some (get_string total wireType NewMsgJoinAttesterSet rest)
  | _ => None
  end.
#[global] Instance MsgJoinAttesterSet_message : ProtoMessage MsgJoinAttesterSet := {
  proto_zero := NewMsgJoinAttesterSet "";
  MarshalToSizedBuffer := MsgJoinAttesterSet_MarshalToSizedBuffer;
  Size := MsgJoinAttesterSet_Size; read_field := MsgJoinAttesterSet_field }.

Definition MsgLeaveAttesterSet_MarshalToSizedBuffer (m : MsgLeaveAttesterSet) : bytes :=
  put_string 0xa (leave_Validator m) [].
Definition MsgLeaveAttesterSet_Size (m : MsgLeaveAttesterSet) : Z := size_string (leave_Validator m).
Definition MsgLeaveAttesterSet_field (total : Z) (m : MsgLeaveAttesterSet) (fieldNum wireType : Z)
    (rest : bytes) : option (outcome (MsgLeaveAttesterSet * bytes)) :=
  match fieldNum with
  | 1 => Some (get_string total wireType NewMsgLeaveAttesterSet rest)
  | _ => None
  end.
#[global] Instance MsgLeaveAttesterSet_message : ProtoMessage MsgLeaveAttesterSet := {
  proto_zero := NewMsgLeaveAttesterSet "";
  MarshalToSizedBuffer := MsgLeaveAttesterSet_MarshalToSizedBuffer;
  Size := MsgLeaveAttesterSet_Size; read_field := MsgLeaveAttesterSet_field }.

Definition MsgUpdateParams_MarshalToSizedBuffer (m : MsgUpdateParams) : bytes :=
  put_string 0xa (update_Authority m) (put_message 0x12 (update_Params m) []).
Definition MsgUpdateParams_Size (m : MsgUpdateParams) : Z :=
  size_string (update_Authority m) + size_message (update_Params m).
Definition MsgUpdateParams_field (total : Z) (m : MsgUpdateParams) (fieldNum wireType : Z)
    (rest : bytes) : option (outcome (MsgUpdateParams * bytes)) :=
  let '(NewMsgUpdateParams a p) := m in
  match fieldNum with
  | 1 => Some (get_string total wireType (fun v => NewMsgUpdateParams v p) rest)
  | 2 => Some (get_message total wireType p (fun v => NewMsgUpdateParams a v) rest)
  | _ => None
  end.
#[global] Instance MsgUpdateParams_message : ProtoMessage MsgUpdateParams := {
  proto_zero := NewMsgUpdateParams "" zero_Params;
  MarshalToSizedBuffer := MsgUpdateParams_MarshalToSizedBuffer;
  Size := MsgUpdateParams_Size; read_field := MsgUpdateParams_field }.

(** ** [query.pb.go]: the soft-confirmation query *)

(** [QuerySoftConfirmationStatusRequest] *)
Record SoftConfirmationRequest : Type := mkSoftConfirmationRequest { scr_Height : Z (* int64 *) }.

Definition SoftConfirmationRequest_MarshalToSizedBuffer (m : SoftConfirmationRequest) : bytes :=
  put_varint 0x8 (scr_Height m) [].
Definition SoftConfirmationRequest_Size (m : SoftConfirmationRequest) : Z :=
  size_varint (scr_Height m).
Definition SoftConfirmationRequest_field (total : Z) (m : SoftConfirmationRequest)
    (fieldNum wireType : Z) (rest : bytes) : option (outcome (SoftConfirmationRequest * bytes)) :=
  match fieldNum with
  | 1 => Some (get_varint wireType (fun v => mkSoftConfirmationRequest (i64 v)) rest)
  | _ => None
  end.
#[global] Instance SoftConfirmationRequest_message : ProtoMessage SoftConfirmationRequest := {
  proto_zero := mkSoftConfirmationRequest 0;
  MarshalToSizedBuffer := SoftConfirmationRequest_MarshalToSizedBuffer;
  Size := SoftConfirmationRequest_Size; read_field := SoftConfirmationRequest_field }.

Definition SoftConfirmationResponse_MarshalToSizedBuffer (m : QuerySoftConfirmationStatusResponse) :
    bytes :=
  put_bool 0x8 (sc_IsSoftConfirmed m) (
  put_varint 0x10 (sc_VotedPower m) (
  put_varint 0x18 (sc_TotalPower m) (
  put_string 0x22 (sc_QuorumFraction m) []))).
Definition SoftConfirmationResponse_Size (m : QuerySoftConfirmationStatusResponse) : Z :=
  size_bool (sc_IsSoftConfirmed m) + size_varint (sc_VotedPower m) + size_varint (sc_TotalPower m)
    + size_string (sc_QuorumFraction m).
Definition SoftConfirmationResponse_field (total : Z) (m : QuerySoftConfirmationStatusResponse)
    (fieldNum wireType : Z) (rest : bytes) :
    option (outcome (QuerySoftConfirmationStatusResponse * bytes)) :=
  let '(mkSoftConfirmation sc vp tp qf) := m in
  match fieldNum with
  | 1 => Some (get_varint wireType (fun v => mkSoftConfirmation (negb (i64 v =? 0)) vp tp qf) rest)
  | 2 => Some (get_varint wireType (fun v => mkSoftConfirmation sc v tp qf) rest)
  | 3 => Some (get_varint wireType (fun v => mkSoftConfirmation sc vp v qf) rest)
  | 4 => Some (get_string total wireType (fun v => mkSoftConfirmation sc vp tp v) rest)
  | _ => None
  end.
#[global] Instance SoftConfirmationResponse_message :
    ProtoMessage QuerySoftConfirmationStatusResponse := {
  proto_zero := mkSoftConfirmation false 0 0 "";
  MarshalToSizedBuffer := SoftConfirmationResponse_MarshalToSizedBuffer;
  Size := SoftConfirmationResponse_Size; read_field := SoftConfirmationResponse_field }.
