(* ===== verification/QueryService.v ===== *)
(** * The query service ([modules/network/types/query.pb.go])

    The requests and responses of the five queries with their codecs, the
    generated client, which sends a request over a connection, and the service
    descriptor, whose handlers decode a request and call the query server. *)

From Stdlib Require Import ZArith Lia Ascii.
From stdpp Require Import base gmap strings list numbers pretty.
From S2P Require Import Prelude Bitmap Sdk Types Keeper MsgServer Query Wire Codec.

Open Scope Z_scope.

(** ** Requests *)

Record QueryParamsRequest : Type := mkQueryParamsRequest {}.
Record QueryAttestationBitmapRequest : Type := mkBitmapRequest { abr_Height : Z (* int64 *) }.
Record QueryEpochInfoRequest : Type := mkEpochInfoRequest { eir_Epoch : Z (* uint64 *) }.
Record QueryValidatorIndexRequest : Type := mkValidatorIndexRequest { vir_Address : string }.

Definition QueryParamsRequest_field (total : Z) (m : QueryParamsRequest) (fieldNum wireType : Z)
    (rest : bytes) : option (outcome (QueryParamsRequest * bytes)) := None.
#[global] Instance QueryParamsRequest_message : ProtoMessage QueryParamsRequest := {
  proto_zero := mkQueryParamsRequest; MarshalToSizedBuffer _ := []; Size _ := 0;
  read_field := QueryParamsRequest_field }.

Definition AttestationBitmapRequest_MarshalToSizedBuffer (m : QueryAttestationBitmapRequest) : bytes :=
  put_varint 0x8 (abr_Height m) [].
Definition AttestationBitmapRequest_Size (m : QueryAttestationBitmapRequest) : Z :=
  size_varint (abr_Height m).
Definition AttestationBitmapRequest_field (total : Z) (m : QueryAttestationBitmapRequest)
    (fieldNum wireType : Z) (rest : bytes) :
    option (outcome (QueryAttestationBitmapRequest * bytes)) :=
  match fieldNum with
  | 1 => Some (get_varint wireType (fun v => mkBitmapRequest (i64 v)) rest)
  | _ => None
  end.
#[global] Instance AttestationBitmapRequest_message : ProtoMessage QueryAttestationBitmapRequest := {
  proto_zero := mkBitmapRequest 0;
  MarshalToSizedBuffer := AttestationBitmapRequest_MarshalToSizedBuffer;
  Size := AttestationBitmapRequest_Size; read_field := AttestationBitmapRequest_field }.

Definition EpochInfoRequest_MarshalToSizedBuffer (m : QueryEpochInfoRequest) : bytes :=
  put_varint 0x8 (eir_Epoch m) [].
Definition EpochInfoRequest_Size (m : QueryEpochInfoRequest) : Z := size_varint (eir_Epoch m).
Definition EpochInfoRequest_field (total : Z) (m : QueryEpochInfoRequest) (fieldNum wireType : Z)
    (rest : bytes) : option (outcome (QueryEpochInfoRequest * bytes)) :=
  match fieldNum with
  | 1 => Some (get_varint wireType mkEpochInfoRequest rest)
  | _ => None
  end.
#[global] Instance EpochInfoRequest_message : ProtoMessage QueryEpochInfoRequest := {
  proto_zero := mkEpochInfoRequest 0;
  MarshalToSizedBuffer := EpochInfoRequest_MarshalToSizedBuffer;
  Size := EpochInfoRequest_Size; read_field := EpochInfoRequest_field }.

Definition ValidatorIndexRequest_MarshalToSizedBuffer (m : QueryValidatorIndexRequest) : bytes :=
  put_string 0xa (vir_Address m) [].
Definition ValidatorIndexRequest_Size (m : QueryValidatorIndexRequest) : Z :=
  size_string (vir_Address m).
Definition ValidatorIndexRequest_field (total : Z) (m : QueryValidatorIndexRequest)
    (fieldNum wireType : Z) (rest : bytes) :
    option (outcome (QueryValidatorIndexRequest * bytes)) :=
  match fieldNum with
  | 1 => Some (get_string total wireType mkValidatorIndexRequest rest)
  | _ => None
  end.
#[global] Instance ValidatorIndexRequest_message : ProtoMessage QueryValidatorIndexRequest := {
  proto_zero := mkValidatorIndexRequest "";
  MarshalToSizedBuffer := ValidatorIndexRequest_MarshalToSizedBuffer;
  Size := ValidatorIndexRequest_Size; read_field := ValidatorIndexRequest_field }.

(** ** Responses

    A pointer to an embedded message is [None] when it is nil. *)

Record QueryParamsResponse : Type := mkParamsResponse { pr_Params : Params }.
Record QueryAttestationBitmapResponse : Type := mkBitmapResponse {
  abs_Bitmap : option types_AttestationBitmap }.
Record QueryValidatorIndexResponse : Type := mkValidatorIndexResponse {
  vis_Index : option types_ValidatorIndex }.

(** The writer, the size and the reader of an optional embedded message. *)
Definition put_opt_message `{ProtoMessage A} (tag : Z) (m : option A) (dAtA : bytes) : bytes :=
  match m with Some m => put_message tag m dAtA | None => dAtA end.
Definition size_opt_message `{ProtoMessage A} (m : option A) : Z :=
  match m with Some m => size_message m | None => 0 end.

Definition ParamsResponse_MarshalToSizedBuffer (m : QueryParamsResponse) : bytes :=
  put_message 0xa (pr_Params m) [].
Definition ParamsResponse_Size (m : QueryParamsResponse) : Z := size_message (pr_Params m).
Definition ParamsResponse_field (total : Z) (m : QueryParamsResponse) (fieldNum wireType : Z)
    (rest : bytes) : option (outcome (QueryParamsResponse * bytes)) :=
  match fieldNum with
  | 1 => Some (get_message total wireType (pr_Params m) mkParamsResponse rest)
  | _ => None
  end.
#[global] Instance ParamsResponse_message : ProtoMessage QueryParamsResponse := {
  proto_zero := mkParamsResponse zero_Params;
  MarshalToSizedBuffer := ParamsResponse_MarshalToSizedBuffer;
  Size := ParamsResponse_Size; read_field := ParamsResponse_field }.

Definition AttestationBitmapResponse_MarshalToSizedBuffer (m : QueryAttestationBitmapResponse) :
    bytes := put_opt_message 0xa (abs_Bitmap m) [].
Definition AttestationBitmapResponse_Size (m : QueryAttestationBitmapResponse) : Z :=
  size_opt_message (abs_Bitmap m).
Definition AttestationBitmapResponse_field (total : Z) (m : QueryAttestationBitmapResponse)
    (fieldNum wireType : Z) (rest : bytes) :
    option (outcome (QueryAttestationBitmapResponse * bytes)) :=
  match fieldNum with
  | 1 => Some (get_message total wireType (default proto_zero (abs_Bitmap m))
                 (fun v => mkBitmapResponse (Some v)) rest)
  | _ => None
  end.
#[global] Instance AttestationBitmapResponse_message :
    ProtoMessage QueryAttestationBitmapResponse := {
  proto_zero := mkBitmapResponse None;
  MarshalToSizedBuffer := AttestationBitmapResponse_MarshalToSizedBuffer;
  Size := AttestationBitmapResponse_Size; read_field := AttestationBitmapResponse_field }.

Definition ValidatorIndexResponse_MarshalToSizedBuffer (m : QueryValidatorIndexResponse) : bytes :=
  put_opt_message 0xa (vis_Index m) [].
Definition ValidatorIndexResponse_Size (m : QueryValidatorIndexResponse) : Z :=
  size_opt_message (vis_Index m).
Definition ValidatorIndexResponse_field (total : Z) (m : QueryValidatorIndexResponse)
    (fieldNum wireType : Z) (rest : bytes) :
    option (outcome (QueryValidatorIndexResponse * bytes)) :=
  match fieldNum with
  | 1 => Some (get_message total wireType (default proto_zero (vis_Index m))
                 (fun v => mkValidatorIndexResponse (Some v)) rest)
  | _ => None
  end.
#[global] Instance ValidatorIndexResponse_message : ProtoMessage QueryValidatorIndexResponse := {
  proto_zero := mkValidatorIndexResponse None;
  MarshalToSizedBuffer := ValidatorIndexResponse_MarshalToSizedBuffer;
  Size := ValidatorIndexResponse_Size; read_field := ValidatorIndexResponse_field }.

Definition EpochInfoResponse_MarshalToSizedBuffer (m : QueryEpochInfoResponse) : bytes :=
  put_varint 0x8 (ei_Epoch m) (
  put_varint 0x10 (ei_StartHeight m) (
  put_varint 0x18 (ei_EndHeight m) (
  put_bytes 0x22 (ei_ParticipationBitmap m) (
  put_varint 0x28 (ei_ActiveValidators m) (
  put_varint 0x30 (ei_ParticipatingValidators m) []))))).
Definition EpochInfoResponse_Size (m : QueryEpochInfoResponse) : Z :=
  size_varint (ei_Epoch m) + size_varint (ei_StartHeight m) + size_varint (ei_EndHeight m)
    + size_bytes (ei_ParticipationBitmap m) + size_varint (ei_ActiveValidators m)
    + size_varint (ei_ParticipatingValidators m).
Definition EpochInfoResponse_field (total : Z) (m : QueryEpochInfoResponse) (fieldNum wireType : Z)
    (rest : bytes) : option (outcome (QueryEpochInfoResponse * bytes)) :=
  let '(mkEpochInfo e sh eh b a p) := m in
  match fieldNum with
  | 1 => Some (get_varint wireType (fun v => mkEpochInfo v sh eh b a p) rest)
  | 2 => Some (get_varint wireType (fun v => mkEpochInfo e (i64 v) eh b a p) rest)
  | 3 => Some (get_varint wireType (fun v => mkEpochInfo e sh (i64 v) b a p) rest)
  | 4 => Some (get_bytes total wireType (fun v => mkEpochInfo e sh eh v a p) rest)
  | 5 => Some (get_varint wireType (fun v => mkEpochInfo e sh eh b v p) rest)
  | 6 => Some (get_varint wireType (fun v => mkEpochInfo e sh eh b a v) rest)
  | _ => None
  end.
#[global] Instance EpochInfoResponse_message : ProtoMessage QueryEpochInfoResponse := {
  proto_zero := mkEpochInfo 0 0 0 [] 0 0;
  MarshalToSizedBuffer := EpochInfoResponse_MarshalToSizedBuffer;
  Size := EpochInfoResponse_Size; read_field := EpochInfoResponse_field }.

(** ** The empty responses of [tx.pb.go]

    The four message responses have no field. *)

Inductive MsgResponseKind : Set :=
| MsgAttestResponse | MsgJoinAttesterSetResponse | MsgLeaveAttesterSetResponse
| MsgUpdateParamsResponse.
Record EmptyResponse (k : MsgResponseKind) : Type := mkEmptyResponse {}.
Arguments mkEmptyResponse {k}.

Definition EmptyResponse_field (k : MsgResponseKind) (total : Z) (m : EmptyResponse k)
    (fieldNum wireType : Z) (rest : bytes) : option (outcome (EmptyResponse k * bytes)) := None.
#[global] Instance EmptyResponse_message k : ProtoMessage (EmptyResponse k) := {
  proto_zero := mkEmptyResponse; MarshalToSizedBuffer _ := []; Size _ := 0;
  read_field := EmptyResponse_field k }.

(** ** The client

    A call over a connection names the full method, gives the request, and
    reports the header and the trailer that its call options ask for. *)

Definition MD : Type := gmap string (list string).
Record ServerMetadata : Type := mkServerMetadata { HeaderMD : MD; TrailerMD : MD }.

(** [grpc1.ClientConn] *)
Class ClientConn : Type := {
  Invoke : forall {Req Res} {PQ : ProtoMessage Req} {PS : ProtoMessage Res},
    string -> Req -> ServerMetadata * outcome Res
}.

(** The interface [QueryClient]. *)
Record QueryClient : Type := mkQueryClient {
  client_Params : QueryParamsRequest -> ServerMetadata * outcome QueryParamsResponse;
  client_AttestationBitmap :
    QueryAttestationBitmapRequest -> ServerMetadata * outcome QueryAttestationBitmapResponse;
  client_EpochInfo : QueryEpochInfoRequest -> ServerMetadata * outcome QueryEpochInfoResponse;
  client_ValidatorIndex :
    QueryValidatorIndexRequest -> ServerMetadata * outcome QueryValidatorIndexResponse;
  client_SoftConfirmationStatus :
    SoftConfirmationRequest -> ServerMetadata * outcome QuerySoftConfirmationStatusResponse
}.

Definition NewQueryClient (cc : ClientConn) : QueryClient := {|
  client_Params := Invoke "/rollkitsdk.network.v1.Query/Params";
  client_AttestationBitmap := Invoke "/rollkitsdk.network.v1.Query/AttestationBitmap";
  client_EpochInfo := Invoke "/rollkitsdk.network.v1.Query/EpochInfo";
  client_ValidatorIndex := Invoke "/rollkitsdk.network.v1.Query/ValidatorIndex";
  client_SoftConfirmationStatus := Invoke "/rollkitsdk.network.v1.Query/SoftConfirmationStatus" |}.

(** ** The server *)

(** The interface [QueryServer]: a request may be a nil pointer. *)
Record QueryServer : Type := mkQueryServer {
  server_Params : option QueryParamsRequest -> M State QueryParamsResponse;
  server_AttestationBitmap :
    option QueryAttestationBitmapRequest -> M State QueryAttestationBitmapResponse;
  server_EpochInfo : option QueryEpochInfoRequest -> M State QueryEpochInfoResponse;
  server_ValidatorIndex : option QueryValidatorIndexRequest -> M State QueryValidatorIndexResponse;
  server_SoftConfirmationStatus :
    option SoftConfirmationRequest -> M State QuerySoftConfirmationStatusResponse
}.

(** [keeper.NewQueryServer]: the handlers of [Query], with their requests and
    responses as messages. *)
Definition NewQueryServer {CH : Chain} {C : Ctx} : QueryServer := {|
  server_Params req := p ← Query_Params ((fun _ => tt) <$> req); mret (mkParamsResponse p);
  server_AttestationBitmap req :=
    b ← Query_AttestationBitmap (abr_Height <$> req); mret (mkBitmapResponse (Some b));
  server_EpochInfo req := Query_EpochInfo (eir_Epoch <$> req);
  server_ValidatorIndex req :=
    v ← Query_ValidatorIndex (vir_Address <$> req); mret (mkValidatorIndexResponse (Some v));
  server_SoftConfirmationStatus req := Query_SoftConfirmationStatus (scr_Height <$> req) |}.

(** A message of a type that only its codec tells: an [interface{}]. *)
Record Message : Type := pack {
  msg_type : Type; msg_proto : ProtoMessage msg_type; msg_value : msg_type }.
Arguments pack {_ _} _.

(** [dec] fills the zero request that it gets; the interceptor is nil, as the
    application's query router calls the handlers. *)
Definition decoder : Type := forall A, ProtoMessage A -> outcome A.

Section handlers.
Context {S Req Res : Type} {PQ : ProtoMessage Req} {PS : ProtoMessage Res}.

(** The handlers [_Query_X_Handler], which differ in the method they call. *)
Definition unary_Handler (method : option Req -> M S Res) (dec : decoder) : M S Message :=
  inn ← lift (dec Req PQ);
  res ← method (Some inn);
  mret (pack res).
End handlers.

Definition MethodDesc : Type := string * (decoder -> M State Message).

Record ServiceDesc : Type := mkServiceDesc { ServiceName : string; Methods : list MethodDesc }.

(** [_Query_serviceDesc], with the server that is registered for it. *)
Definition _Query_serviceDesc (srv : QueryServer) : ServiceDesc := {|
  ServiceName := "rollkitsdk.network.v1.Query";
  Methods :=
    [ ("Params", unary_Handler (server_Params srv));
      ("AttestationBitmap", unary_Handler (server_AttestationBitmap srv));
      ("EpochInfo", unary_Handler (server_EpochInfo srv));
      ("ValidatorIndex", unary_Handler (server_ValidatorIndex srv));
      ("SoftConfirmationStatus", unary_Handler (server_SoftConfirmationStatus srv)) ] |}.
