(* ===== verification/Cli.v ===== *)
(** * The command line of the network module ([modules/network/client/cli])

    [query.go] and [tx.go].  A command is a record of its texts, its argument
    check, its body and its subcommands.  What a body does outside is a log:
    the messages it prints and those it hands to the transaction client.
    cobra and the SDK's client context are the class [CliEnv]. *)

From Stdlib Require Import ZArith Lia.
From stdpp Require Import base gmap strings list pretty.
From S2P Require Import Prelude Strconv Bitmap Sdk Types Keeper MsgServer Query Wire Codec QueryService.

Open Scope Z_scope.

Inductive CliCall : Type :=
| PrintedProto (m : Message)
| GeneratedTx (msg : Message).

Definition Out : Type := list CliCall.

(** [Cmd] is the running [*cobra.Command] with its parsed flags; [ExactArgs] and
    [NoArgs] are cobra's argument checks. *)
Class CliEnv : Type := {
  Cmd : Type;
  ClientContext : Type;
  ExactArgs : nat -> list string -> outcome unit;
  NoArgs : list string -> outcome unit;
  ValidateCmd : Cmd -> list string -> M Out unit;
  GetClientQueryContext : Cmd -> outcome ClientContext;
  GetClientTxContext : Cmd -> outcome ClientContext;
  context_conn : ClientContext -> ClientConn;
  GetFromAddress : ClientContext -> bytes;
  ValAddress_String : bytes -> string;
  PrintProto_result : ClientContext -> Message -> outcome unit;
  GenerateOrBroadcastTxCLI_result : ClientContext -> Cmd -> Message -> outcome unit
}.

(** What cobra documents about its argument checks. *)
Class CliLaws (E : CliEnv) : Prop := {
  ExactArgs_spec n args : ExactArgs n args = Ok tt <-> length args = n;
  NoArgs_spec args : NoArgs args = Ok tt <-> args = []
}.

Inductive FlagGroup : Set := QueryFlags | TxFlags.

Section cli.
Context {E : CliEnv}.

Inductive Command : Type := mkCommand {
  Use : string;
  Short : string;
  DisableFlagParsing : bool;
  SuggestionsMinimumDistance : Z;
  Args : option (list string -> outcome unit);
  RunE : Cmd -> list string -> M Out unit;
  flags : list FlagGroup;
  Commands : list Command
}.

Definition ModuleName : string := "network".

Definition PrintProto (clientCtx : ClientContext) (m : Message) : M Out unit :=
  modify (fun out => out ++ [PrintedProto m]) ;; lift (PrintProto_result clientCtx m).

Definition GenerateOrBroadcastTxCLI (clientCtx : ClientContext) (cmd : Cmd) (msg : Message) :
    M Out unit :=
  modify (fun out => out ++ [GeneratedTx msg]) ;;
  lift (GenerateOrBroadcastTxCLI_result clientCtx cmd msg).

(** [args[i]] *)
Definition arg (args : list string) (i : nat) : M Out string :=
  match args !! i with Some a => mret a | None => panic "index out of range" end.

(** [v, err := parse(...); if err != nil { return fmt.Errorf("text: %w", err) }] *)
Definition parsed (text : string) (r : Z * option error) : M Out Z :=
  match r with
  | (_, Some err) => fail (ErrWrap text err)
  | (v, None) => mret v
  end.

(** ** [query.go] *)

Definition CmdQueryParams : Command := {|
  Use := "params"; Short := "Query the current network parameters";
  DisableFlagParsing := false; SuggestionsMinimumDistance := 0;
  Args := Some NoArgs;
  RunE cmd args :=
    clientCtx ← lift (GetClientQueryContext cmd);
    let queryClient := NewQueryClient (context_conn clientCtx) in
    res ← lift (snd (client_Params queryClient mkQueryParamsRequest));
    PrintProto clientCtx (pack res);
  flags := [QueryFlags]; Commands := [] |}.

Definition CmdQueryAttestationBitmap : Command := {|
  Use := "attestation [height]"; Short := "Query the attestation bitmap for a specific height";
  DisableFlagParsing := false; SuggestionsMinimumDistance := 0;
  Args := Some (ExactArgs 1);
  RunE cmd args :=
    clientCtx ← lift (GetClientQueryContext cmd);
    a ← arg args 0;
    height ← parsed "invalid height" (ParseInt a);
    let queryClient := NewQueryClient (context_conn clientCtx) in
    res ← lift (snd (client_AttestationBitmap queryClient (mkBitmapRequest height)));
    PrintProto clientCtx (pack res);
  flags := [QueryFlags]; Commands := [] |}.

Definition CmdQueryEpochInfo : Command := {|
  Use := "epoch [epoch-number]"; Short := "Query information about a specific epoch";
  DisableFlagParsing := false; SuggestionsMinimumDistance := 0;
  Args := Some (ExactArgs 1);
  RunE cmd args :=
    clientCtx ← lift (GetClientQueryContext cmd);
    a ← arg args 0;
    epoch ← parsed "invalid epoch" (ParseUint a);
    let queryClient := NewQueryClient (context_conn clientCtx) in
    res ← lift (snd (client_EpochInfo queryClient (mkEpochInfoRequest epoch)));
    PrintProto clientCtx (pack res);
  flags := [QueryFlags]; Commands := [] |}.

Definition CmdQueryValidatorIndex : Command := {|
  Use := "validator-index [address]"; Short := "Query the bitmap index for a validator";
  DisableFlagParsing := false; SuggestionsMinimumDistance := 0;
  Args := Some (ExactArgs 1);
  RunE cmd args :=
    clientCtx ← lift (GetClientQueryContext cmd);
    let queryClient := NewQueryClient (context_conn clientCtx) in
    a ← arg args 0;
    res ← lift (snd (client_ValidatorIndex queryClient (mkValidatorIndexRequest a)));
    PrintProto clientCtx (pack res);
  flags := [QueryFlags]; Commands := [] |}.

Definition CmdQuerySoftConfirmationStatus : Command := {|
  Use := "soft-confirmation [height]"; Short := "Query if a height is soft-confirmed";
  DisableFlagParsing := false; SuggestionsMinimumDistance := 0;
  Args := Some (ExactArgs 1);
  RunE cmd args :=
    clientCtx ← lift (GetClientQueryContext cmd);
    a ← arg args 0;
    height ← parsed "invalid height" (ParseInt a);
    let queryClient := NewQueryClient (context_conn clientCtx) in
    res ← lift (snd (client_SoftConfirmationStatus queryClient (mkSoftConfirmationRequest height)));
    PrintProto clientCtx (pack res);
  flags := [QueryFlags]; Commands := [] |}.

Definition GetQueryCmd (queryRoute : string) : Command := {|
  Use := ModuleName; Short := "Querying commands for the " +:+ ModuleName +:+ " module";
  DisableFlagParsing := true; SuggestionsMinimumDistance := 2;
  Args := None; RunE := ValidateCmd; flags := [];
  Commands :=
    [ CmdQueryParams; CmdQueryAttestationBitmap; CmdQueryEpochInfo; CmdQueryValidatorIndex;
      CmdQuerySoftConfirmationStatus ] |}.

(** ** [tx.go] *)

Definition CmdAttest : Command := {|
  Use := "attest [height] [vote-base64]"; Short := "Submit an attestation for a checkpoint height";
  DisableFlagParsing := false; SuggestionsMinimumDistance := 0;
  Args := Some (ExactArgs 2);
  RunE cmd args :=
    clientCtx ← lift (GetClientTxContext cmd);
    a ← arg args 0;
    height ← parsed "invalid height" (ParseInt a);
    v ← arg args 1;
    let vote := bytes_of_string v in
    let valAddress := ValAddress_String (GetFromAddress clientCtx) in
    let msg := NewMsgAttest valAddress height vote in
    GenerateOrBroadcastTxCLI clientCtx cmd (pack msg);
  flags := [TxFlags]; Commands := [] |}.

Definition CmdJoinAttesterSet : Command := {|
  Use := "join-attester"; Short := "Join the attester set as a validator";
  DisableFlagParsing := false; SuggestionsMinimumDistance := 0;
  Args := Some NoArgs;
  RunE cmd args :=
    clientCtx ← lift (GetClientTxContext cmd);
    let valAddress := ValAddress_String (GetFromAddress clientCtx) in
    let msg := NewMsgJoinAttesterSet valAddress in
    GenerateOrBroadcastTxCLI clientCtx cmd (pack msg);
  flags := [TxFlags]; Commands := [] |}.

Definition CmdLeaveAttesterSet : Command := {|
  Use := "leave-attester"; Short := "Leave the attester set as a validator";
  DisableFlagParsing := false; SuggestionsMinimumDistance := 0;
  Args := Some NoArgs;
  RunE cmd args :=
    clientCtx ← lift (GetClientTxContext cmd);
    let valAddress := ValAddress_String (GetFromAddress clientCtx) in
    let msg := NewMsgLeaveAttesterSet valAddress in
    GenerateOrBroadcastTxCLI clientCtx cmd (pack msg);
  flags := [TxFlags]; Commands := [] |}.

Definition GetTxCmd : Command := {|
  Use := ModuleName; Short := ModuleName +:+ " transactions subcommands";
  DisableFlagParsing := true; SuggestionsMinimumDistance := 2;
  Args := None; RunE := ValidateCmd; flags := [];
  Commands := [ CmdAttest; CmdJoinAttesterSet; CmdLeaveAttesterSet ] |}.
End cli.
