(* ===== verification/Gateway.v ===== *)
(** * The REST gateways ([modules/*/types/query.pb.gw.go])

    A gateway translates an HTTP request into a call of the query service: of a
    client, over a connection ([request_*]), or of a server in the same process
    ([local_request_*]).  A route is a method, a pattern and a handler; what a
    handler does with the HTTP response is its [Reply].  [NetworkGateway] and
    [RollkitmngrGateway] are the gateways of the two modules.  The gateway's
    runtime library is the class [Runtime]. *)

From Stdlib Require Import ZArith Lia.
From stdpp Require Import base gmap strings list pretty.
From S2P Require Import Prelude Bitmap Sdk Types Keeper MsgServer Query Wire Codec QueryService Rollkitmngr.

Open Scope Z_scope.

(** [req] is an [*http.Request]; the annotations put its metadata into a
    context, which is only passed on. *)
Class Runtime : Type := {
  http_Request : Type;
  runtime_Int64 : string -> outcome Z;
  runtime_Uint64 : string -> outcome Z;
  runtime_String : string -> outcome string;
  AnnotateContext : http_Request -> outcome unit;
  AnnotateIncomingContext : http_Request -> outcome unit;
  metadata_Join : MD -> MD -> MD
}.

Definition pathParams : Type := gmap string string.

(** [status.Errorf(codes.InvalidArgument, ...)] *)
Definition gw_InvalidArgument (text : string) : error :=
  ErrWrap text (ErrSentinel "codes.InvalidArgument").

(** [runtime.HTTPError] and [runtime.ForwardResponseMessage], with the metadata
    of the context if it has some. *)
Inductive Reply (Msg : Type) : Type :=
| HTTPError (md : option ServerMetadata) (err : error)
| ForwardResponseMessage (md : ServerMetadata) (resp : Msg).
Arguments HTTPError {Msg} _ _.
Arguments ForwardResponseMessage {Msg} _ _.

(** [runtime.NewPattern(version, ops, pool, verb, AssumeColonVerbOpt(b))] *)
Record Pattern : Type := mkPattern {
  pat_version : Z; pat_ops : list Z; pat_pool : list string; pat_verb : string; pat_colon : bool }.

Definition MustPattern (ops : list Z) (pool : list string) : Pattern := mkPattern 1 ops pool "" false.

(** The operations of a path of four literals, and of one that ends in a
    parameter; [pool] holds the literals and the name of the parameter. *)
Definition literal_ops : list Z := [2; 0; 2; 1; 2; 2; 2; 3].

Section gateway.
Context {RT : Runtime} {S Msg : Type}.

(** [val, ok = pathParams[name]; if !ok { ... }], then the conversion. *)
Definition path_param {A} (name : string) (convert : string -> outcome A) (params : pathParams) :
    outcome A :=
  match params !! name with
  | None => Err (gw_InvalidArgument ("missing parameter " +:+ name))
  | Some val =>
      match convert val with
      | Err _ => Err (gw_InvalidArgument ("type mismatch, parameter: " +:+ name))
      | r => r
      end
  end.

Definition zero_metadata : ServerMetadata := mkServerMetadata ∅ ∅.

(** A call of the client with the request, if it could be built. *)
Definition with_request {Req Res} (protoReq : outcome Req)
    (method : Req -> ServerMetadata * outcome Res) (as_message : Res -> Msg) :
    ServerMetadata * outcome Msg :=
  match protoReq with
  | Ok req => let '(metadata, r) := method req in (metadata, m ← r; Ok (as_message m))
  | Err e => (zero_metadata, Err e)
  | Panic t => (zero_metadata, Panic t)
  end.

(** A call of the server; the metadata stays the zero value. *)
Definition with_local_request {Req Res} (protoReq : outcome Req)
    (method : option Req -> M S Res) (as_message : Res -> Msg) : M S Msg :=
  req ← lift protoReq;
  r ← method (Some req);
  mret (as_message r).

Definition Handler : Type := http_Request -> pathParams -> M S (Reply Msg).

Record Route : Type := mkRoute { rt_method : string; rt_pattern : Pattern; rt_handler : Handler }.

(** [runtime.ServeMux]: what [mux.Handle] was called with. *)
Definition ServeMux : Type := list Route.

Definition Handle (mux : ServeMux) (method : string) (pattern : Pattern) (h : Handler) : ServeMux :=
  mux ++ [mkRoute method pattern h].

(** [runtime.ServerTransportStream]: the query servers put nothing on it. *)
Definition stream : ServerMetadata := mkServerMetadata ∅ ∅.

(** The handler that [RegisterQueryHandlerServer] gives to each route. *)
Definition server_handler (local_request : pathParams -> M S Msg) : Handler := fun req params s =>
  match AnnotateIncomingContext req with
  | Err err => (s, Ok (HTTPError None err))
  | Panic t => (s, Panic t)
  | Ok _ =>
      let '(s', resp) := local_request params s in
      let md := mkServerMetadata (metadata_Join ∅ (HeaderMD stream))
                  (metadata_Join ∅ (TrailerMD stream)) in
      match resp with
      | Err err => (s', Ok (HTTPError (Some md) err))
      | Panic t => (s', Panic t)
      | Ok m => (s', Ok (ForwardResponseMessage md m))
      end
  end.

(** The handler that [RegisterQueryHandlerClient] gives to each route. *)
Definition client_handler (request : pathParams -> ServerMetadata * outcome Msg) : Handler :=
  fun req params s =>
  match AnnotateContext req with
  | Err err => (s, Ok (HTTPError None err))
  | Panic t => (s, Panic t)
  | Ok _ =>
      let '(md, resp) := request params in
      match resp with
      | Err err => (s, Ok (HTTPError (Some md) err))
      | Panic t => (s, Panic t)
      | Ok m => (s, Ok (ForwardResponseMessage md m))
      end
  end.
End gateway.

(** [RegisterQueryHandlerFromEndpoint]: the connection is closed when the
    registration fails, or else when the context is done. *)
Inductive GatewayCall : Set := CloseConn | CloseConnWhenDone.

Section endpoint.
Context {RT : Runtime} {S Msg : Type} (Dial : string -> outcome ClientConn).
Context (RegisterQueryHandler : ServeMux (S := S) (Msg := Msg) -> ClientConn ->
  ServeMux (S := S) (Msg := Msg) * option error).

Definition from_endpoint (mux : ServeMux) (endpoint : string) :
    ServeMux * list GatewayCall * outcome unit :=
  match Dial endpoint with
  | Err err => (mux, [], Err err)
  | Panic t => (mux, [], Panic t)
  | Ok conn =>
      let '(mux', err) := RegisterQueryHandler mux conn in
      match err with
      | Some e => (mux', [CloseConn], Err e)
      | None => (mux', [CloseConnWhenDone], Ok tt)
      end
  end.
End endpoint.

(** ** The network module's gateway *)

Module NetworkGateway.
Section network.
Context {RT : Runtime}.

Definition request_Query_Params_0 (client : QueryClient) (params : pathParams) :
    ServerMetadata * outcome Message :=
  with_request (Ok mkQueryParamsRequest) (client_Params client) pack.
Definition local_request_Query_Params_0 (server : QueryServer) (params : pathParams) :
    M State Message :=
  with_local_request (Ok mkQueryParamsRequest) (server_Params server) pack.

Definition request_Query_AttestationBitmap_0 (client : QueryClient) (params : pathParams) :
    ServerMetadata * outcome Message :=
  with_request (h ← path_param "height" runtime_Int64 params; Ok (mkBitmapRequest h))
    (client_AttestationBitmap client) pack.
Definition local_request_Query_AttestationBitmap_0 (server : QueryServer) (params : pathParams) :
    M State Message :=
  with_local_request (h ← path_param "height" runtime_Int64 params; Ok (mkBitmapRequest h))
    (server_AttestationBitmap server) pack.

Definition request_Query_EpochInfo_0 (client : QueryClient) (params : pathParams) :
    ServerMetadata * outcome Message :=
  with_request (e ← path_param "epoch" runtime_Uint64 params; Ok (mkEpochInfoRequest e))
    (client_EpochInfo client) pack.
Definition local_request_Query_EpochInfo_0 (server : QueryServer) (params : pathParams) :
    M State Message :=
  with_local_request (e ← path_param "epoch" runtime_Uint64 params; Ok (mkEpochInfoRequest e))
    (server_EpochInfo server) pack.

Definition request_Query_ValidatorIndex_0 (client : QueryClient) (params : pathParams) :
    ServerMetadata * outcome Message :=
  with_request (a ← path_param "address" runtime_String params; Ok (mkValidatorIndexRequest a))
    (client_ValidatorIndex client) pack.
Definition local_request_Query_ValidatorIndex_0 (server : QueryServer) (params : pathParams) :
    M State Message :=
  with_local_request (a ← path_param "address" runtime_String params; Ok (mkValidatorIndexRequest a))
    (server_ValidatorIndex server) pack.

Definition request_Query_SoftConfirmationStatus_0 (client : QueryClient) (params : pathParams) :
    ServerMetadata * outcome Message :=
  with_request (h ← path_param "height" runtime_Int64 params; Ok (mkSoftConfirmationRequest h))
    (client_SoftConfirmationStatus client) pack.
Definition local_request_Query_SoftConfirmationStatus_0 (server : QueryServer) (params : pathParams) :
    M State Message :=
  with_local_request (h ← path_param "height" runtime_Int64 params; Ok (mkSoftConfirmationRequest h))
    (server_SoftConfirmationStatus server) pack.

Definition pattern_Query_Params_0 : Pattern :=
  MustPattern literal_ops ["rollkit"; "network"; "v1"; "params"].
Definition pattern_Query_AttestationBitmap_0 : Pattern :=
  MustPattern (literal_ops ++ [1; 0; 4; 1; 5; 4])
    ["rollkit"; "network"; "v1"; "attestation"; "height"].
Definition pattern_Query_EpochInfo_0 : Pattern :=
  MustPattern (literal_ops ++ [1; 0; 4; 1; 5; 3]) ["rollkit"; "network"; "v1"; "epoch"].
Definition pattern_Query_ValidatorIndex_0 : Pattern :=
  MustPattern (literal_ops ++ [1; 0; 4; 1; 5; 4])
    ["rollkit"; "network"; "v1"; "validator"; "address"].
Definition pattern_Query_SoftConfirmationStatus_0 : Pattern :=
  MustPattern (literal_ops ++ [1; 0; 4; 1; 5; 4])
    ["rollkit"; "network"; "v1"; "soft-confirmation"; "height"].

Definition RegisterQueryHandlerServer (mux : ServeMux) (server : QueryServer) :
    ServeMux * option error :=
  let mux := Handle mux "GET" pattern_Query_Params_0
    (server_handler (local_request_Query_Params_0 server)) in
  let mux := Handle mux "GET" pattern_Query_AttestationBitmap_0
    (server_handler (local_request_Query_AttestationBitmap_0 server)) in
  let mux := Handle mux "GET" pattern_Query_EpochInfo_0
    (server_handler (local_request_Query_EpochInfo_0 server)) in
  let mux := Handle mux "GET" pattern_Query_ValidatorIndex_0
    (server_handler (local_request_Query_ValidatorIndex_0 server)) in
  let mux := Handle mux "GET" pattern_Query_SoftConfirmationStatus_0
    (server_handler (local_request_Query_SoftConfirmationStatus_0 server)) in
  (mux, None).

Definition RegisterQueryHandlerClient (mux : ServeMux (S := State)) (client : QueryClient) :
    ServeMux * option error :=
  let mux := Handle mux "GET" pattern_Query_Params_0
    (client_handler (request_Query_Params_0 client)) in
  let mux := Handle mux "GET" pattern_Query_AttestationBitmap_0
    (client_handler (request_Query_AttestationBitmap_0 client)) in
  let mux := Handle mux "GET" pattern_Query_EpochInfo_0
    (client_handler (request_Query_EpochInfo_0 client)) in
  let mux := Handle mux "GET" pattern_Query_ValidatorIndex_0
    (client_handler (request_Query_ValidatorIndex_0 client)) in
  let mux := Handle mux "GET" pattern_Query_SoftConfirmationStatus_0
    (client_handler (request_Query_SoftConfirmationStatus_0 client)) in
  (mux, None).

Definition RegisterQueryHandler (mux : ServeMux (S := State)) (conn : ClientConn) :
    ServeMux * option error :=
  RegisterQueryHandlerClient mux (NewQueryClient conn).

Definition RegisterQueryHandlerFromEndpoint (Dial : string -> outcome ClientConn)
    (mux : ServeMux) (endpoint : string) : ServeMux * list GatewayCall * outcome unit :=
  from_endpoint Dial RegisterQueryHandler mux endpoint.
End network.
End NetworkGateway.

(** ** The gateway of the migration manager

    Its three queries have no parameter.  Client and server are the interfaces
    of the generated code; an answer is one of the three messages. *)

Module RollkitmngrGateway.
Section rollkitmngr.
Context {RT : Runtime}.

Inductive Response : Type :=
| IsMigratingResponse (r : QueryIsMigratingResponse)
| SequencerResponse (r : types_Sequencer)
| AttestersResponse (r : list types_Attester).

Record QueryClient : Type := mkQueryClient {
  client_IsMigrating : unit -> ServerMetadata * outcome QueryIsMigratingResponse;
  client_Sequencer : unit -> ServerMetadata * outcome types_Sequencer;
  client_Attesters : unit -> ServerMetadata * outcome (list types_Attester)
}.

Record QueryServer : Type := mkQueryServer {
  server_IsMigrating : option unit -> M MngrState QueryIsMigratingResponse;
  server_Sequencer : option unit -> M MngrState types_Sequencer;
  server_Attesters : option unit -> M MngrState (list types_Attester)
}.

(** [keeper.NewQueryServer] *)
Definition NewQueryServer {MN : Mngr} {C : Ctx} : QueryServer := {|
  server_IsMigrating _ := gets Query_IsMigrating;
  server_Sequencer _ := o ← gets Query_Sequencer; lift o;
  server_Attesters _ := lift Query_Attesters |}.

Definition request_Query_IsMigrating_0 (client : QueryClient) (params : pathParams) :
    ServerMetadata * outcome Response :=
  with_request (Ok tt) (client_IsMigrating client) IsMigratingResponse.
Definition local_request_Query_IsMigrating_0 (server : QueryServer) (params : pathParams) :
    M MngrState Response :=
  with_local_request (Ok tt) (server_IsMigrating server) IsMigratingResponse.

Definition request_Query_Sequencer_0 (client : QueryClient) (params : pathParams) :
    ServerMetadata * outcome Response :=
  with_request (Ok tt) (client_Sequencer client) SequencerResponse.
Definition local_request_Query_Sequencer_0 (server : QueryServer) (params : pathParams) :
    M MngrState Response :=
  with_local_request (Ok tt) (server_Sequencer server) SequencerResponse.

Definition request_Query_Attesters_0 (client : QueryClient) (params : pathParams) :
    ServerMetadata * outcome Response :=
  with_request (Ok tt) (client_Attesters client) AttestersResponse.
Definition local_request_Query_Attesters_0 (server : QueryServer) (params : pathParams) :
    M MngrState Response :=
  with_local_request (Ok tt) (server_Attesters server) AttestersResponse.

Definition pattern_Query_IsMigrating_0 : Pattern :=
  MustPattern literal_ops ["rollkit"; "rollkitmngr"; "v1"; "is_migrating"].
Definition pattern_Query_Sequencer_0 : Pattern :=
  MustPattern literal_ops ["rollkit"; "rollkitmngr"; "v1"; "sequencer"].
Definition pattern_Query_Attesters_0 : Pattern :=
  MustPattern literal_ops ["rollkit"; "rollkitmngr"; "v1"; "attesters"].

Definition RegisterQueryHandlerServer (mux : ServeMux) (server : QueryServer) :
    ServeMux * option error :=
  let mux := Handle mux "GET" pattern_Query_IsMigrating_0
    (server_handler (local_request_Query_IsMigrating_0 server)) in
  let mux := Handle mux "GET" pattern_Query_Sequencer_0
    (server_handler (local_request_Query_Sequencer_0 server)) in
  let mux := Handle mux "GET" pattern_Query_Attesters_0
    (server_handler (local_request_Query_Attesters_0 server)) in
  (mux, None).

Definition RegisterQueryHandlerClient (mux : ServeMux (S := MngrState)) (client : QueryClient) :
    ServeMux * option error :=
  let mux := Handle mux "GET" pattern_Query_IsMigrating_0
    (client_handler (request_Query_IsMigrating_0 client)) in
  let mux := Handle mux "GET" pattern_Query_Sequencer_0
    (client_handler (request_Query_Sequencer_0 client)) in
  let mux := Handle mux "GET" pattern_Query_Attesters_0
    (client_handler (request_Query_Attesters_0 client)) in
  (mux, None).

Definition RegisterQueryHandler (NewQueryClient : ClientConn -> QueryClient)
    (mux : ServeMux (S := MngrState)) (conn : ClientConn) : ServeMux * option error :=
  RegisterQueryHandlerClient mux (NewQueryClient conn).

Definition RegisterQueryHandlerFromEndpoint (NewQueryClient : ClientConn -> QueryClient)
    (Dial : string -> outcome ClientConn) (mux : ServeMux) (endpoint : string) :
    ServeMux * list GatewayCall * outcome unit :=
  from_endpoint Dial (RegisterQueryHandler NewQueryClient) mux endpoint.
End rollkitmngr.
End RollkitmngrGateway.
