(* ===== verification/WireProps.v ===== *)
(** * Reading back what the wire format's writers write *)

From Stdlib Require Import ZArith Lia.
From stdpp Require Import base strings list numbers.
From S2P Require Import Prelude Bitmap Wire.

Open Scope Z_scope.

(** ** Variable-length integers *)

Lemma land_127 x : 0 <= x -> Z.land x 127 = x mod 128.
Proof. intros H. change 127 with (Z.ones 7). by rewrite Z.land_ones. Qed.

Lemma lor_shiftl a x s : 0 <= s -> 0 <= a < 2 ^ s -> 0 <= x -> Z.lor a (Z.shiftl x s) = a + x * 2 ^ s.
Proof.
  intros Hs Ha Hx. rewrite Z.shiftl_mul_pow2 by done.
  assert (Z.land a (x * 2 ^ s) = 0) as Hland.
  { apply Z.bits_inj'. intros n Hn. rewrite Z.land_spec, Z.bits_0.
    destruct (Z.lt_ge_cases n s).
    - by rewrite Z.mul_pow2_bits_low, andb_false_r by done.
    - rewrite <- (Z.mod_small a (2 ^ s)) by done.
      by rewrite Z.mod_pow2_bits_high by lia. }
  rewrite <- Z.lxor_lor by done. by rewrite Z.add_nocarry_lxor.
Qed.

Lemma varint_byte v : 0 <= v -> u8 (Z.lor (Z.land v 127) 128) = v mod 128 + 128.
Proof.
  intros Hv. rewrite land_127 by done. pose proof (Z.mod_pos_bound v 128 ltac:(lia)).
  change 128 with (Z.shiftl 1 7) at 2. rewrite lor_shiftl by (try change (2 ^ 7) with 128; lia).
  change (1 * 2 ^ 7) with 128. unfold u8, wrapU. change (2 ^ 8) with 256.
  by rewrite Z.mod_small by lia.
Qed.

Lemma pow2_split s : 0 <= s -> 2 ^ (s + 7) = 128 * 2 ^ s.
Proof. intros H. rewrite Z.pow_add_r by lia. change (2 ^ 7) with 128. lia. Qed.

Lemma varint_from_loop fuel v shift acc rest :
  0 <= v < 2 ^ (7 * (Z.of_nat fuel + 1)) -> v * 2 ^ shift < 2 ^ 64 ->
  0 <= shift < 64 -> 0 <= acc < 2 ^ shift ->
  varint_from shift acc (varint_loop fuel v ++ rest) = Ok (acc + v * 2 ^ shift, rest).
Proof.
  revert v shift acc. induction fuel as [|fuel IH]; intros v shift acc Hv Hov Hs Hacc.
  all: assert (0 < 2 ^ shift) as Hp by (apply Z.pow_pos_nonneg; lia).
  all: assert (forall x, 0 <= x <= v -> u64 (Z.shiftl x shift) = Z.shiftl x shift) as Hu64
    by (intros x Hx; unfold u64, wrapU; rewrite Z.shiftl_mul_pow2 by lia; apply Z.mod_small; nia).
  all: assert (forall b bs, b = v -> v < 128 -> varint_from shift acc (b :: bs) = Ok (acc + v * 2 ^ shift, bs)) as Hlast
    by (intros b bs -> Hlt; cbn [varint_from]; destruct (Z.leb_spec 64 shift); [lia|];
        rewrite land_127, Z.mod_small, Hu64, lor_shiftl by lia;
        destruct (Z.ltb_spec v 128); [done|lia]).
  - change (2 ^ (7 * (Z.of_nat 0 + 1))) with 128 in Hv. cbn [varint_loop app].
    apply Hlast; [|lia]. unfold u8, wrapU. apply Z.mod_small. change (2 ^ 8) with 256. lia.
  - cbn [varint_loop]. destruct (Z.leb_spec 128 v) as [Hge|Hlt].
    2: { apply Hlast; [|lia]. unfold u8, wrapU. apply Z.mod_small. change (2 ^ 8) with 256. lia. }
    rewrite varint_byte by lia. cbn [app varint_from].
    pose proof (Z.mod_pos_bound v 128 ltac:(lia)) as Hm.
    pose proof (Z.div_mod v 128 ltac:(lia)) as Hdm.
    assert (1 <= v / 128) as Hq by (apply Z.div_le_lower_bound; lia).
    assert (shift + 7 < 64) as Hs7.
    { apply Z.nle_gt. intros Hle. assert (2 ^ 64 <= 2 ^ (shift + 7)) by (apply Z.pow_le_mono_r; lia).
      rewrite pow2_split in * by lia. nia. }
    destruct (Z.leb_spec 64 shift); [lia|].
    rewrite land_127 by lia.
    replace ((v mod 128 + 128) mod 128) with (v mod 128)
      by (rewrite <- (Z.mul_1_l 128) at 3; rewrite Z.mod_add, Z.mod_mod by lia; done).
    rewrite Hu64, lor_shiftl by lia.
    destruct (Z.ltb_spec (v mod 128 + 128) 128); [lia|].
    rewrite Z.shiftr_div_pow2 by lia. change (2 ^ 7) with 128.
    rewrite IH; rewrite ?pow2_split by lia.
    + do 2 f_equal. nia.
    + split; [lia|]. apply Z.div_lt_upper_bound; [lia|].
      replace (7 * (Z.of_nat (S fuel) + 1)) with (7 * (Z.of_nat fuel + 1) + 7) in Hv by lia.
      rewrite pow2_split in Hv by lia. lia.
    + nia.
    + lia.
    + nia.
Qed.

Lemma decode_encodeVarint v rest :
  is_u64 v -> decodeVarint (encodeVarint v ++ rest) = Ok (v, rest).
Proof.
  intros Hv. unfold decodeVarint, encodeVarint. unfold is_u64, max_u64 in Hv.
  rewrite varint_from_loop.
  - by rewrite Z.mul_1_r.
  - change (2 ^ (7 * (Z.of_nat 9 + 1))) with 1180591620717411303424. lia.
  - change (2 ^ 64) with 18446744073709551616. change (2 ^ 0) with 1. lia.
  - lia.
  - change (2 ^ 0) with 1. lia.
Qed.

Lemma sov_log2 v : 0 <= v -> sov v = Z.log2 v / 7 + 1.
Proof.
  intros Hv. unfold sov, Len64.
  assert (Z.lor v 1 <> 0) by (intros E; apply Z.lor_eq_0_iff in E; lia).
  destruct (Z.eqb_spec (Z.lor v 1) 0); [done|].
  rewrite Z.log2_lor by lia. change (Z.log2 1) with 0. rewrite Z.max_l by apply Z.log2_nonneg.
  replace (Z.log2 v + 1 + 6) with (Z.log2 v + 1 * 7) by lia. by rewrite Z.div_add by lia.
Qed.

Lemma length_varint_loop fuel v :
  0 <= v < 2 ^ (7 * (Z.of_nat fuel + 1)) -> Z.of_nat (length (varint_loop fuel v)) = sov v.
Proof.
  revert v. induction fuel as [|fuel IH]; intros v Hv; rewrite sov_log2 by lia.
  - change (2 ^ (7 * (Z.of_nat 0 + 1))) with 128 in Hv. cbn.
    rewrite Z.div_small; [done|]. split; [apply Z.log2_nonneg|].
    destruct (decide (v = 0)) as [->|]; [done|]. apply Z.log2_lt_pow2; [lia|]. change (2 ^ 7) with 128. lia.
  - cbn [varint_loop]. destruct (Z.leb_spec 128 v) as [Hge|Hlt].
    + cbn [length]. rewrite Nat2Z.inj_succ, IH.
      * rewrite Z.shiftr_div_pow2 by lia. change (2 ^ 7) with 128.
        assert (1 <= v / 128) by (apply Z.div_le_lower_bound; lia).
        rewrite sov_log2 by lia.
        assert (Z.log2 (v / 128) = Z.log2 v - 7) as ->.
        { change 128 with (2 ^ 7). rewrite <- Z.shiftr_div_pow2 by lia.
          rewrite Z.log2_shiftr by lia. apply Z.max_r.
          assert (7 <= Z.log2 v) by (apply Z.log2_le_pow2; [lia|]; change (2 ^ 7) with 128; lia). lia. }
        replace (Z.log2 v - 7) with (Z.log2 v + (-1) * 7) by lia. rewrite Z.div_add by lia. lia.
      * rewrite Z.shiftr_div_pow2 by lia. change (2 ^ 7) with 128.
        split; [apply Z.div_pos; lia|]. apply Z.div_lt_upper_bound; [lia|].
        replace (7 * (Z.of_nat (S fuel) + 1)) with (7 * (Z.of_nat fuel + 1) + 7) in Hv by lia.
        rewrite pow2_split in Hv by lia. lia.
    + cbn. rewrite Z.div_small; [done|]. split; [apply Z.log2_nonneg|].
      destruct (decide (v = 0)) as [->|]; [done|]. apply Z.log2_lt_pow2; [lia|].
      change (2 ^ 7) with 128. lia.
Qed.

Lemma length_encodeVarint v : is_u64 v -> Z.of_nat (length (encodeVarint v)) = sov v.
Proof.
  intros Hv. apply length_varint_loop. unfold is_u64, max_u64 in Hv.
  change (2 ^ (7 * (Z.of_nat 9 + 1))) with 1180591620717411303424. lia.
Qed.

(** ** Sizes *)

Lemma length_put_varint tag v d :
  Z.of_nat (length (put_varint tag v d)) = size_varint v + Z.of_nat (length d).
Proof.
  unfold put_varint, size_varint. destruct (v =? 0); cbn [negb]; [lia|].
  cbn [length]. rewrite length_app, Nat2Z.inj_succ, Nat2Z.inj_add, length_encodeVarint; [lia|].
  apply u64_range.
Qed.

Lemma length_put_bytes tag x d :
  Z.of_nat (length x) <= max_i64 ->
  Z.of_nat (length (put_bytes tag x d)) = size_bytes x + Z.of_nat (length d).
Proof.
  intros Hx. unfold put_bytes, size_bytes.
  destruct (Nat.ltb_spec 0 (length x)), (Z.ltb_spec 0 (Z.of_nat (length x))); try lia.
  cbn [length]. rewrite !length_app, Nat2Z.inj_succ, !Nat2Z.inj_add, length_encodeVarint; [lia|].
  unfold is_u64, max_u64, max_i64 in *. lia.
Qed.

Lemma length_put_bool tag b d :
  Z.of_nat (length (put_bool tag b d)) = size_bool b + Z.of_nat (length d).
Proof. destruct b; cbn [put_bool size_bool length]; lia. Qed.

Lemma put_bytes_suffix tag x d : (length x + length d <= length (put_bytes tag x d))%nat.
Proof.
  unfold put_bytes. destruct (Nat.ltb_spec 0 (length x)); cbn [length]; [|lia].
  rewrite !length_app. lia.
Qed.

(** ** Parsing *)

(** With this reader the bytes turn the message [m] into [m'], anywhere in a
    buffer of [total] bytes. *)
Definition parses {A} (field : A -> Z -> Z -> bytes -> option (outcome (A * bytes))) (total : Z)
    (m m' : A) (dAtA : bytes) : Prop :=
  forall fuel, (length dAtA <= fuel)%nat -> Z.of_nat (length dAtA) <= total <= max_i64 ->
  unmarshal_loop fuel total field m dAtA = Ok m'.

Section parses.
Context {A : Type} (field : A -> Z -> Z -> bytes -> option (outcome (A * bytes))) (total : Z).

Lemma parses_nil m : parses field total m m [].
Proof. by intros [|fuel] _ _. Qed.

Lemma decodeVarint_small tag rest : 0 <= tag < 128 -> decodeVarint (tag :: rest) = Ok (tag, rest).
Proof.
  intros Ht. unfold decodeVarint. cbn [varint_from]. destruct (Z.leb_spec 64 0); [lia|].
  rewrite land_127, Z.mod_small, Z.shiftl_0_r by lia. rewrite u64_small by int_lia.
  rewrite Z.lor_0_l. destruct (Z.ltb_spec tag 128); [done|lia].
Qed.

Lemma parses_field num wireType m m1 m' rest rest' :
  1 <= num <= 15 -> 0 <= wireType < 8 -> wireType <> 4 ->
  field m num wireType rest = Some (Ok (m1, rest')) -> (length rest' <= length rest)%nat ->
  parses field total m1 m' rest' -> parses field total m m' (8 * num + wireType :: rest).
Proof.
  intros Hn Hw H4 Hf Hl Hp [|fuel] Hfuel Ht; cbn [length] in *; [lia|]. cbn [unmarshal_loop].
  rewrite decodeVarint_small by lia. cbn [mbind outcome_bind].
  assert (Z.shiftr (8 * num + wireType) 3 = num) as ->.
  { rewrite Z.shiftr_div_pow2 by lia. change (2 ^ 3) with 8.
    symmetry. apply (Z.div_unique _ _ _ wireType); lia. }
  assert (Z.land (8 * num + wireType) 7 = wireType) as ->.
  { change 7 with (Z.ones 3). rewrite Z.land_ones by lia. change (2 ^ 3) with 8.
    symmetry. apply (Z.mod_unique _ _ num); lia. }
  replace (i32 num) with num by (unfold i32, wrapS; change (2 ^ (32 - 1)) with 2147483648;
    change (2 ^ 32) with 4294967296; rewrite Z.mod_small; lia).
  destruct (Z.eqb_spec wireType 4); [done|]. destruct (Z.leb_spec num 0); [lia|].
  rewrite Hf. cbn. apply Hp; lia.
Qed.

Lemma parses_varint num set m m' v rest :
  1 <= num <= 15 -> (forall rest, field m num 0 rest = Some (get_varint 0 set rest)) ->
  (v = 0 -> set (u64 v) = m) -> parses field total (set (u64 v)) m' rest ->
  parses field total m m' (put_varint (8 * num) v rest).
Proof.
  intros Hn Hf H0 Hp. unfold put_varint. destruct (Z.eqb_spec v 0) as [E|]; cbn [negb].
  { by rewrite <- (H0 E). }
  rewrite <- (Z.add_0_r (8 * num)). eapply parses_field; [lia..| | |exact Hp].
  - rewrite Hf. unfold get_varint. cbn [Z.eqb negb].
    rewrite decode_encodeVarint by apply u64_range. done.
  - rewrite length_app. lia.
Qed.

Lemma parses_bool num set m m' (b : bool) rest :
  1 <= num <= 15 -> (forall rest, field m num 0 rest = Some (get_varint 0 set rest)) ->
  set 0 = m -> parses field total (set (if b then 1 else 0)) m' rest ->
  parses field total m m' (put_bool (8 * num) b rest).
Proof.
  intros Hn Hf H0 Hp. destruct b; cbn [put_bool]; [|by rewrite <- H0].
  rewrite <- (Z.add_0_r (8 * num)). eapply parses_field; [lia..| | |exact Hp].
  - rewrite Hf. unfold get_varint. cbn [Z.eqb negb]. by rewrite decodeVarint_small by lia.
  - cbn. lia.
Qed.

Lemma get_bytes_run {B} (set : bytes -> B) x rest :
  Z.of_nat (length x + length rest) <= total <= max_i64 ->
  get_bytes total 2 set (encodeVarint (Z.of_nat (length x)) ++ x ++ rest) = Ok (set x, rest).
Proof.
  intros Hx. unfold get_bytes. cbn [Z.eqb Pos.eqb negb].
  rewrite decode_encodeVarint by (unfold is_u64, max_u64, max_i64 in *; lia).
  cbn [mbind outcome_bind].
  rewrite (i64_small (Z.of_nat (length x))) by (unfold is_i64, max_i64 in *; lia).
  rewrite length_app.
  rewrite i64_small by (unfold is_i64, max_i64 in *; lia).
  destruct (Z.ltb_spec (Z.of_nat (length x)) 0); [lia|].
  destruct (Z.ltb_spec (total - Z.of_nat (length x + length rest) + Z.of_nat (length x)) 0); [lia|].
  destruct (Z.ltb_spec (Z.of_nat (length x + length rest)) (Z.of_nat (length x))); [lia|].
  rewrite Nat2Z.id, take_app_length, drop_app_length. done.
Qed.

(** A length-delimited field, whatever its reader does with the bytes. *)
Lemma parses_delimited num m m1 m' x rest :
  1 <= num <= 15 ->
  (Z.of_nat (length x + length rest) <= total <= max_i64 ->
   field m num 2 (encodeVarint (Z.of_nat (length x)) ++ x ++ rest) = Some (Ok (m1, rest))) ->
  parses field total m1 m' rest ->
  parses field total m m' (8 * num + 2 :: encodeVarint (Z.of_nat (length x)) ++ x ++ rest).
Proof.
  intros Hn Hf Hp fuel Hfuel Ht.
  assert (Z.of_nat (length x + length rest) <= total).
  { cbn [length] in Ht. rewrite !length_app in Ht. lia. }
  eapply (parses_field num 2); [lia..|apply Hf; lia| |exact Hp|done|done].
  rewrite !length_app. lia.
Qed.

Lemma parses_bytes num set m m' x rest :
  1 <= num <= 15 -> (forall rest, field m num 2 rest = Some (get_bytes total 2 set rest)) ->
  (x = [] -> set x = m) -> parses field total (set x) m' rest ->
  parses field total m m' (put_bytes (8 * num + 2) x rest).
Proof.
  intros Hn Hf H0 Hp. unfold put_bytes. destruct (Nat.ltb_spec 0 (length x)).
  - eapply parses_delimited; [done| |exact Hp]. intros Hx. by rewrite Hf, get_bytes_run.
  - rewrite <- H0; [done|]. apply nil_length_inv. lia.
Qed.
End parses.
