(* ===== verification/CodecProps.v ===== *)
(** * The codecs: sizes and round trips *)

From Stdlib Require Import ZArith Lia Ascii String.
From stdpp Require Import base gmap strings list numbers pretty.
From S2P Require Import Prelude Bitmap Sdk Types Keeper MsgServer Query Wire Codec QueryService WireProps.

Open Scope Z_scope.
Close Scope string_scope.

(** ** Conversions of the fields *)

Lemma i64_u64 z : is_i64 z -> i64 (u64 z) = z.
Proof. int_lia. Qed.
Lemma i32_u64 z : is_i32 z -> i32 (u64 z) = z.
Proof.
  unfold is_i32, i32, u64, wrapS, wrapU. change (2 ^ 64) with 18446744073709551616.
  change (2 ^ (32 - 1)) with 2147483648. change (2 ^ 32) with 4294967296.
  Z.to_euclidean_division_equations. lia.
Qed.
Lemma u32_u64 z : is_u32 z -> u32 (u64 z) = z.
Proof. unfold is_u32. int_lia. Qed.

Lemma string_of_bytes_of_string s : string_of_bytes (bytes_of_string s) = s.
Proof.
  unfold string_of_bytes, bytes_of_string. rewrite <- list_fmap_compose.
  rewrite <- (string_of_list_ascii_of_string s) at 2. f_equal.
  rewrite <- (list_fmap_id (list_ascii_of_string s)) at 2. apply list_fmap_ext.
  intros i c _. cbn. by rewrite Nat2Z.id, ascii_nat_embedding.
Qed.

Lemma parses_string {A} (field : A -> Z -> Z -> bytes -> option (outcome (A * bytes))) total
    num set m m' s rest :
  1 <= num <= 15 -> (forall rest, field m num 2 rest = Some (get_string total 2 set rest)) ->
  (s = "" -> set s = m)%string -> parses field total (set s) m' rest ->
  parses field total m m' (put_string (8 * num + 2) s rest).
Proof.
  intros Hn Hf H0 Hp. eapply (parses_bytes _ _ num (fun x => set (string_of_bytes x))); [done|done| |].
  - rewrite string_of_bytes_of_string. intros E. apply H0. rewrite <- (string_of_bytes_of_string s), E. done.
  - by rewrite string_of_bytes_of_string.
Qed.

(** ** What a codec promises *)

Definition is_len {A} (l : list A) : Prop := Z.of_nat (length l) <= max_i64.
Definition str_len (s : string) : Prop := is_len (bytes_of_string s).

(** [well_typed]: the fields are values of their Go types. *)
Class MessageLaws (A : Type) `{PM : ProtoMessage A} : Type := {
  well_typed : A -> Prop;
  Size_spec m : well_typed m -> Size m = Z.of_nat (length (MarshalToSizedBuffer m));
  parse_spec m total : well_typed m -> parses (read_field total) total proto_zero m (MarshalToSizedBuffer m)
}.

(** The message survives [Marshal] and [Unmarshal], and its size is right. *)
Definition roundtrips (A : Type) `{ML : MessageLaws A} : Prop :=
  forall m : A, well_typed m -> is_len (MarshalToSizedBuffer m) ->
  exists d, Marshal m = Ok d /\ Z.of_nat (length d) = Size m /\ Unmarshal d = Ok m.

Section laws.
Context `{ML : MessageLaws A}.

Lemma message_roundtrips : roundtrips A.
Proof.
  intros m Hm Hl. exists (MarshalToSizedBuffer m). unfold Marshal. rewrite Size_spec by done.
  rewrite Z.ltb_irrefl, Nat2Z.id, Nat.sub_diag. cbn. rewrite firstn_all. split_and!; [done..|].
  unfold Unmarshal, Unmarshal_into, unmarshal. apply parse_spec; [done|lia|].
  split; [lia|done].
Qed.

Lemma Unmarshal_into_zero m :
  well_typed m -> is_len (MarshalToSizedBuffer m) ->
  Unmarshal_into proto_zero (MarshalToSizedBuffer m) = Ok m.
Proof. intros Hm Hl. apply parse_spec; [done|lia|]. split; [lia|done]. Qed.

Lemma length_put_message tag m d :
  well_typed m -> is_len (MarshalToSizedBuffer m) ->
  Z.of_nat (length (put_message tag m d)) = size_message m + Z.of_nat (length d).
Proof.
  intros Hm Hl. unfold put_message, size_message. rewrite Size_spec by done. cbn [length].
  rewrite !length_app, Nat2Z.inj_succ, !Nat2Z.inj_add, length_encodeVarint; [lia|].
  unfold is_len, is_u64, max_u64, max_i64 in *. lia.
Qed.

Lemma size_messages_acc ms n :
  foldl (fun n m => n + size_message m) n ms = n + size_messages ms.
Proof.
  unfold size_messages. revert n. induction ms as [|m ms IH]; intros n; cbn; [lia|].
  rewrite IH, (IH (0 + _)). lia.
Qed.

Lemma size_messages_cons m ms : size_messages (m :: ms) = size_message m + size_messages ms.
Proof. unfold size_messages at 1. cbn [foldl]. by rewrite size_messages_acc. Qed.

Lemma length_put_messages tag ms d :
  Forall well_typed ms -> Forall (fun m => is_len (MarshalToSizedBuffer m)) ms ->
  Z.of_nat (length (put_messages tag ms d)) = size_messages ms + Z.of_nat (length d).
Proof.
  induction 1 as [|m ms Hm _ IH]; [done|]. intros [Hml Hl]%Forall_cons.
  change (put_messages tag (m :: ms) d) with (put_message tag m (put_messages tag ms d)).
  rewrite length_put_message, IH, size_messages_cons by done. lia.
Qed.

Context {B : Type} (field : B -> Z -> Z -> bytes -> option (outcome (B * bytes))) (total : Z).

Lemma parses_message num set m m' (x : A) rest :
  1 <= num <= 15 -> well_typed x ->
  (forall rest, field m num 2 rest = Some (get_message total 2 proto_zero set rest)) ->
  parses field total (set x) m' rest ->
  parses field total m m' (put_message (8 * num + 2) x rest).
Proof.
  intros Hn Hx Hf Hp. unfold put_message. eapply parses_delimited; [done| |exact Hp].
  intros Ht. rewrite Hf. unfold get_message. rewrite get_bytes_run by done.
  cbn [mbind outcome_bind]. unfold id. rewrite Unmarshal_into_zero; [done..|]. unfold is_len. lia.
Qed.

(** A repeated field: [append] of each message in turn. *)
Lemma parses_messages num (set : list A -> B) m' (xs : list A) rest :
  1 <= num <= 15 -> Forall well_typed xs ->
  (forall l rest, field (set l) num 2 rest
     = Some (get_message total 2 proto_zero (fun v => set (l ++ [v])) rest)) ->
  forall l, parses field total (set (l ++ xs)) m' rest ->
  parses field total (set l) m' (put_messages (8 * num + 2) xs rest).
Proof.
  intros Hn Hxs Hf. induction Hxs as [|x xs Hx _ IH]; intros l Hp.
  - by rewrite app_nil_r in Hp.
  - change (put_messages (8 * num + 2) (x :: xs) rest)
      with (put_message (8 * num + 2) x (put_messages (8 * num + 2) xs rest)).
    apply (parses_message num (fun v => set (l ++ [v]))); [done..|].
    apply IH. by rewrite <- app_assoc.
Qed.
End laws.

Lemma length_put_string tag s d :
  str_len s -> Z.of_nat (length (put_string tag s d)) = size_string s + Z.of_nat (length d).
Proof. apply length_put_bytes. Qed.

(** ** The messages *)

Create Rewrite HintDb wire_size.
#[export] Hint Rewrite length_put_varint @length_put_bool : wire_size.

(** The size of a message without embedded messages. *)
Ltac size_solve :=
  autorewrite with wire_size;
  rewrite ?length_put_string, ?length_put_bytes by done;
  autorewrite with wire_size;
  rewrite ?length_put_string, ?length_put_bytes by done;
  autorewrite with wire_size;
  rewrite ?length_put_string, ?length_put_bytes by done;
  autorewrite with wire_size; cbn [length]; lia.

(** One field of a parse: its number and how it is set. *)
Ltac varint_field num set conversion :=
  apply (parses_varint _ _ num set); [lia|done|by intros ->|]; rewrite conversion by done.
Ltac string_field num set := apply (parses_string _ _ num set); [lia|done|by intros ->|].

#[global] Program Instance Params_laws : MessageLaws Params := {
  well_typed p := is_u64 (EpochLength p) /\ str_len (QuorumFraction p) /\
    str_len (MinParticipation p) /\ is_u64 (PruneAfter p) /\ is_i32 (SignMode p)
}.
Next Obligation.
  intros m (H1 & H2 & H3 & H4 & H5). cbn [Size MarshalToSizedBuffer Params_message].
  unfold Params_Size, Params_MarshalToSizedBuffer. size_solve.
Qed.
Next Obligation.
  intros [el qf mp pa sm] total (H1 & H2 & H3 & H4 & H5).
  cbn [read_field MarshalToSizedBuffer Params_message]. unfold Params_MarshalToSizedBuffer.
  cbn [EpochLength QuorumFraction MinParticipation PruneAfter SignMode] in *.
  varint_field 1 (fun v => mkParams v "" "" 0 0) (u64_small el).
  string_field 2 (fun v => mkParams el v "" 0 0).
  string_field 3 (fun v => mkParams el qf v 0 0).
  varint_field 4 (fun v => mkParams el qf mp v 0) (u64_small pa).
  varint_field 5 (fun v => mkParams el qf mp pa (i32 v)) (i32_u64 sm).
  apply parses_nil.
Qed.

(** An empty non-nil bitmap would come back as nil. *)
#[global] Program Instance AttestationBitmap_laws : MessageLaws types_AttestationBitmap := {
  well_typed b := is_i64 (ab_Height b) /\ ab_Bitmap b <> Some [] /\
    is_len (default [] (ab_Bitmap b)) /\ is_u64 (ab_VotedPower b) /\ is_u64 (ab_TotalPower b)
}.
Next Obligation.
  intros m (H1 & H2 & H3 & H4 & H5). cbn [Size MarshalToSizedBuffer AttestationBitmap_message].
  unfold AttestationBitmap_Size, AttestationBitmap_MarshalToSizedBuffer. size_solve.
Qed.
Next Obligation.
  intros [h b vp tp sc] total (H1 & H2 & H3 & H4 & H5).
  cbn [read_field MarshalToSizedBuffer AttestationBitmap_message].
  unfold AttestationBitmap_MarshalToSizedBuffer.
  cbn [ab_Height ab_Bitmap ab_VotedPower ab_TotalPower ab_SoftConfirmed] in *.
  varint_field 1 (fun v => mkAttestationBitmap (i64 v) None 0 0 false) (i64_u64 h).
  assert (forall rest,
    parses (AttestationBitmap_field total) total (mkAttestationBitmap h b 0 0 false)
      (mkAttestationBitmap h b vp tp sc) rest ->
    parses (AttestationBitmap_field total) total (mkAttestationBitmap h None 0 0 false)
      (mkAttestationBitmap h b vp tp sc) (put_bytes 0x12 (default [] b) rest)) as Hb.
  { intros rest Hp. destruct b as [x|]; [|done].
    apply (parses_bytes _ _ 2 (fun v => mkAttestationBitmap h (Some v) 0 0 false)); [lia|done| |done].
    cbn. by intros ->. }
  apply Hb. clear Hb.
  varint_field 3 (fun v => mkAttestationBitmap h b v 0 false) (u64_small vp).
  varint_field 4 (fun v => mkAttestationBitmap h b vp v false) (u64_small tp).
  apply (parses_bool _ _ 5 (fun v => mkAttestationBitmap h b vp tp (negb (i64 v =? 0)))); [lia|done..|].
  destruct sc; apply parses_nil.
Qed.

#[global] Program Instance ValidatorIndex_laws : MessageLaws types_ValidatorIndex := {
  well_typed v := str_len (vi_Address v) /\ is_u32 (vi_Index v) /\ is_u64 (vi_Power v)
}.
Next Obligation.
  intros m (H1 & H2 & H3). cbn [Size MarshalToSizedBuffer ValidatorIndex_message].
  unfold ValidatorIndex_Size, ValidatorIndex_MarshalToSizedBuffer. size_solve.
Qed.
Next Obligation.
  intros [a i p] total (H1 & H2 & H3).
  cbn [read_field MarshalToSizedBuffer ValidatorIndex_message].
  unfold ValidatorIndex_MarshalToSizedBuffer. cbn [vi_Address vi_Index vi_Power] in *.
  string_field 1 (fun v => mkValidatorIndex v 0 0).
  varint_field 2 (fun v => mkValidatorIndex a (u32 v) 0) (u32_u64 i).
  varint_field 3 (fun v => mkValidatorIndex a i v) (u64_small p).
  apply parses_nil.
Qed.

#[global] Program Instance GenesisState_laws : MessageLaws GenesisState := {
  well_typed g := (well_typed (gs_Params g) /\ is_len (MarshalToSizedBuffer (gs_Params g))) /\
    (Forall well_typed (gs_ValidatorIndices g) /\
     Forall (fun m => is_len (MarshalToSizedBuffer m)) (gs_ValidatorIndices g)) /\
    Forall well_typed (gs_AttestationBitmaps g) /\
    Forall (fun m => is_len (MarshalToSizedBuffer m)) (gs_AttestationBitmaps g)
}.
Next Obligation.
  intros m ((H1 & H2) & (H3 & H4) & H5 & H6). cbn [Size MarshalToSizedBuffer GenesisState_message].
  unfold GenesisState_Size, GenesisState_MarshalToSizedBuffer.
  rewrite length_put_message, !length_put_messages by done. cbn [length]. lia.
Qed.
Next Obligation.
  intros [p vs bs] total ((H1 & H2) & (H3 & H4) & H5 & H6).
  cbn [read_field MarshalToSizedBuffer GenesisState_message].
  unfold GenesisState_MarshalToSizedBuffer.
  cbn [gs_Params gs_ValidatorIndices gs_AttestationBitmaps] in *.
  apply (parses_message _ _ 1 (fun v => mkGenesisState v [] [])); [lia|done|done|].
  apply (parses_messages _ _ 2 (fun l => mkGenesisState p l [])); [lia|done|done|].
  apply (parses_messages _ _ 3 (fun l => mkGenesisState p vs l)); [lia|done|done|].
  apply parses_nil.
Qed.

#[global] Program Instance MsgAttest_laws : MessageLaws MsgAttest := {
  well_typed m := str_len (attest_Validator m) /\ is_i64 (attest_Height m) /\ is_len (attest_Vote m)
}.
Next Obligation.
  intros m (H1 & H2 & H3). cbn [Size MarshalToSizedBuffer MsgAttest_message].
  unfold MsgAttest_Size, MsgAttest_MarshalToSizedBuffer. size_solve.
Qed.
Next Obligation.
  intros [a h v] total (H1 & H2 & H3).
  cbn [read_field MarshalToSizedBuffer MsgAttest_message]. unfold MsgAttest_MarshalToSizedBuffer.
  cbn [attest_Validator attest_Height attest_Vote] in *.
  string_field 1 (fun x => NewMsgAttest x 0 []).
  varint_field 2 (fun x => NewMsgAttest a (i64 x) []) (i64_u64 h).
  apply (parses_bytes _ _ 3 (fun x => NewMsgAttest a h x)); [lia|done|by intros ->|].
  apply parses_nil.
Qed.

#[global] Program Instance MsgJoinAttesterSet_laws : MessageLaws MsgJoinAttesterSet := {
  well_typed m := str_len (join_Validator m)
}.
Next Obligation. intros m H. symmetry. etransitivity; [by apply length_put_string|]. apply Z.add_0_r. Qed.
Next Obligation.
  intros [a] total H. string_field 1 NewMsgJoinAttesterSet. apply parses_nil.
Qed.

#[global] Program Instance MsgLeaveAttesterSet_laws : MessageLaws MsgLeaveAttesterSet := {
  well_typed m := str_len (leave_Validator m)
}.
Next Obligation. intros m H. symmetry. etransitivity; [by apply length_put_string|]. apply Z.add_0_r. Qed.
Next Obligation.
  intros [a] total H. string_field 1 NewMsgLeaveAttesterSet. apply parses_nil.
Qed.

#[global] Program Instance MsgUpdateParams_laws : MessageLaws MsgUpdateParams := {
  well_typed m := str_len (update_Authority m) /\ well_typed (update_Params m) /\
    is_len (MarshalToSizedBuffer (update_Params m))
}.
Next Obligation.
  intros m (H1 & H2 & H3). cbn [Size MarshalToSizedBuffer MsgUpdateParams_message].
  unfold MsgUpdateParams_Size, MsgUpdateParams_MarshalToSizedBuffer.
  rewrite length_put_string, length_put_message by done. cbn [length]. lia.
Qed.
Next Obligation.
  intros [a p] total (H1 & H2 & H3).
  cbn [read_field MarshalToSizedBuffer MsgUpdateParams_message].
  unfold MsgUpdateParams_MarshalToSizedBuffer. cbn [update_Authority update_Params] in *.
  string_field 1 (fun v => NewMsgUpdateParams v zero_Params).
  apply (parses_message _ _ 2 (fun v => NewMsgUpdateParams a v)); [lia|done|done|].
  apply parses_nil.
Qed.

#[global] Program Instance SoftConfirmationRequest_laws : MessageLaws SoftConfirmationRequest := {
  well_typed m := is_i64 (scr_Height m)
}.
Next Obligation. intros m H. symmetry. etransitivity; [by apply length_put_varint|]. apply Z.add_0_r. Qed.
Next Obligation.
  intros [h] total H. cbn [read_field MarshalToSizedBuffer SoftConfirmationRequest_message].
  unfold SoftConfirmationRequest_MarshalToSizedBuffer. cbn [scr_Height] in *.
  varint_field 1 (fun v => mkSoftConfirmationRequest (i64 v)) (i64_u64 h). apply parses_nil.
Qed.

#[global] Program Instance SoftConfirmationResponse_laws :
    MessageLaws QuerySoftConfirmationStatusResponse := {
  well_typed m := is_u64 (sc_VotedPower m) /\ is_u64 (sc_TotalPower m) /\ str_len (sc_QuorumFraction m)
}.
Next Obligation.
  intros m (H1 & H2 & H3). cbn [Size MarshalToSizedBuffer SoftConfirmationResponse_message].
  unfold SoftConfirmationResponse_Size, SoftConfirmationResponse_MarshalToSizedBuffer. size_solve.
Qed.
Next Obligation.
  intros [sc vp tp qf] total (H1 & H2 & H3).
  cbn [read_field MarshalToSizedBuffer SoftConfirmationResponse_message].
  unfold SoftConfirmationResponse_MarshalToSizedBuffer.
  cbn [sc_IsSoftConfirmed sc_VotedPower sc_TotalPower sc_QuorumFraction] in *.
  apply (parses_bool _ _ 1 (fun v => mkSoftConfirmation (negb (i64 v =? 0)) 0 0 "")); [lia|done..|].
  replace (negb (i64 (if sc then 1 else 0) =? 0)) with sc by by destruct sc.
  varint_field 2 (fun v => mkSoftConfirmation sc v 0 "") (u64_small vp).
  varint_field 3 (fun v => mkSoftConfirmation sc vp v "") (u64_small tp).
  string_field 4 (fun v => mkSoftConfirmation sc vp tp v).
  apply parses_nil.
Qed.

(** ** The query service *)

#[global] Program Instance QueryParamsRequest_laws : MessageLaws QueryParamsRequest := {
  well_typed m := True
}.
Next Obligation. done. Qed.
Next Obligation. intros [] total _. apply parses_nil. Qed.

#[global] Program Instance AttestationBitmapRequest_laws :
    MessageLaws QueryAttestationBitmapRequest := {
  well_typed m := is_i64 (abr_Height m)
}.
Next Obligation. intros m H. symmetry. etransitivity; [by apply length_put_varint|]. apply Z.add_0_r. Qed.
Next Obligation.
  intros [h] total H. cbn [read_field MarshalToSizedBuffer AttestationBitmapRequest_message].
  unfold AttestationBitmapRequest_MarshalToSizedBuffer. cbn [abr_Height] in *.
  varint_field 1 (fun v => mkBitmapRequest (i64 v)) (i64_u64 h). apply parses_nil.
Qed.

#[global] Program Instance EpochInfoRequest_laws : MessageLaws QueryEpochInfoRequest := {
  well_typed m := is_u64 (eir_Epoch m)
}.
Next Obligation. intros m H. symmetry. etransitivity; [by apply length_put_varint|]. apply Z.add_0_r. Qed.
Next Obligation.
  intros [e] total H. cbn [read_field MarshalToSizedBuffer EpochInfoRequest_message].
  unfold EpochInfoRequest_MarshalToSizedBuffer. cbn [eir_Epoch] in *.
  varint_field 1 mkEpochInfoRequest (u64_small e). apply parses_nil.
Qed.

#[global] Program Instance ValidatorIndexRequest_laws : MessageLaws QueryValidatorIndexRequest := {
  well_typed m := str_len (vir_Address m)
}.
Next Obligation. intros m H. symmetry. etransitivity; [by apply length_put_string|]. apply Z.add_0_r. Qed.
Next Obligation.
  intros [a] total H. string_field 1 mkValidatorIndexRequest. apply parses_nil.
Qed.

#[global] Program Instance ParamsResponse_laws : MessageLaws QueryParamsResponse := {
  well_typed m := well_typed (pr_Params m) /\ is_len (MarshalToSizedBuffer (pr_Params m))
}.
Next Obligation.
  intros m (H1 & H2). cbn [Size MarshalToSizedBuffer ParamsResponse_message].
  unfold ParamsResponse_Size, ParamsResponse_MarshalToSizedBuffer.
  rewrite length_put_message by done. cbn [length]. lia.
Qed.
Next Obligation.
  intros [p] total (H1 & H2). cbn [read_field MarshalToSizedBuffer ParamsResponse_message].
  unfold ParamsResponse_MarshalToSizedBuffer. cbn [pr_Params] in *.
  apply (parses_message _ _ 1 mkParamsResponse); [lia|done|done|]. apply parses_nil.
Qed.

(** A pointer to a message with laws. *)
Definition opt_well_typed `{MessageLaws A} (m : option A) : Prop :=
  match m with Some m => well_typed m /\ is_len (MarshalToSizedBuffer m) | None => True end.

Lemma length_put_opt_message `{MessageLaws A} tag (m : option A) :
  opt_well_typed m -> size_opt_message m = Z.of_nat (length (put_opt_message tag m [])).
Proof.
  destruct m as [m|]; [|done]. intros (H1 & H2). cbn [size_opt_message put_opt_message].
  rewrite length_put_message by done. cbn [length]. lia.
Qed.

#[global] Program Instance AttestationBitmapResponse_laws :
    MessageLaws QueryAttestationBitmapResponse := {
  well_typed m := opt_well_typed (abs_Bitmap m)
}.
Next Obligation. intros m H. by apply length_put_opt_message. Qed.
Next Obligation.
  intros [[b|]] total H; [destruct H as (H1 & H2)|apply parses_nil].
  apply (parses_message _ _ 1 (fun v => mkBitmapResponse (Some v))); [lia|done|done|]. apply parses_nil.
Qed.

#[global] Program Instance ValidatorIndexResponse_laws :
    MessageLaws QueryValidatorIndexResponse := {
  well_typed m := opt_well_typed (vis_Index m)
}.
Next Obligation. intros m H. by apply length_put_opt_message. Qed.
Next Obligation.
  intros [[v|]] total H; [destruct H as (H1 & H2)|apply parses_nil].
  apply (parses_message _ _ 1 (fun v => mkValidatorIndexResponse (Some v))); [lia|done|done|].
  apply parses_nil.
Qed.

#[global] Program Instance EpochInfoResponse_laws : MessageLaws QueryEpochInfoResponse := {
  well_typed m := is_u64 (ei_Epoch m) /\ is_i64 (ei_StartHeight m) /\ is_i64 (ei_EndHeight m) /\
    is_len (ei_ParticipationBitmap m) /\ is_u64 (ei_ActiveValidators m) /\
    is_u64 (ei_ParticipatingValidators m)
}.
Next Obligation.
  intros m (H1 & H2 & H3 & H4 & H5 & H6). cbn [Size MarshalToSizedBuffer EpochInfoResponse_message].
  unfold EpochInfoResponse_Size, EpochInfoResponse_MarshalToSizedBuffer. size_solve.
Qed.
Next Obligation.
  intros [e sh eh b a p] total (H1 & H2 & H3 & H4 & H5 & H6).
  cbn [read_field MarshalToSizedBuffer EpochInfoResponse_message].
  unfold EpochInfoResponse_MarshalToSizedBuffer.
  cbn [ei_Epoch ei_StartHeight ei_EndHeight ei_ParticipationBitmap ei_ActiveValidators
    ei_ParticipatingValidators] in *.
  varint_field 1 (fun v => mkEpochInfo v 0 0 [] 0 0) (u64_small e).
  varint_field 2 (fun v => mkEpochInfo e (i64 v) 0 [] 0 0) (i64_u64 sh).
  varint_field 3 (fun v => mkEpochInfo e sh (i64 v) [] 0 0) (i64_u64 eh).
  apply (parses_bytes _ _ 4 (fun v => mkEpochInfo e sh eh v 0 0)); [lia|done|by intros ->|].
  varint_field 5 (fun v => mkEpochInfo e sh eh b v 0) (u64_small a).
  varint_field 6 (fun v => mkEpochInfo e sh eh b a v) (u64_small p).
  apply parses_nil.
Qed.

#[global] Program Instance EmptyResponse_laws k : MessageLaws (EmptyResponse k) := {
  well_typed m := True
}.
Next Obligation. done. Qed.
Next Obligation. intros k [] total _. apply parses_nil. Qed.

(** C20: Every message of the network module survives its codec: for values of
    the Go types, [Marshal] succeeds, writes exactly [Size] bytes, and
    [Unmarshal] of these bytes gives the message back. *)
Theorem codec_roundtrip :
  (roundtrips GenesisState /\ roundtrips Params /\ roundtrips types_AttestationBitmap /\
   roundtrips types_ValidatorIndex) /\
  (roundtrips MsgAttest /\ roundtrips MsgJoinAttesterSet /\ roundtrips MsgLeaveAttesterSet /\
   roundtrips MsgUpdateParams /\ (forall k, roundtrips (EmptyResponse k))) /\
  (roundtrips QueryParamsRequest /\ roundtrips QueryParamsResponse) /\
  (roundtrips QueryAttestationBitmapRequest /\ roundtrips QueryAttestationBitmapResponse) /\
  (roundtrips QueryEpochInfoRequest /\ roundtrips QueryEpochInfoResponse) /\
  (roundtrips QueryValidatorIndexRequest /\ roundtrips QueryValidatorIndexResponse) /\
  roundtrips SoftConfirmationRequest /\ roundtrips QuerySoftConfirmationStatusResponse.
Proof. split_and!; try intros k; apply message_roundtrips. Qed.
