(* ===== verification/WireTotal.v ===== *)
(** * The readers end by themselves

    The loops of [Wire.v] have a turn for each byte of their input.  Every turn
    reads at least one byte, so that more turns change nothing: the fuel never
    decides what a reader answers. *)

From Stdlib Require Import ZArith Lia.
From stdpp Require Import base gmap strings list numbers pretty.
From S2P Require Import Prelude Bitmap Sdk Types Keeper MsgServer Query Wire Codec QueryService.

Open Scope Z_scope.

Lemma varint_from_shrinks d shift acc v rest :
  varint_from shift acc d = Ok (v, rest) -> (length rest < length d)%nat.
Proof.
  revert shift acc. induction d as [|b d IH]; intros shift acc; cbn [varint_from];
    (destruct (64 <=? shift); [done|]); [done|].
  destruct (b <? 128); [intros [= _ <-]; cbn; lia|]. intros H%IH. cbn. lia.
Qed.

Lemma decodeVarint_shrinks d v rest :
  decodeVarint d = Ok (v, rest) -> (length rest < length d)%nat.
Proof. apply varint_from_shrinks. Qed.

Lemma length_zdrop n l : 0 <= n -> Z.of_nat (length (zdrop n l)) = Z.max 0 (Z.of_nat (length l) - n).
Proof.
  intros Hn. unfold zdrop. destruct (Z.leb_spec (Z.of_nat (length l)) n); cbn; [lia|].
  rewrite length_drop. lia.
Qed.

(** Case analysis on a reader's step that has succeeded or is followed. *)
Ltac varint_case d :=
  let E := fresh "E" in
  destruct (decodeVarint d) as [[? ?]| |] eqn:E; cbn [mbind outcome_bind]; [|done..];
  apply decodeVarint_shrinks in E.

(** ** Skipping a field *)

(** The turns of [skip_loop] beyond the length of the rest do nothing. *)
Lemma skip_loop_fuel f1 f2 depth iNdEx rest :
  (length rest < f1)%nat -> (length rest < f2)%nat ->
  skip_loop f1 depth iNdEx rest = skip_loop f2 depth iNdEx rest.
Proof.
  revert f2 depth iNdEx rest. induction f1 as [|f1 IH]; intros f2 depth iNdEx rest H1 H2; [lia|].
  destruct f2 as [|f2]; [lia|]. cbn [skip_loop]. destruct rest as [|b rest0]; [done|].
  set (rest := b :: rest0) in *. varint_case rest.
  assert (forall depth iNdEx rest', (length rest' <= length l)%nat ->
    skip_loop f1 depth iNdEx rest' = skip_loop f2 depth iNdEx rest') as HS
    by (intros; apply IH; lia).
  assert (forall n r', (length r' <= length l)%nat -> 0 <= n -> (length (zdrop n r') <= length l)%nat) as Hz.
  { intros n r' Hr Hn. pose proof (length_zdrop n r' Hn). lia. }
  repeat case_match; rewrite ?HS by (first [done | apply Hz; [done|lia]]); try done.
  all: varint_case l; repeat case_match; rewrite ?HS by (first [lia | apply Hz; lia]); done.
Qed.

(** A skipped field has at least its tag. *)
Lemma skip_loop_positive fuel total depth iNdEx rest n :
  total <= max_i64 -> 0 <= iNdEx ->
  (rest <> [] -> iNdEx + Z.of_nat (length rest) <= total) ->
  skip_loop fuel depth iNdEx rest = Ok n -> iNdEx < n.
Proof.
  intros Ht. revert depth iNdEx rest. induction fuel as [|fuel IH]; intros depth iNdEx rest Hi Hr;
    cbn [skip_loop]; [done|]. destruct rest as [|b rest0]; [done|].
  set (rest := b :: rest0) in *. specialize (Hr ltac:(done)). varint_case rest.
  set (i1 := iNdEx + Z.of_nat (length rest - length l)).
  assert (iNdEx < i1 /\ i1 + Z.of_nat (length l) <= total) as [Hi1 Hb] by lia. clearbody i1.
  assert (forall depth' i' rest', i1 <= i' ->
    (rest' <> [] -> i' + Z.of_nat (length rest') <= total) ->
    (if i' <? 0 then Err ErrInvalidLength else if depth' =? 0 then Ok i'
     else skip_loop fuel depth' i' rest') = Ok n -> iNdEx < n) as HC.
  { intros depth' i' rest' Hge Hinv. destruct (Z.ltb_spec i' 0); [lia|].
    destruct (depth' =? 0); [intros [= <-]; lia|]. intros Hrec%IH; [lia|lia|done]. }
  assert (forall k l', 0 <= k -> zdrop k l' <> [] -> k + Z.of_nat (length (zdrop k l')) = Z.of_nat (length l'))
    as Hz.
  { intros k l' Hk Hne. pose proof (length_zdrop k l' Hk).
    destruct (zdrop k l'); [done|]. cbn [length] in *. lia. }
  destruct (Z.land z 7 =? 0); [varint_case l; apply HC; lia|].
  destruct (Z.land z 7 =? 1); [apply HC; [lia|intros Hne%Hz; lia]|].
  destruct (Z.land z 7 =? 2).
  2: { destruct (Z.land z 7 =? 3); [apply HC; lia|].
    destruct (Z.land z 7 =? 4); [destruct (depth =? 0); [done|]; apply HC; lia|].
    destruct (Z.land z 7 =? 5); [|done]. apply HC; [lia|intros Hne%Hz; lia]. }
  varint_case l. destruct (Z.ltb_spec (i64 z0) 0) as [|Hlen]; [done|].
  pose proof (i64_range z0) as [_ Hmax]. set (len := i64 z0) in *. clearbody len.
  set (i2 := i1 + Z.of_nat (length l - length l0)).
  assert (i1 <= i2 /\ i2 + Z.of_nat (length l0) <= total) as [Hi2 Hb2] by lia. clearbody i2.
  destruct (Z.le_gt_cases (i2 + len) max_i64) as [Hle|Hgt].
  - rewrite i64_small by (unfold is_i64, max_i64 in *; lia).
    apply HC; [lia|]. intros Hne%Hz; lia.
  - assert (i64 (i2 + len) < 0) as Hneg by (unfold max_i64 in *; int_lia).
    by destruct (Z.ltb_spec (i64 (i2 + len)) 0); [|lia].
Qed.

Lemma skip_positive d n : Z.of_nat (length d) <= max_i64 -> skip d = Ok n -> 0 < n.
Proof. intros Hd. by apply (skip_loop_positive _ (Z.of_nat (length d))). Qed.

(** ** Unmarshalling *)

(** A field reader leaves no more than it got. *)
Definition shrinks {A} (field : A -> Z -> Z -> bytes -> option (outcome (A * bytes))) : Prop :=
  forall m num wireType rest m' rest',
    field m num wireType rest = Some (Ok (m', rest')) -> (length rest' <= length rest)%nat.

Lemma unmarshal_loop_fuel {A} total (field : A -> Z -> Z -> bytes -> option (outcome (A * bytes)))
    f1 f2 m d :
  shrinks field -> Z.of_nat (length d) <= max_i64 -> (length d <= f1)%nat -> (length d <= f2)%nat ->
  unmarshal_loop f1 total field m d = unmarshal_loop f2 total field m d.
Proof.
  intros Hf. revert f2 m d. induction f1 as [|f1 IH]; intros f2 m d Hd H1 H2.
  { assert (d = []) as -> by (apply length_zero_iff_nil; lia). by destruct f2. }
  destruct f2 as [|f2]. { assert (d = []) as -> by (apply length_zero_iff_nil; lia). done. }
  cbn [unmarshal_loop]. destruct d as [|b d0]; [done|]. set (d := b :: d0) in *.
  assert (0 < length d)%nat by (cbn; lia). varint_case d.
  destruct (_ =? 4); [done|]. destruct (_ <=? 0); [done|].
  destruct (field m _ _ l) as [[[m' rest']| |]|] eqn:Ef; cbn [mbind outcome_bind]; [|done..|].
  - apply Hf in Ef. apply IH; lia.
  - destruct (skip d) as [n| |] eqn:Es; cbn [mbind outcome_bind]; [|done..].
    apply skip_positive in Es; [|done]. repeat case_match; try done.
    pose proof (length_zdrop n d). apply IH; lia.
Qed.

Lemma get_varint_shrinks {A} wireType (set : Z -> A) rest a rest' :
  get_varint wireType set rest = Ok (a, rest') -> (length rest' <= length rest)%nat.
Proof.
  unfold get_varint. destruct (negb _); [done|]. varint_case rest. intros [= _ <-]. lia.
Qed.

Lemma get_bytes_shrinks {A} total wireType (set : bytes -> A) rest a rest' :
  get_bytes total wireType set rest = Ok (a, rest') -> (length rest' <= length rest)%nat.
Proof.
  unfold get_bytes. destruct (negb _); [done|]. varint_case rest. repeat case_match; try done.
  intros [= _ <-]. rewrite length_drop. lia.
Qed.

Lemma get_message_shrinks `{ProtoMessage A} {B} total wireType (old : A) (set : A -> B) rest b rest' :
  get_message total wireType old set rest = Ok (b, rest') -> (length rest' <= length rest)%nat.
Proof.
  unfold get_message. destruct (get_bytes _ _ _ _) as [[x r]| |] eqn:E; cbn; [|done..].
  apply get_bytes_shrinks in E. destruct (Unmarshal_into old x); cbn; [|done..].
  by intros [= _ <-].
Qed.

(** What the messages promise: their readers shrink their input. *)
Class ShrinkingMessage (A : Type) `{ProtoMessage A} : Prop :=
  read_field_shrinks : forall total, shrinks (read_field (A := A) total).

Ltac solve_shrinks reader :=
  intros total m num wireType rest m' rest';
  change (read_field total m num wireType rest) with (reader total m num wireType rest);
  unfold reader; destruct m; cbn;
  repeat (case_match; try discriminate);
  intros [= Hget];
  first [ eapply get_varint_shrinks; eassumption | eapply get_bytes_shrinks; eassumption
        | exact (get_message_shrinks _ _ _ _ _ _ _ Hget) ].

#[global] Instance Params_shrinks : ShrinkingMessage Params.
Proof. solve_shrinks Params_field. Qed.
#[global] Instance AttestationBitmap_shrinks : ShrinkingMessage types_AttestationBitmap.
Proof. solve_shrinks AttestationBitmap_field. Qed.
#[global] Instance ValidatorIndex_shrinks : ShrinkingMessage types_ValidatorIndex.
Proof. solve_shrinks ValidatorIndex_field. Qed.
#[global] Instance GenesisState_shrinks : ShrinkingMessage GenesisState.
Proof. solve_shrinks GenesisState_field. Qed.
#[global] Instance MsgAttest_shrinks : ShrinkingMessage MsgAttest.
Proof. solve_shrinks MsgAttest_field. Qed.
#[global] Instance MsgJoinAttesterSet_shrinks : ShrinkingMessage MsgJoinAttesterSet.
Proof. solve_shrinks MsgJoinAttesterSet_field. Qed.
#[global] Instance MsgLeaveAttesterSet_shrinks : ShrinkingMessage MsgLeaveAttesterSet.
Proof. solve_shrinks MsgLeaveAttesterSet_field. Qed.
#[global] Instance MsgUpdateParams_shrinks : ShrinkingMessage MsgUpdateParams.
Proof. solve_shrinks MsgUpdateParams_field. Qed.
#[global] Instance SoftConfirmationRequest_shrinks : ShrinkingMessage SoftConfirmationRequest.
Proof. solve_shrinks SoftConfirmationRequest_field. Qed.
#[global] Instance SoftConfirmationResponse_shrinks : ShrinkingMessage QuerySoftConfirmationStatusResponse.
Proof. solve_shrinks SoftConfirmationResponse_field. Qed.

#[global] Instance QueryParamsRequest_shrinks : ShrinkingMessage QueryParamsRequest.
Proof. solve_shrinks QueryParamsRequest_field. Qed.
#[global] Instance QueryParamsResponse_shrinks : ShrinkingMessage QueryParamsResponse.
Proof. solve_shrinks ParamsResponse_field. Qed.
#[global] Instance AttestationBitmapRequest_shrinks : ShrinkingMessage QueryAttestationBitmapRequest.
Proof. solve_shrinks AttestationBitmapRequest_field. Qed.
#[global] Instance AttestationBitmapResponse_shrinks : ShrinkingMessage QueryAttestationBitmapResponse.
Proof. solve_shrinks AttestationBitmapResponse_field. Qed.
#[global] Instance EpochInfoRequest_shrinks : ShrinkingMessage QueryEpochInfoRequest.
Proof. solve_shrinks EpochInfoRequest_field. Qed.
#[global] Instance EpochInfoResponse_shrinks : ShrinkingMessage QueryEpochInfoResponse.
Proof. solve_shrinks EpochInfoResponse_field. Qed.
#[global] Instance ValidatorIndexRequest_shrinks : ShrinkingMessage QueryValidatorIndexRequest.
Proof. solve_shrinks ValidatorIndexRequest_field. Qed.
#[global] Instance ValidatorIndexResponse_shrinks : ShrinkingMessage QueryValidatorIndexResponse.
Proof. solve_shrinks ValidatorIndexResponse_field. Qed.
#[global] Instance EmptyResponse_shrinks k : ShrinkingMessage (EmptyResponse k).
Proof. intros total m num wireType rest m' rest' [=]. Qed.

(** Whatever bytes a reader gets, more turns than it is given change nothing:
    it answers because it has read its input or refused it. *)
Theorem Unmarshal_terminates `{ShrinkingMessage A} (m : A) d fuel :
  Z.of_nat (length d) <= max_i64 -> (length d <= fuel)%nat ->
  unmarshal_loop fuel (Z.of_nat (length d)) (read_field (Z.of_nat (length d))) m d =
    Unmarshal_into m d.
Proof. intros Hd Hf. apply unmarshal_loop_fuel; [apply read_field_shrinks|done..]. Qed.

(** An unknown field 15, then the height and a truncated bitmap. *)
Lemma Unmarshal_terminates_witness :
  unmarshal_loop 100 6 (read_field 6) (proto_zero (A := types_AttestationBitmap)) [122; 1; 7; 8; 20; 18] =
    Err ErrUnexpectedEOF.
Proof.
  etransitivity.
  - apply (Unmarshal_terminates (A := types_AttestationBitmap) proto_zero [122; 1; 7; 8; 20; 18] 100).
    + vm_compute. discriminate.
    + cbn. lia.
  - vm_compute. reflexivity.
Defined.
