(* ===== verification/Options.v ===== *)
(** * The soft-confirmation filter ([pkg/adapter/options.go])

    The adapter publishes a block's events when its filter says so; this filter
    asks the application whether the height is soft confirmed. *)

From Stdlib Require Import ZArith Lia.
From stdpp Require Import base gmap strings list pretty.
From S2P Require Import Prelude Bitmap Sdk Types Keeper MsgServer Query Wire Codec.

Open Scope Z_scope.

(** [abci.RequestQuery] and [abci.ResponseQuery]: what the filter uses. *)
Record RequestQuery : Type := mkRequestQuery { rq_Path : string; rq_Data : bytes }.
Record ResponseQuery : Type := mkResponseQuery { resq_Code : Z; resq_Log : string; resq_Value : bytes }.

Definition SoftConfirmationStatus_path : string :=
  "/rollkitsdk.network.v1.Query/SoftConfirmationStatus".

(** The response pointer may be nil. *)
Definition Application : Type := RequestQuery -> outcome (option ResponseQuery).

(** [NetworkSoftConfirmationBlockFilter.IsPublishable] *)
Definition NetworkFilter_IsPublishable (app : Application) (height : Z) : outcome bool :=
  if height <? 2 then Ok false
  else
    match Marshal (mkSoftConfirmationRequest height) with
    | Err _ => Ok false
    | Panic t => Panic t
    | Ok reqData =>
        match app {| rq_Path := SoftConfirmationStatus_path; rq_Data := reqData |} with
        | Err _ => Ok false
        | Panic t => Panic t
        | Ok None => Panic "nil pointer dereference"
        | Ok (Some softConfirmRes) =>
            if negb (resq_Code softConfirmRes =? 0) then Ok false
            else
              match Unmarshal (A := QuerySoftConfirmationStatusResponse) (resq_Value softConfirmRes) with
              | Err _ => Ok false
              | Panic t => Panic t
              | Ok softConfirmResp => Ok (sc_IsSoftConfirmed softConfirmResp)
              end
        end
    end.
