(* ===== verification/OptionsProps.v ===== *)
(** * The filter and the network module together

    The filter's request reaches the module's query through the application's
    router, which decodes the request, runs the query and encodes its answer. *)

From Stdlib Require Import ZArith Lia.
From stdpp Require Import base gmap strings list pretty.
From S2P Require Import Prelude Bitmap Sdk Types Keeper MsgServer Query Wire Codec WireProps CodecProps Options.
From S2P Require Import NetworkInvariant NetworkDemo.

Open Scope Z_scope.

Lemma length_varint_le fuel v : (length (varint_loop fuel v) <= S fuel)%nat.
Proof.
  revert v. induction fuel as [|fuel IH]; intros v; cbn [varint_loop]; [done|].
  destruct (128 <=? v); cbn [length]; [specialize (IH (Z.shiftr v 7)); lia|lia].
Qed.

Lemma request_short h : is_len (MarshalToSizedBuffer (mkSoftConfirmationRequest h)).
Proof.
  unfold is_len. cbn [MarshalToSizedBuffer SoftConfirmationRequest_message].
  unfold SoftConfirmationRequest_MarshalToSizedBuffer, put_varint. cbn [scr_Height].
  destruct (negb (h =? 0)); [|cbn; unfold max_i64; lia]. cbn [length]. rewrite app_nil_r.
  pose proof (length_varint_le 9 (u64 h)). unfold encodeVarint, max_i64. lia.
Qed.

Section filter.
Context {CH : Chain} {C : Ctx}.

(** The gRPC query router of the application, for the soft-confirmation query
    in the state [s]: an error or a panic of the query becomes a code. *)
Definition routes (app : Application) (s : State) : Prop :=
  forall data h, Unmarshal data = Ok (mkSoftConfirmationRequest h) ->
  match snd (Query_SoftConfirmationStatus (Some h) s) with
  | Ok r =>
      match Marshal r with
      | Ok value =>
          exists log, app (mkRequestQuery SoftConfirmationStatus_path data)
            = Ok (Some (mkResponseQuery 0 log value))
      | _ => True
      end
  | _ =>
      exists code log, code <> 0 /\
        app (mkRequestQuery SoftConfirmationStatus_path data)
          = Ok (Some (mkResponseQuery code log []))
  end.

Lemma filter_over_routes app s h :
  routes app s -> is_i64 h ->
  (forall r, snd (Query_SoftConfirmationStatus (Some h) s) = Ok r ->
     well_typed r /\ is_len (MarshalToSizedBuffer r)) ->
  NetworkFilter_IsPublishable app h =
    Ok ((2 <=? h) &&
        match snd (Query_SoftConfirmationStatus (Some h) s) with
        | Ok r => sc_IsSoftConfirmed r
        | _ => false
        end).
Proof.
  intros Hroute Hh Hr. unfold NetworkFilter_IsPublishable.
  destruct (Z.ltb_spec h 2), (Z.leb_spec 2 h); try lia; [done|]. cbn [andb].
  assert (well_typed (mkSoftConfirmationRequest h)) as Hw by exact Hh.
  destruct (message_roundtrips (mkSoftConfirmationRequest h) Hw (request_short h))
    as (d & -> & _ & Hd).
  specialize (Hroute d h Hd).
  destruct (snd (Query_SoftConfirmationStatus (Some h) s)) as [r|e|t] eqn:E.
  - destruct (Hr r eq_refl) as [Hwr Hl].
    destruct (message_roundtrips r Hwr Hl) as (v & Hm & _ & Hu). rewrite Hm in Hroute.
    destruct Hroute as (log & ->). cbn [resq_Code resq_Value Z.eqb negb]. by rewrite Hu.
  - destruct Hroute as (code & log & Hc & ->). cbn. by rewrite (proj2 (Z.eqb_neq code 0) Hc).
  - destruct Hroute as (code & log & Hc & ->). cbn. by rewrite (proj2 (Z.eqb_neq code 0) Hc).
Qed.

End filter.

(** Alice and Bob have both voted for height 20. *)
Definition demo_confirmed : State := set_AttestationBitmap (<[20 := [3]]>) demo_indexed.
