(* ===== verification/QueryServiceProps.v ===== *)
(** * A client and the server it reaches

    A query client sends its request over the connection, the application's
    router decodes it, calls the handler of the service descriptor and encodes
    the answer.  [Connected] is what the client promises to the command line
    and to the gateway: the answers of the server.  It is shown here for a
    connection to an application that serves the module. *)

From Stdlib Require Import ZArith Lia.
From stdpp Require Import base gmap strings list pretty.
From S2P Require Import Prelude Bitmap Sdk Types Keeper MsgServer Query Wire Codec QueryService WireProps CodecProps Options OptionsProps.
From S2P Require Import NetworkInvariant NetworkDemo QueryProps.

Open Scope Z_scope.

(** A call over a client and a call of the server's method agree on what they
    answer; an error or a panic of the server is an error of the client. *)
Definition same_answer {S Res} (call : ServerMetadata * outcome Res) (method : S * outcome Res) :
    Prop :=
  match snd method with
  | Ok r => snd call = Ok r
  | _ => exists e, snd call = Err e
  end.

(** A request that fits its types and is not longer than [wire_limit], so that
    an answer that repeats it is not longer than a message can be. *)
Definition wire_limit : Z := 2 ^ 60.
Definition sendable `{MessageLaws Req} (req : Req) : Prop :=
  well_typed req /\ Z.of_nat (length (MarshalToSizedBuffer req)) <= wire_limit.

Class Connected (cl : QueryClient) (sv : QueryServer) (s : State) : Prop := {
  connected_Params req :
    same_answer (client_Params cl req) (server_Params sv (Some req) s);
  connected_AttestationBitmap req : sendable req ->
    same_answer (client_AttestationBitmap cl req) (server_AttestationBitmap sv (Some req) s);
  connected_EpochInfo req : sendable req ->
    same_answer (client_EpochInfo cl req) (server_EpochInfo sv (Some req) s);
  connected_ValidatorIndex req : sendable req ->
    same_answer (client_ValidatorIndex cl req) (server_ValidatorIndex sv (Some req) s);
  connected_SoftConfirmationStatus req : sendable req ->
    same_answer (client_SoftConfirmationStatus cl req)
      (server_SoftConfirmationStatus sv (Some req) s)
}.

(** ** The connection and the router, as documented *)

(** [client.Context.Invoke] without a gRPC client: the encoded request is an
    ABCI query of the method's path; a code that is not 0 is an error. *)
Class AbciConn (cc : ClientConn) (app : Application) : Prop := {
  Invoke_answer {Req Res} {PQ : ProtoMessage Req} {PS : ProtoMessage Res} path (req : Req)
      data log value (res : Res) :
    Marshal req = Ok data ->
    app (mkRequestQuery path data) = Ok (Some (mkResponseQuery 0 log value)) ->
    Unmarshal value = Ok res ->
    snd (Invoke (Res := Res) path req) = Ok res;
  Invoke_code {Req Res} {PQ : ProtoMessage Req} {PS : ProtoMessage Res} path (req : Req)
      data code log value :
    Marshal req = Ok data -> code <> 0 ->
    app (mkRequestQuery path data) = Ok (Some (mkResponseQuery code log value)) ->
    exists e, snd (Invoke (Res := Res) path req) = Err e
}.

Definition msg_Marshal (m : Message) : outcome bytes :=
  Marshal (H := msg_proto m) (msg_value m).

(** [baseapp.GRPCQueryRouter]: a registered method is called with a decoder of
    the query's data; its answer is encoded, an error or a panic is a code. *)
Definition serves (app : Application) (sd : ServiceDesc) (s : State) : Prop :=
  forall name handler data, (name, handler) ∈ Methods sd ->
  let path := ("/" +:+ ServiceName sd +:+ "/" +:+ name)%string in
  match snd (handler (fun A _ => Unmarshal data) s) with
  | Ok m =>
      match msg_Marshal m with
      | Ok value =>
          exists log, app (mkRequestQuery path data) = Ok (Some (mkResponseQuery 0 log value))
      | _ => True
      end
  | _ =>
      exists code log, code <> 0 /\
        app (mkRequestQuery path data) = Ok (Some (mkResponseQuery code log []))
  end.

(** The answer of a method fits the types of its fields. *)
Definition typed_answer `{MessageLaws Res} (method : State * outcome Res) : Prop :=
  forall r, snd method = Ok r -> well_typed r /\ is_len (MarshalToSizedBuffer r).

Section call.
Context {Req Res : Type} `{LQ : MessageLaws Req} `{LS : MessageLaws Res}.
Context (cc : ClientConn) (app : Application) {HC : AbciConn cc app} (sd : ServiceDesc) (s : State).
Context (HS : serves app sd s).

(** A method of the service reached over the connection. *)
Lemma call_method name (method : option Req -> M State Res) path (req : Req) :
  (name, unary_Handler method) ∈ Methods sd ->
  path = ("/" +:+ ServiceName sd +:+ "/" +:+ name)%string ->
  sendable req -> typed_answer (method (Some req) s) ->
  same_answer (Invoke path req) (method (Some req) s).
Proof.
  intros Hin -> [Hq Hs] Hans. assert (is_len (MarshalToSizedBuffer req)) as Hl.
  { unfold is_len, max_i64, wire_limit in *. lia. }
  destruct (message_roundtrips req Hq Hl) as (d & Hm & _ & Hu).
  specialize (HS _ _ d Hin). unfold unary_Handler in HS.
  rewrite run_bind, run_lift, Hu, run_bind in HS.
  unfold same_answer, typed_answer in *.
  destruct (method (Some req) s) as [s' [r|e|t]]; cbn [snd] in *.
  - destruct (Hans r eq_refl) as [Hw Hr].
    destruct (message_roundtrips r Hw Hr) as (v & Hv & _ & Hur).
    rewrite run_ret in HS. cbn [snd] in HS.
    change (msg_Marshal (pack r)) with (Marshal r) in HS. rewrite Hv in HS. destruct HS as (log & Ha).
    by eapply Invoke_answer.
  - destruct HS as (code & log & Hc & Ha). by eapply Invoke_code.
  - destruct HS as (code & log & Hc & Ha). by eapply Invoke_code.
Qed.
End call.

Section connected.
Context (cc : ClientConn) (app : Application) {HC : AbciConn cc app} (sv : QueryServer) (s : State).

(** Every answer of the server in this state has the types of its fields. *)
Record typed_answers : Prop := {
  typed_Params req : typed_answer (server_Params sv (Some req) s);
  typed_AttestationBitmap req :
    sendable req -> typed_answer (server_AttestationBitmap sv (Some req) s);
  typed_EpochInfo req : sendable req -> typed_answer (server_EpochInfo sv (Some req) s);
  typed_ValidatorIndex req : sendable req -> typed_answer (server_ValidatorIndex sv (Some req) s);
  typed_SoftConfirmationStatus req :
    sendable req -> typed_answer (server_SoftConfirmationStatus sv (Some req) s)
}.

Lemma connected_over_router :
  serves app (_Query_serviceDesc sv) s -> typed_answers ->
  Connected (NewQueryClient cc) sv s.
Proof.
  intros HS [H1 H2 H3 H4 H5]. split.
  - intros req. eapply (call_method cc app _ s HS "Params"); [set_solver|done|done|apply H1].
  - intros req Hq.
    eapply (call_method cc app _ s HS "AttestationBitmap"); [set_solver|done|done|by apply H2].
  - intros req Hq.
    eapply (call_method cc app _ s HS "EpochInfo"); [set_solver|done|done|by apply H3].
  - intros req Hq.
    eapply (call_method cc app _ s HS "ValidatorIndex"); [set_solver|done|done|by apply H4].
  - intros req Hq.
    eapply (call_method cc app _ s HS "SoftConfirmationStatus"); [set_solver|done|done|by apply H5].
Qed.
End connected.

(** ** The answers of the module fit the wire

    [wire_state]: the stored strings and bitmaps are not longer than
    [wire_limit], and the bitmaps are not empty. *)

Definition short_string (x : string) : Prop := Z.of_nat (length (bytes_of_string x)) <= wire_limit.
Definition short_bytes (x : bytes) : Prop := Z.of_nat (length x) <= wire_limit.

Lemma length_varint_short v : (length (encodeVarint v) <= 10)%nat.
Proof. apply length_varint_le. Qed.

Lemma put_varint_short tag v d n :
  Z.of_nat (length d) <= n - 11 -> Z.of_nat (length (put_varint tag v d)) <= n.
Proof.
  unfold put_varint. destruct (negb (v =? 0)); [|lia]. cbn [length]. rewrite length_app.
  pose proof (length_varint_short (u64 v)). lia.
Qed.

Lemma put_bytes_short tag x d n :
  Z.of_nat (length d) <= n - 11 - Z.of_nat (length x) ->
  Z.of_nat (length (put_bytes tag x d)) <= n.
Proof.
  unfold put_bytes. destruct (0 <? length x)%nat; [|lia]. cbn [length]. rewrite !length_app.
  pose proof (length_varint_short (Z.of_nat (length x))). lia.
Qed.

Lemma put_bool_short tag b d n :
  Z.of_nat (length d) <= n - 2 -> Z.of_nat (length (put_bool tag b d)) <= n.
Proof. destruct b; cbn [put_bool length]; lia. Qed.

Lemma put_message_short `{ProtoMessage A} tag (m : A) d n :
  Z.of_nat (length (MarshalToSizedBuffer m)) <= n - 11 - Z.of_nat (length d) ->
  Z.of_nat (length (put_message tag m d)) <= n.
Proof.
  unfold put_message. cbn [length]. rewrite !length_app.
  pose proof (length_varint_short (Z.of_nat (length (MarshalToSizedBuffer m)))). lia.
Qed.

(** A bound on the length of a message, field by field. *)
Ltac short_message :=
  unfold is_len, put_string, short_bytes in *;
  repeat match goal with
    | |- Z.of_nat (length (put_varint _ _ _)) <= _ => apply put_varint_short
    | |- Z.of_nat (length (put_bytes _ _ _)) <= _ => apply put_bytes_short
    | |- Z.of_nat (length (put_bool _ _ _)) <= _ => apply put_bool_short
    | |- Z.of_nat (length (put_message _ _ _)) <= _ => apply put_message_short
    end;
  cbn [length]; unfold max_i64, wire_limit in *; lia.

Record wire_state (s : State) : Prop := {
  ws_params : let p := default zero_Params (ParamsItem s) in
    is_u64 (EpochLength p) /\ short_string (QuorumFraction p) /\ short_string (MinParticipation p) /\
    is_u64 (PruneAfter p) /\ is_i32 (SignMode p);
  ws_bitmaps : map_Forall (fun _ b => b <> [] /\ short_bytes b) (AttestationBitmap s);
  ws_epochs : map_Forall (fun _ b => short_bytes b) (EpochBitmap s);
  ws_powers : powers_ok s
}.

Lemma length_put_bytes_ge tag x d :
  Z.of_nat (length x) <= Z.of_nat (length (put_bytes tag x d)).
Proof.
  unfold put_bytes. destruct (Nat.ltb_spec 0 (length x)); [|lia]. cbn [length].
  rewrite !length_app. lia.
Qed.

Section typed.
Context {CH : Chain} {C : Ctx} (s : State) (HW : wire_state s).

(** The staking module does not answer with more validators than fit. *)
Context (Hfew : forall vals, GetLastValidators stakingKeeper = Ok vals ->
  Z.of_nat (length vals) <= wire_limit).

Lemma params_typed :
  let p := default zero_Params (ParamsItem s) in
  well_typed p /\ Z.of_nat (length (MarshalToSizedBuffer p)) <= 4 * wire_limit.
Proof.
  destruct (ws_params s HW) as (H1 & H2 & H3 & H4 & H5). cbn zeta in *.
  set (p := default zero_Params (ParamsItem s)) in *. unfold short_string in *. split.
  - split_and!; [done| | |done|done]; unfold str_len, is_len, wire_limit, max_i64 in *; lia.
  - cbn [MarshalToSizedBuffer Params_message]. unfold Params_MarshalToSizedBuffer. short_message.
Qed.

Lemma CalculateVotedPower_typed b v : snd (CalculateVotedPower b s) = Ok v -> is_u64 v.
Proof.
  unfold CalculateVotedPower. assert (is_u64 0) as H0 by by vm_compute.
  revert H0. generalize 0 at 1 3 as acc. generalize (seqZ 0 (bit_len b)) as l.
  intros l. induction l as [|i l IH]; intros acc Hacc; cbn [fold_each].
  { by intros [= <-]. }
  rewrite run_bind, power_step_run. destruct (IsSet b i); [|by apply IH].
  destruct (ValidatorPower s !! u16 i); [|done]. apply IH, u64_range.
Qed.

Lemma TotalPower_typed t :
  (n ← GetLastTotalPower stakingKeeper; Int_Uint64 n) = Ok t -> is_u64 t.
Proof.
  destruct (GetLastTotalPower _) as [n| |]; cbn; [|done..]. unfold Int_Uint64.
  destruct (Z.leb_spec 0 n), (Z.leb_spec n max_u64); try done. intros [= <-]. done.
Qed.

Lemma count_bonded_le vals : 0 <= count_bonded vals <= Z.of_nat (length vals).
Proof.
  unfold count_bonded. enough (forall n, n <= foldl (fun n v => if IsBonded v then n + 1 else n) n vals
    <= n + Z.of_nat (length vals)) by (specialize (H 0); lia).
  induction vals as [|v vals IH]; intros n; cbn [foldl length]; [lia|].
  destruct (IsBonded v); [specialize (IH (n + 1))|specialize (IH n)]; lia.
Qed.

Lemma Params_answer_typed req : typed_answer (server_Params NewQueryServer (Some req) s).
Proof.
  intros r. cbn [server_Params NewQueryServer fmap option_fmap option_map Query_Params]. run.
  intros [= <-]. destruct params_typed as [Hp Hl]. split.
  - split; [done|]. cbn [pr_Params]. unfold is_len, wire_limit, max_i64 in *. lia.
  - cbn [MarshalToSizedBuffer ParamsResponse_message]. unfold ParamsResponse_MarshalToSizedBuffer.
    cbn [pr_Params]. short_message.
Qed.

Lemma bitmap_typed h b v t c :
  is_i64 h -> AttestationBitmap s !! h = Some b -> is_u64 v -> is_u64 t ->
  let m := mkAttestationBitmap h (Some b) v t c in
  well_typed m /\ Z.of_nat (length (MarshalToSizedBuffer m)) <= 2 * wire_limit.
Proof.
  intros Hh Hb Hv Ht m. destruct (ws_bitmaps s HW h b Hb) as [Hne Hs]. split.
  - split_and!; [done|by intros [= ->]| |done|done]. cbn. unfold is_len, short_bytes, wire_limit, max_i64 in *. lia.
  - cbn [MarshalToSizedBuffer AttestationBitmap_message].
    unfold AttestationBitmap_MarshalToSizedBuffer.
    cbn [m ab_Height ab_Bitmap ab_VotedPower ab_TotalPower ab_SoftConfirmed default from_option id].
    short_message.
Qed.

Lemma AttestationBitmap_answer_typed req :
  sendable req -> typed_answer (server_AttestationBitmap NewQueryServer (Some req) s).
Proof.
  intros [Hq _] r. cbn [server_AttestationBitmap NewQueryServer fmap option_fmap option_map].
  unfold Query_AttestationBitmap. run. set (h := abr_Height req) in *.
  destruct (AttestationBitmap s !! h) as [b|] eqn:Eb; run; [|done]. rewrite (reads_only_run _ s (CalculateVotedPower_reads b)).
  destruct (snd (CalculateVotedPower b s)) as [v| |] eqn:Hv; [|done..]. run.
  destruct (n ← GetLastTotalPower stakingKeeper; Int_Uint64 n) as [t| |] eqn:Et; [|done..]. run.
  rewrite (reads_only_run _ s (IsSoftConfirmed_reads h)).
  destruct (snd (IsSoftConfirmed h s)) as [c| |]; [|done..]. run. intros [= <-].
  destruct (bitmap_typed h b v t c Hq Eb) as [Hw Hl];
    [by eapply CalculateVotedPower_typed|by apply TotalPower_typed|].
  split; [split; [done|]|].
  - unfold is_len, wire_limit, max_i64 in *. lia.
  - cbn [MarshalToSizedBuffer AttestationBitmapResponse_message].
    unfold AttestationBitmapResponse_MarshalToSizedBuffer. cbn [abs_Bitmap put_opt_message].
    short_message.
Qed.

Lemma EpochInfo_answer_typed req :
  sendable req -> typed_answer (server_EpochInfo NewQueryServer (Some req) s).
Proof.
  intros [Hq _] r. cbn [server_EpochInfo NewQueryServer fmap option_fmap option_map].
  unfold Query_EpochInfo. run. set (e := eir_Epoch req) in *.
  assert (forall sh eh b n k, is_i64 sh -> is_i64 eh -> short_bytes b -> is_u64 n -> is_u64 k ->
    well_typed (mkEpochInfo e sh eh b n k) /\ is_len (MarshalToSizedBuffer (mkEpochInfo e sh eh b n k)))
    as Hty.
  { intros sh eh b n k H1 H2 H3 H4 H5. split.
    - split_and!; try done. cbn. unfold is_len, short_bytes, wire_limit, max_i64 in *. lia.
    - cbn [MarshalToSizedBuffer EpochInfoResponse_message]. unfold EpochInfoResponse_MarshalToSizedBuffer.
      cbn [ei_ParticipationBitmap]. short_message. }
  destruct (EpochBitmap s !! e) as [b|] eqn:Eb; run.
  - destruct (GetLastValidators stakingKeeper) as [vals| |] eqn:Ev; run; [|done..].
    intros [= <-]. apply Hty; try apply i64_range.
    + by apply (ws_epochs s HW e b).
    + pose proof (count_bonded_le vals). pose proof (Hfew vals eq_refl).
      unfold is_u64, max_u64, wire_limit in *. lia.
    + apply u64_range.
  - intros [= <-]. apply Hty; try apply i64_range; by vm_compute.
Qed.

Lemma ValidatorIndex_answer_typed req :
  sendable req -> typed_answer (server_ValidatorIndex NewQueryServer (Some req) s).
Proof.
  intros [Hq Hl] r. cbn [server_ValidatorIndex NewQueryServer fmap option_fmap option_map].
  unfold Query_ValidatorIndex. run. set (a := vir_Address req) in *.
  destruct (ValidatorIndex s !! a) as [i|]; cbn [negb]; run; [|done].
  destruct (ValidatorPower s !! i) as [p|] eqn:Ep; cbn [wrap_outcome]; run; [|done].
  intros [= <-]. pose proof (ws_powers s HW i p Ep) as Hp.
  assert (short_bytes (bytes_of_string a)) as Ha.
  { unfold short_bytes. etransitivity; [apply (length_put_bytes_ge 0xa)|apply Hl]. }
  assert (well_typed (mkValidatorIndex a (u32 i) p)) as Hw.
  { split_and!; [exact Hq| |done]. cbn. unfold is_u32. int_lia. }
  assert (Z.of_nat (length (MarshalToSizedBuffer (mkValidatorIndex a (u32 i) p))) <= 2 * wire_limit) as Hm.
  { cbn [MarshalToSizedBuffer ValidatorIndex_message]. unfold ValidatorIndex_MarshalToSizedBuffer.
    cbn [vi_Address]. short_message. }
  split; [split; [done|]|].
  - unfold is_len, wire_limit, max_i64 in *. lia.
  - cbn [MarshalToSizedBuffer ValidatorIndexResponse_message].
    unfold ValidatorIndexResponse_MarshalToSizedBuffer. cbn [vis_Index put_opt_message]. short_message.
Qed.

Lemma SoftConfirmation_typed h r :
  snd (Query_SoftConfirmationStatus (Some h) s) = Ok r ->
  well_typed r /\ is_len (MarshalToSizedBuffer r).
Proof.
  unfold Query_SoftConfirmationStatus. run. rewrite (reads_only_run _ s (IsSoftConfirmed_reads h)).
  destruct (snd (IsSoftConfirmed h s)) as [c| |]; [|done..]. run.
  destruct (n ← GetLastTotalPower stakingKeeper; Int_Uint64 n) as [t| |] eqn:Et; run; [|done..].
  apply TotalPower_typed in Et. destruct (ws_params s HW) as (_ & Hqf & _).
  assert (forall v, is_u64 v ->
    let m := mkSoftConfirmation c v t (QuorumFraction (default zero_Params (ParamsItem s))) in
    well_typed m /\ is_len (MarshalToSizedBuffer m)) as Hty.
  { intros v Hv m. split.
    - split_and!; try done. cbn. unfold str_len, is_len, short_string, wire_limit, max_i64 in *. lia.
    - cbn [MarshalToSizedBuffer SoftConfirmationResponse_message].
      unfold SoftConfirmationResponse_MarshalToSizedBuffer, m.
      cbn [sc_IsSoftConfirmed sc_VotedPower sc_TotalPower sc_QuorumFraction].
      unfold short_string in *. short_message. }
  destruct (AttestationBitmap s !! h) as [b|]; run.
  - rewrite (reads_only_run _ s (CalculateVotedPower_reads b)).
  destruct (snd (CalculateVotedPower b s)) as [v| |] eqn:Hv; [|done..]. run. intros [= <-]. apply Hty. by eapply CalculateVotedPower_typed.
  - intros [= <-]. apply Hty. by vm_compute.
Qed.

Lemma module_answers_typed : typed_answers NewQueryServer s.
Proof.
  split.
  - apply Params_answer_typed.
  - apply AttestationBitmap_answer_typed.
  - apply EpochInfo_answer_typed.
  - apply ValidatorIndex_answer_typed.
  - intros req _ r. apply SoftConfirmation_typed.
Qed.
End typed.

(** ** One application behind the filter and the clients *)

Section refinement.
Context {CH : Chain} {C : Ctx} (app : Application).

(** The router that the filter asks is the one that serves the clients. *)
Lemma serves_routes s : serves app (_Query_serviceDesc NewQueryServer) s -> routes app s.
Proof.
  intros HS data h Hd.
  specialize (HS "SoftConfirmationStatus"%string
    (unary_Handler (server_SoftConfirmationStatus NewQueryServer)) data ltac:(cbn; set_solver)).
  unfold unary_Handler in HS. rewrite run_bind, run_lift, Hd, run_bind in HS.
  cbn [server_SoftConfirmationStatus NewQueryServer fmap option_fmap option_map scr_Height] in HS.
  destruct (Query_SoftConfirmationStatus (Some h) s) as [s' [r|e|t]]; exact HS.
Qed.

(** C14: Over an application that serves the module in a state whose strings
    and bitmaps fit a message, a query client answers exactly what the query
    server answers, and the block filter of the same application publishes
    exactly the heights from 2 on that the server says are soft confirmed. *)
Theorem query_service_refines (cc : ClientConn) {HC : AbciConn cc app} s :
  serves app (_Query_serviceDesc NewQueryServer) s -> wire_state s ->
  (forall vals, GetLastValidators stakingKeeper = Ok vals -> Z.of_nat (length vals) <= wire_limit) ->
  Connected (NewQueryClient cc) NewQueryServer s /\
  (forall h, is_i64 h ->
     NetworkFilter_IsPublishable app h =
       Ok ((2 <=? h) &&
           match snd (server_SoftConfirmationStatus NewQueryServer
                        (Some (mkSoftConfirmationRequest h)) s) with
           | Ok r => sc_IsSoftConfirmed r
           | _ => false
           end)).
Proof.
  intros HS HW Hfew. split.
  - apply (connected_over_router cc app); [done|by apply module_answers_typed].
  - intros h Hh. apply filter_over_routes; [by apply serves_routes|done|].
    intros r. by apply SoftConfirmation_typed.
Qed.
End refinement.

(** *** A router and a connection *)

Definition method_path (sd : ServiceDesc) (m : MethodDesc) : string :=
  "/" +:+ ServiceName sd +:+ "/" +:+ m.1.

Definition find_method (sd : ServiceDesc) (path : string) : option (nat * MethodDesc) :=
  list_find (fun m => method_path sd m = path) (Methods sd).

Definition service_router (sd : ServiceDesc) (s : State) : Application := fun req =>
  match find_method sd (rq_Path req) with
  | Some (_, (_, handler)) =>
      match snd (handler (fun A _ => Unmarshal (rq_Data req)) s) with
      | Ok m =>
          match msg_Marshal m with
          | Ok value => Ok (Some (mkResponseQuery 0 "" value))
          | _ => Ok (Some (mkResponseQuery 1 "internal" []))
          end
      | _ => Ok (Some (mkResponseQuery 1 "error" []))
      end
  | None => Ok (Some (mkResponseQuery 6 "unknown query path" []))
  end.

Lemma service_path_inj sd n1 n2 :
  ("/" +:+ ServiceName sd +:+ "/" +:+ n1)%string = ("/" +:+ ServiceName sd +:+ "/" +:+ n2)%string ->
  n1 = n2.
Proof. intros H. by simplify_eq. Qed.

Lemma service_router_serves sd s : NoDup (Methods sd).*1 -> serves (service_router sd s) sd s.
Proof.
  intros HN name handler data Hin path. unfold service_router. cbn [rq_Path rq_Data].
  assert (exists i, find_method sd path = Some (i, (name, handler))) as [i ->].
  { apply list_elem_of_lookup_1 in Hin as [i Hi]. exists i. apply list_find_Some.
    split_and!; [done|done|]. intros j [n h] Hj Hlt Heq%service_path_inj. cbn in Heq. subst n.
    assert (j = i) as ->; [|lia]. eapply NoDup_lookup; [done| |].
    - etransitivity; [apply list_lookup_fmap|]. exact (f_equal (fmap fst) Hj).
    - etransitivity; [apply list_lookup_fmap|]. exact (f_equal (fmap fst) Hi). }
  destruct (snd _) as [m| |].
  - destruct (msg_Marshal m); [by eexists|done..].
  - by exists 1, "error".
  - by exists 1, "error".
Qed.

Definition no_metadata : ServerMetadata := mkServerMetadata ∅ ∅.

Definition abci_conn (app : Application) : ClientConn := {|
  Invoke Req Res PQ PS path req :=
    (no_metadata,
     data ← Marshal req;
     r ← app (mkRequestQuery path data);
     match r with
     | Some res =>
         if resq_Code res =? 0 then Unmarshal (resq_Value res)
         else Err (ErrText (resq_Log res))
     | None => Panic "nil pointer dereference"
     end) |}.

#[export] Instance abci_conn_spec app : AbciConn (abci_conn app) app.
Proof.
  split.
  - intros Req Res PQ PS path req data log value res Hm Ha Hu. cbn. rewrite Hm. cbn.
    by rewrite Ha.
  - intros Req Res PQ PS path req data code log value Hm Hc Ha. cbn. rewrite Hm. cbn.
    rewrite Ha. cbn. rewrite (proj2 (Z.eqb_neq code 0) Hc). by eexists.
Qed.

Lemma demo_serves C s :
  serves (service_router (_Query_serviceDesc (NewQueryServer (C := C))) s)
    (_Query_serviceDesc NewQueryServer) s.
Proof. apply service_router_serves. cbn. repeat constructor; set_solver. Qed.

Lemma demo_wire_state : wire_state demo_confirmed.
Proof.
  split.
  - vm_compute. split_and!; discriminate.
  - apply map_Forall_insert_2; [split; vm_compute; discriminate|]. apply map_Forall_empty.
  - apply map_Forall_empty.
  - apply demo_indexed_Inv.
Qed.

(** The clients and the filter ask a node in which alice and bob have both
    voted for height 20. *)
Definition demo_app : Application :=
  service_router (_Query_serviceDesc (NewQueryServer (C := demo_ctx 21))) demo_confirmed.

Lemma query_service_refines_witness :
  snd (client_EpochInfo (NewQueryClient (abci_conn demo_app)) (mkEpochInfoRequest 2)) =
    Ok (mkEpochInfo 2 20 29 [] 0 0) /\
  NetworkFilter_IsPublishable demo_app 20 = Ok true.
Proof.
  destruct (query_service_refines (C := demo_ctx 21) demo_app (abci_conn demo_app) demo_confirmed)
    as [HC HF].
  - apply demo_serves.
  - apply demo_wire_state.
  - intros vals [= <-]. vm_compute. discriminate.
  - split.
    + assert (snd (server_EpochInfo (NewQueryServer (C := demo_ctx 21)) (Some (mkEpochInfoRequest 2))
        demo_confirmed) = Ok (mkEpochInfo 2 20 29 [] 0 0)) as E by (vm_compute; reflexivity).
      assert (sendable (mkEpochInfoRequest 2)) as Hs
        by (split; [vm_compute; split; discriminate|vm_compute; discriminate]).
      pose proof (connected_EpochInfo (mkEpochInfoRequest 2) Hs) as H.
      unfold same_answer in H. rewrite E in H. exact H.
    + rewrite HF by (vm_compute; split; discriminate). vm_compute. reflexivity.
Defined.
