(* ===== verification/CliProps.v ===== *)
(** * What the commands print and submit

    The theorems are proved against [Connected], whatever the node behind the
    client is; [QueryServiceProps] shows it for an application that serves the
    module. *)

From Stdlib Require Import ZArith Lia.
From stdpp Require Import base gmap strings list pretty.
From S2P Require Import Prelude Strconv Bitmap Sdk Types Keeper MsgServer Query Wire Codec QueryService WireProps CodecProps Options OptionsProps.
From S2P Require Import NetworkInvariant NetworkDemo QueryServiceProps Cli.

Open Scope Z_scope.

(** A text that [ParseInt] reads as a height, and one that [ParseUint] reads as
    an epoch. *)
Definition height_text (a : string) (h : Z) : Prop := signed_decimal a = Some h /\ is_i64 h.
Definition epoch_text (a : string) (e : Z) : Prop := decimal a = Some e /\ e <= max_u64.

Section run.
Context {E : CliEnv}.

Lemma run_arg args i a out : args !! i = Some a -> arg args i out = (out, Ok a).
Proof. intros H. unfold arg. by rewrite H. Qed.

Lemma parsed_height text a h out : height_text a h -> parsed text (ParseInt a) out = (out, Ok h).
Proof. intros H%ParseInt_spec. by rewrite H. Qed.

Lemma parsed_epoch text a e out : epoch_text a e -> parsed text (ParseUint a) out = (out, Ok e).
Proof. intros H%ParseUint_spec. by rewrite H. Qed.

(** A body whose first step has a result goes on with it. *)
Lemma bind_run {A B} (m : M Out A) (k : A -> M Out B) a out :
  m out = (out, Ok a) -> (m ≫= k) out = k a out.
Proof. intros H. by rewrite run_bind, H. Qed.

Lemma lift_run {A} (r : outcome A) a (out : Out) : r = Ok a -> lift r out = (out, Ok a).
Proof. by intros ->. Qed.

Lemma parsed_fails text r out :
  (forall v, r <> (v, None)) -> exists e, parsed text r out = (out, Err (ErrWrap text e)).
Proof.
  intros H. destruct r as [v [err|]]; [by exists err|]. by destruct (H v).
Qed.

Lemma parsed_no_height text a out :
  (forall h, ~ height_text a h) -> exists e, parsed text (ParseInt a) out = (out, Err (ErrWrap text e)).
Proof. intros H. apply parsed_fails. intros v Hv%ParseInt_spec. by apply (H v). Qed.

Lemma parsed_no_epoch text a out :
  (forall e, ~ epoch_text a e) -> exists e, parsed text (ParseUint a) out = (out, Err (ErrWrap text e)).
Proof. intros H. apply parsed_fails. intros v Hv%ParseUint_spec. by apply (H v). Qed.

Lemma run_PrintProto ctx m out :
  PrintProto ctx m out = (out ++ [PrintedProto m], PrintProto_result ctx m).
Proof. reflexivity. Qed.

Lemma run_Generate ctx cmd m out :
  GenerateOrBroadcastTxCLI ctx cmd m out
    = (out ++ [GeneratedTx m], GenerateOrBroadcastTxCLI_result ctx cmd m).
Proof. reflexivity. Qed.
End run.

(** The command prints the server's answer, and nothing when there is none. *)
Definition prints `{E : CliEnv, PS : ProtoMessage Res} (ctx : ClientContext) (run : M Out unit)
    (answer : State * outcome Res) : Prop :=
  forall out,
    match snd answer with
    | Ok r => run out = (out ++ [PrintedProto (pack r)], PrintProto_result ctx (pack r))
    | _ => exists e, run out = (out, Err e)
    end.

Lemma prints_ext `{E : CliEnv, PS : ProtoMessage Res} ctx run1 run2 (answer : State * outcome Res) :
  (forall out, run1 out = run2 out) -> prints ctx run2 answer -> prints ctx run1 answer.
Proof. intros Hr Hp out. specialize (Hp out). by rewrite <- Hr in Hp. Qed.

Lemma sendable_height h : is_i64 h -> sendable (mkBitmapRequest h).
Proof.
  intros Hh. split; [done|]. cbn [MarshalToSizedBuffer AttestationBitmapRequest_message].
  unfold AttestationBitmapRequest_MarshalToSizedBuffer. short_message.
Qed.

Lemma sendable_status h : is_i64 h -> sendable (mkSoftConfirmationRequest h).
Proof.
  intros Hh. split; [done|]. cbn [MarshalToSizedBuffer SoftConfirmationRequest_message].
  unfold SoftConfirmationRequest_MarshalToSizedBuffer. short_message.
Qed.

Lemma sendable_epoch e : is_u64 e -> sendable (mkEpochInfoRequest e).
Proof.
  intros He. split; [done|]. cbn [MarshalToSizedBuffer EpochInfoRequest_message].
  unfold EpochInfoRequest_MarshalToSizedBuffer. short_message.
Qed.

(** A step of a command that has a result. *)
Ltac step lemma := etransitivity; [apply bind_run, lemma; done|].

Section commands.
Context {E : CliEnv} {L : CliLaws E}.
Context (cmd : Cmd) (ctx : ClientContext).

(** The end of every query command. *)
Lemma prints_answer `{PS : ProtoMessage Res} (call : ServerMetadata * outcome Res) answer :
  same_answer call answer ->
  prints ctx (res ← lift (snd call); PrintProto ctx (pack res)) answer.
Proof.
  unfold same_answer, prints. intros H out. rewrite run_bind, run_lift.
  destruct (snd answer) as [r| |]; [by rewrite H|..]; destruct H as [err ->]; by exists err.
Qed.

Context (Hctx : GetClientQueryContext cmd = Ok ctx).
Context (sv : QueryServer) (s : State) {HC : Connected (NewQueryClient (context_conn ctx)) sv s}.

(** A query command given the text of a height or an epoch (any text that
    is a decimal number of the type, signs and leading zeros included), or an
    address, prints exactly the message that the query server of the node
    answers for this number or address, and prints nothing and fails when the
    server does not answer. *)
Theorem query_commands_print :
  prints ctx (RunE CmdQueryParams cmd []) (server_Params sv (Some mkQueryParamsRequest) s) /\
  (forall a h, height_text a h ->
     prints ctx (RunE CmdQueryAttestationBitmap cmd [a])
       (server_AttestationBitmap sv (Some (mkBitmapRequest h)) s) /\
     prints ctx (RunE CmdQuerySoftConfirmationStatus cmd [a])
       (server_SoftConfirmationStatus sv (Some (mkSoftConfirmationRequest h)) s)) /\
  (forall a e, epoch_text a e ->
     prints ctx (RunE CmdQueryEpochInfo cmd [a])
       (server_EpochInfo sv (Some (mkEpochInfoRequest e)) s)) /\
  (forall a, sendable (mkValidatorIndexRequest a) ->
     prints ctx (RunE CmdQueryValidatorIndex cmd [a])
       (server_ValidatorIndex sv (Some (mkValidatorIndexRequest a)) s)).
Proof.
  split_and!.
  - eapply prints_ext; [intros out; by step @lift_run|]. apply prints_answer, connected_Params.
  - intros a h Ha. split.
    + eapply prints_ext; [intros out; step @lift_run; step @run_arg; by step @parsed_height|].
      apply prints_answer, connected_AttestationBitmap, sendable_height, Ha.
    + eapply prints_ext; [intros out; step @lift_run; step @run_arg; by step @parsed_height|].
      apply prints_answer, connected_SoftConfirmationStatus, sendable_status, Ha.
  - intros a e Ha.
    eapply prints_ext; [intros out; step @lift_run; step @run_arg; by step @parsed_epoch|].
    apply prints_answer, connected_EpochInfo, sendable_epoch.
    destruct Ha as [Hd Hm]. split; [by eapply decimal_nonneg|done].
  - intros a Ha. eapply prints_ext; [intros out; step @lift_run; by step @run_arg|].
    by apply prints_answer, connected_ValidatorIndex.
Qed.

(** C39: Whatever arguments pass the check of a command, its body does not run
    out of them; when the number is no decimal text, or does not fit its type,
    the command fails with the parser's error and neither asks nor prints. *)
Theorem number_arguments_checked out :
  (forall args, ExactArgs 1 args = Ok tt ->
     exists a, args = [a] /\
     ((forall h, ~ height_text a h) ->
        (exists e, RunE CmdQueryAttestationBitmap cmd args out
           = (out, Err (ErrWrap "invalid height" e))) /\
        (exists e, RunE CmdQuerySoftConfirmationStatus cmd args out
           = (out, Err (ErrWrap "invalid height" e)))) /\
     ((forall n, ~ epoch_text a n) ->
        exists e, RunE CmdQueryEpochInfo cmd args out = (out, Err (ErrWrap "invalid epoch" e)))) /\
  (forall tctx args, GetClientTxContext cmd = Ok tctx -> ExactArgs 2 args = Ok tt ->
     exists a v, args = [a; v] /\
     ((forall h, ~ height_text a h) ->
        exists e, RunE CmdAttest cmd args out = (out, Err (ErrWrap "invalid height" e)))).
Proof.
  split.
  - intros args Hargs%ExactArgs_spec. destruct args as [|a [|]]; try done. exists a.
    split_and!; [done|intros Ha|intros Ha].
    + destruct (parsed_no_height "invalid height" a out Ha) as [e He].
      split; exists e; step @lift_run; step @run_arg; by rewrite run_bind, He.
    + destruct (parsed_no_epoch "invalid epoch" a out Ha) as [e He].
      exists e. step @lift_run. step @run_arg. by rewrite run_bind, He.
  - intros tctx args Ht Hargs%ExactArgs_spec. destruct args as [|a [|v [|]]]; try done.
    exists a, v. split; [done|]. intros Ha.
    destruct (parsed_no_height "invalid height" a out Ha) as [e He].
    exists e. step @lift_run. step @run_arg. by rewrite run_bind, He.
Qed.
End commands.

Section tx.
Context {E : CliEnv} {CH : Chain} {C : Ctx}.

(** The transaction commands hand their message, signed for the sender's
    validator address, to the transaction client.  The vote of [CmdAttest] is
    the text of the argument: the bytes of the text itself, not those that it
    is the base64 text of, are what an accepted attestation stores as the
    signature of the height. *)
Theorem tx_commands_submit cmd ctx a h v out :
  GetClientTxContext cmd = Ok ctx -> height_text a h ->
  let sender := ValAddress_String (GetFromAddress ctx) in
  let submits run m := run out = (out ++ [GeneratedTx m], GenerateOrBroadcastTxCLI_result ctx cmd m) in
  submits (RunE CmdJoinAttesterSet cmd []) (pack (NewMsgJoinAttesterSet sender)) /\
  submits (RunE CmdLeaveAttesterSet cmd []) (pack (NewMsgLeaveAttesterSet sender)) /\
  let msg := NewMsgAttest sender h (bytes_of_string v) in
  submits (RunE CmdAttest cmd [a; v]) (pack msg) /\
  forall s s', Attest msg s = (s', Ok tt) ->
    Signatures s' !! (h, sender) = Some (bytes_of_string v).
Proof.
  intros Hctx Ha sender submits. unfold submits. split_and!.
  - by step @lift_run.
  - by step @lift_run.
  - step @lift_run. step @run_arg. step @parsed_height. by step @run_arg.
  - intros s s' (i & bm & e & eb & _ & ->)%Attest_ok_inv. cbn. by rewrite lookup_insert_eq.
Qed.
End tx.

(** *** A terminal *)

(** A client of the demo node for [alice]. *)
#[export] Instance demo_cli : CliEnv := {|
  Cmd := unit;
  ClientContext := ClientConn;
  ExactArgs n args :=
    if bool_decide (length args = n) then Ok tt else Err (ErrText "accepts another number of args");
  NoArgs args := if bool_decide (args = []) then Ok tt else Err (ErrText "unknown command");
  ValidateCmd _ _ := mret tt;
  GetClientQueryContext _ := Ok (abci_conn demo_app);
  GetClientTxContext _ := Ok (abci_conn demo_app);
  context_conn cc := cc;
  GetFromAddress _ := [97; 108; 105; 99; 101];
  ValAddress_String := string_of_bytes;
  PrintProto_result _ _ := Ok tt;
  GenerateOrBroadcastTxCLI_result _ _ _ := Ok tt |}.

#[export] Instance demo_cli_laws : CliLaws demo_cli.
Proof.
  split.
  - intros n args. cbn. by case_bool_decide.
  - intros args. cbn. by case_bool_decide.
Qed.

#[export] Instance demo_connected :
  Connected (NewQueryClient (abci_conn demo_app)) (NewQueryServer (C := demo_ctx 21)) demo_confirmed.
Proof.
  apply (connected_over_router _ demo_app); [apply demo_serves|].
  apply module_answers_typed; [apply demo_wire_state|].
  intros vals [= <-]. vm_compute. discriminate.
Qed.

Lemma query_commands_print_witness :
  RunE CmdQuerySoftConfirmationStatus tt ["+0020"%string] [] =
    ([PrintedProto (pack (mkSoftConfirmation true 30 30 "0.667000000000000000"))], Ok tt).
Proof.
  pose proof (query_commands_print (E := demo_cli) tt (abci_conn demo_app) eq_refl
    (NewQueryServer (C := demo_ctx 21)) demo_confirmed) as (_ & H & _).
  assert (height_text "+0020" 20) as Ha by (split; [reflexivity|by vm_compute]).
  destruct (H _ _ Ha) as [_ Hs]. specialize (Hs []). clear H.
  assert (snd (server_SoftConfirmationStatus (NewQueryServer (C := demo_ctx 21))
    (Some (mkSoftConfirmationRequest 20)) demo_confirmed)
    = Ok (mkSoftConfirmation true 30 30 "0.667000000000000000")) as E by (vm_compute; reflexivity).
  rewrite E in Hs. exact Hs.
Defined.

Lemma number_arguments_checked_witness :
  exists e, RunE CmdAttest tt ["0x14"; "vote"]%string [] = ([], Err (ErrWrap "invalid height" e)).
Proof.
  destruct (number_arguments_checked (E := demo_cli) tt (abci_conn demo_app) eq_refl []) as [_ H].
  destruct (H (abci_conn demo_app) ["0x14"; "vote"]%string eq_refl eq_refl) as (a & v & [= <- <-] & Hf).
  apply Hf. intros h [Hs _]. vm_compute in Hs. discriminate.
Defined.

(** [alice] votes with the base64 text of the bytes 7 7. *)
Lemma tx_commands_submit_witness :
  exists msg s', RunE CmdAttest tt ["30"; "Bwc="]%string [] = ([GeneratedTx (pack msg)], Ok tt) /\
    Attest (C := demo_ctx 21) msg demo_indexed = (s', Ok tt) /\
    Signatures s' !! (30, "alice"%string) = Some [66; 119; 99; 61].
Proof.
  destruct (tx_commands_submit (E := demo_cli) (C := demo_ctx 21) tt (abci_conn demo_app) "30" 30
    "Bwc=" []) as (_ & _ & Hrun & HS).
  - reflexivity.
  - split; [reflexivity|by vm_compute].
  - eexists _, _. split; [exact Hrun|].
    assert (Attest (C := demo_ctx 21) (NewMsgAttest "alice" 30 [66; 119; 99; 61]) demo_indexed
      = (_, Ok tt)) as Ha by (vm_compute; reflexivity).
    split; [exact Ha|]. exact (HS _ _ Ha).
Defined.
