(* ===== verification/GatewayProps.v ===== *)
(** * The gateways: in process and over a connection *)

From Stdlib Require Import ZArith Lia.
From stdpp Require Import base gmap strings list pretty.
From S2P Require Import Prelude Strconv Bitmap Sdk Types Keeper MsgServer Query Wire Codec QueryService Rollkitmngr WireProps CodecProps Options OptionsProps.
From S2P Require Import NetworkInvariant NetworkDemo QueryServiceProps Cli CliProps Gateway MigrationProps SmoothProps.

Open Scope Z_scope.

(** The documented conversions: a result is a value of its type. *)
Class RuntimeLaws (RT : Runtime) : Prop := {
  Int64_range v h : runtime_Int64 v = Ok h -> is_i64 h;
  Uint64_range v e : runtime_Uint64 v = Ok e -> is_u64 e;
  String_same v a : runtime_String v = Ok a -> a = v
}.

(** The message that a handler forwards, if it forwards one. *)
Definition forwarded {S Msg} (run : S * outcome (Reply Msg)) : option Msg :=
  match snd run with Ok (ForwardResponseMessage _ m) => Some m | _ => None end.

(** The code of the error that a handler answers. *)
Definition rejected {S Msg} (code : string) (run : S * outcome (Reply Msg)) : Prop :=
  exists md err, snd run = Ok (HTTPError md err) /\ errors_Is err code = true.

(** A path parameter that is missing or is no text of its type. *)
Definition bad_param {A} (name : string) (convert : string -> outcome A) (params : pathParams) :
    Prop :=
  match params !! name with
  | Some v => exists e, convert v = Err e
  | None => True
  end.

Section agree.
Context {RT : Runtime} {S Msg : Type} (s : S).

Definition annotated (req : http_Request) : Prop :=
  AnnotateContext req = Ok tt /\ AnnotateIncomingContext req = Ok tt.

(** Two routes for the same requests that forward the same messages. *)
Definition same_route (good : pathParams -> Prop) (r1 r2 : Route (S := S) (Msg := Msg)) : Prop :=
  rt_method r1 = rt_method r2 /\ rt_pattern r1 = rt_pattern r2 /\
  forall req params, annotated req -> good params ->
    forwarded (rt_handler r1 req params s) = forwarded (rt_handler r2 req params s).

Lemma handlers_agree {Req Res} (protoReq : pathParams -> outcome Req) (as_message : Res -> Msg)
    (m1 : option Req -> M S Res) (m2 : Req -> ServerMetadata * outcome Res) req params :
  annotated req ->
  (forall q, protoReq params = Ok q -> same_answer (m2 q) (m1 (Some q) s)) ->
  forwarded (server_handler (fun ps => with_local_request (protoReq ps) m1 as_message) req params s) =
  forwarded (client_handler (fun ps => with_request (protoReq ps) m2 as_message) req params s).
Proof.
  intros [H1 H2] Hq. unfold server_handler, client_handler, with_request, with_local_request.
  rewrite H1, H2, run_bind, run_lift. destruct (protoReq params) as [q|e|t]; [|done..].
  specialize (Hq q eq_refl). unfold same_answer in Hq. rewrite run_bind.
  destruct (m2 q) as [md r2]. destruct (m1 (Some q) s) as [s' [r|e|t]]; cbn [snd] in Hq.
  - by subst r2.
  - by destruct Hq as [e' ->].
  - by destruct Hq as [e' ->].
Qed.

(** A bad parameter is refused before anything is called. *)
Lemma bad_param_rejected {A Req Res} name (convert : string -> outcome A) (mk : A -> Req)
    (as_message : Res -> Msg) (m1 : option Req -> M S Res) (m2 : Req -> ServerMetadata * outcome Res)
    req params :
  annotated req -> bad_param name convert params ->
  let protoReq ps := a ← path_param name convert ps; Ok (mk a) in
  rejected "codes.InvalidArgument"
    (server_handler (fun ps => with_local_request (protoReq ps) m1 as_message) req params s) /\
  rejected "codes.InvalidArgument"
    (client_handler (fun ps => with_request (protoReq ps) m2 as_message) req params s).
Proof.
  intros [H1 H2] Hb protoReq.
  assert (exists text, protoReq params = Err (gw_InvalidArgument text)) as [text Hp].
  { unfold protoReq, path_param, bad_param in *. destruct (params !! name) as [v|]; [|by eexists].
    destruct Hb as [e ->]. by eexists. }
  unfold rejected, server_handler, client_handler, with_request, with_local_request.
  rewrite H1, H2, run_bind, run_lift, Hp. split; by eexists _, _.
Qed.
End agree.

Section network.
Context {RT : Runtime} {RL : RuntimeLaws RT}.
Context (sv : QueryServer) (cl : QueryClient) (s : State) {HC : Connected cl sv s}.

(** An address in the path is short enough for a message. *)
Definition short_params (params : pathParams) : Prop :=
  forall a, params !! "address"%string = Some a -> sendable (mkValidatorIndexRequest a).

Lemma path_param_ok {A} name (convert : string -> outcome A) params a :
  path_param name convert params = Ok a -> exists v, params !! name = Some v /\ convert v = Ok a.
Proof.
  unfold path_param. destruct (params !! name) as [v|]; [|done].
  destruct (convert v) eqn:E; [|done..]. intros [= <-]. by exists v.
Qed.

Lemma network_routes_agree :
  Forall2 (same_route s short_params)
    (fst (NetworkGateway.RegisterQueryHandlerServer [] sv)) (fst (NetworkGateway.RegisterQueryHandlerClient [] cl)).
Proof.
  repeat constructor; intros req params Hreq Hp; apply handlers_agree; try done; intros q.
  - intros [= <-]. apply connected_Params.
  - intros (h & (v & _ & Hh%Int64_range)%path_param_ok & [= <-])%outcome_bind_ok.
    by apply connected_AttestationBitmap, sendable_height.
  - intros (e & (v & _ & He%Uint64_range)%path_param_ok & [= <-])%outcome_bind_ok.
    by apply connected_EpochInfo, sendable_epoch.
  - intros (a & (v & Hv & ->%String_same)%path_param_ok & [= <-])%outcome_bind_ok.
    by apply connected_ValidatorIndex, Hp.
  - intros (h & (v & _ & Hh%Int64_range)%path_param_ok & [= <-])%outcome_bind_ok.
    by apply connected_SoftConfirmationStatus, sendable_status.
Qed.
End network.

(** The migration manager's client answers as its server does. *)
Class MngrConnected (cl : RollkitmngrGateway.QueryClient) (sv : RollkitmngrGateway.QueryServer)
    (s : MngrState) : Prop := {
  connected_IsMigrating : same_answer (RollkitmngrGateway.client_IsMigrating cl tt)
    (RollkitmngrGateway.server_IsMigrating sv (Some tt) s);
  connected_Sequencer : same_answer (RollkitmngrGateway.client_Sequencer cl tt)
    (RollkitmngrGateway.server_Sequencer sv (Some tt) s);
  connected_Attesters : same_answer (RollkitmngrGateway.client_Attesters cl tt)
    (RollkitmngrGateway.server_Attesters sv (Some tt) s)
}.

Section gateways.
Context {RT : Runtime} {RL : RuntimeLaws RT}.

(** C15: The two registrations of a module's gateway set up the same routes,
    all of them with different patterns, and each route forwards the same
    message whether it calls the server in the process or a client that
    reaches this server. *)
Theorem gateways_agree sv cl s msv mcl ms :
  Connected cl sv s -> MngrConnected mcl msv ms ->
  (let local := fst (NetworkGateway.RegisterQueryHandlerServer [] sv) in
   Forall2 (same_route s short_params) local (fst (NetworkGateway.RegisterQueryHandlerClient [] cl)) /\
   NoDup (rt_pattern <$> local)) /\
  (let local := fst (RollkitmngrGateway.RegisterQueryHandlerServer [] msv) in
   Forall2 (same_route ms (fun _ => True)) local
     (fst (RollkitmngrGateway.RegisterQueryHandlerClient [] mcl)) /\
   NoDup (rt_pattern <$> local)).
Proof.
  intros HC HM. cbv zeta. split_and!.
  - by apply network_routes_agree.
  - cbn. repeat constructor; set_solver.
  - repeat constructor; intros req params Hreq Hp; apply (handlers_agree ms (fun _ => Ok tt)); try done;
      intros q [= <-]; [apply connected_IsMigrating|apply connected_Sequencer|apply connected_Attesters].
  - cbn. repeat constructor; set_solver.
Qed.

(** The parameter of each route of the network module, and whether its text is
    one of its type. *)
Definition route_params : list (option (string * (string -> bool))) :=
  [ None;
    Some ("height"%string, fun v => is_ok (runtime_Int64 v));
    Some ("epoch"%string, fun v => is_ok (runtime_Uint64 v));
    Some ("address"%string, fun v => is_ok (runtime_String v));
    Some ("height"%string, fun v => is_ok (runtime_Int64 v)) ].

(** A request whose path parameter is missing or no text of its type is
    answered with InvalidArgument by each of the four routes that have a
    parameter, in the process as over a connection, whatever server or client
    stands behind the route. *)
Theorem gateway_rejects_bad_parameters sv cl s req params k name ok rt1 rt2 :
  route_params !! k = Some (Some (name, ok)) ->
  fst (NetworkGateway.RegisterQueryHandlerServer [] sv) !! k = Some rt1 ->
  fst (NetworkGateway.RegisterQueryHandlerClient [] cl) !! k = Some rt2 ->
  annotated req ->
  (forall v t, runtime_Int64 v <> Panic t /\ runtime_Uint64 v <> Panic t /\ runtime_String v <> Panic t) ->
  match params !! name with Some v => ok v = false | None => True end ->
  rejected "codes.InvalidArgument" (rt_handler rt1 req params s) /\
  rejected "codes.InvalidArgument" (rt_handler rt2 req params s).
Proof.
  intros Hk H1 H2 Hreq Hnp Hbad.
  assert (forall A (convert : string -> outcome A), (forall v t, convert v <> Panic t) ->
    match params !! name with Some v => is_ok (convert v) = false | None => True end ->
    bad_param name convert params) as Hb.
  { intros A convert Hc. unfold bad_param. destruct (params !! name) as [v|]; [|done].
    destruct (convert v) as [|e|t] eqn:E; [done|by exists e|]. by destruct (Hc v t). }
  destruct k as [|[|[|[|[|k]]]]]; cbn in Hk, H1, H2; simplify_eq.
  - eapply bad_param_rejected; [done|]. apply Hb; [apply Hnp|done].
  - eapply bad_param_rejected; [done|]. apply Hb; [apply Hnp|done].
  - eapply bad_param_rejected; [done|]. apply Hb; [apply Hnp|done].
  - eapply bad_param_rejected; [done|]. apply Hb; [apply Hnp|done].
Qed.
End gateways.

(** *** A gateway *)

#[export] Instance demo_runtime : Runtime := {|
  http_Request := unit;
  runtime_Int64 v := match ParseInt v with (h, None) => Ok h | (_, Some e) => Err e end;
  runtime_Uint64 v := match ParseUint v with (e, None) => Ok e | (_, Some e) => Err e end;
  runtime_String v := Ok v;
  AnnotateContext _ := Ok tt;
  AnnotateIncomingContext _ := Ok tt;
  metadata_Join _ md := md |}.

#[export] Instance demo_runtime_laws : RuntimeLaws demo_runtime.
Proof.
  split.
  - intros v h. cbn. destruct (ParseInt v) as [h' [e|]] eqn:E; [done|]. intros [= <-].
    by apply ParseInt_spec in E as [_ ?].
  - intros v n. cbn. destruct (ParseUint v) as [n' [e|]] eqn:E; [done|]. intros [= <-].
    apply ParseUint_spec in E as [Hd ?]. apply decimal_nonneg in Hd. done.
  - by intros v a [= <-].
Qed.

(** A client that calls the server. *)
Definition direct {S Res} (run : S * outcome Res) : ServerMetadata * outcome Res :=
  (no_metadata, match snd run with Panic t => Err (ErrText t) | r => r end).

Lemma direct_same {S Res} (run : S * outcome Res) : same_answer (direct run) run.
Proof. unfold same_answer, direct. destruct (snd run); cbn; eauto. Qed.

Definition mngr_direct (sv : RollkitmngrGateway.QueryServer) (s : MngrState) :
    RollkitmngrGateway.QueryClient := {|
  RollkitmngrGateway.client_IsMigrating _ :=
    direct (RollkitmngrGateway.server_IsMigrating sv (Some tt) s);
  RollkitmngrGateway.client_Sequencer _ :=
    direct (RollkitmngrGateway.server_Sequencer sv (Some tt) s);
  RollkitmngrGateway.client_Attesters _ :=
    direct (RollkitmngrGateway.server_Attesters sv (Some tt) s) |}.

#[export] Instance mngr_direct_connected sv s : MngrConnected (mngr_direct sv s) sv s.
Proof. split; apply direct_same. Qed.

(** The demo node behind both registrations, asked for epoch 2. *)
Definition demo_client_route : Route (S := State) (Msg := Message) :=
  mkRoute "GET" NetworkGateway.pattern_Query_EpochInfo_0
    (client_handler (NetworkGateway.request_Query_EpochInfo_0 (NewQueryClient (abci_conn demo_app)))).

Definition demo_server_route : Route (S := State) (Msg := Message) :=
  mkRoute "GET" NetworkGateway.pattern_Query_EpochInfo_0
    (server_handler (NetworkGateway.local_request_Query_EpochInfo_0 (NewQueryServer (C := demo_ctx 21)))).

(** Epoch 2 goes from height 20 to height 29. *)
Lemma gateways_agree_witness :
  msg_Marshal <$> forwarded (rt_handler demo_client_route tt {["epoch" := "2"]}%string demo_confirmed) =
    Some (Ok [8; 2; 16; 20; 24; 29]).
Proof.
  destruct (gateways_agree (RT := demo_runtime)
    (NewQueryServer (C := demo_ctx 21)) (NewQueryClient (abci_conn demo_app)) demo_confirmed
    (RollkitmngrGateway.NewQueryServer (MN := demo_mngr) (C := demo_ctx 21))
    (mngr_direct (RollkitmngrGateway.NewQueryServer (MN := demo_mngr) (C := demo_ctx 21))
      (mkMngrState None None None)) (mkMngrState None None None)) as [[H _] _].
  - apply demo_connected.
  - apply mngr_direct_connected.
  - destruct (Forall2_lookup_r _ _ _ 2%nat demo_client_route H eq_refl) as (r1 & E1 & _ & _ & Hr).
    assert (short_params {["epoch" := "2"]}%string) as Hp by (intros a Ha; by vm_compute in Ha).
    specialize (Hr tt _ (conj eq_refl eq_refl) Hp). rewrite <- Hr.
    assert (Some demo_server_route = Some r1) as E2 by exact E1. injection E2 as <-.
    clear. vm_compute. reflexivity.
Defined.

Lemma gateway_rejects_bad_parameters_witness :
  rejected "codes.InvalidArgument"
    (rt_handler demo_client_route tt {["epoch" := "-2"]}%string demo_confirmed).
Proof.
  eapply (gateway_rejects_bad_parameters (RT := demo_runtime) (NewQueryServer (C := demo_ctx 21))
    (NewQueryClient (abci_conn demo_app)) demo_confirmed tt {["epoch" := "-2"]}%string 2).
  - reflexivity.
  - reflexivity.
  - reflexivity.
  - done.
  - intros v t. cbn. destruct (ParseInt v) as [? [?|]], (ParseUint v) as [? [?|]]; done.
  - vm_compute. reflexivity.
Defined.
