(* ===== verification/ConfirmProps.v ===== *)
(** * From votes to published blocks

    The network module, its query service, the block filter and the adapter
    together: a block that waits in the adapter's stack is released when the
    attesters' votes for its height have been delivered. *)

From Stdlib Require Import ZArith Lia.
From stdpp Require Import base gmap strings list fin_maps pretty.
From S2P Require Import Prelude Bitmap Sdk Types Keeper MsgServer Query Wire Codec QueryService CodecProps Options OptionsProps.
From S2P Require Import NetworkInvariant NetworkDemo AttestProps NetworkHistory LivenessProps QueryProps QueryServiceProps.
From S2P Require Import Comet Store Cometcompat MempoolIDs Adapter StoreProps AdapterDemo AdapterProps StackProps ExecuteProps.

Open Scope Z_scope.

Section status.
Context {CH : Chain} {C : Ctx}.

(** The status query answers whenever the keeper decides the confirmation of a
    height that has a bitmap, and gives its decision. *)
Lemma status_of_confirmed s h :
  IsSoftConfirmed h s = (s, Ok true) ->
  exists r, snd (Query_SoftConfirmationStatus (Some h) s) = Ok r /\ sc_IsSoftConfirmed r = true.
Proof.
  intros Hc. unfold Query_SoftConfirmationStatus. rewrite run_bind, Hc.
  rewrite IsSoftConfirmed_run in Hc. destruct (AttestationBitmap s !! h) as [b|] eqn:Eb; [|done].
  rewrite run_bind, (reads_only_run _ s (CalculateVotedPower_reads b)) in Hc.
  destruct (snd (CalculateVotedPower b s)) as [v| |] eqn:Ev; [|done..].
  rewrite run_bind, GetTotalPower_run in Hc.
  destruct (n ← GetLastTotalPower stakingKeeper; Int_Uint64 n) as [t| |] eqn:Et; [|done..]. clear Hc.
  run. rewrite ?Eb, ?Et. run. rewrite (reads_only_run _ s (CalculateVotedPower_reads b)), Ev.
  run. by eexists.
Qed.
End status.

Section release.
Context {CH : Chain} {C : Ctx} {HL : LegacyDecLaws Dec}.
Context `{SL : StoreCodecLaws} {E : Env} (app : Application).

(** The adapter asks the filter of [options.go] about its heights: the filter's
    answers are what it is told. *)
Definition filters_by : Prop :=
  forall h b, NetworkFilter_IsPublishable app h = Ok b -> IsPublishable h = b.

(** What the filter then lets through, over an application that serves [s]. *)
Lemma publishable_served s h :
  serves app (_Query_serviceDesc NewQueryServer) s -> wire_state s -> filters_by -> is_i64 h ->
  IsPublishable h =
    (2 <=? h) && match snd (Query_SoftConfirmationStatus (Some h) s) with
                 | Ok r => sc_IsSoftConfirmed r
                 | _ => false
                 end.
Proof.
  intros HS HW HF Hh. apply HF, filter_over_routes; [by apply serves_routes|done|].
  intros r. by apply SoftConfirmation_typed.
Qed.

(** A soft-confirmed height is publishable. *)
Lemma confirmed_publishable s h :
  serves app (_Query_serviceDesc NewQueryServer) s -> wire_state s -> filters_by ->
  2 <= h -> is_i64 h -> IsSoftConfirmed h s = (s, Ok true) -> IsPublishable h = true.
Proof.
  intros HS HW HF H2 Hh Hc. rewrite (publishable_served s h) by done.
  destruct (status_of_confirmed s h Hc) as (r & -> & ->). by rewrite (proj2 (Z.leb_le 2 h) H2).
Qed.

End release.

(** *** A block that waits for its votes

    Block 20 was executed before its votes and waits in the stack. *)

Definition demo_waiting : Node := Eval vm_compute in
  let db := match SaveBlockID 19 (mkBlockID [1; 2] (mkPartSetHeader 1 [3])) (node_db demo_node) with
            | Ok db => db | _ => ∅ end in
  (ExecuteTxs (E := demo_env 20 (always false) (always false)) [[1]] 20 (mkTime 5 0)
     (mkNode db [] [] [])).1.

Definition demo_voted_app : Application :=
  service_router (_Query_serviceDesc (NewQueryServer (C := demo_ctx 22))) demo_voted_state.

Definition demo_filter_env : Env :=
  demo_env 21 (fun h => match NetworkFilter_IsPublishable demo_voted_app h with Ok b => b | _ => false end)
    (always false).

Lemma demo_filters : filters_by (E := demo_filter_env) demo_voted_app.
Proof. intros h b Hb. cbn. by rewrite Hb. Qed.

Lemma demo_waiting_ok : stack_ok demo_waiting.
Proof.
  split; [|vm_compute; repeat constructor; set_solver].
  assert (Forall (releasable (node_heap demo_waiting) (node_db demo_waiting))
    (stackedEvents demo_waiting)) as H; [|by rewrite Forall_forall in H].
  cbn [stackedEvents demo_waiting]. constructor; [|constructor].
  split; [split; vm_compute; discriminate|]. split.
  - eexists. split; [vm_compute; reflexivity|]. cbn. lia.
  - eexists. vm_compute. reflexivity.
Qed.

Lemma demo_voted_wire : wire_state demo_voted_state.
Proof.
  assert (map_to_list (AttestationBitmap demo_voted_state) = [(20, [3])]) as HA by (vm_compute; reflexivity).
  split.
  - vm_compute. split_and!; discriminate.
  - intros h b Hb%elem_of_map_to_list. rewrite HA in Hb.
    apply list_elem_of_singleton in Hb as [= -> ->]. split; vm_compute; discriminate.
  - assert (map_to_list (EpochBitmap demo_voted_state) = [(2, [1]); (1, [2])]) as HE by (vm_compute; reflexivity).
    intros e b Hb%elem_of_map_to_list. rewrite HE in Hb.
    apply elem_of_cons in Hb as [[= -> ->]|[= -> ->]%list_elem_of_singleton]; vm_compute; discriminate.
  - apply (inv_powers _ (deliveries_Inv _ _ _ demo_deliveries demo_indexed_Inv)).
Qed.

