(* ===== verification/ReleaseProps.v ===== *)
(** * No release without votes

    The converse of [ConfirmProps]: finalising a height leaves a node alone
    unless a height at or below it has reached the quorum with votes that were
    cast in the history of the network module. *)

From Stdlib Require Import ZArith Lia.
From stdpp Require Import base gmap strings list fin_maps pretty.
From S2P Require Import Prelude Bitmap Sdk Types Keeper MsgServer Query Genesis Wire Codec QueryService CodecProps.
From S2P Require Import Options OptionsProps NetworkInvariant NetworkDemo AttestProps LivenessProps GenesisProps.
From S2P Require Import NetworkHistory QueryProps QueryServiceProps.
From S2P Require Import Comet Store Cometcompat MempoolIDs Adapter StoreProps AdapterDemo AdapterProps StackProps ExecuteProps.
From S2P Require Import ConfirmProps.

Open Scope Z_scope.

Section status.
Context {CH : Chain} {C : Ctx} {HL : LegacyDecLaws Dec}.

(** The status query says that a height is confirmed only if the keeper does. *)
Lemma confirmed_of_status s h r :
  snd (Query_SoftConfirmationStatus (Some h) s) = Ok r -> sc_IsSoftConfirmed r = true ->
  IsSoftConfirmed h s = (s, Ok true).
Proof.
  unfold Query_SoftConfirmationStatus. rewrite run_bind, (reads_only_run _ s (IsSoftConfirmed_reads h)).
  destruct (snd (IsSoftConfirmed h s)) as [b|e|t]; [|done..]. run.
  destruct (n ← _; _) as [t|?|?]; [|done..]. run.
  destruct (AttestationBitmap s !! h) as [bm|].
  - destruct (CalculateVotedPower bm s) as [s1 [v|?|?]]; [|done..]. run. by intros [= <-] [= ->].
  - run. by intros [= <-] [= ->].
Qed.

(** A confirmation needs the quorum, whatever the voted power wraps around to. *)
Lemma confirmed_needs_quorum s h p q total :
  IsSoftConfirmed h s = (s, Ok true) -> powers_ok s ->
  ParamsItem s = Some p -> unit_fraction (QuorumFraction p) q ->
  GetLastTotalPower stakingKeeper = Ok total -> 0 <= total <= max_i64 ->
  total * raw q / precision <= set_power s (votes s h).
Proof.
  intros Hs Hok Hp Hq Ht Htot. rewrite IsSoftConfirmed_run in Hs.
  destruct (AttestationBitmap s !! h) as [bm|] eqn:E; [|done].
  assert (has_powers s bm) as Hhas.
  { intros i Hi. destruct (ValidatorPower s !! u16 i) eqn:Ei; [by eauto|].
    rewrite run_bind, (CalculateVotedPower_missing s bm i) in Hs by done. discriminate. }
  rewrite run_bind, CalculateVotedPower_ok, run_bind, GetTotalPower_run, Ht in Hs by done.
  cbn [mbind outcome_bind] in Hs. unfold Int_Uint64 in Hs.
  rewrite (proj2 (Z.leb_le 0 total)), (proj2 (Z.leb_le total max_u64)) in Hs by (unfold_int; lia).
  cbn [andb] in Hs. rewrite (CheckQuorum_small s p q) in Hs by done. injection Hs as Hs%Z.leb_le.
  rewrite voted_sum_set_power in Hs. unfold votes. rewrite E.
  pose proof (set_power_nonneg s (bit_set bm) Hok). unfold u64, wrapU in Hs.
  pose proof (Z.mod_le (set_power s (bit_set bm)) (2 ^ 64) ltac:(lia) ltac:(lia)). lia.
Qed.
End status.

Section release.
Context {CH : Chain} {C : Ctx} {HL : LegacyDecLaws Dec}.
Context `{SL : StoreCodecLaws} {E : Env} (app : Application).

Lemma publishable_confirmed s h :
  serves app (_Query_serviceDesc NewQueryServer) s -> wire_state s -> filters_by app -> is_i64 h ->
  IsPublishable h = true -> 2 <= h /\ IsSoftConfirmed h s = (s, Ok true).
Proof.
  intros HS HW HF Hh. rewrite (publishable_served app s h) by done.
  intros [H2%Z.leb_le Hr]%andb_prop. split; [done|].
  destruct (snd (Query_SoftConfirmationStatus (Some h) s)) as [r|?|?] eqn:Er; [|done..].
  by eapply confirmed_of_status.
Qed.

(** Finalising does nothing unless a stacked block is publishable. *)
Lemma SetFinal_idle n height :
  (forall ev, ev ∈ stackedEvents n -> publishable (i64 height) ev = false) ->
  SetFinal height n = (n, Ok tt).
Proof.
  intros Hnone. unfold SetFinal, publishQueuedBlockEvents. rewrite run_bind, run_gets.
  pose proof (max_pos_released_spec (i64 height) (stackedEvents n)) as (Hr & Hp & _).
  set (p := max_pos_released _ _) in *. destruct (Z.eqb_spec p (-1)) as [->|]; [done|]. exfalso.
  destruct Hp as (ev & Hev & Hpub); [lia|].
  rewrite Hnone in Hpub; [done|]. by eapply list_elem_of_lookup_2.
Qed.

(** C10: No release without votes.  When the adapter's filter asks an application
    that serves a state of the network module, finalising a height leaves the
    node exactly as it was, unless a block that waits in the stack, at most at
    this height, has reached the quorum; and each vote of this quorum was there
    at the start of the module's history or was cast in it by an attester that
    held the index. *)
Theorem release_needs_votes s0 l s n height n' r p q total :
  history s0 l s -> Inv s -> ParamsItem s = Some p -> unit_fraction (QuorumFraction p) q ->
  GetLastTotalPower stakingKeeper = Ok total -> 0 <= total <= max_i64 ->
  serves app (_Query_serviceDesc NewQueryServer) s -> wire_state s -> filters_by app ->
  (forall ev, ev ∈ stackedEvents n -> is_i64 (ev_height ev)) ->
  SetFinal height n = (n', r) ->
  n' = n \/
  exists ev, ev ∈ stackedEvents n /\ 2 <= ev_height ev <= i64 height /\
    total * raw q / precision <= set_power s (votes s (ev_height ev)) /\
    forall i, i ∈ votes s (ev_height ev) ->
      i ∈ votes s0 (ev_height ev) \/
      exists v, v ∈ l /\ vote_Height v = ev_height ev /\ vote_Index v = i /\ vote_witnessed s0 l s v.
Proof.
  intros Hh HI Hp Hq Ht Htot HS HW HF Hi Hf.
  destruct (decide (Exists (fun ev => publishable (i64 height) ev = true) (stackedEvents n))) as [Hex|Hno].
  2: { left. rewrite SetFinal_idle in Hf; [by injection Hf|]. intros ev Hev.
       apply not_true_is_false. intros Hpub. apply Hno, Exists_exists. eauto. }
  right. apply Exists_exists in Hex as (ev & Hev & [Hle%Z.leb_le Hpub]%andb_prop).
  destruct (publishable_confirmed s (ev_height ev) HS HW HF (Hi ev Hev) Hpub) as [H2 Hc].
  exists ev. split; [done|]. split; [done|]. split.
  { eapply confirmed_needs_quorum; try done. apply (inv_powers s HI). }
  intros i Hiv. destruct (votes_sources s0 l s Hh (ev_height ev) i Hiv) as [H0|(v & Hv & [H1 _] & H3)]; [by left|].
  right. exists v. split_and!; try done. by apply history_witnessed.
Qed.
End release.

(** Bob's and Alice's votes are what releases block 20. *)
Lemma demo_voted_history :
  history demo_indexed [mkVote "bob" 1 20 true; mkVote "alice" 0 20 true] demo_voted_state.
Proof.
  apply (history_attest demo_indexed (demo_ctx 21) [mkVote "bob" 1 20 true] demo_next_epoch
    (attest_msg "alice" 20) 0 [2]); [|vm_compute; reflexivity..].
  apply (history_quiet demo_indexed _ demo_bob); [|apply (quiet_end_block _ _ (demo_ctx 19)), demo_epoch_end].
  apply (history_attest demo_indexed (demo_ctx 12) [] demo_indexed (attest_msg "bob" 20) 1 [0]);
    [constructor|vm_compute; reflexivity..].
Qed.

Lemma demo_voted_Inv_state : Inv demo_voted_state.
Proof. apply (deliveries_Inv _ _ _ demo_deliveries), demo_indexed_Inv. Qed.

Lemma release_needs_votes_witness :
  exists ev, ev ∈ stackedEvents demo_waiting /\ ev_height ev = 20 /\
    20 <= set_power demo_voted_state (votes demo_voted_state 20) /\
    vote_witnessed demo_indexed [mkVote "bob" 1 20 true; mkVote "alice" 0 20 true] demo_voted_state
      (mkVote "alice" 0 20 true).
Proof.
  destruct (release_needs_votes (C := demo_ctx 22) (E := demo_filter_env) demo_voted_app demo_indexed
    _ demo_voted_state demo_waiting 20 (SetFinal (E := demo_filter_env) 20 demo_waiting).1
    (SetFinal (E := demo_filter_env) 20 demo_waiting).2 DefaultParams DefaultQuorumFraction 30 demo_voted_history)
    as [Hsame|(ev & Hev & _ & Hq & Hv)].
  - exact demo_voted_Inv_state.
  - reflexivity.
  - split; [reflexivity|]. split; [reflexivity|]. vm_compute. discriminate.
  - reflexivity.
  - split; vm_compute; discriminate.
  - apply demo_serves.
  - exact demo_voted_wire.
  - apply demo_filters.
  - apply Forall_forall. repeat constructor; vm_compute; discriminate.
  - apply surjective_pairing.
  - apply (f_equal (fun n => length (stackedEvents n))) in Hsame. vm_compute in Hsame. discriminate.
  - assert (ev_height ev = 20) as Hh.
    { clear Hq Hv. revert ev Hev. apply Forall_forall. constructor; [vm_compute; reflexivity|constructor]. }
    exists ev. rewrite Hh in Hq, Hv. split; [exact Hev|]. split; [exact Hh|]. split; [exact Hq|].
    destruct (Hv 0) as [H0|(v & Hin & _ & Hi & Hw)].
    + vm_compute. reflexivity.
    + vm_compute in H0. discriminate.
    + apply elem_of_cons in Hin as [->|Hin]; [discriminate|].
      apply list_elem_of_singleton in Hin as ->. exact Hw.
Defined.
