(* ===== verification/Migrate.v ===== *)
(** * Migrating a CometBFT node ([server/migration_cmd.go])

    The command reads CometBFT's state and blocks and fills rollkit's stores.
    Rollkit's and go-header's stores are third-party code: a call to one is an
    entry of the log, and [MigEnv] gives its answer.  The execution store is the
    one of [Store.v]. *)

From Stdlib Require Import ZArith Lia.
From stdpp Require Import base gmap strings list numbers pretty.
From S2P Require Import Prelude Bitmap Comet Store.

Open Scope Z_scope.

Definition maxMissedBlock : Z := 50.

(** [rollkitMigrationGenesis] *)
Record rollkitMigrationGenesis : Type := mkMigrationGenesis {
  mg_ChainID : string;
  mg_InitialHeight : Z;     (* uint64 *)
  mg_GenesisTime : Z;       (* int64 *)
  mg_SequencerAddr : bytes;
  mg_SequencerPubKey : bytes
}.

(** [rollkitgenesis.Genesis] *)
Record RollkitGenesis : Type := mkRollkitGenesis {
  rg_ChainID : string;
  rg_InitialHeight : Z;
  rg_GenesisTime : Time;
  rg_ProposerAddress : bytes
}.

Definition ToRollkitGenesis (g : rollkitMigrationGenesis) : RollkitGenesis :=
  mkRollkitGenesis (mg_ChainID g) (mg_InitialHeight g) (time_Unix (mg_GenesisTime g))
    (mg_SequencerAddr g).

(** The rollkit header, data and state that the command writes. *)
Record MigratedHeader : Type := mkMigratedHeader {
  mh_Height : Z;            (* uint64 *)
  mh_Time : Z;              (* uint64 *)
  mh_ChainID : string;
  mh_Version_Block : Z;
  mh_Version_App : Z;
  mh_LastHeaderHash : bytes;
  mh_LastCommitHash : bytes;
  mh_DataHash : bytes;
  mh_ConsensusHash : bytes;
  mh_AppHash : bytes;
  mh_LastResultsHash : bytes;
  mh_ValidatorHash : bytes;
  mh_ProposerAddress : bytes;
  mh_Signature : bytes
}.
Record MigratedData : Type := mkMigratedData {
  md_ChainID : string;
  md_Height : Z;
  md_Time : Z;
  md_LastDataHash : bytes;
  md_Txs : list bytes
}.
Record RollkitState : Type := mkRollkitState {
  rs_Version_Block : Z;
  rs_Version_App : Z;
  rs_ChainID : string;
  rs_InitialHeight : Z;
  rs_LastBlockHeight : Z;
  rs_LastBlockTime : Time;
  rs_DAHeight : Z;
  rs_LastResultsHash : bytes;
  rs_AppHash : bytes
}.

Section data.
Context `{CT : CometTypes}.

(** CometBFT's state: the part the execution store keeps and what else the
    command reads. *)
Record CometState : Type := mkCometState {
  cs_state : CmtState;
  cs_Version_Block : Z;
  cs_Version_App : Z;
  cs_InitialHeight : Z;
  cs_LastBlockTime : Time;
  cs_LastResultsHash : bytes;
  cs_LastValidators : list CmtValidator
}.
End data.

Inductive MigCall : Type :=
| UpdateState (s : RollkitState)
| SaveBlockData (header : MigratedHeader) (data : MigratedData) (signature : bytes)
| HeaderSyncInit (header : MigratedHeader)
| DataSyncInit (data : MigratedData)
| SetHeight (height : Z)
| CloseStores.

Record MigStores : Type := mkMigStores {
  mig_db : datastore;
  mig_genesis : option rollkitMigrationGenesis;   (* rollkit_genesis.json *)
  mig_calls : list MigCall
}.

(** A value in an [Any]'s cache.  Both the SDK's and CometBFT's [PubKey]
    interfaces have an [Equals] method, whose argument is the interface itself:
    a Go type implements at most one of the two. *)
Inductive CachedValue : Type :=
| SdkPubKey (address pubKey : bytes)
| CometPubKey (address pubKey : bytes)
| NotPubKey.

(** [os.Stat] *)
Inductive StatResult : Type := StatOk | StatNotExist | StatError (e : error).

Class MigEnv `{CT : CometTypes} : Type := {
  (** The file system, the databases of CometBFT and of the application. *)
  ParseConfig : outcome unit;
  os_Stat : string -> StatResult;
  OpenDatabase : string -> outcome unit;
  LoadBlock : Z -> option Block;
  LoadCometState : outcome CometState;
  (** The application's latest state, the sequencer item's public key [Any]
      (which may be nil), and unpacking it into an SDK public key. *)
  AnyPubKey : Type;
  LoadLatestVersion : outcome unit;
  GetSequencer : outcome (option AnyPubKey);
  UnpackPubKey : option AnyPubKey -> outcome CachedValue;
  (** Rollkit's stores. *)
  da_height : outcome Z;
  NewStore : string -> outcome unit;
  rollkit_answer : MigCall -> outcome unit;
  CloseBlockStore : outcome unit;
  CloseStateStore : outcome unit;
  WriteGenesis : outcome unit
}.

Definition collections_ErrNotFound : error := ErrSentinel "collections.ErrNotFound".

(** ** Blocks *)

(** The first commit signature of the proposer. *)
Fixpoint proposer_signature (proposer : bytes) (sigs : list CommitSig) : bytes :=
  match sigs with
  | [] => []
  | sig :: sigs' =>
      if bool_decide (cs_ValidatorAddress sig = proposer) then cs_Signature sig
      else proposer_signature proposer sigs'
  end.

Section migrate.
Context `{SC : StoreCodec} {ME : MigEnv}.

Definition cometBlockToRollkit (block : Block) : MigratedHeader * MigratedData * bytes :=
  let h := blk_Header block in
  let signature := proposer_signature (hdr_ProposerAddress h) (commit_Signatures (blk_LastCommit block)) in
  let header :=
    {| mh_Height := u64 (hdr_Height h);
       mh_Time := u64 (time_UnixNano (hdr_Time h));
       mh_ChainID := hdr_ChainID h;
       mh_Version_Block := hdr_Version_Block h;
       mh_Version_App := hdr_Version_App h;
       mh_LastHeaderHash := header_Hash h;
       mh_LastCommitHash := hdr_LastCommitHash h;
       mh_DataHash := hdr_DataHash h;
       mh_ConsensusHash := hdr_ConsensusHash h;
       mh_AppHash := hdr_AppHash h;
       mh_LastResultsHash := hdr_LastResultsHash h;
       mh_ValidatorHash := hdr_ValidatorsHash h;
       mh_ProposerAddress := hdr_ProposerAddress h;
       mh_Signature := signature |} in
  let data :=
    {| md_ChainID := hdr_ChainID h;
       md_Height := u64 (hdr_Height h);
       md_Time := u64 (time_UnixNano (hdr_Time h));
       md_LastDataHash := hdr_DataHash h;
       md_Txs := blk_Txs block |} in
  (header, data, signature).

Definition cometbftStateToRollkitState (s : CometState) (daHeight : Z) : RollkitState :=
  {| rs_Version_Block := cs_Version_Block s;
     rs_Version_App := cs_Version_App s;
     rs_ChainID := st_ChainID (cs_state s);
     rs_InitialHeight := u64 (st_LastBlockHeight (cs_state s));
     rs_LastBlockHeight := u64 (st_LastBlockHeight (cs_state s));
     rs_LastBlockTime := cs_LastBlockTime s;
     rs_DAHeight := daHeight;
     rs_LastResultsHash := cs_LastResultsHash s;
     rs_AppHash := st_AppHash (cs_state s) |}.

(** ** The genesis file *)

Definition fileExists (filename : string) : outcome bool :=
  match os_Stat filename with
  | StatOk => Ok true
  | StatNotExist => Ok false
  | StatError err => Err (ErrWrap "error checking file" err)
  end.

(** [sequencerCollection.Get]: not found is told apart. *)
Definition get_sequencer : outcome (option AnyPubKey) :=
  match GetSequencer with
  | Err e =>
      if errors_Is e "collections.ErrNotFound"
      then Err (ErrText "sequencer not found in rollkitmngr state")
      else Err (ErrWrap "failed to get sequencer from rollkitmngr state" e)
  | r => r
  end.

(** The key must be a CometBFT key - the type assertion is to CometBFT's
    interface - and the sequencer one of the last validators. *)
Definition getSequencerFromRollkitMngrState (s : CometState) : outcome (bytes * bytes) :=
  ok ← wrap_outcome "error checking application database" (fileExists "application.db");
  if negb ok then Err (ErrText "no application database found")
  else
    wrap_outcome "failed to open application database" (OpenDatabase "application") ;;
    wrap_outcome "failed to load latest version of commit multi store" LoadLatestVersion ;;
    pubKeyAny ← get_sequencer;
    cached ← wrap_outcome "failed to unpack sequencer interfaces" (UnpackPubKey pubKeyAny);
    match pubKeyAny with
    | None => Err (ErrText "sequencer consensus public key is nil")
    | Some _ =>
        match cached with
        | CometPubKey addr pubKey =>
            if existsb (fun v => bool_decide (cv_Address v = addr)) (cs_LastValidators s)
            then Ok (addr, pubKey)
            else Err (ErrText "sequencer from rollkitmngr state is not found in the validator set")
        | _ => Err (ErrText "failed to extract public key from sequencer")
        end
    end.

Definition sequencer_of (s : CometState) : outcome (bytes * bytes) :=
  match cs_LastValidators s with
  | [v] => Ok (cv_Address v, cv_PubKey v)
  | _ :: _ :: _ =>
      wrap_outcome "failed to get sequencer from rollkitmngr state"
        (getSequencerFromRollkitMngrState s)
  | [] => Err (ErrText "no validators found in the last validators, cannot determine sequencer address")
  end.

Definition createRollkitMigrationGenesis (s : CometState) : M MigStores unit :=
  seq ← lift (sequencer_of s);
  let g := {| mg_ChainID := st_ChainID (cs_state s);
              mg_InitialHeight := u64 (cs_InitialHeight s);
              mg_GenesisTime := time_UnixNano (cs_LastBlockTime s);
              mg_SequencerAddr := seq.1;
              mg_SequencerPubKey := seq.2 |} in
  wrap_err "failed to write rollkit migration genesis" (lift WriteGenesis) ;;
  modify (fun st => mkMigStores (mig_db st) (Some g) (mig_calls st)).

(** ** The command *)

Definition rollkit_call (c : MigCall) : M MigStores unit :=
  modify (fun st => mkMigStores (mig_db st) (mig_genesis st) (mig_calls st ++ [c])) ;;
  lift (rollkit_answer c).

(** The body of the loop for a block that was found. *)
Definition migrate_block (block : Block) (initSyncStores : bool) : M MigStores unit :=
  let '(header, data, signature) := cometBlockToRollkit block in
  wrap_err "failed to save block data" (rollkit_call (SaveBlockData header data signature)) ;;
  if initSyncStores then
    wrap_err "failed to initialize header sync store" (rollkit_call (HeaderSyncInit header)) ;;
    wrap_err "failed to initialize data sync store" (rollkit_call (DataSyncInit data))
  else mret tt.

(** The loop over the heights, the highest first; [missed] is the number of
    heights without a block (the keys of the map are distinct). *)
Fixpoint migrate_loop (heights : list Z) (missed : Z) (initSyncStores : bool) : M MigStores unit :=
  match heights with
  | [] => mret tt
  | height :: heights' =>
      if maxMissedBlock <=? missed then mret tt
      else
        match LoadBlock height with
        | None => migrate_loop heights' (missed + 1) initSyncStores
        | Some block =>
            migrate_block block initSyncStores ;;
            migrate_loop heights' missed false
        end
  end.

(** Whether the file is missing or cannot be looked at, the error says that
    there is no store. *)
Definition need_database (file text name : string) : outcome unit :=
  match fileExists file with
  | Ok true => OpenDatabase name
  | Ok false => Err (ErrText text)
  | Err e => Err (ErrWrap text e)
  | Panic t => Panic t
  end.

Definition loadStateAndBlockStore : outcome unit :=
  need_database "blockstore.db" "no blockstore found" "blockstore" ;;
  need_database "state.db" "no statestore found" "state".

Definition loadRollkitStores : outcome unit :=
  wrap_outcome "failed to create rollkit store" (NewStore "rollkit") ;;
  NewStore "dataSync" ;;
  NewStore "headerSync".

(** [errors.Join] of the three results: all the stores are closed. *)
Definition close_stores : M MigStores unit := fun st =>
  let '(st, r1) := rollkit_call CloseStores st in
  (st, match r1, CloseBlockStore, CloseStateStore with
       | Ok tt, Ok tt, Ok tt => Ok tt
       | Panic t, _, _ | _, Panic t, _ | _, _, Panic t => Panic t
       | _, _, _ => Err (ErrText "errors.Join")
       end).

Definition MigrateToRollkitCmd : M MigStores unit :=
  lift ParseConfig ;;
  lift loadStateAndBlockStore ;;
  cometBFTstate ← lift LoadCometState;
  let lastBlockHeight := st_LastBlockHeight (cs_state cometBFTstate) in
  lift loadRollkitStores ;;
  db ← gets mig_db;
  db' ← wrap_err "failed to save CometBFT state to ABCI exec store"
    (lift (SaveState (cs_state cometBFTstate) db));
  modify (fun st => mkMigStores db' (mig_genesis st) (mig_calls st)) ;;
  daHeight ← wrap_err "error reading da-height flag" (lift da_height);
  wrap_err "failed to update Rollkit state"
    (rollkit_call (UpdateState (cometbftStateToRollkitState cometBFTstate daHeight))) ;;
  wrap_err "failed to create rollkit migration genesis"
    (createRollkitMigrationGenesis cometBFTstate) ;;
  migrate_loop (rev (seqZ 1 lastBlockHeight)) 0 true ;;
  wrap_err "failed to set last height in Rollkit store"
    (rollkit_call (SetHeight (u64 lastBlockHeight))) ;;
  close_stores.
End migrate.
