(* ===== verification/MigrateProps.v ===== *)
(** * Theorems about the migration command *)

From Stdlib Require Import ZArith Lia.
From stdpp Require Import base gmap strings list numbers pretty.
From S2P Require Import Prelude Bitmap Comet Store Cometcompat MempoolIDs Adapter StoreProps.
From S2P Require Import AdapterDemo ExecuteProps Migrate.

Open Scope Z_scope.

Section migrate.
Context `{SL : StoreCodecLaws} {ME : MigEnv}.

Definition add_calls (cs : list MigCall) (st : MigStores) : MigStores :=
  mkMigStores (mig_db st) (mig_genesis st) (mig_calls st ++ cs).

Lemma rollkit_call_ok c st st' :
  rollkit_call c st = (st', Ok tt) -> st' = add_calls [c] st.
Proof. unfold rollkit_call. rewrite run_bind, run_modify, run_lift. by intros [= <- _]. Qed.

Lemma run_rollkit_call c st :
  rollkit_answer c = Ok tt -> rollkit_call c st = (add_calls [c] st, Ok tt).
Proof. intros Hc. unfold rollkit_call. by rewrite run_bind, run_modify, run_lift, Hc. Qed.

Lemma close_stores_ok st st' :
  close_stores st = (st', Ok tt) -> st' = add_calls [CloseStores] st.
Proof.
  unfold close_stores. destruct (rollkit_call CloseStores st) as [st1 r] eqn:E.
  destruct r as [[]| |], CloseBlockStore as [[]| |], CloseStateStore as [[]| |]; try done.
  intros [= <-]. by apply rollkit_call_ok.
Qed.

Lemma add_calls_app cs1 cs2 st : add_calls cs2 (add_calls cs1 st) = add_calls (cs1 ++ cs2) st.
Proof. unfold add_calls. cbn. by rewrite app_assoc. Qed.

(** The calls for a block, and for blocks of which the first initialises the
    synchronisation stores. *)
Definition block_calls (init : bool) (block : Block) : list MigCall :=
  let '(header, data, signature) := cometBlockToRollkit block in
  SaveBlockData header data signature
    :: (if init then [HeaderSyncInit header; DataSyncInit data] else []).
Fixpoint blocks_calls (init : bool) (blocks : list Block) : list MigCall :=
  match blocks with
  | [] => []
  | b :: blocks' => block_calls init b ++ blocks_calls false blocks'
  end.

Lemma migrate_block_ok b init st st' :
  migrate_block b init st = (st', Ok tt) -> st' = add_calls (block_calls init b) st.
Proof.
  unfold migrate_block, block_calls. destruct (cometBlockToRollkit b) as [[h d] sig].
  intros (s1 & [] & H1%wrap_err_ok%rollkit_call_ok & H2)%bind_ok. subst s1.
  destruct init; [|by injection H2 as <-].
  apply bind_ok in H2 as (s2 & [] & H2%wrap_err_ok%rollkit_call_ok & H3%wrap_err_ok%rollkit_call_ok).
  subst. by rewrite !add_calls_app.
Qed.

(** How many heights above [h], up to [last], have no block. *)
Definition missing_above (last h : Z) : Z :=
  Z.of_nat (length (filter (fun k => LoadBlock k = None) (seqZ (h + 1) (last - h)))).

Definition migrated_blocks (last : Z) (heights : list Z) : list Block :=
  omap LoadBlock (filter (fun h => missing_above last h < 50) heights).

Lemma missing_above_step last n :
  0 <= n -> n + 1 <= last ->
  missing_above last n = missing_above last (n + 1) + (match LoadBlock (n + 1) with Some _ => 0 | None => 1 end).
Proof.
  intros Hn Hl. unfold missing_above.
  replace (last - n) with (Z.succ (last - (n + 1))) by lia.
  rewrite seqZ_cons by lia. replace (Z.pred (Z.succ (last - (n + 1)))) with (last - (n + 1)) by lia.
  rewrite filter_cons. replace (Z.succ (n + 1)) with (n + 1 + 1) by lia.
  destruct (LoadBlock (n + 1)); case_decide; cbn [length]; try done; lia.
Qed.

Lemma missing_above_mono last n h :
  0 <= h <= n -> n <= last -> missing_above last n <= missing_above last h.
Proof.
  intros [Hh Hn] Hl. replace h with (n - Z.of_nat (Z.to_nat (n - h))) by lia.
  assert (Z.of_nat (Z.to_nat (n - h)) <= n) as Hk by lia. revert Hk.
  generalize (Z.to_nat (n - h)) as k. induction k as [|k IH]; intros Hk; [by rewrite Z.sub_0_r|].
  rewrite (missing_above_step last (n - Z.of_nat (S k))) by lia.
  replace (n - Z.of_nat (S k) + 1) with (n - Z.of_nat k) by lia.
  specialize (IH ltac:(lia)). case_match; lia.
Qed.

Lemma rev_seqZ_succ n : 0 <= n -> rev (seqZ 1 (n + 1)) = n + 1 :: rev (seqZ 1 n).
Proof.
  intros Hn. rewrite seqZ_app by lia. change (seqZ (1 + n) 1) with [1 + n].
  rewrite rev_app_distr. cbn. f_equal. lia.
Qed.

Lemma migrate_loop_ok last n init st st' :
  Z.of_nat n <= last ->
  migrate_loop (rev (seqZ 1 (Z.of_nat n))) (missing_above last (Z.of_nat n)) init st = (st', Ok tt) ->
  st' = add_calls (blocks_calls init (migrated_blocks last (rev (seqZ 1 (Z.of_nat n))))) st.
Proof.
  revert init st. induction n as [|n IH]; intros init st Hl.
  - cbn. intros [= <-]. unfold add_calls. cbn. rewrite app_nil_r. by destruct st.
  - rewrite Nat2Z.inj_succ. unfold Z.succ. rewrite rev_seqZ_succ by lia. cbn [migrate_loop].
    unfold migrated_blocks. rewrite filter_cons.
    destruct (Z.leb_spec maxMissedBlock (missing_above last (Z.of_nat n + 1))) as [Hge|Hlt];
      unfold maxMissedBlock in *.
    + intros [= <-]. rewrite decide_False by lia.
      assert (filter (fun h => missing_above last h < 50) (rev (seqZ 1 (Z.of_nat n))) = []) as ->.
      { destruct (filter _ (rev (seqZ 1 (Z.of_nat n)))) as [|h l] eqn:E; [done|].
        assert (h ∈ h :: l) as Hh by left. rewrite <- E in Hh.
        apply list_elem_of_filter in Hh as [Hm Hh].
        apply list_elem_of_In in Hh. rewrite <- in_rev in Hh. apply list_elem_of_In, elem_of_seqZ in Hh.
        pose proof (missing_above_mono last (Z.of_nat n + 1) h). lia. }
      unfold add_calls. cbn. rewrite app_nil_r. by destruct st.
    + rewrite decide_True by lia. pose proof (missing_above_step last (Z.of_nat n)) as Hstep.
      destruct (LoadBlock (Z.of_nat n + 1)) as [b|] eqn:Eb.
      * rewrite Z.add_0_r in Hstep.
        intros (s1 & [] & H1%migrate_block_ok & H2)%bind_ok. subst s1.
        rewrite <- Hstep in H2 by lia. apply IH in H2; [|lia].
        subst st'. rewrite add_calls_app. cbn [omap list_omap]. by rewrite Eb.
      * rewrite <- Hstep by lia. intros H2. apply IH in H2; [|lia].
        subst st'. cbn [omap list_omap]. by rewrite Eb.
Qed.

Lemma migrate_all_ok last st st' :
  migrate_loop (rev (seqZ 1 last)) 0 true st = (st', Ok tt) ->
  st' = add_calls (blocks_calls true (migrated_blocks last (rev (seqZ 1 last)))) st.
Proof.
  destruct (Z.le_ge_cases 0 last) as [Hl|Hl].
  - rewrite <- (Z2Nat.id last) by done. intros H.
    apply (migrate_loop_ok (Z.of_nat (Z.to_nat last))); [done|].
    unfold missing_above. rewrite Z.sub_diag. exact H.
  - rewrite seqZ_nil by lia. cbn. intros [= <-]. unfold add_calls. cbn.
    rewrite app_nil_r. by destruct st.
Qed.

Lemma sequencer_of_in s seq :
  sequencer_of s = Ok seq -> exists v, v ∈ cs_LastValidators s /\ cv_Address v = seq.1.
Proof.
  unfold sequencer_of, getSequencerFromRollkitMngrState.
  destruct (cs_LastValidators s) as [|v [|v' vs]] eqn:E; [done| |].
  - intros [= <-]. exists v. split; [by left|done].
  - destruct (fileExists _) as [[]| |]; cbn [wrap_outcome mbind outcome_bind negb]; [|done..].
    destruct (OpenDatabase _); cbn [wrap_outcome mbind outcome_bind]; [|done..].
    destruct LoadLatestVersion; cbn [wrap_outcome mbind outcome_bind]; [|done..].
    destruct get_sequencer as [any| |]; cbn [wrap_outcome mbind outcome_bind]; [|done..].
    destruct (UnpackPubKey any) as [[| addr pk |]| |]; cbn [wrap_outcome mbind outcome_bind];
      destruct any; cbn [wrap_outcome]; try done.
    destruct (existsb _ _) eqn:Ex; cbn [wrap_outcome]; [|done]. intros [= <-].
    apply existsb_exists in Ex as (x & Hx & Hb). apply bool_decide_eq_true in Hb.
    exists x. split; [by apply list_elem_of_In|done].
Qed.

(** A command that ended without an error, step by step. *)
Lemma MigrateToRollkitCmd_ok st st' :
  MigrateToRollkitCmd st = (st', Ok tt) ->
  exists s daHeight seq d,
    let last := st_LastBlockHeight (cs_state s) in
    LoadCometState = Ok s /\ State_Marshal (cs_state s) = Ok d /\ sequencer_of s = Ok seq /\
    st' = mkMigStores (ds_Put key_state d (mig_db st))
      (Some {| mg_ChainID := st_ChainID (cs_state s); mg_InitialHeight := u64 (cs_InitialHeight s);
               mg_GenesisTime := time_UnixNano (cs_LastBlockTime s);
               mg_SequencerAddr := seq.1; mg_SequencerPubKey := seq.2 |})
      (mig_calls st
        ++ [UpdateState (cometbftStateToRollkitState s daHeight)]
        ++ blocks_calls true (migrated_blocks last (rev (seqZ 1 last)))
        ++ [SetHeight (u64 last); CloseStores]).
Proof.
  unfold MigrateToRollkitCmd.
  intros (s0 & [] & H0 & H)%bind_ok. rewrite run_lift in H0. injection H0 as <- _.
  apply bind_ok in H as (s0 & [] & H0 & H). rewrite run_lift in H0. injection H0 as <- _.
  apply bind_ok in H as (s0 & s & H0 & H). rewrite run_lift in H0. injection H0 as <- Hs.
  apply bind_ok in H as (s0 & [] & H0 & H). rewrite run_lift in H0. injection H0 as <- _.
  apply bind_ok in H as (s1 & db & H1 & H). rewrite run_gets in H1. injection H1 as <- <-.
  apply bind_ok in H as (s1 & db' & H1%wrap_err_ok & H). rewrite run_lift in H1. injection H1 as <- Hdb.
  apply SaveState_inv in Hdb as (d & Hd & ->).
  apply bind_ok in H as (s1 & [] & H1 & H). rewrite run_modify in H1. injection H1 as <-.
  apply bind_ok in H as (s1 & daHeight & H1%wrap_err_ok & H). rewrite run_lift in H1. injection H1 as <- _.
  apply bind_ok in H as (s1 & [] & H1%wrap_err_ok%rollkit_call_ok & H). subst s1.
  apply bind_ok in H as (s1 & [] & H1%wrap_err_ok & H). unfold createRollkitMigrationGenesis in H1.
  apply bind_ok in H1 as (s2 & seq & H2 & H1). rewrite run_lift in H2. injection H2 as <- Hseq.
  apply bind_ok in H1 as (s2 & [] & H2%wrap_err_ok & H1). rewrite run_lift in H2. injection H2 as <- _.
  rewrite run_modify in H1. injection H1 as <-.
  apply bind_ok in H as (s1 & [] & H1 & H).
  apply bind_ok in H as (s3 & [] & H3%wrap_err_ok%rollkit_call_ok & H%close_stores_ok). subst s3 st'.
  apply migrate_all_ok in H1. subst s1. exists s, daHeight, seq, d. cbv zeta.
  split_and!; [done..|]. unfold add_calls. cbn. by rewrite <- !app_assoc.
Qed.

(** C18: A migration that ends without an error has stored CometBFT's state in
    the execution store, has set rollkit's state and height to the last block's,
    has saved every available block from the last height downwards until fifty
    heights were missing - in this order, the highest found block initialising
    the synchronisation stores - and has written a genesis whose sequencer is
    one of the last validators. *)
Theorem MigrateToRollkitCmd_spec st st' :
  MigrateToRollkitCmd st = (st', Ok tt) ->
  exists s g daHeight,
    let last := st_LastBlockHeight (cs_state s) in
    LoadCometState = Ok s /\ LoadState (mig_db st') = Ok (stored_state (cs_state s)) /\
    mig_genesis st' = Some g /\
    (exists v, v ∈ cs_LastValidators s /\ mg_SequencerAddr g = cv_Address v) /\
    mig_calls st' = mig_calls st
      ++ [UpdateState (cometbftStateToRollkitState s daHeight)]
      ++ blocks_calls true (migrated_blocks last (rev (seqZ 1 last)))
      ++ [SetHeight (u64 last); CloseStores].
Proof.
  intros (s & daHeight & seq & d & Hs & Hd & Hseq & ->)%MigrateToRollkitCmd_ok.
  destruct (sequencer_of_in s seq Hseq) as (v & Hv & Ha).
  eexists s, _, daHeight. cbv zeta. cbn [mig_db mig_genesis mig_calls].
  split; [done|]. split; [|split; [reflexivity|]; split; [by exists v|done]].
  apply (LoadState_Save (cs_state s) (mig_db st)). unfold SaveState. by rewrite Hd.
Qed.

(** What the SDK promises of unpacking into its [PubKey] interface: the value
    it caches implements this interface. *)
Definition unpacks_sdk_keys : Prop :=
  forall any v, UnpackPubKey any = Ok v -> any <> None -> exists addr pk, v = SdkPubKey addr pk.

Lemma sequencer_of_many s v1 v2 vs :
  unpacks_sdk_keys -> cs_LastValidators s = v1 :: v2 :: vs -> is_ok (sequencer_of s) = false.
Proof.
  intros Hsdk Hvs. unfold sequencer_of, getSequencerFromRollkitMngrState. rewrite Hvs.
  destruct (fileExists _) as [[]| |]; cbn; [|done..]. destruct (OpenDatabase _); cbn; [|done..].
  destruct LoadLatestVersion; cbn; [|done..]. destruct get_sequencer as [any| |]; cbn; [|done..].
  destruct (UnpackPubKey any) as [v| |] eqn:E; cbn; [|done..].
  destruct any as [k|]; [|done]. by destruct (Hsdk _ _ E ltac:(done)) as (addr & pk & ->).
Qed.

(** C19: With two or more last validators the migration never succeeds, wherever the
    sequencer is recorded: the key that the SDK unpacks is no CometBFT key.
    The command fails after it has overwritten the execution store's and
    rollkit's state. *)
Theorem migration_of_many_validators_fails st s v1 v2 vs :
  unpacks_sdk_keys -> LoadCometState = Ok s -> cs_LastValidators s = v1 :: v2 :: vs ->
  is_ok (MigrateToRollkitCmd st).2 = false /\
  (forall d da, ParseConfig = Ok tt -> loadStateAndBlockStore = Ok tt -> loadRollkitStores = Ok tt ->
     State_Marshal (cs_state s) = Ok d -> da_height = Ok da ->
     (forall c, rollkit_answer c = Ok tt) ->
     (MigrateToRollkitCmd st).1 =
       mkMigStores (ds_Put key_state d (mig_db st)) (mig_genesis st)
         (mig_calls st ++ [UpdateState (cometbftStateToRollkitState s da)])).
Proof.
  intros Hsdk Hs Hvs. pose proof (sequencer_of_many s v1 v2 vs Hsdk Hvs) as Hseq. split.
  - destruct (MigrateToRollkitCmd st) as [st' [[]|e|t]] eqn:E; [|done..].
    apply MigrateToRollkitCmd_ok in E as (s' & da & seq & d & Hs' & _ & Hok & _).
    rewrite Hs in Hs'. injection Hs' as <-. by rewrite Hok in Hseq.
  - intros d da Hp Hl Hr Hd Hda Hans.
    assert (SaveState (cs_state s) (mig_db st) = Ok (ds_Put key_state d (mig_db st))) as Hsave
      by (unfold SaveState; by rewrite Hd).
    unfold MigrateToRollkitCmd. rewrite Hp, Hl, Hr, Hs, Hda. run. rewrite Hsave.
    run. rewrite (run_rollkit_call (UpdateState _)) by apply Hans.
    unfold createRollkitMigrationGenesis. run. by destruct (sequencer_of s).
Qed.

(** C21: The migration stores no block ID: the IDs of the execution store are
    those it had before.  So unless something else had stored the ID of the last
    migrated block, a migrated node cannot execute its next block: the execution
    stops at the last commit, whatever the collaborators answer, before anything
    is sent to the application and without changing the node. *)
Theorem migrated_node_cannot_execute st st' s :
  MigrateToRollkitCmd st = (st', Ok tt) -> LoadCometState = Ok s ->
  let last := st_LastBlockHeight (cs_state s) in
  (forall h, GetBlockID (mig_db st') h = GetBlockID (mig_db st) h) /\
  forall (E : Env) n txs t e, 1 <= last -> GetBlockID (mig_db st) last = Err e -> node_db n = mig_db st' ->
    (ExecuteTxs txs (last + 1) t n).1 = n /\ is_ok (ExecuteTxs txs (last + 1) t n).2 = false.
Proof.
  intros (s' & daHeight & seq & d & Hs' & _ & _ & ->)%MigrateToRollkitCmd_ok Hs last. cbn [mig_db].
  assert (forall h, GetBlockID (ds_Put key_state d (mig_db st)) h = GetBlockID (mig_db st) h) as Hids.
  { intros h. apply GetBlockID_Put_other. intros k. apply key_state_blockID. }
  split; [exact Hids|]. intros E n txs t e Hl Hnone Hn.
  eapply ExecuteTxs_no_block_id; [lia|]. rewrite Z.add_simpl_r, Hn, Hids. exact Hnone.
Qed.
End migrate.

(** ** A concrete migration: two blocks, one validator *)

Definition demo_comet_state : CometState := mkCometState (CT := demo_types)
  (mkCmtState (CT := demo_types) "chain" 2 [demo_val] [demo_val] [demo_val] 1 demo_params 1 [42])
  11 0 1 (mkTime 6 0) [3] [demo_val].

Definition demo_comet_block (h : Z) : Block :=
  mkBlock (mkCmtHeader 11 0 "chain" h (mkTime h 0) zero_BlockID [1] [2] [6] [6] [3] [4] [5] [9] [5])
    [[h]] [] (mkCommit (h - 1) 0 zero_BlockID [mkCommitSig 2 [5] (mkTime h 0) [8]]).

(** CometBFT stopped in a state; the module's sequencer is an SDK key. *)
Definition demo_migration_of (s : CometState) : MigEnv := {|
  ParseConfig := Ok tt;
  os_Stat := fun _ => StatOk;
  OpenDatabase := fun _ => Ok tt;
  LoadBlock := fun h => if (1 <=? h) && (h <=? 2) then Some (demo_comet_block h) else None;
  LoadCometState := Ok s;
  AnyPubKey := bytes;
  LoadLatestVersion := Ok tt;
  GetSequencer := Ok (Some [5]);
  UnpackPubKey := fun any => Ok (match any with Some k => SdkPubKey k k | None => NotPubKey end);
  da_height := Ok 1;
  NewStore := fun _ => Ok tt;
  rollkit_answer := fun _ => Ok tt;
  CloseBlockStore := Ok tt;
  CloseStateStore := Ok tt;
  WriteGenesis := Ok tt
|}.
#[global] Instance demo_migration : MigEnv := demo_migration_of demo_comet_state.

Definition demo_empty_stores : MigStores := mkMigStores ∅ None [].
Definition demo_migrated : MigStores := (MigrateToRollkitCmd demo_empty_stores).1.

Lemma MigrateToRollkitCmd_spec_witness :
  exists g, mig_genesis demo_migrated = Some g /\ mg_SequencerAddr g = [5] /\
    length (mig_calls demo_migrated) = 7%nat.
Proof.
  destruct (MigrateToRollkitCmd_spec demo_empty_stores demo_migrated) as (s & g & da & H).
  - reflexivity.
  - cbv zeta in H. destruct H as (Hs & _ & Hg & (v & Hv & Ha) & _). injection Hs as <-.
    apply list_elem_of_singleton in Hv as ->.
    exists g. split; [exact Hg|]. split; [exact Ha|]. reflexivity.
Defined.

Lemma migrated_node_cannot_execute_witness :
  (ExecuteTxs (E := demo_env 3 (always true) (always false)) [[7]] 3 (mkTime 7 0)
    (mkNode (mig_db demo_migrated) [] [] [])).1 = mkNode (mig_db demo_migrated) [] [] [].
Proof.
  destruct (migrated_node_cannot_execute demo_empty_stores demo_migrated demo_comet_state) as [_ H].
  - reflexivity.
  - reflexivity.
  - destruct (H (demo_env 3 (always true) (always false)) (mkNode (mig_db demo_migrated) [] [] []) [[7]]
      (mkTime 7 0) (ErrWrap "failed to get block ID" ds_ErrNotFound)) as [Hn _].
    + vm_compute. discriminate.
    + reflexivity.
    + reflexivity.
    + exact Hn.
Defined.

(** A CometBFT chain with two validators. *)
Definition demo_comet_state2 : CometState := mkCometState (CT := demo_types)
  (cs_state demo_comet_state) 11 0 1 (mkTime 6 0) [3] [demo_val; mkCmtValidator [6] [6] 1].

Lemma migration_of_many_validators_fails_witness :
  let run := MigrateToRollkitCmd (ME := demo_migration_of demo_comet_state2) demo_empty_stores in
  is_ok run.2 = false /\ length (mig_calls run.1) = 1%nat.
Proof.
  destruct (migration_of_many_validators_fails (ME := demo_migration_of demo_comet_state2)
    demo_empty_stores demo_comet_state2 demo_val (mkCmtValidator [6] [6] 1) []) as [H1 H2].
  - intros [k|] v; [|done]. intros [= <-] _. by exists k, k.
  - reflexivity.
  - reflexivity.
  - split; [exact H1|]. cbv zeta. erewrite H2; reflexivity.
Defined.
