(* ===== verification/Staking.v ===== *)
(** * The staking wrapper ([modules/staking])

    The wrapper embeds the SDK's staking keeper, of which it overrides what
    would change the validator set: the wrapped keeper is a parameter
    ([SdkStaking]) with its own state. *)

From Stdlib Require Import ZArith Lia String.
From stdpp Require Import base gmap strings list sorting.
From S2P Require Import Prelude Bitmap Comet.

Open Scope Z_scope.

Class SdkStaking : Type := {
  staking_State : Type;
  StakingHooks : Type;
  sdk_ApplyAndReturnValidatorSetUpdates : M staking_State (list PbValidatorUpdate);
  sdk_BeginBlocker : M staking_State unit;
  sdk_EndBlocker : M staking_State (list PbValidatorUpdate);
  sdk_InitGenesis : bytes -> M staking_State (list PbValidatorUpdate);
  sdk_SetHooks : list StakingHooks -> M staking_State unit
}.

Section staking.
Context `{ST : SdkStaking}.

(** ** [keeper/keeper.go], [keeper/validator.go] *)

Definition ApplyAndReturnValidatorSetUpdates (blockHeight : Z) :
    M staking_State (list PbValidatorUpdate) :=
  valUpdates ← sdk_ApplyAndReturnValidatorSetUpdates;
  if blockHeight =? 0 then mret valUpdates else mret [].

(** The slashed amount is zero and the state is not touched. *)
Definition Slash (consAddr : bytes) (infractionHeight power slashFactor : Z) : M staking_State Z :=
  mret 0.
Definition SlashWithInfractionReason (consAddr : bytes) (infractionHeight power slashFactor infraction : Z) :
    M staking_State Z :=
  mret 0.
Definition Jail (consAddr : bytes) : M staking_State unit := mret tt.
Definition Unjail (consAddr : bytes) : M staking_State unit := mret tt.

(** ** [module.go] *)

Definition Module_BeginBlock : M staking_State unit := sdk_BeginBlocker.

Definition Module_EndBlock : M staking_State (list PbValidatorUpdate) :=
  sdk_EndBlocker ;; mret [].

Definition Module_InitGenesis (data : bytes) : M staking_State (list PbValidatorUpdate) :=
  sdk_InitGenesis data.

(** ** [depinject.go] *)

#[global] Instance string_leb_dec : RelDecision (fun a b => String.leb a b = true).
Proof. intros a b. apply _. Defined.

(** [sort.Strings] *)
Definition sort_Strings (l : list string) : list string :=
  merge_sort (fun a b => String.leb a b = true) l.

(** The hooks of the modules of [order], which must all exist. *)
Fixpoint collect_hooks (order : list string) (stakingHooks : gmap string StakingHooks) :
    outcome (list StakingHooks) :=
  match order with
  | [] => Ok []
  | modName :: order' =>
      match stakingHooks !! modName with
      | None => Err (ErrText "can't find staking hooks for module")
      | Some hook => multiHooks ← collect_hooks order' stakingHooks; Ok (hook :: multiHooks)
      end
  end.

(** [config] is the configured order, [None] for a nil config; [keeper] says
    whether there is a keeper. *)
Definition InvokeSetStakingHooks (config : option (list string)) (keeper : bool)
    (stakingHooks : gmap string StakingHooks) : M staking_State unit :=
  match config with
  | None => mret tt
  | Some hooksOrder =>
      if negb keeper then mret tt
      else
        let modNames := (map_to_list stakingHooks).*1 in
        let order := if (length hooksOrder =? 0)%nat then sort_Strings modNames else hooksOrder in
        if negb (length order =? length modNames)%nat
        then fail (ErrText "len(hooks_order) != len(hooks modules)")
        else if (length modNames =? 0)%nat then mret tt
        else
          multiHooks ← lift (collect_hooks order stakingHooks);
          sdk_SetHooks multiHooks
  end.

(** ** What the hooks promise *)

Lemma collect_hooks_ok order hooks hs :
  collect_hooks order hooks = Ok hs <-> Forall2 (fun n h => hooks !! n = Some h) order hs.
Proof.
  revert hs. induction order as [|n order IH]; intros hs; cbn [collect_hooks].
  - split; [intros [= <-]; constructor|]. by intros ->%Forall2_nil_inv_l.
  - split.
    + destruct (hooks !! n) as [h|] eqn:E; [|done].
      destruct (collect_hooks order hooks) as [hs'| |] eqn:Ec; cbn; [|done..].
      intros [= <-]. constructor; [done|]. by apply IH.
    + intros (h & hs' & Hn & Hf & ->)%Forall2_cons_inv_l. rewrite Hn.
      apply IH in Hf. by rewrite Hf.
Qed.

Lemma sort_Strings_perm l : sort_Strings l ≡ₚ l.
Proof. apply merge_sort_Permutation. Qed.

(** The hooks that are set: every module's, each once, in the configured order
    or in the order of the names - as long as the configured order names no
    module twice. *)
Theorem InvokeSetStakingHooks_spec order hooks s :
  NoDup order -> hooks <> ∅ -> (forall n, n ∈ order -> n ∈ dom hooks) ->
  order = [] \/ length order = size hooks ->
  exists names hs, InvokeSetStakingHooks (Some order) true hooks s = sdk_SetHooks hs s /\
    Forall2 (fun n h => hooks !! n = Some h) names hs /\
    names ≡ₚ (map_to_list hooks).*1 /\ (order <> [] -> names = order).
Proof.
  intros Hnd Hne Hdom Hlen. unfold InvokeSetStakingHooks. cbn [negb].
  set (modNames := (map_to_list hooks).*1).
  assert (length modNames = size hooks) as Hm
    by (unfold modNames; by rewrite length_fmap, length_map_to_list).
  assert (length modNames <> 0%nat) as Hm0 
    by (rewrite Hm; intros H; by apply map_size_empty_inv in H).
  set (names := if (length order =? 0)%nat then sort_Strings modNames else order).
  assert (names ≡ₚ modNames) as Hperm.
  { unfold names. destruct order as [|n order]; [apply sort_Strings_perm|]. cbn [length Nat.eqb].
    destruct Hlen as [|Hlen]; [done|].
    apply submseteq_length_Permutation; [|lia].
    apply NoDup_submseteq; [done|]. intros x Hx. unfold modNames.
    apply Hdom, elem_of_dom in Hx as [h Hh]. apply list_elem_of_fmap. exists (x, h).
    split; [done|]. by apply elem_of_map_to_list. }
  assert (exists hs, Forall2 (fun n h => hooks !! n = Some h) names hs) as [hs Hhs].
  { assert (Forall (fun n => is_Some (hooks !! n)) names) as Hall.
    { rewrite Hperm. apply Forall_forall. intros x Hx. apply list_elem_of_fmap in Hx as ([k h] & -> & Hx).
      apply elem_of_map_to_list in Hx. by exists h. }
    clear -Hall. induction Hall as [|n l [h Hh] _ [hs IH]]; [by exists []|]. exists (h :: hs). by constructor. }
  exists names, hs. fold names.
  rewrite (Permutation_length Hperm), Nat.eqb_refl. cbn [negb].
  rewrite (proj2 (Nat.eqb_neq _ _) Hm0). rewrite run_bind, run_lift, (proj2 (collect_hooks_ok _ _ _) Hhs).
  split_and!; try done. intros Ho. unfold names. by destruct order.
Qed.
End staking.
