(* ===== verification/Modules.v ===== *)
(** * How the modules are put together ([modules/*/module.go], [depinject.go],
    [autocli.go], [types/codec.go], the keepers' constructors)

    [NetworkModule], [RollkitmngrModule] and [StakingModule] build a module from
    its configuration: the authority, the schema of its store, its keeper, its
    services and the hooks that the SDK calls.  [AutoCLI] is the table of generated commands.
    The SDK's addresses, schema builder and JSON codec are classes. *)

From Stdlib Require Import ZArith Lia Ascii String.
From stdpp Require Import base gmap strings list pretty.
From S2P Require Import Prelude Bitmap Sdk Types Keeper MsgServer EndBlock Query Genesis Rollkitmngr.
From S2P Require Import Wire Codec QueryService Gateway Comet Staking.

Open Scope Z_scope.

(** ** Collections

    A collection of a keeper is a part of its store under a prefix. *)

Inductive KeyCodec : Set :=
| StringKey | Uint16Key | Int64Key | Uint64Key | PairKeyCodec (k1 k2 : KeyCodec) | NoKey.
Inductive ValueCodec : Set :=
| Uint16Value | Uint64Value | BytesValue | NoValue | CollValue (message : string).

Record Collection : Type := mkCollection {
  coll_prefix : bytes; coll_name : string; coll_key : KeyCodec; coll_value : ValueCodec }.

Definition NewMap (prefix : bytes) (name : string) (k : KeyCodec) (v : ValueCodec) : Collection :=
  mkCollection prefix name k v.
Definition NewKeySet (prefix : bytes) (name : string) (k : KeyCodec) : Collection :=
  mkCollection prefix name k NoValue.
Definition NewItem (prefix : bytes) (name : string) (v : ValueCodec) : Collection :=
  mkCollection prefix name NoKey v.

(** What a name may be: a letter, then letters, digits and underscores. *)
Definition is_letter (c : ascii) : bool :=
  let n := N_of_ascii c in ((65 <=? n)%N && (n <=? 90)%N) || ((97 <=? n)%N && (n <=? 122)%N).
Definition is_name_char (c : ascii) : bool :=
  let n := N_of_ascii c in is_letter c || ((48 <=? n)%N && (n <=? 57)%N) || (n =? 95)%N.
Definition name_ok (s : string) : bool :=
  match list_ascii_of_string s with c :: cs => is_letter c && forallb is_name_char cs | [] => false end.

Record schema_ok (cols : list Collection) : Prop := {
  ok_names : NoDup (coll_name <$> cols);
  ok_chars : Forall (fun c => name_ok (coll_name c) = true) cols;
  ok_prefixes : forall i j c d, cols !! i = Some c -> cols !! j = Some d ->
    coll_prefix c `prefix_of` coll_prefix d -> i = j
}.

(** [NewModuleAddressOrBech32Address] reads a Bech32 address and takes any other
    text as a module name; [SchemaBuild] is [SchemaBuilder.Build]. *)
Class ModuleEnv : Type := {
  NewModuleAddress : string -> bytes;
  NewModuleAddressOrBech32Address : string -> bytes;
  AccAddress_String : bytes -> string;
  addressCodec_StringToBytes : string -> outcome bytes;
  SchemaBuild : list Collection -> option error
}.

(** The documented behaviour: a schema with distinct well-formed names and
    prefixes that do not overlap is built, and the text of an address is a
    valid address. *)
Class ModuleLaws (ME : ModuleEnv) : Prop := {
  SchemaBuild_ok cols : schema_ok cols -> SchemaBuild cols = None;
  ModuleAddress_valid name :
    addressCodec_StringToBytes (AccAddress_String (NewModuleAddress name)) = Ok (NewModuleAddress name);
  Bech32Address_valid text :
    addressCodec_StringToBytes (AccAddress_String (NewModuleAddressOrBech32Address text))
      = Ok (NewModuleAddressOrBech32Address text)
}.

(** A panic with the message of an error, as [panic(err)]. *)
Definition panic_on {A} (r : outcome A) : outcome A :=
  match r with Err _ => Panic "panic(err)" | r => r end.
Definition panics {S A} (m : M S A) : M S A := fun s =>
  match m s with (s', Err _) => (s', Panic "panic(err)") | r => r end.

Section modules.
Context {ME : ModuleEnv}.

Definition govtypes_ModuleName : string := "gov".

(** The authority that every [ProvideModule] derives from its configuration. *)
Definition provided_authority (config_Authority : string) : string :=
  let authority := NewModuleAddress govtypes_ModuleName in
  let authority := if negb (bool_decide (config_Authority = ""%string))
                   then NewModuleAddressOrBech32Address config_Authority else authority in
  AccAddress_String authority.

(** [sb.Build()], whose error the constructors panic with. *)
Definition build_schema (cols : list Collection) : outcome (list Collection) :=
  match SchemaBuild cols with Some _ => Panic "panic(err)" | None => Ok cols end.
End modules.

(** Registering the routes of a gateway; an error is a panic. *)
Definition registered {A} (r : A * option error) : outcome A :=
  match r with (_, Some _) => Panic "panic(err)" | (mux, None) => Ok mux end.

(** ** The network module *)

Module NetworkModule.

Class JSONCodec : Type := {
  MarshalJSON : GenesisState -> outcome bytes;
  UnmarshalJSON : bytes -> outcome GenesisState
}.

(** The keeper's own data; its collaborators are the classes [Chain] and [Ctx]. *)
Record Keeper : Type := mkKeeper { keeper_authority : string; keeper_Schema : list Collection }.

Definition StoredAttestationInfoPrefix : bytes := bytes_of_string "stored_attestation_info".
Definition ParamsKey : bytes := bytes_of_string "params".

Definition collections : list Collection :=
  [ NewMap ValidatorIndexPrefix "validator_index" StringKey Uint16Value;
    NewMap ValidatorPowerPrefix "validator_power" Uint16Key Uint64Value;
    NewMap AttestationBitmapPrefix "attestation_bitmap" Int64Key BytesValue;
    NewMap EpochBitmapPrefix "epoch_bitmap" Uint64Key BytesValue;
    NewKeySet AttesterSetPrefix "attester_set" StringKey;
    NewMap SignaturePrefix "signatures" (PairKeyCodec Int64Key StringKey) BytesValue;
    NewMap StoredAttestationInfoPrefix "stored_attestation_info" Int64Key (CollValue "AttestationBitmap");
    NewItem ParamsKey "params" (CollValue "Params") ].

(** [types.MsgServer] *)
Record MsgServer : Type := mkMsgServer {
  server_Attest : MsgAttest -> M State unit;
  server_JoinAttesterSet : MsgJoinAttesterSet -> M State unit;
  server_LeaveAttesterSet : MsgLeaveAttesterSet -> M State unit;
  server_UpdateParams : MsgUpdateParams -> M State unit
}.

Section network.
Context {ME : ModuleEnv} {CH : Chain} {C : Ctx} {JC : JSONCodec}.

Definition NewKeeper (authority : string) : outcome Keeper :=
  schema ← build_schema collections;
  Ok (mkKeeper authority schema).

(** The chain as the keeper sees it: its authority is the keeper's. *)
Definition keeper_chain (k : Keeper) : Chain :=
  {| Dec := Dec; Chain_LegacyDec := Chain_LegacyDec; Sum256 := Sum256;
     base64_EncodeToString := base64_EncodeToString; ValAddressFromBech32 := ValAddressFromBech32;
     GetAuthority := keeper_authority k |}.

Definition NewMsgServerImpl (k : Keeper) : MsgServer :=
  let CH := keeper_chain k in
  {| server_Attest := Attest; server_JoinAttesterSet := JoinAttesterSet;
     server_LeaveAttesterSet := LeaveAttesterSet; server_UpdateParams := UpdateParams |}.

Record AppModule : Type := mkAppModule { am_keeper : Keeper }.
Definition NewAppModule (k : Keeper) : AppModule := mkAppModule k.

Definition Name : string := "network".

Record ModuleOutputs : Type := mkModuleOutputs { NetworkKeeper : Keeper; out_Module : AppModule }.

Definition ProvideModule (config_Authority : string) : outcome ModuleOutputs :=
  k ← NewKeeper (provided_authority config_Authority);
  let m := NewAppModule k in
  Ok (mkModuleOutputs k m).

Definition ValidateGenesis (bz : bytes) : outcome unit :=
  genesisState ← wrap_outcome "unmarshal genesis state" (UnmarshalJSON bz);
  GenesisState_Validate (Dec := Dec) genesisState.

Definition DefaultGenesis : outcome bytes :=
  panic_on (MarshalJSON (DefaultGenesisState (Dec := Dec))).

Definition Module_InitGenesis (data : bytes) : M State unit :=
  genesisState ← lift (panic_on (UnmarshalJSON data));
  panics (wrap_err "init genesis" (InitGenesis genesisState)).

Definition Module_ExportGenesis : M State bytes :=
  genesisState ← ExportGenesis;
  lift (panic_on (MarshalJSON genesisState)).

(** What the module registers with the router of messages and of queries. *)
Definition RegisterServices (am : AppModule) : MsgServer * QueryServer :=
  (NewMsgServerImpl (am_keeper am), NewQueryServer (CH := keeper_chain (am_keeper am))).

Definition RegisterGRPCGatewayRoutes {RT : Runtime} (clientCtx : ClientConn) (mux : ServeMux (S := State)) :
    outcome ServeMux :=
  registered (NetworkGateway.RegisterQueryHandlerClient mux (NewQueryClient clientCtx)).

Definition EndBlock (am : AppModule) : M State unit := EndBlocker (CH := keeper_chain (am_keeper am)).
End network.

(** [types/codec.go]: message types with their amino names, and the
    implementations of [sdk.Msg]. *)
Definition RegisterCodec : list (string * string) :=
  [ ("MsgAttest", "network/Attest"); ("MsgJoinAttesterSet", "network/JoinAttesterSet");
    ("MsgLeaveAttesterSet", "network/LeaveAttesterSet"); ("MsgUpdateParams", "network/UpdateParams") ].
Definition RegisterInterfaces : list string :=
  ["MsgAttest"; "MsgJoinAttesterSet"; "MsgLeaveAttesterSet"; "MsgUpdateParams"].
End NetworkModule.

(** ** The migration manager *)

Module RollkitmngrModule.

Record Keeper : Type := mkKeeper { keeper_authority : string; keeper_Schema : list Collection }.

Definition MigrationKey : bytes := [19].
Definition SequencerKey : bytes := [20].
Definition MigrationStepKey : bytes := [21].

Definition collections : list Collection :=
  [ NewItem SequencerKey "sequencer" (CollValue "Sequencer");
    NewItem MigrationKey "rollkit_migration" (CollValue "RollkitMigration");
    NewItem MigrationStepKey "migration_step" Uint64Value ].

Section rollkitmngr.
Context {ME : ModuleEnv} {MN : Mngr} {C : Ctx}.

(** The constructor insists on a valid authority. *)
Definition NewKeeper (authority : string) : outcome Keeper :=
  match addressCodec_StringToBytes authority with
  | Err _ => Panic "authority is not a valid acc address"
  | Panic t => Panic t
  | Ok _ =>
      schema ← build_schema collections;
      Ok (mkKeeper authority schema)
  end.

Definition keeper_mngr (k : Keeper) : Mngr :=
  {| PubKey := PubKey; CmtPublicKey := CmtPublicKey; GetCachedValue := GetCachedValue;
     ToCmtProtoPublicKey := ToCmtProtoPublicKey; Any_Equal := Any_Equal; Any_String := Any_String;
     CmtPublicKey_String := CmtPublicKey_String; CmtConsPublicKey := CmtConsPublicKey;
     mngr_authority := keeper_authority k; ibcStoreKey := ibcStoreKey |}.

(** [NewMsgServerImpl]: the server has one message. *)
Definition NewMsgServerImpl (k : Keeper) : MsgMigrateToRollkit -> M MngrState unit :=
  MigrateToRollkit (MN := keeper_mngr k).

Record AppModule : Type := mkAppModule { am_keeper : Keeper }.
Definition NewAppModule (k : Keeper) : AppModule := mkAppModule k.

Definition Name : string := "rollkitmngr".

Record ModuleOutputs : Type := mkModuleOutputs { SequencerKeeper : Keeper; out_Module : AppModule }.

Definition ProvideModule (config_Authority : string) : outcome ModuleOutputs :=
  k ← NewKeeper (provided_authority config_Authority);
  let m := NewAppModule k in
  Ok (mkModuleOutputs k m).

Definition ValidateGenesis (bz : bytes) : outcome unit := Ok tt.

Definition RegisterServices (am : AppModule) :
    (MsgMigrateToRollkit -> M MngrState unit) * RollkitmngrGateway.QueryServer :=
  (NewMsgServerImpl (am_keeper am),
   RollkitmngrGateway.NewQueryServer (MN := keeper_mngr (am_keeper am))).

Definition RegisterGRPCGatewayRoutes {RT : Runtime}
    (NewQueryClient : ClientConn -> RollkitmngrGateway.QueryClient) (clientCtx : ClientConn)
    (mux : ServeMux (S := MngrState)) : outcome ServeMux :=
  registered (RollkitmngrGateway.RegisterQueryHandlerClient mux (NewQueryClient clientCtx)).

Definition EndBlock (am : AppModule) {ZU : @ZeroUpdate (keeper_mngr (am_keeper am))} :
    M MngrState (list (@ValidatorUpdate (keeper_mngr (am_keeper am)))) :=
  Rollkitmngr.EndBlock.
End rollkitmngr.

Definition RegisterLegacyAminoCodec : list (string * string) :=
  [("MsgMigrateToRollkit", "rollkitmngr/v1/MsgMigrateToRollkit")].
Definition RegisterInterfaces : list string := ["MsgMigrateToRollkit"].
End RollkitmngrModule.

(** ** The staking wrapper

    [stakingkeeper_NewKeeper] is the SDK's constructor, which gets the
    authority; what it returns is only passed on. *)

Module StakingModule.
Section staking.
Context {ME : ModuleEnv} {SdkKeeper SdkModule Subspace : Type}.
Context (stakingkeeper_NewKeeper : string -> outcome SdkKeeper).
Context (staking_NewAppModule : SdkKeeper -> option Subspace -> SdkModule).

Record Keeper : Type := mkKeeper { embedded_Keeper : SdkKeeper }.
Record AppModule : Type := mkAppModule { embedded_AppModule : SdkModule; am_keeper : Keeper }.

Definition NewKeeper (authority : string) : outcome Keeper :=
  k ← stakingkeeper_NewKeeper authority;
  Ok (mkKeeper k).

(** The embedded module works on the SDK's keeper, not on the wrapper. *)
Definition NewAppModule (k : Keeper) (ls : option Subspace) : AppModule :=
  mkAppModule (staking_NewAppModule (embedded_Keeper k) ls) k.

Record ModuleOutputs : Type := mkModuleOutputs { StakingKeeper : Keeper; out_Module : AppModule }.

Definition ProvideModule (config_Authority : string) (legacySubspace : option Subspace) :
    outcome ModuleOutputs :=
  k ← NewKeeper (provided_authority config_Authority);
  let m := NewAppModule k legacySubspace in
  Ok (mkModuleOutputs k m).
End staking.
End StakingModule.

(** ** The generated commands ([autocli.go]) *)

Module AutoCLI.

Record RpcCommandOptions : Type := mkRpcCommand {
  RpcMethod : string; Use : string; Short : string; PositionalArgs : list string; GovProposal : bool }.
Record ServiceCommandDescriptor : Type := mkServiceCommands {
  Service : string; Commands : list RpcCommandOptions }.
Record ModuleOptions : Type := mkModuleOptions {
  Query : ServiceCommandDescriptor; Tx : ServiceCommandDescriptor }.

Definition network_AutoCLIOptions : ModuleOptions := {|
  Query := mkServiceCommands "rollkitsdk.network.v1.Query"
    [ mkRpcCommand "Params" "params" "Query the current network parameters" [] false;
      mkRpcCommand "AttestationBitmap" "attestation [height]"
        "Query the attestation bitmap for a specific height" ["height"] false;
      mkRpcCommand "EpochInfo" "epoch [epoch-number]" "Query information about a specific epoch"
        ["epoch"] false;
      mkRpcCommand "ValidatorIndex" "validator-index [address]"
        "Query the bitmap index for a validator" ["address"] false;
      mkRpcCommand "SoftConfirmationStatus" "soft-confirmation [height]"
        "Query if a height is soft-confirmed" ["height"] false ];
  Tx := mkServiceCommands "rollkitsdk.network.v1.Msg"
    [ mkRpcCommand "Attest" "attest [height] [vote-base64]"
        "Submit an attestation for a checkpoint height" ["height"; "vote"] false;
      mkRpcCommand "JoinAttesterSet" "join-attester" "Join the attester set as a validator" [] false;
      mkRpcCommand "LeaveAttesterSet" "leave-attester" "Leave the attester set as a validator" [] false ] |}.

Definition rollkitmngr_AutoCLIOptions : ModuleOptions := {|
  Query := mkServiceCommands "rollkitsdk.rollkitmngr.v1.Query"
    [ mkRpcCommand "Attesters" "attesters" "Shows the current attesters" [] false;
      mkRpcCommand "Sequencer" "sequencer" "Shows the current sequencer" [] false;
      mkRpcCommand "IsMigrating" "is_migrating" "Shows whether the chain is migrating to rollkit" [] false ];
  Tx := mkServiceCommands "rollkitsdk.rollkitmngr.v1.Msg"
    [ mkRpcCommand "MigrateToRollkit" "" "" [] true ] |}.
End AutoCLI.
