(* ===== verification/ModulesProps.v ===== *)
(** * What the wiring of the modules promises

    The collections of a keeper do not share keys, so that the model's separate
    maps are what one store holds; a provided module obeys the configured
    authority; the module's genesis hooks round-trip; and the two command lines
    of the network module are the same commands. *)

From Stdlib Require Import ZArith Lia Ascii String.
From stdpp Require Import base gmap strings list pretty.
From S2P Require Import Prelude Bitmap Sdk Types Keeper MsgServer EndBlock Query Genesis AttestProps.
From S2P Require Import GenesisProps NetworkDemo Rollkitmngr WindowProps SmoothProps Wire Codec.
From S2P Require Import CodecProps QueryService Cli Gateway CliProps Comet AdapterDemo Staking Modules.

Open Scope Z_scope.

(** ** The keys of [types/keys.go] *)

(** What the key functions name. *)
Inductive NetworkKey : Type :=
| KeyValidatorIndex (addr : string)
| KeyValidatorPower (index : Z)
| KeyAttestation (height : Z)
| KeySignature (height : Z) (addr : string)
| KeyEpochBitmap (epoch : Z)
| KeyAttesterSet (addr : string).

Definition key_bytes (k : NetworkKey) : bytes :=
  match k with
  | KeyValidatorIndex addr => GetValidatorIndexKey addr
  | KeyValidatorPower index => GetValidatorPowerKey index
  | KeyAttestation height => GetAttestationKey height
  | KeySignature height addr => GetSignatureKey height addr
  | KeyEpochBitmap epoch => GetEpochBitmapKey epoch
  | KeyAttesterSet addr => GetAttesterSetKey addr
  end.

(** The machine types of the arguments. *)
Definition key_typed (k : NetworkKey) : Prop :=
  match k with
  | KeyValidatorPower index => is_u16 index
  | KeyAttestation height | KeySignature height _ => is_i64 height
  | KeyEpochBitmap epoch => is_u64 epoch
  | _ => True
  end.

Lemma height_inj a b : is_i64 a -> is_i64 b -> PutUint64 (u64 a) = PutUint64 (u64 b) -> a = b.
Proof. intros Ha Hb H%PutUint64_inj; [int_lia|apply u64_range..]. Qed.

(** The key functions give different keys to different entries: no two of
    them agree for machine integers and any addresses, within one kind of entry
    or across kinds. *)
Theorem keys_separate k l : key_typed k -> key_typed l -> key_bytes k = key_bytes l -> k = l.
Proof.
  destruct k, l; cbn [key_typed key_bytes]; intros Hk Hl;
    unfold GetValidatorIndexKey, GetValidatorPowerKey, GetAttestationKey, GetSignatureKey,
      GetEpochBitmapKey, GetAttesterSetKey; rewrite <- ?app_assoc;
    try (intros H; apply (f_equal (take 9)) in H; discriminate H);
    try (intros H; apply (f_equal (take 11)) in H; discriminate H); intros H; f_equal.
  all: try (apply app_inv_head in H).
  - by apply bytes_of_string_inj.
  - by apply PutUint16_inj.
  - by apply height_inj.
  - apply app_inj_1 in H as [H _]; [by apply height_inj|done].
  - apply app_inj_1 in H as [_ H]; [by apply bytes_of_string_inj|done].
  - by apply PutUint64_inj.
  - by apply bytes_of_string_inj.
Qed.

Lemma keys_separate_witness :
  key_bytes (KeyAttestation 7) <> key_bytes (KeyAttestation (-7)).
Proof.
  intros H. assert (KeyAttestation 7 = KeyAttestation (-7)) as E.
  { apply keys_separate; [vm_compute; split; discriminate..|exact H]. }
  discriminate E.
Defined.

(** ** The collections *)

(** The executable form of [schema_ok]. *)
Definition apart (cols : list Collection) : bool :=
  forallb (fun ic => forallb (fun jd => bool_decide (ic.1 = jd.1) ||
      negb (bool_decide (coll_prefix ic.2 `prefix_of` coll_prefix jd.2)))
    (imap (fun i c => (i, c)) cols)) (imap (fun i c => (i, c)) cols).

Lemma apart_prefixes cols i j c d :
  apart cols = true -> cols !! i = Some c -> cols !! j = Some d ->
  coll_prefix c `prefix_of` coll_prefix d -> i = j.
Proof.
  unfold apart. rewrite forallb_forall. intros H Hi Hj Hp.
  assert (forall k e, cols !! k = Some e -> In (k, e) (imap (fun i c => (i, c)) cols)) as Hin.
  { intros k e Hk. apply list_elem_of_In, elem_of_lookup_imap. by exists k, e. }
  specialize (H _ (Hin i c Hi)). cbn [fst snd] in H. rewrite forallb_forall in H.
  specialize (H _ (Hin j d Hj)). cbn [fst snd] in H.
  apply orb_true_iff in H as [H|H]; [by apply bool_decide_eq_true in H|].
  by rewrite negb_true_iff, bool_decide_eq_false in H.
Qed.

Lemma schema_check cols :
  bool_decide (NoDup (coll_name <$> cols)) = true ->
  forallb (fun c => name_ok (coll_name c)) cols = true -> apart cols = true -> schema_ok cols.
Proof.
  intros H1 H2 H3. split.
  - by apply bool_decide_eq_true in H1.
  - rewrite Forall_forall. intros c Hc. rewrite forallb_forall in H2. by apply H2, list_elem_of_In.
  - intros i j c d. by apply apart_prefixes.
Qed.

Lemma network_schema : schema_ok NetworkModule.collections.
Proof. by apply schema_check; vm_compute. Qed.
Lemma rollkitmngr_schema : schema_ok RollkitmngrModule.collections.
Proof. by apply schema_check; vm_compute. Qed.

Lemma schema_apart cols c d x y :
  schema_ok cols -> c ∈ cols -> d ∈ cols -> coll_prefix c ++ x = coll_prefix d ++ y -> c = d.
Proof.
  intros Hok [i Hi]%list_elem_of_lookup [j Hj]%list_elem_of_lookup E.
  destruct (prefix_weak_total (coll_prefix c) (coll_prefix d) (coll_prefix c ++ x)) as [Hp|Hp].
  { by apply prefix_app_r. }
  { rewrite E. by apply prefix_app_r. }
  - pose proof (ok_prefixes _ Hok _ _ _ _ Hi Hj Hp) as ->. congruence.
  - pose proof (ok_prefixes _ Hok _ _ _ _ Hj Hi Hp) as ->. congruence.
Qed.

Section wiring.
Context {ME : ModuleEnv} {ML : ModuleLaws ME}.

Lemma network_NewKeeper a : NetworkModule.NewKeeper a = Ok (NetworkModule.mkKeeper a NetworkModule.collections).
Proof. unfold NetworkModule.NewKeeper, build_schema. by rewrite SchemaBuild_ok by apply network_schema. Qed.

Lemma valid_authority a : exists b, addressCodec_StringToBytes (provided_authority a) = Ok b.
Proof.
  unfold provided_authority. case_bool_decide; cbn [negb]; eexists;
    [apply ModuleAddress_valid|apply Bech32Address_valid].
Qed.

Lemma rollkitmngr_NewKeeper a b : addressCodec_StringToBytes a = Ok b ->
  RollkitmngrModule.NewKeeper a = Ok (RollkitmngrModule.mkKeeper a RollkitmngrModule.collections).
Proof.
  intros H. unfold RollkitmngrModule.NewKeeper, build_schema. rewrite H.
  by rewrite SchemaBuild_ok by apply rollkitmngr_schema.
Qed.

(** The keepers of the two modules are built, whatever the configured
    authority, and their stores keep the collections apart: a key of one
    collection, whatever follows its prefix, is never a key of another one. *)
Theorem collections_apart a :
  exists net mng, NetworkModule.ProvideModule a = Ok net /\ RollkitmngrModule.ProvideModule a = Ok mng /\
    (forall c d x y, c ∈ NetworkModule.keeper_Schema (NetworkModule.NetworkKeeper net) ->
       d ∈ NetworkModule.keeper_Schema (NetworkModule.NetworkKeeper net) ->
       coll_prefix c ++ x = coll_prefix d ++ y -> c = d) /\
    (forall c d x y, c ∈ RollkitmngrModule.keeper_Schema (RollkitmngrModule.SequencerKeeper mng) ->
       d ∈ RollkitmngrModule.keeper_Schema (RollkitmngrModule.SequencerKeeper mng) ->
       coll_prefix c ++ x = coll_prefix d ++ y -> c = d).
Proof.
  destruct (valid_authority a) as [b Hb].
  unfold NetworkModule.ProvideModule, RollkitmngrModule.ProvideModule.
  rewrite network_NewKeeper, (rollkitmngr_NewKeeper _ _ Hb). do 2 eexists.
  do 2 (split; [reflexivity|]). split; intros c d x y Hc Hd.
  - by apply schema_apart with (cols := NetworkModule.collections); [apply network_schema|..].
  - by apply schema_apart with (cols := RollkitmngrModule.collections); [apply rollkitmngr_schema|..].
Qed.

Section authority.
Context {CH : Chain} {HL : LegacyDecLaws Dec} {MN : Mngr} {C : Ctx}.

(** C16: Under every configuration both modules obey the address that the
    configuration names, which is the governance module's when it names none:
    the parameters change, and a migration is scheduled, exactly on a valid
    message of this authority. *)
Theorem configured_authority_governs a :
  0 <= BlockHeight <= max_i64 ->
  let authority := AccAddress_String (if decide (a = ""%string) then NewModuleAddress "gov"
                                      else NewModuleAddressOrBech32Address a) in
  exists net mng, NetworkModule.ProvideModule a = Ok net /\ RollkitmngrModule.ProvideModule a = Ok mng /\
    (forall s msg s',
       NetworkModule.server_UpdateParams (NetworkModule.RegisterServices (NetworkModule.out_Module net)).1 msg s = (s', Ok tt) <->
       update_Authority msg = authority /\ valid_Params (update_Params msg) /\
       s' = set_Events (fun es =>
              es ++ [mkEvent TypeMsgUpdateParams [("authority"%string, update_Authority msg)]])
              (set_ParamsItem (fun _ => Some (update_Params msg)) s)) /\
    (forall s msg,
       (RollkitmngrModule.RegisterServices (RollkitmngrModule.out_Module mng)).1 msg s =
         (set_Migration (Some (mkMigration (msg_BlockHeight msg) (msg_Sequencer msg)
            (msg_Attesters msg))) s, Ok tt) <->
       msg_Authority msg = authority /\ BlockHeight <= msg_BlockHeight msg).
Proof.
  intros Hh authority. destruct (valid_authority a) as [b Hb].
  assert (provided_authority a = authority) as Ha.
  { unfold provided_authority, authority. case_bool_decide; by destruct (decide _). }
  unfold NetworkModule.ProvideModule, RollkitmngrModule.ProvideModule.
  rewrite network_NewKeeper, (rollkitmngr_NewKeeper _ _ Hb), Ha. do 2 eexists.
  do 2 (split; [reflexivity|]). split.
  - intros s msg s'. cbn.
    apply (UpdateParams_spec (CH := NetworkModule.keeper_chain (NetworkModule.mkKeeper authority _)) s msg).
  - intros s msg. cbn.
    by apply (MigrateToRollkit_spec (MN := RollkitmngrModule.keeper_mngr (RollkitmngrModule.mkKeeper authority _)) s msg).
Qed.
End authority.
End wiring.

(** ** The genesis hooks *)

(** The documented behaviour of the JSON codec on the genesis state. *)
Class JSONLaws (JC : NetworkModule.JSONCodec) : Prop := {
  MarshalJSON_ok gs : exists bz, NetworkModule.MarshalJSON gs = Ok bz;
  UnmarshalJSON_Marshal gs bz : NetworkModule.MarshalJSON gs = Ok bz -> NetworkModule.UnmarshalJSON bz = Ok gs
}.

Section genesis.
Context {CH : Chain} {HL : LegacyDecLaws Dec} {JC : NetworkModule.JSONCodec} {JL : JSONLaws JC}.

Lemma Module_InitGenesis_run bz gs s s' :
  NetworkModule.UnmarshalJSON bz = Ok gs -> InitGenesis gs s = (s', Ok tt) ->
  NetworkModule.Module_InitGenesis bz s = (s', Ok tt).
Proof.
  intros Hu Hi. unfold NetworkModule.Module_InitGenesis. rewrite run_bind, run_lift, Hu. cbn [panic_on].
  unfold panics. by rewrite run_wrap_err, Hi.
Qed.

Lemma Module_ExportGenesis_run s gs bz :
  ExportGenesis s = (s, Ok gs) -> NetworkModule.MarshalJSON gs = Ok bz ->
  NetworkModule.Module_ExportGenesis s = (s, Ok bz).
Proof.
  intros He Hm. unfold NetworkModule.Module_ExportGenesis. by rewrite run_bind, He, run_lift, Hm.
Qed.

Lemma DefaultGenesisState_valid : GenesisState_Validate (DefaultGenesisState (Dec := Dec)) = Ok tt.
Proof.
  unfold GenesisState_Validate. rewrite (proj2 (Params_Validate_iff _)); [done|].
  apply valid_DefaultParams.
Qed.

Lemma genesis_roundtrip gs bz :
  Forall (fun vi => is_u16 (vi_Index vi)) (gs_ValidatorIndices gs) ->
  NoDup (vi_Address <$> gs_ValidatorIndices gs) -> NoDup (vi_Index <$> gs_ValidatorIndices gs) ->
  NoDup (ab_Height <$> gs_AttestationBitmaps gs) ->
  Forall (fun ab => is_Some (ab_Bitmap ab)) (gs_AttestationBitmaps gs) ->
  NetworkModule.MarshalJSON gs = Ok bz ->
  exists s bz' gs', NetworkModule.Module_InitGenesis bz empty_State = (s, Ok tt) /\
    NetworkModule.Module_ExportGenesis s = (s, Ok bz') /\
    NetworkModule.MarshalJSON gs' = Ok bz' /\ gs_Params gs' = gs_Params gs /\
    gs_ValidatorIndices gs' ≡ₚ gs_ValidatorIndices gs /\
    gs_AttestationBitmaps gs' ≡ₚ gs_AttestationBitmaps gs.
Proof.
  intros H1 H2 H3 H4 H5 Hm. destruct (export_after_init gs H1 H2 H3 H4 H5) as (s & gs' & Hi & He & H).
  destruct (MarshalJSON_ok gs') as [bz' Hm']. exists s, bz', gs'.
  split; [eapply Module_InitGenesis_run; [by apply UnmarshalJSON_Marshal|done]|].
  split; [by eapply Module_ExportGenesis_run|]. by split.
Qed.

(** The default genesis is accepted by the module's validation, starts an
    empty store without a panic, and is exported again byte for byte; bytes
    that are not a genesis are an error of the validation and a panic of the
    start, which writes nothing. *)
Theorem default_genesis_starts :
  (exists bz s, NetworkModule.DefaultGenesis = Ok bz /\ NetworkModule.ValidateGenesis bz = Ok tt /\
     NetworkModule.Module_InitGenesis bz empty_State = (s, Ok tt) /\
     NetworkModule.Module_ExportGenesis s = (s, Ok bz)) /\
  (forall bz e s, NetworkModule.UnmarshalJSON bz = Err e ->
     NetworkModule.ValidateGenesis bz = Err (ErrWrap "unmarshal genesis state" e) /\
     exists t, NetworkModule.Module_InitGenesis bz s = (s, Panic t)).
Proof.
  split.
  - destruct (MarshalJSON_ok (DefaultGenesisState (Dec := Dec))) as [bz Hm].
    destruct (genesis_roundtrip DefaultGenesisState bz) as (s & bz' & gs' & Hi & He & Hm' & Hp & Hv & Hb);
      cbn; try done; try constructor.
    exists bz, s. unfold NetworkModule.DefaultGenesis, NetworkModule.ValidateGenesis. rewrite Hm.
    rewrite (UnmarshalJSON_Marshal _ _ Hm). cbn [wrap_outcome mbind outcome_bind panic_on].
    split_and!; [done|apply DefaultGenesisState_valid|done|]. rewrite He. repeat f_equal.
    cbn in Hv, Hb. apply Permutation_nil_r in Hv, Hb. destruct gs' as [p v b]. cbn in *. subst.
    unfold DefaultGenesisState in Hm. congruence.
  - intros bz e s Hu. unfold NetworkModule.ValidateGenesis, NetworkModule.Module_InitGenesis. rewrite Hu.
    split; [done|]. rewrite run_bind, run_lift. cbn [panic_on]. by eexists.
Qed.
End genesis.

(** ** The two command lines *)

(** ** The two command lines *)

(** A command of [client/cli] and one of the [autocli.go] table that look the
    same to a user: their texts and the number of their arguments. *)
Definition same_command {E : CliEnv} (c : Command) (o : AutoCLI.RpcCommandOptions) : Prop :=
  Use c = AutoCLI.Use o /\ Short c = AutoCLI.Short o /\
  exists check, Args c = Some check /\
    forall args, check args = Ok tt <-> length args = length (AutoCLI.PositionalArgs o).

(** The hand-written commands of the network module and the table from
    which the SDK generates commands are the same commands in the same order,
    and each query command's method is a method of the query service. *)
Theorem command_lines_agree {E : CliEnv} {EL : CliLaws E} queryRoute srv :
  let auto := AutoCLI.network_AutoCLIOptions in
  Forall2 same_command (Commands (GetQueryCmd queryRoute)) (AutoCLI.Commands (AutoCLI.Query auto)) /\
  Forall2 same_command (Commands GetTxCmd) (AutoCLI.Commands (AutoCLI.Tx auto)) /\
  AutoCLI.Service (AutoCLI.Query auto) = ServiceName (_Query_serviceDesc srv) /\
  AutoCLI.RpcMethod <$> AutoCLI.Commands (AutoCLI.Query auto) = (Methods (_Query_serviceDesc srv)).*1.
Proof.
  assert (forall args, NoArgs args = Ok tt <-> length args = 0%nat) as H0.
  { intros args. rewrite NoArgs_spec. by destruct args. }
  pose proof (fun n args => ExactArgs_spec n args) as Hn.
  split_and!; [| |reflexivity|reflexivity]; repeat constructor; try reflexivity;
    eexists; (split; [reflexivity|]); cbn; auto.
Qed.

(** ** Concrete modules *)

(** Addresses are the bytes of their text, a schema is always built. *)
Definition demo_module_env : ModuleEnv := {|
  NewModuleAddress := bytes_of_string;
  NewModuleAddressOrBech32Address := bytes_of_string;
  AccAddress_String := string_of_bytes;
  addressCodec_StringToBytes := fun s => Ok (bytes_of_string s);
  SchemaBuild := fun _ => None
|}.

Lemma demo_module_laws : ModuleLaws demo_module_env.
Proof. split; [done|..]; intros a; cbn [addressCodec_StringToBytes AccAddress_String NewModuleAddress
    NewModuleAddressOrBech32Address demo_module_env]; by rewrite string_of_bytes_of_string. Qed.

Lemma collections_apart_witness :
  exists net, NetworkModule.ProvideModule (ME := demo_module_env) "gov" = Ok net /\
    length (NetworkModule.keeper_Schema (NetworkModule.NetworkKeeper net)) = 8%nat.
Proof.
  destruct (collections_apart (ML := demo_module_laws) "gov") as (net & mng & Hn & _).
  exists net. split; [exact Hn|]. injection Hn as <-. reflexivity.
Defined.

Lemma configured_authority_governs_witness :
  exists net, NetworkModule.ProvideModule (ME := demo_module_env) "" = Ok net /\
    exists s', NetworkModule.server_UpdateParams (NetworkModule.RegisterServices (CH := demo_chain) (C := demo_ctx 20)
      (NetworkModule.out_Module net)).1 (NewMsgUpdateParams "gov" (DefaultParams (Dec := Z))) demo_voted = (s', Ok tt).
Proof.
  destruct (configured_authority_governs (ML := demo_module_laws) (CH := demo_chain) (MN := demo_mngr)
    (C := demo_ctx 20) "") as (net & mng & Hn & _ & Hu & _).
  - vm_compute. split; discriminate.
  - exists net. split; [exact Hn|]. eexists. apply Hu.
    split; [reflexivity|]. split; [apply valid_DefaultParams|reflexivity].
Defined.

(** Genesis states as numbers. *)
Definition genesis_tuple (gs : GenesisState) :=
  let p := gs_Params gs in
  ((EpochLength p, QuorumFraction p, MinParticipation p, PruneAfter p, SignMode p),
   (fun v => (vi_Address v, vi_Index v, vi_Power v)) <$> gs_ValidatorIndices gs,
   (fun b => (ab_Height b, ab_Bitmap b, ab_VotedPower b, ab_TotalPower b, ab_SoftConfirmed b))
     <$> gs_AttestationBitmaps gs).

Definition demo_json : NetworkModule.JSONCodec := {|
  NetworkModule.MarshalJSON := fun gs => Ok (number (genesis_tuple gs));
  NetworkModule.UnmarshalJSON := fun bz =>
    '(p, vs, bs) ← unnumber (A := (Z * string * string * Z * Z) * list (string * Z * Z) *
      list (Z * option bytes * Z * Z * bool)) bz;
    let '(el, qf, mp, pa, sm) := p in
    Ok (mkGenesisState (mkParams el qf mp pa sm)
      ((fun v => mkValidatorIndex v.1.1 v.1.2 v.2) <$> vs)
      ((fun b => mkAttestationBitmap b.1.1.1.1 b.1.1.1.2 b.1.1.2 b.1.2 b.2) <$> bs))
|}.

Lemma fmap_back {A B} (f : A -> B) (g : B -> A) (l : list A) : (forall x, g (f x) = x) -> g <$> (f <$> l) = l.
Proof. intros H. induction l as [|x l IH]; [done|]. cbn. by rewrite H, IH. Qed.

Lemma demo_json_laws : JSONLaws demo_json.
Proof.
  split; [by eexists|]. intros [[] vs bs] bz H. cbn [NetworkModule.UnmarshalJSON NetworkModule.MarshalJSON demo_json] in *.
  rewrite (unnumber_number _ _ H). cbn.
  rewrite !fmap_back; [done|by intros []..].
Qed.

Lemma default_genesis_starts_witness :
  exists bz s, NetworkModule.DefaultGenesis (CH := demo_chain) (JC := demo_json) = Ok bz /\
    NetworkModule.Module_InitGenesis (JC := demo_json) bz empty_State = (s, Ok tt).
Proof.
  destruct (default_genesis_starts (CH := demo_chain) (JL := demo_json_laws))
    as [(bz & s & Hd & _ & Hi & _) _].
  exists bz, s. exact (conj Hd Hi).
Defined.

Lemma command_lines_agree_witness :
  Forall2 (same_command (E := demo_cli)) (Commands (GetTxCmd (E := demo_cli)))
    (AutoCLI.Commands (AutoCLI.Tx AutoCLI.network_AutoCLIOptions)).
Proof.
  destruct (command_lines_agree (E := demo_cli) (EL := demo_cli_laws) "network"
    (NewQueryServer (CH := demo_chain) (C := demo_ctx 20))) as (_ & H & _).
  exact H.
Defined.
