(* ===== verification/Gossip.v ===== *)
(** * Gossip and the construction of the adapter ([pkg/p2p/gossip.go], the
    first part of [pkg/adapter/adapter.go] and [options.go])

    Calls to libp2p's publish-subscribe are entries of a log with answers given
    by [PubSub]; the validator of transactions is the one of [Adapter.v]. *)

From Stdlib Require Import ZArith Lia.
From stdpp Require Import base gmap strings list pretty.
From S2P Require Import Prelude Bitmap Options.

Open Scope Z_scope.

(** ** [gossip.go] *)

Record GossipMessage : Type := mkGossipMessage { gm_Data : bytes; gm_From : string }.
Definition GossipValidator : Type := GossipMessage -> bool.

Inductive PubSubCall : Type :=
| JoinTopic (topic : string)
| SubscribeTopic (topic : string)
| RegisterTopicValidator (topic : string)
| UnregisterTopicValidator (topic : string)
| CancelSubscription (topic : string)
| CloseTopic (topic : string)
| PublishData (topic : string) (data : bytes).

Class PubSub : Type := { pubsub_answer : PubSubCall -> outcome unit }.

(** What the process does on the network, and the validator of its topic. *)
Record Gossip : Type := mkGossip {
  gossip_calls : list PubSubCall;
  topic_validator : gmap string (bytes -> string -> bool)
}.

Record Gossiper : Type := mkGossiper { g_ownID : string; g_topic : string }.

Section gossip.
Context `{PS : PubSub}.

Definition pubsub (c : PubSubCall) : M Gossip unit :=
  modify (fun g => mkGossip (gossip_calls g ++ [c]) (topic_validator g)) ;;
  lift (pubsub_answer c).

(** [wrapValidator] *)
Definition wrapValidator (validator : GossipValidator) (data : bytes) (from : string) : bool :=
  validator (mkGossipMessage data from).

Definition GossiperOption : Type := Gossiper -> M Gossip unit.

Definition WithValidator (validator : GossipValidator) : GossiperOption := fun g =>
  pubsub (RegisterTopicValidator (g_topic g)) ;;
  modify (fun s => mkGossip (gossip_calls s)
                     (<[g_topic g := wrapValidator validator]> (topic_validator s))).

Definition NewGossiper (hostID topicStr : string) (options : list GossiperOption) :
    M Gossip Gossiper :=
  pubsub (JoinTopic topicStr) ;;
  pubsub (SubscribeTopic topicStr) ;;
  let g := mkGossiper hostID topicStr in
  for_each options (fun option => option g) ;;
  mret g.

(** [errors.Join] of the two errors; both calls are made. *)
Definition Gossiper_Close (g : Gossiper) : M Gossip unit := fun s =>
  let '(s, r1) := pubsub (UnregisterTopicValidator (g_topic g)) s in
  let '(s, _) := pubsub (CancelSubscription (g_topic g)) s in
  let '(s, r2) := pubsub (CloseTopic (g_topic g)) s in
  (s, match r1, r2 with
      | Panic t, _ | _, Panic t => Panic t
      | Ok tt, r2 => r2
      | Err e, Ok tt => Err e
      | Err e1, Err e2 => Err (ErrWrap "errors.Join" e1)
      end).

Definition Gossiper_Publish (g : Gossiper) (data : bytes) : M Gossip unit :=
  pubsub (PublishData (g_topic g) data).

(** The loop over the subscription: each turn reads a message (or fails) and
    looks at the context; the number of messages it took, and whether it still
    runs. *)
Fixpoint ProcessMessages (turns : list (outcome unit * bool)) : nat * bool :=
  match turns with
  | [] => (0%nat, true)
  | (err, ctxDone) :: turns' =>
      if ctxDone then (0%nat, false)
      else if is_ok err then let '(n, running) := ProcessMessages turns' in (S n, running)
      else (0%nat, false)
  end.

(** ** The adapter's construction *)

(** What options may change; [None] for the no-op metrics. *)
Record Settings : Type := mkSettings {
  set_App : Application;
  set_metrics : option string;
  blockFilter : Z -> outcome bool;
  set_ChainID : string;
  set_Mempool : bool                      (* whether there is one *)
}.

Definition Option_ : Type := Settings -> Settings.

Definition WithMetrics (m : string) : Option_ := fun a =>
  mkSettings (set_App a) (Some m) (blockFilter a) (set_ChainID a) (set_Mempool a).
Definition WithBlockFilter (publisher : Z -> outcome bool) : Option_ := fun a =>
  mkSettings (set_App a) (set_metrics a) publisher (set_ChainID a) (set_Mempool a).
Definition WithNetworkSoftConfirmationBlockFilter : Option_ := fun a =>
  mkSettings (set_App a) (set_metrics a) (NetworkFilter_IsPublishable (set_App a)) (set_ChainID a)
    (set_Mempool a).

(** The default filter publishes every block. *)
Definition NewABCIExecutor (app : Application) (chainID : string) (opts : list Option_) : Settings :=
  foldl (fun a opt => opt a) (mkSettings app None (fun _ => Ok true) chainID false) opts.

Definition SetMempool (a : Settings) : Settings :=
  mkSettings (set_App a) (set_metrics a) (blockFilter a) (set_ChainID a) true.

(** [Adapter.Start]: the topic is the chain's; afterwards the messages are
    processed in the background. *)
Definition Adapter_Start (a : Settings) (hostID : string) (newTxValidator : GossipValidator) :
    M Gossip Gossiper :=
  let topic := set_ChainID a +:+ "-tx" in
  NewGossiper hostID topic [WithValidator newTxValidator].

(** ** After a successful start *)

(** The adapter's validator decides on every message of the chain's
    transaction topic, which is joined and subscribed to before. *)
Theorem Start_registers a hostID validator s s' g :
  Adapter_Start a hostID validator s = (s', Ok g) ->
  let topic := set_ChainID a +:+ "-tx" in
  gossip_calls s' = gossip_calls s
    ++ [JoinTopic topic; SubscribeTopic topic; RegisterTopicValidator topic] /\
  g = mkGossiper hostID topic /\
  exists v, topic_validator s' !! topic = Some v /\
    forall data from, v data from = validator (mkGossipMessage data from).
Proof.
  unfold Adapter_Start, NewGossiper, WithValidator, pubsub.
  rewrite !run_bind, !run_modify, !run_lift. set (topic := set_ChainID a +:+ "-tx").
  destruct (pubsub_answer (JoinTopic topic)) as [[]| |]; [|done..].
  rewrite !run_bind, !run_modify, !run_lift.
  destruct (pubsub_answer (SubscribeTopic topic)) as [[]| |]; [|done..].
  cbn [for_each g_topic]. rewrite !run_bind, !run_modify, !run_lift.
  destruct (pubsub_answer (RegisterTopicValidator topic)) as [[]| |]; [|done..].
  rewrite ?run_modify, ?run_ret. cbn. intros [= <- <-]. cbn.
  rewrite <- !app_assoc. split_and!; [done..|].
  exists (wrapValidator validator). by rewrite lookup_insert_eq.
Qed.
End gossip.
