(* ===== verification/RpcServer.v ===== *)
(** * The RPC server ([pkg/rpc/server.go])

    Its start parses the listen address and launches a goroutine that assigns
    and runs the HTTP server; [Stop] shuts down whatever server is assigned
    when it runs.  The operating system's listener is a parameter; the HTTP
    server is the one of [net/http]: [Serve] of a server that is shutting down
    returns at once. *)

From Stdlib Require Import ZArith Lia Ascii String.
From stdpp Require Import base gmap strings list.
From S2P Require Import Prelude.

Open Scope Z_scope.

Record RPCConfig : Type := mkServerConfig {
  ListenAddress : string;
  MaxOpenConnections : Z;
  CorsEnabled : bool;
  TLSCertFile : string;
  TLSKeyFile : string
}.

(** [strings.SplitN(s, sep, 2)] for a non-empty separator. *)
Definition SplitN2 (s sep : string) : list string :=
  match String.index 0 sep s with
  | None => [s]
  | Some i => [String.substring 0 i s;
               String.substring (i + String.length sep) (String.length s) s]
  end.

Class Network : Type := { net_Listen : string -> string -> outcome unit }.

(** What [startRPC] sets up, from the outside in. *)
Inductive Layer : Type :=
| LimitListener (connections : Z)
| CorsHandler
| Routes.

Inductive RpcStart : Type :=
| NotExposed
| Launched (proto addr : string) (layers : list Layer) (tls : bool).

Section start.
Context `{NW : Network}.

Definition startRPC (config : RPCConfig) : outcome RpcStart :=
  if bool_decide (ListenAddress config = "") then Ok NotExposed
  else
    match SplitN2 (ListenAddress config) "://" with
    | [proto; addr] =>
        net_Listen proto addr ;;
        Ok (Launched proto addr
          ((if negb (MaxOpenConnections config =? 0)
            then [LimitListener (MaxOpenConnections config)] else [])
           ++ (if CorsEnabled config then [CorsHandler] else []) ++ [Routes])
          (negb (bool_decide (TLSCertFile config = "")) && negb (bool_decide (TLSKeyFile config = ""))))
    | _ => Err (ErrText "invalid RPC listen address: expecting tcp://host:port")
    end.
End start.

(** ** The goroutine and [Stop] *)

Inductive ServeState : Type := ServeLaunched | ServeAssigned | Serving | ServeReturned.

Record HttpServer : Type := mkHttpServer { inShutdown : bool; serve_state : ServeState }.

(** The steps of the goroutine ([serve]: the assignment of [r.server], then
    its [Serve]) and [Stop], which only another thread makes. *)
Inductive ServerStep : Type := StepAssign | StepServe | StepStop.

Definition server_step (s : HttpServer) (step : ServerStep) : HttpServer :=
  match step, serve_state s with
  | StepAssign, ServeLaunched => mkHttpServer false ServeAssigned
  | StepServe, ServeAssigned =>
      if inShutdown s then mkHttpServer true ServeReturned else mkHttpServer false Serving
  | StepStop, Serving => mkHttpServer true ServeReturned
  | StepStop, st => mkHttpServer true st
  | _, _ => s
  end.

Definition server_run (s : HttpServer) (steps : list ServerStep) : HttpServer :=
  foldl server_step s steps.

(** The zero [http.Server] when [startRPC] returns. *)
Definition launched_server : HttpServer := mkHttpServer false ServeLaunched.

#[global] Instance ServerStep_eq_dec : EqDecision ServerStep.
Proof. solve_decision. Defined.

(** ** Properties *)

(** The address is split at the first separator. *)
Example SplitN2_address :
  SplitN2 "tcp://127.0.0.1:26657" "://" = ["tcp"; "127.0.0.1:26657"]%string /\
  SplitN2 "unix://a://b" "://" = ["unix"; "a://b"]%string /\
  SplitN2 "127.0.0.1:26657" "://" = ["127.0.0.1:26657"]%string.
Proof. vm_compute. done. Qed.

(** A server that is shutting down and does not serve. *)
Definition after_shutdown (s : HttpServer) : Prop :=
  inShutdown s = true /\ (serve_state s = ServeAssigned \/ serve_state s = ServeReturned).

Lemma after_shutdown_step s step : after_shutdown s -> after_shutdown (server_step s step).
Proof.
  destruct s as [sd st]. unfold after_shutdown. cbn.
  intros [-> [-> | ->]]; destruct step; cbn; auto.
Qed.

Lemma after_shutdown_run s steps : after_shutdown s -> after_shutdown (server_run s steps).
Proof.
  revert s. induction steps as [|step steps IH]; intros s H; [done|].
  apply (IH (server_step s step)). by apply after_shutdown_step.
Qed.

Lemma assigned_run s steps :
  serve_state s <> ServeLaunched ->
  serve_state (server_run s steps) <> ServeLaunched /\
  (after_shutdown s \/ StepStop ∈ steps -> after_shutdown (server_run s steps)).
Proof.
  revert s. induction steps as [|step steps IH]; intros s H.
  - split; [done|]. intros [Hs|Hin]; [done|by inversion Hin].
  - assert (serve_state (server_step s step) <> ServeLaunched) as H'.
    { destruct s as [[] []], step; cbn in *; congruence. }
    destruct (IH _ H') as [H1 H2]. split; [done|]. intros Hs. apply H2.
    destruct (decide (step = StepStop)) as [->|Hne].
    + left. unfold after_shutdown. destruct s as [[] []]; cbn in *; auto; congruence.
    + destruct Hs as [Hs|Hin]; [left; by apply after_shutdown_step|].
      apply elem_of_cons in Hin as [|]; [congruence|auto].
Qed.

(** Stopping a server that [startRPC] launched: once the goroutine has assigned
    the server, a later stop ends it for good, in every interleaving; a stop
    that comes before the assignment is lost, and the server then serves
    although it was stopped. *)
Theorem Stop_spec :
  (forall before after, StepAssign ∈ before -> StepStop ∈ after ->
     serve_state (server_run launched_server (before ++ after)) <> Serving) /\
  serve_state (server_run launched_server [StepStop; StepAssign; StepServe]) = Serving.
Proof.
  split; [|reflexivity]. intros before after Hb Ha. unfold server_run. rewrite foldl_app.
  fold (server_run launched_server before). fold (server_run (server_run launched_server before) after).
  assert (serve_state (server_run launched_server before) <> ServeLaunched) as Hl.
  { apply list_elem_of_split in Hb as (l1 & l2 & ->). unfold server_run. rewrite foldl_app.
    cbn [foldl]. fold (server_run launched_server l1).
    apply assigned_run. destruct (server_run launched_server l1) as [[] []]; cbn; congruence. }
  destruct (assigned_run _ after Hl) as [_ H]. destruct H as [_ [-> | ->]]; [by right|done..].
Qed.
