(* ===== verification/Logger.v ===== *)
(** * The logger that rollkit gets ([server/logger.go])

    [logAdapter] turns the calls of rollkit's logging interface into calls of
    the SDK's logger.  What reaches the SDK's logger is a log of [LogCall]s; a
    call returns, ends the process or panics. *)

From Stdlib Require Import ZArith Lia.
From stdpp Require Import base strings list.
From S2P Require Import Prelude.

Open Scope Z_scope.

(** [fmt]: the default text of a value, whether its type is a string type, and
    formatting by a template. *)
Class Fmt : Type := {
  Value : Type;
  value_text : Value -> string;
  value_is_string : Value -> bool
}.

(** An [interface{}]: a value of type [string], or of another type. *)
Inductive any `{Fmt} : Type := AnyString (s : string) | AnyValue (v : Value).

Class FmtTemplates `{Fmt} : Type := { Sprintf : string -> list any -> string }.

Inductive Level : Set := LevelDebug | LevelInfo | LevelWarn | LevelError.

Inductive LogCall `{Fmt} : Type :=
| Logged (level : Level) (msg : string) (keyVals : list any)
| CalledSync
| CalledClose.

(** What [logger.Impl()] implements: rollkit's interface, [Sync], [io.Closer]. *)
Record Impl : Type := mkImpl { is_EventLogger : bool; is_Syncer : bool; is_Closer : bool }.

Inductive LogEnd : Set := Returned | Exited (code : Z).

Section logger.
Context `{FT : FmtTemplates}.

Definition any_text (a : any) : string :=
  match a with AnyString s => s | AnyValue v => value_text v end.
Definition any_is_string (a : any) : bool :=
  match a with AnyString _ => true | AnyValue v => value_is_string v end.

(** [fmt.Sprint]: a space between two operands of which neither is a string. *)
Fixpoint Sprint (args : list any) : string :=
  match args with
  | [] => ""
  | a :: args' =>
      match args' with
      | [] => any_text a
      | b :: _ =>
          any_text a +:+ (if any_is_string a || any_is_string b then "" else " ") +:+ Sprint args'
      end
  end.

Definition getMessage (template : string) (fmtArgs : list any) : string :=
  if (length fmtArgs =? 0)%nat then template
  else if negb (bool_decide (template = ""%string)) then Sprintf template fmtArgs
  else
    match fmtArgs with
    | [AnyString str] => str
    | _ => Sprint fmtArgs
    end.

Definition log_line (level : Level) (msg : string) (keyVals : list any) : M (list LogCall) unit :=
  modify (fun calls => calls ++ [Logged level msg keyVals]).

Definition doLogf (level : Level) (format : string) (args : list any) : M (list LogCall) unit :=
  log_line level (getMessage format args) [].

Definition doLog (level : Level) (args : list any) : M (list LogCall) unit :=
  match args with
  | [] => mret tt
  | AnyString str :: kvs => log_line level str kvs
  | _ => log_line level "no-message" args
  end.

Context (impl : Impl).

Definition tryFlushAndClose : M (list LogCall) unit :=
  (if is_Syncer impl then modify (fun calls => calls ++ [CalledSync]) else mret tt) ;;
  (if is_Closer impl then modify (fun calls => calls ++ [CalledClose]) else mret tt).

(** ** The interface *)

Definition returning (m : M (list LogCall) unit) : M (list LogCall) LogEnd := m ;; mret Returned.

Definition Debug (args : list any) : M (list LogCall) LogEnd := returning (doLog LevelDebug args).
Definition Debugf (format : string) (args : list any) : M (list LogCall) LogEnd :=
  returning (doLogf LevelDebug format args).
Definition Info (args : list any) : M (list LogCall) LogEnd := returning (doLog LevelInfo args).
Definition Error (args : list any) : M (list LogCall) LogEnd := returning (doLog LevelError args).
Definition Errorf (format : string) (args : list any) : M (list LogCall) LogEnd :=
  returning (doLogf LevelError format args).
Definition Infof (format : string) (args : list any) : M (list LogCall) LogEnd :=
  returning (doLogf LevelInfo format args).
Definition Warn (args : list any) : M (list LogCall) LogEnd := returning (doLog LevelWarn args).
Definition Warnf (format : string) (args : list any) : M (list LogCall) LogEnd :=
  returning (doLogf LevelWarn format args).

(** The calls end before [panic] and [os.Exit], which do not return. *)
Definition Panic_ (args : list any) : M (list LogCall) LogEnd :=
  doLog LevelError args ;; tryFlushAndClose ;; panic (getMessage "" args).
Definition Panicf (format : string) (args : list any) : M (list LogCall) LogEnd :=
  doLogf LevelError format args ;; tryFlushAndClose ;; panic (getMessage format args).
Definition Fatal (args : list any) : M (list LogCall) LogEnd :=
  doLog LevelError args ;; tryFlushAndClose ;; mret (Exited 1).
Definition Fatalf (format : string) (args : list any) : M (list LogCall) LogEnd :=
  doLogf LevelError format args ;; tryFlushAndClose ;; mret (Exited 1).

(** The methods of rollkit's interface, each with its argument. *)
Record EventLogger : Type := mkEventLogger {
  el_log : Level -> list any -> M (list LogCall) LogEnd;
  el_logf : Level -> string -> list any -> M (list LogCall) LogEnd;
  el_Panic : list any -> M (list LogCall) LogEnd;
  el_Panicf : string -> list any -> M (list LogCall) LogEnd;
  el_Fatal : list any -> M (list LogCall) LogEnd;
  el_Fatalf : string -> list any -> M (list LogCall) LogEnd
}.

Definition logAdapter : EventLogger := {|
  el_log level := match level with
    | LevelDebug => Debug | LevelInfo => Info | LevelWarn => Warn | LevelError => Error end;
  el_logf level := match level with
    | LevelDebug => Debugf | LevelInfo => Infof | LevelWarn => Warnf | LevelError => Errorf end;
  el_Panic := Panic_; el_Panicf := Panicf; el_Fatal := Fatal; el_Fatalf := Fatalf |}.

(** An implementation that is an [EventLogger] itself is used as it is. *)
Definition NewLogAdapter (own : EventLogger) : EventLogger :=
  if is_EventLogger impl then own else logAdapter.

(** ** What the adapter does *)

(** The line a call without a template writes, if it has an argument. *)
Definition line_of (level : Level) (args : list any) : list LogCall :=
  match args with
  | [] => []
  | AnyString str :: kvs => [Logged level str kvs]
  | _ => [Logged level "no-message" args]
  end.

Definition flush_calls : list LogCall :=
  (if is_Syncer impl then [CalledSync] else []) ++ (if is_Closer impl then [CalledClose] else []).

Lemma doLog_run level args calls : doLog level args calls = (calls ++ line_of level args, Ok tt).
Proof.
  destruct args as [|[s|v] kvs]; unfold doLog, log_line, line_of; [|reflexivity..].
  by rewrite app_nil_r.
Qed.

Lemma tryFlushAndClose_run calls : tryFlushAndClose calls = (calls ++ flush_calls, Ok tt).
Proof.
  unfold tryFlushAndClose, flush_calls. destruct (is_Syncer impl), (is_Closer impl); run;
    by rewrite ?app_nil_r, <- ?app_assoc.
Qed.

(** Every call writes its one line at its level; the calls that end the process
    or panic write it, flush and close the logger and then do so, the panic
    with the text of the arguments. *)
Theorem logAdapter_spec calls level format args :
  el_log logAdapter level args calls = (calls ++ line_of level args, Ok Returned) /\
  el_logf logAdapter level format args calls =
    (calls ++ [Logged level (getMessage format args) []], Ok Returned) /\
  el_Panic logAdapter args calls =
    (calls ++ line_of LevelError args ++ flush_calls, Panic (getMessage "" args)) /\
  el_Panicf logAdapter format args calls =
    (calls ++ Logged LevelError (getMessage format args) [] :: flush_calls, Panic (getMessage format args)) /\
  el_Fatal logAdapter args calls = (calls ++ line_of LevelError args ++ flush_calls, Ok (Exited 1)) /\
  el_Fatalf logAdapter format args calls =
    (calls ++ Logged LevelError (getMessage format args) [] :: flush_calls, Ok (Exited 1)).
Proof.
  cbn. unfold Panic_, Panicf, Fatal, Fatalf, doLogf, log_line.
  split_and!; rewrite ?run_bind, ?doLog_run, ?run_modify.
  - destruct level; unfold Debug, Info, Warn, Error, returning; by rewrite run_bind, doLog_run.
  - by destruct level.
  - by rewrite run_bind, tryFlushAndClose_run, run_panic, <- app_assoc.
  - by rewrite run_bind, tryFlushAndClose_run, run_panic, <- app_assoc.
  - by rewrite run_bind, tryFlushAndClose_run, run_ret, <- app_assoc.
  - by rewrite run_bind, tryFlushAndClose_run, run_ret, <- app_assoc.
Qed.
End logger.
