(* ===== verification/Metrics.v ===== *)
(** * The adapter's metrics ([pkg/adapter/metrics.go])

    Metrics are declared to the Prometheus registry with the slice of their
    label names.  [append(labels, "result")] may write into the array that other
    slices share, so the arrays are a heap here; how far [append] enlarges an
    array is up to the runtime and a parameter. *)

From Stdlib Require Import ZArith QArith Lia.
From stdpp Require Import base strings list.
From S2P Require Import Prelude.

Open Scope Z_scope.

(** ** Slices of strings *)

Record Slice : Type := mkSlice { sl_array : nat; sl_len : nat; sl_cap : nat }.

(** The capacity of a new array: the old one and the needed length. *)
Class Growth : Type := { grow_cap : nat -> nat -> nat }.
Class GrowthLaws (G : Growth) : Prop := { grow_enough old needed : (needed <= grow_cap old needed)%nat }.

Inductive Buckets : Type := DefBuckets | ExponentialBuckets (start : Q) (factor count : Z).
Inductive MetricKind : Type := Counter | Histogram (buckets : Buckets).

(** A metric: registered with its options and label names, the labels it was
    given by [With]; or one of go-kit's [discard] package. *)
Record Declared : Type := mkDeclared {
  met_kind : MetricKind; met_Namespace : string; met_Subsystem : string; met_Name : string;
  met_Help : string; met_labels : Slice; met_With : list string }.
Inductive Metric : Type := Registered (d : Declared) | DiscardCounter | DiscardHistogram.

Record World : Type := mkWorld { arrays : list (list string); registry : list Declared }.
Definition set_arrays (f : list (list string) -> list (list string)) (w : World) : World :=
  mkWorld (f (arrays w)) (registry w).

(** [MustRegister] panics when the registry refuses the metric. *)
Class Registry : Type := { Register : list Declared -> Declared -> option error }.

Definition fq_name (d : Declared) : string * string * string :=
  (met_Namespace d, met_Subsystem d, met_Name d).

(** The registry takes a metric whose name is new to it. *)
Class RegistryLaws (R : Registry) : Prop := {
  Register_new ds d : ~ fq_name d ∈ fq_name <$> ds -> Register ds d = None
}.

Record Metrics : Type := mkMetrics {
  TxValidationTotal : Metric; TxValidationResultTotal : Metric; CheckTxDurationSeconds : Metric;
  InitChainDurationSeconds : Metric;
  BlockExecutionDurationSeconds : Metric; TxsExecutedPerBlock : Metric;
  BlockExecutionStepDurationSeconds : Metric; ValidatorUpdatesTotal : Metric;
  ConsensusParamUpdatesTotal : Metric;
  GetTxsDurationSeconds : Metric; TxsProposedTotal : Metric; MempoolReapDurationSeconds : Metric;
  PrepareProposalDurationSeconds : Metric
}.

Definition MetricsSubsystem : string := "adapter".

Section metrics.
Context {G : Growth} {R : Registry}.

(** What a slice reads. *)
Definition contents (s : Slice) (w : World) : list string :=
  take (sl_len s) (default [] (arrays w !! sl_array s)).

(** [append(s, x)] *)
Definition append (s : Slice) (x : string) : M World Slice :=
  if (sl_len s <? sl_cap s)%nat then
    modify (set_arrays (alter (<[sl_len s := x]>) (sl_array s))) ;;
    mret (mkSlice (sl_array s) (S (sl_len s)) (sl_cap s))
  else
    old ← gets (contents s);
    fresh ← gets (fun w => length (arrays w));
    let cap := grow_cap (sl_cap s) (S (sl_len s)) in
    modify (set_arrays (fun h => h ++ [old ++ x :: replicate (cap - S (sl_len s)) ""])) ;;
    mret (mkSlice fresh (S (sl_len s)) cap).

(** [for i := 0; i < len(labelsAndValues); i += 2 { labels = append(...) }] *)
Fixpoint label_names (labels : Slice) (labelsAndValues : list string) : M World Slice :=
  match labelsAndValues with
  | [] => mret labels
  | [name] => append labels name
  | name :: _ :: rest => labels ← append labels name; label_names labels rest
  end.

(** [prometheus.NewCounterFrom(...).With(...)], [NewHistogramFrom]. *)
Definition NewFrom (kind : MetricKind) (namespace name help : string) (labels : Slice)
    (labelsAndValues : list string) : M World Metric :=
  let d := mkDeclared kind namespace MetricsSubsystem name help labels labelsAndValues in
  registered ← gets registry;
  match Register registered d with
  | Some _ => panic "MustRegister"
  | None => modify (fun w => mkWorld (arrays w) (registry w ++ [d])) ;; mret (Registered d)
  end.

Definition PrometheusMetrics (namespace : string) (labelsAndValues : list string) : M World Metrics :=
  empty ← gets (fun w => mkSlice (length (arrays w)) 0 0);
  modify (set_arrays (fun h => h ++ [[]])) ;;
  labels ← label_names empty labelsAndValues;
  let counter name help labels := NewFrom Counter namespace name help labels labelsAndValues in
  let histogram name help buckets labels :=
    NewFrom (Histogram buckets) namespace name help labels labelsAndValues in
  txValidationTotal ← counter "tx_validation_total"
    "Total number of transactions received for validation." labels;
  resultLabels ← append labels "result";
  txValidationResultTotal ← counter "tx_validation_result_total"
    "Total number of transaction validation results by outcome." resultLabels;
  checkTxDurationSeconds ← histogram "checktx_duration_seconds"
    "Latency of the Mempool.CheckTx call." DefBuckets labels;
  initChainDurationSeconds ← histogram "initchain_duration_seconds"
    "Time taken for InitChain." DefBuckets labels;
  blockExecutionDurationSeconds ← histogram "block_execution_duration_seconds"
    "Total time taken for ExecuteTxs." (ExponentialBuckets (1 # 10) 2 10) labels;
  txsExecutedPerBlock ← histogram "txs_executed_per_block"
    "Number of transactions included in executed blocks." (ExponentialBuckets 1 2 10) labels;
  stepLabels ← append labels "step";
  blockExecutionStepDurationSeconds ← histogram "block_execution_step_duration_seconds"
    "Duration of specific steps within ExecuteTxs." DefBuckets stepLabels;
  validatorUpdatesTotal ← counter "validator_updates_total"
    "Total number of validator updates processed." labels;
  consensusParamUpdatesTotal ← counter "consensus_param_updates_total"
    "Total number of consensus parameter updates processed." labels;
  getTxsDurationSeconds ← histogram "get_txs_duration_seconds"
    "Time taken for GetTxs." DefBuckets labels;
  txsProposedTotal ← counter "txs_proposed_total"
    "Total number of transactions returned by GetTxs." labels;
  mempoolReapDurationSeconds ← histogram "mempool_reap_duration_seconds"
    "Time taken for Mempool.ReapMaxBytesMaxGas." DefBuckets labels;
  prepareProposalDurationSeconds ← histogram "prepare_proposal_duration_seconds"
    "Time taken for App.PrepareProposal." DefBuckets labels;
  mret (mkMetrics txValidationTotal txValidationResultTotal checkTxDurationSeconds
    initChainDurationSeconds blockExecutionDurationSeconds txsExecutedPerBlock
    blockExecutionStepDurationSeconds validatorUpdatesTotal consensusParamUpdatesTotal
    getTxsDurationSeconds txsProposedTotal mempoolReapDurationSeconds
    prepareProposalDurationSeconds).
End metrics.

Definition NopMetrics : Metrics :=
  mkMetrics DiscardCounter DiscardCounter DiscardHistogram DiscardHistogram DiscardHistogram
    DiscardHistogram DiscardHistogram DiscardCounter DiscardCounter DiscardHistogram DiscardCounter
    DiscardHistogram DiscardHistogram.

(** ** The label names that reach the registry *)

Section labels.
Context {G : Growth} {GL : GrowthLaws G} {R : Registry} {RL : RegistryLaws R}.

(** A slice lies within an array of the heap that is as long as its capacity. *)
Record slice_ok (s : Slice) (w : World) : Prop := {
  ok_array : exists a, arrays w !! sl_array s = Some a /\ length a = sl_cap s;
  ok_len : (sl_len s <= sl_cap s)%nat
}.

(** Whether an append writes into the array the slice already has. *)
Definition spare (s : Slice) : bool := (sl_len s <? sl_cap s)%nat.

Lemma append_spare s x w : spare s = true ->
  append s x w = (set_arrays (alter (<[sl_len s := x]>) (sl_array s)) w,
                  Ok (mkSlice (sl_array s) (S (sl_len s)) (sl_cap s))).
Proof. unfold append, spare. intros ->. by run. Qed.

Lemma append_full s x w : spare s = false ->
  let cap := grow_cap (sl_cap s) (S (sl_len s)) in
  append s x w =
    (set_arrays (fun h => h ++ [contents s w ++ x :: replicate (cap - S (sl_len s)) ""]) w,
     Ok (mkSlice (length (arrays w)) (S (sl_len s)) cap)).
Proof. unfold append, spare. intros ->. by run. Qed.

Lemma length_contents s w : slice_ok s w -> length (contents s w) = sl_len s.
Proof.
  intros [(a & Ha & Hl) Hle]. unfold contents. rewrite Ha. cbn. rewrite length_take. lia.
Qed.

Lemma append_run s x w : slice_ok s w ->
  exists w' s', append s x w = (w', Ok s') /\ slice_ok s' w' /\ registry w' = registry w /\
    contents s' w' = contents s w ++ [x].
Proof.
  intros Hok. pose proof (length_contents _ _ Hok) as Hc. pose proof Hok as [(a & Ha & Hl) Hle].
  destruct (spare s) eqn:Hs.
  - rewrite append_spare by done. do 2 eexists. split; [reflexivity|].
    apply Nat.ltb_lt in Hs.
    assert (alter (<[sl_len s:=x]>) (sl_array s) (arrays w) !! sl_array s = Some (<[sl_len s:=x]> a)) as Ha'
      by (by rewrite list_lookup_alter_eq, Ha).
    split; [split; cbn; [exists (<[sl_len s:=x]> a); by rewrite length_insert|lia]|]. split; [done|].
    unfold contents. cbn. rewrite Ha', Ha. cbn.
    rewrite (take_S_r _ _ x) by (rewrite list_lookup_insert_eq; [done|lia]).
    by rewrite take_insert_ge by lia.
  - rewrite append_full by done. do 2 eexists. split; [reflexivity|].
    set (cap := grow_cap _ _). pose proof (grow_enough (sl_cap s) (S (sl_len s))) as Hg. fold cap in Hg.
    set (new := contents s w ++ x :: replicate (cap - S (sl_len s)) "").
    assert ((arrays w ++ [new]) !! length (arrays w) = Some new) as Hnew
      by (by rewrite lookup_app_r, Nat.sub_diag by done).
    split; [split; cbn; [|lia]|].
    + exists new. split; [done|]. unfold new. rewrite length_app, Hc. cbn. rewrite length_replicate. lia.
    + split; [done|]. unfold contents at 1. cbn. rewrite Hnew. cbn. unfold new.
      rewrite cons_middle, app_assoc, take_app_length'; [done|]. rewrite length_app, Hc. cbn. lia.
Qed.

(** The names of a list of labels and values. *)
Fixpoint names_of (labelsAndValues : list string) : list string :=
  match labelsAndValues with
  | [] => []
  | [name] => [name]
  | name :: _ :: rest => name :: names_of rest
  end.

Lemma label_names_run lvs : forall s w, slice_ok s w ->
  exists w' s', label_names s lvs w = (w', Ok s') /\ slice_ok s' w' /\ registry w' = registry w /\
    contents s' w' = contents s w ++ names_of lvs.
Proof.
  (* two labels and values at a time *)
  revert lvs. fix IH 1. intros [|name [|v rest]] s w Hok; cbn [label_names names_of].
  - exists w, s. rewrite app_nil_r. by run.
  - by apply append_run.
  - destruct (append_run s name w Hok) as (w1 & s1 & H1 & Hok1 & Hr1 & Hc1).
    destruct (IH rest s1 w1 Hok1) as (w2 & s2 & H2 & Hok2 & Hr2 & Hc2).
    exists w2, s2. rewrite run_bind, H1. split; [done|]. split; [done|]. split; [congruence|].
    by rewrite Hc2, Hc1, <- app_assoc.
Qed.

(** No metric of the adapter is registered under [ns] yet. *)
Definition fresh_namespace (ns : string) (w : World) : Prop :=
  forall name, ~ (ns, MetricsSubsystem, name) ∈ fq_name <$> registry w.

Lemma NewFrom_run kind ns name help labels lvs w :
  ~ (ns, MetricsSubsystem, name) ∈ fq_name <$> registry w ->
  let d := mkDeclared kind ns MetricsSubsystem name help labels lvs in
  NewFrom kind ns name help labels lvs w = (mkWorld (arrays w) (registry w ++ [d]), Ok (Registered d)).
Proof. intros H d. unfold NewFrom. run. rewrite Register_new by done. by run. Qed.

(** The names of the metrics in the order of their registration. *)
Definition metric_names : list string :=
  [ "tx_validation_total"; "tx_validation_result_total"; "checktx_duration_seconds";
    "initchain_duration_seconds"; "block_execution_duration_seconds"; "txs_executed_per_block";
    "block_execution_step_duration_seconds"; "validator_updates_total";
    "consensus_param_updates_total"; "get_txs_duration_seconds"; "txs_proposed_total";
    "mempool_reap_duration_seconds"; "prepare_proposal_duration_seconds" ].

(** A name is new after those of [ds], which are other names. *)
Lemma still_new ns name ds (rs : list Declared) :
  ~ (ns, MetricsSubsystem, name) ∈ fq_name <$> rs ->
  fq_name <$> ds = (fun n => (ns, MetricsSubsystem, n)) <$> (met_Name <$> ds) ->
  ~ name ∈ met_Name <$> ds ->
  ~ (ns, MetricsSubsystem, name) ∈ fq_name <$> (rs ++ ds).
Proof.
  intros H1 Hds H2. rewrite fmap_app, elem_of_app, Hds. intros [?|(n & [= <-] & Hn)%list_elem_of_fmap]; done.
Qed.

(** The next registration of a run, whose name is new by computation. *)
Ltac new_name :=
  cbn [registry]; rewrite <- ?app_assoc; cbn [app];
  first [ by auto
        | apply still_new; [by auto|reflexivity|by apply (bool_decide_unpack _); vm_compute] ].
Ltac register := rewrite run_bind, NewFrom_run; [cbn [registry arrays]|new_name].

Lemma slice_ok_arrays s w w' : arrays w' = arrays w -> slice_ok s w -> slice_ok s w'.
Proof. intros E [H1 H2]. split; [by rewrite E|done]. Qed.

Lemma contents_arrays s w w' : arrays w' = arrays w -> contents s w' = contents s w.
Proof. intros E. unfold contents. by rewrite E. Qed.

(** An append leaves what the slice itself reads, which stays a slice. *)
Lemma append_keeps s x w w' s' : slice_ok s w -> append s x w = (w', Ok s') ->
  slice_ok s w' /\ contents s w' = contents s w.
Proof.
  intros [(a & Ha & Hl) Hle]. destruct (spare s) eqn:Hs.
  - rewrite append_spare by done. intros [= <- _]. apply Nat.ltb_lt in Hs.
    assert (alter (<[sl_len s:=x]>) (sl_array s) (arrays w) !! sl_array s = Some (<[sl_len s:=x]> a)) as Ha'
      by (by rewrite list_lookup_alter_eq, Ha).
    split; [split; [exists (<[sl_len s:=x]> a); by rewrite length_insert|done]|].
    unfold contents. cbn. rewrite Ha', Ha. cbn. by rewrite take_insert_ge by lia.
  - rewrite append_full by done. intros [= <- _].
    assert (forall b, (arrays w ++ [b]) !! sl_array s = Some a) as Ha'.
    { intros b. rewrite lookup_app_l; [done|]. by eapply lookup_lt_Some. }
    split; [split; [exists a; cbn; by rewrite Ha'|done]|]. unfold contents. cbn. by rewrite Ha', Ha.
Qed.

(** Two appends to the same labels: what the first result reads at the end. *)
Lemma result_then_step labels w2 w3 sr w4 w5 ss :
  slice_ok labels w2 -> append labels "result" w2 = (w3, Ok sr) -> arrays w4 = arrays w3 ->
  append labels "step" w4 = (w5, Ok ss) ->
  contents sr w5 = contents labels w2 ++ [if spare labels then "step" else "result"]%string.
Proof.
  intros Hok E1 E4 E2. pose proof (append_keeps _ _ _ _ _ Hok E1) as [Hok3 Hc3].
  pose proof (slice_ok_arrays _ _ _ E4 Hok3) as Hok4.
  destruct (append_run labels "result" w2 Hok) as (w & s & E & Hok' & _ & Hc).
  rewrite E1 in E. injection E as <- <-.
  destruct (append_run labels "step" w4 Hok4) as (w & s & E & _ & _ & Hc').
  rewrite E2 in E. injection E as <- <-. rewrite (contents_arrays _ _ _ E4), Hc3 in Hc'.
  destruct (spare labels) eqn:Hs.
  - rewrite append_spare in E1, E2 by done. injection E1 as _ <-. injection E2 as _ <-. exact Hc'.
  - rewrite append_full in E2 by done. injection E2 as <- _. rewrite <- Hc.
    destruct Hok' as [(a & Ha & _) _]. unfold contents. cbn. rewrite E4, lookup_app_l; [done|].
    by eapply lookup_lt_Some.
Qed.

(** The adapter's metrics are registered under thirteen different names.
    The counter of validation results gets the label [result] after the given
    labels, unless the array of the labels has room: the label [step] of a later
    metric is then written over it. *)
Theorem PrometheusMetrics_labels ns lvs w :
  fresh_namespace ns w ->
  exists w' m ds labels d, PrometheusMetrics ns lvs w = (w', Ok m) /\
    registry w' = registry w ++ ds /\ met_Name <$> ds = metric_names /\
    contents labels w' = names_of lvs /\
    TxValidationResultTotal m = Registered d /\
    contents (met_labels d) w' = names_of lvs ++ [if spare labels then "step" else "result"]%string.
Proof.
  intros Hfresh. unfold PrometheusMetrics. rewrite run_bind, run_gets, run_bind, run_modify.
  set (w0 := set_arrays _ w). set (empty := mkSlice _ 0 0).
  assert (slice_ok empty w0) as Hempty.
  { split; cbn; [|lia]. exists []. by rewrite lookup_app_r, Nat.sub_diag by done. }
  destruct (label_names_run lvs empty w0 Hempty) as (w1 & labels & Hl & Hok & Hr & Hc).
  rewrite run_bind, Hl. cbv zeta.
  assert (contents labels w1 = names_of lvs) as Hc1 by (rewrite Hc; done).
  change (registry w0) with (registry w) in Hr. 
  assert (fresh_namespace ns w1) as Hf1 by (intros name; rewrite Hr; apply Hfresh).
  clear Hl Hc Hempty. register. set (w2 := mkWorld (arrays w1) _).
  pose proof (slice_ok_arrays labels w1 w2 eq_refl Hok) as Hok2.
  destruct (append_run labels "result" w2 Hok2) as (w3 & sr & E3 & _ & Hr3 & _).
  unfold w2 in Hr3. cbn [registry] in Hr3. rewrite run_bind, E3. pose proof (append_keeps _ _ _ _ _ Hok2 E3) as [Hok3 Hc3].
  rewrite run_bind, NewFrom_run; rewrite Hr3; [|by new_name]. do 4 register.
  set (w4 := mkWorld (arrays w3) _).
  pose proof (slice_ok_arrays labels w3 w4 eq_refl Hok3) as Hok4.
  destruct (append_run labels "step" w4 Hok4) as (w5 & ss & E5 & _ & Hr5 & _).
  unfold w4 in Hr5. cbn [registry] in Hr5. rewrite run_bind, E5. pose proof (append_keeps _ _ _ _ _ Hok4 E5) as [_ Hc5].
  rewrite run_bind, NewFrom_run; rewrite Hr5; [|by new_name]. do 6 register. rewrite run_ret.
  do 5 eexists. split; [reflexivity|]. cbn [registry w4 w2]. rewrite Hr, <- !app_assoc.
  split; [reflexivity|]. split; [reflexivity|]. cbn [TxValidationResultTotal].
  split; [rewrite <- Hc1; etransitivity; [exact Hc5|exact Hc3]|]. split; [reflexivity|].
  rewrite <- Hc1. exact (result_then_step labels w2 w3 sr w4 w5 ss Hok2 E3 eq_refl E5).
Qed.
End labels.

(** ** Arrays that double, as those of the runtime do when they are small *)

#[global] Instance demo_growth : Growth := { grow_cap old needed := Nat.max needed (2 * old) }.
#[global] Instance demo_growth_laws : GrowthLaws demo_growth.
Proof. split. intros old needed. cbn. lia. Qed.
#[global] Instance demo_registry : Registry := {
  Register ds d := if bool_decide (fq_name d ∈ fq_name <$> ds) then Some (ErrText "duplicate") else None
}.
#[global] Instance demo_registry_laws : RegistryLaws demo_registry.
Proof. split. intros ds d H. cbn. by rewrite bool_decide_eq_false_2. Qed.

(** The labels of the validation results, as the registry reads them. *)
Definition result_labels (lvs : list string) : list string :=
  let '(w, r) := PrometheusMetrics "ns" lvs (mkWorld [] []) in
  match r with
  | Ok m => match TxValidationResultTotal m with Registered d => contents (met_labels d) w | _ => [] end
  | _ => []
  end.

(** With the one label of [start.go] the names are right; with three they are not. *)
Example result_labels_of_start : result_labels ["chain_id"; "c"] = ["chain_id"; "result"].
Proof. vm_compute. reflexivity. Qed.
Example result_labels_of_three :
  result_labels ["a"; "1"; "b"; "2"; "c"; "3"] = ["a"; "b"; "c"; "step"].
Proof. vm_compute. reflexivity. Qed.
