(* ===== verification/Commands.v ===== *)
(** * The configuration commands and flags ([server/init_cmd.go], [flags.go])

    [InitRunE] writes rollkit's configuration; [AddFlags] declares the flags of
    the start command.  cobra, pflag and rollkit's configuration are classes. *)

From Stdlib Require Import ZArith Lia.
From stdpp Require Import base gmap strings list.
From S2P Require Import Prelude.

Open Scope Z_scope.

(** ** [init_cmd.go] *)

(** rollkit's [Config], of which the code assigns one field. *)
Class ConfigEnv : Type := {
  Config : Type;
  set_Aggregator : bool -> Config -> Config;
  Flags_GetBool : string -> outcome bool;
  FlagAggregator_name : string;
  (** [rollconf.Load]: a configuration and an error, which is ignored. *)
  Load : Config * option error;
  Config_Validate : Config -> outcome unit;
  Config_SaveAsYaml : Config -> outcome unit
}.

Section init.
Context {CE : ConfigEnv}.

(** The log holds the configurations that were written. *)
Definition InitRunE : M (list Config) unit :=
  aggregator ← wrap_err "error reading aggregator flag" (lift (Flags_GetBool FlagAggregator_name));
  let '(cfg, _) := Load in
  let cfg := set_Aggregator aggregator cfg in
  wrap_err "error validating config" (lift (Config_Validate cfg)) ;;
  modify (fun written => written ++ [cfg]) ;;
  wrap_err "error writing rollkit.yaml file" (lift (Config_SaveAsYaml cfg)).

(** The command: its texts, no arguments, its body and rollkit's flags. *)
Record InitCommand : Type := mkInitCommand {
  init_Use : string; init_Short : string; init_NoArgs : bool;
  init_RunE : M (list Config) unit; init_has_flags : bool }.
Definition InitCmd : InitCommand := {|
  init_Use := "init"; init_Short := "Initialize rollkit configuration files.";
  init_NoArgs := true; init_RunE := InitRunE; init_has_flags := true |}.

(** Only a configuration that is valid with the aggregator flag of the command
    line is written, whatever the file that was loaded said of it. *)
Theorem InitRunE_spec written :
  (forall written', InitRunE written = (written', Ok tt) <->
     exists b, Flags_GetBool FlagAggregator_name = Ok b /\
       let cfg := set_Aggregator b (fst Load) in
       Config_Validate cfg = Ok tt /\ Config_SaveAsYaml cfg = Ok tt /\ written' = written ++ [cfg]) /\
  (forall b e, Flags_GetBool FlagAggregator_name = Ok b ->
     Config_Validate (set_Aggregator b (fst Load)) = Err e ->
     InitRunE written = (written, Err (ErrWrap "error validating config" e))).
Proof.
  unfold InitRunE. destruct Load as [cfg err]. cbn [fst].
  rewrite run_bind, run_wrap_err, run_lift.
  destruct (Flags_GetBool FlagAggregator_name) as [b|e|t]; cbn [fst snd wrap_outcome].
  2, 3: split; [intros w; split; [done|by intros (? & [=] & _)]|done].
  rewrite run_bind, run_wrap_err, run_lift.
  destruct (Config_Validate (set_Aggregator b cfg)) as [[]|e|t] eqn:Ev; cbn [fst snd wrap_outcome].
  2, 3: split; [intros w; split; [done|intros (? & [= <-] & Hv & _); congruence]
                 |by intros b' e' [= <-]; rewrite Ev; intros [=]; subst].
  rewrite run_bind, run_modify, run_wrap_err, run_lift.
  split; [|by intros b' e [= <-]; rewrite Ev]. intros w.
  destruct (Config_SaveAsYaml (set_Aggregator b cfg)) as [[]|e|t] eqn:Es; cbn [snd fst wrap_outcome];
    (split; [|intros (b' & [= <-] & _ & Hs & ->); congruence]); [|done..].
  intros [= <-]. by exists b.
Qed.
End init.

(** ** [flags.go] *)

Definition FlagNetworkSoftConfirmation : string := "rollkit.network.soft-confirmation".

(** The types of the flags, with their default values. *)
Inductive FlagValue : Type :=
| FBool (b : bool) | FString (s : string) | FDuration (d : Z) | FUint64 (n : Z) | FInt (n : Z)
| FFloat64 (text : string).

Record Flag : Type := mkFlag { flag_Name : string; flag_Default : FlagValue; flag_Usage : string }.

(** The constants that name rollkit's flags. *)
Inductive ConfigFlag : Set :=
| FlagDBPath | FlagChainID | FlagAggregator | FlagLight | FlagBlockTime | FlagTrustedHash
| FlagLazyAggregator | FlagMaxPendingHeadersAndData | FlagLazyBlockTime | FlagDAAddress
| FlagDAAuthToken | FlagDABlockTime | FlagDAGasPrice | FlagDAGasMultiplier | FlagDAStartHeight
| FlagDANamespace | FlagDASubmitOptions | FlagDAMempoolTTL | FlagP2PListenAddress | FlagP2PPeers
| FlagP2PBlockedPeers | FlagP2PAllowedPeers | FlagRPCAddress | FlagPrometheus
| FlagPrometheusListenAddr | FlagMaxOpenConnections | FlagPprof | FlagPprofListenAddr
| FlagLogLevel | FlagLogFormat | FlagLogTrace | FlagSignerType | FlagSignerPath
| FlagSignerPassphrase.

(** rollkit's [DefaultConfig] and [DefaultInstrumentationConfig]. *)
Class RollkitDefaults : Type := {
  config_name : ConfigFlag -> string;
  def_DBPath : string; def_ChainID : string; def_Aggregator : bool; def_Light : bool;
  def_BlockTime : Z; def_TrustedHash : string; def_LazyMode : bool;
  def_MaxPendingHeadersAndData : Z; def_LazyBlockInterval : Z; def_DA_Address : string;
  def_DA_AuthToken : string; def_DA_BlockTime : Z; def_DA_GasPrice : string;
  def_DA_GasMultiplier : string; def_DA_StartHeight : Z; def_DA_Namespace : string;
  def_DA_SubmitOptions : string; def_DA_MempoolTTL : Z; def_P2P_ListenAddress : string;
  def_P2P_Peers : string; def_P2P_BlockedPeers : string; def_P2P_AllowedPeers : string;
  def_RPC_Address : string; instr_Prometheus : bool; instr_PrometheusListenAddr : string;
  instr_MaxOpenConnections : Z; instr_Pprof : bool; instr_PprofListenAddr : string;
  def_SignerType : string; def_SignerPath : string
}.

Section flags.
Context {RD : RollkitDefaults}.

(** Declaring a flag panics when its name is taken. *)
Definition add_flag (f : Flag) : M (list Flag) unit :=
  flags ← gets id;
  if bool_decide (flag_Name f ∈ flag_Name <$> flags) then panic "flag redefined"
  else modify (fun flags => flags ++ [f]).

Definition rollkit_flag (name : ConfigFlag) (def : FlagValue) (usage : string) : Flag :=
  mkFlag (config_name name) def usage.

Definition AddFlags_table : list Flag :=
  [ mkFlag "ci" (FBool false) "run node for ci testing";
    mkFlag FlagNetworkSoftConfirmation (FBool false) "enable soft confirmation by the validator network";
    rollkit_flag FlagDBPath (FString def_DBPath) "path for the node database";
    rollkit_flag FlagChainID (FString def_ChainID) "chain ID";
    rollkit_flag FlagAggregator (FBool def_Aggregator) "run node in aggregator mode";
    rollkit_flag FlagLight (FBool def_Light) "run light client";
    rollkit_flag FlagBlockTime (FDuration def_BlockTime) "block time (for aggregator mode)";
    rollkit_flag FlagTrustedHash (FString def_TrustedHash)
      "initial trusted hash to start the header exchange service";
    rollkit_flag FlagLazyAggregator (FBool def_LazyMode)
      "produce blocks only when transactions are available or after lazy block time";
    rollkit_flag FlagMaxPendingHeadersAndData (FUint64 def_MaxPendingHeadersAndData)
      "maximum blocks pending DA confirmation before pausing block production (0 for no limit)";
    rollkit_flag FlagLazyBlockTime (FDuration def_LazyBlockInterval)
      "maximum interval between blocks in lazy aggregation mode";
    rollkit_flag FlagDAAddress (FString def_DA_Address) "DA address (host:port)";
    rollkit_flag FlagDAAuthToken (FString def_DA_AuthToken) "DA auth token";
    rollkit_flag FlagDABlockTime (FDuration def_DA_BlockTime) "DA chain block time (for syncing)";
    rollkit_flag FlagDAGasPrice (FFloat64 def_DA_GasPrice) "DA gas price for blob transactions";
    rollkit_flag FlagDAGasMultiplier (FFloat64 def_DA_GasMultiplier)
      "DA gas price multiplier for retrying blob transactions";
    rollkit_flag FlagDAStartHeight (FUint64 def_DA_StartHeight) "starting DA block height (for syncing)";
    rollkit_flag FlagDANamespace (FString def_DA_Namespace) "DA namespace to submit blob transactions";
    rollkit_flag FlagDASubmitOptions (FString def_DA_SubmitOptions) "DA submit options";
    rollkit_flag FlagDAMempoolTTL (FUint64 def_DA_MempoolTTL)
      "number of DA blocks until transaction is dropped from the mempool";
    rollkit_flag FlagP2PListenAddress (FString def_P2P_ListenAddress) "P2P listen address (host:port)";
    rollkit_flag FlagP2PPeers (FString def_P2P_Peers) "Comma separated list of seed nodes to connect to";
    rollkit_flag FlagP2PBlockedPeers (FString def_P2P_BlockedPeers) "Comma separated list of nodes to ignore";
    rollkit_flag FlagP2PAllowedPeers (FString def_P2P_AllowedPeers) "Comma separated list of nodes to whitelist";
    rollkit_flag FlagRPCAddress (FString def_RPC_Address) "RPC server address (host)";
    rollkit_flag FlagPrometheus (FBool instr_Prometheus) "enable Prometheus metrics";
    rollkit_flag FlagPrometheusListenAddr (FString instr_PrometheusListenAddr) "Prometheus metrics listen address";
    rollkit_flag FlagMaxOpenConnections (FInt instr_MaxOpenConnections)
      "maximum number of simultaneous connections for metrics";
    rollkit_flag FlagPprof (FBool instr_Pprof) "enable pprof HTTP endpoint";
    rollkit_flag FlagPprofListenAddr (FString instr_PprofListenAddr) "pprof HTTP server listening address";
    rollkit_flag FlagLogLevel (FString "info") "log level (debug, info, warn, error)";
    rollkit_flag FlagLogFormat (FString "text") "log format (text, json)";
    rollkit_flag FlagLogTrace (FBool false) "enable stack traces in error logs";
    rollkit_flag FlagSignerType (FString def_SignerType) "type of signer to use (file, grpc)";
    rollkit_flag FlagSignerPath (FString def_SignerPath) "path to the signer file or address";
    rollkit_flag FlagSignerPassphrase (FString "")
      "passphrase for the signer (required for file signer and if aggregator is enabled)" ].

Definition AddFlags : M (list Flag) unit := for_each AddFlags_table add_flag.

Lemma add_flags_run fs : forall flags,
  NoDup (flag_Name <$> flags ++ fs) -> for_each fs add_flag flags = (flags ++ fs, Ok tt).
Proof.
  induction fs as [|f fs IH]; intros flags Hnd; [by rewrite app_nil_r|].
  cbn [for_each]. rewrite run_bind. unfold add_flag at 1. rewrite run_bind, run_gets.
  rewrite bool_decide_eq_false_2.
  - rewrite run_modify. rewrite IH; by rewrite <- app_assoc.
  - rewrite fmap_app, NoDup_app in Hnd. cbn in Hnd. destruct Hnd as (_ & Hd & _).
    intros Hin. apply (Hd _ Hin). constructor.
Qed.

(** The flags are declared, each once, when rollkit's names differ from each
    other and from the two names of this program. *)
Theorem AddFlags_declares flags :
  NoDup (flag_Name <$> flags ++ AddFlags_table) -> AddFlags flags = (flags ++ AddFlags_table, Ok tt).
Proof. apply add_flags_run. Qed.
End flags.
