(* ===== verification/Routes.v ===== *)
(** * The table of RPC methods ([pkg/rpc/core/routes.go])

    A route is a method name with its handler, the names under which a request
    gives the handler's arguments, and whether an answer may be cached. *)

From Stdlib Require Import ZArith Lia Ascii String.
From stdpp Require Import base sets strings list.
From S2P Require Import Prelude.

Open Scope Z_scope.

(** The handlers of [pkg/rpc/core], which the files [RpcBlocks], [RpcMempool]
    and [RpcNet] define. *)
Inductive RpcHandler : Set :=
| Subscribe | Unsubscribe | UnsubscribeAll | Health | Status | NetInfo | BlockchainInfo | Genesis
| GenesisChunked | Block | BlockByHash | BlockResults | Commit | Header | HeaderByHash | CheckTx | Tx
| TxSearch | BlockSearch | Validators | DumpConsensusState | ConsensusState | ConsensusParams
| UnconfirmedTxs | NumUnconfirmedTxs | BroadcastTxCommit | BroadcastTxSync | BroadcastTxAsync
| ABCIQuery | ABCIInfo | BroadcastEvidence.

#[global] Instance RpcHandler_eq_dec : EqDecision RpcHandler.
Proof. solve_decision. Defined.

(** The types of a handler's parameters after the context. *)
Inductive GoType : Set :=
| GoString | GoBytes | GoHexBytes | GoBool | GoInt64 | GoInt64Ptr | GoIntPtr | GoUint | GoTx | GoEvidence.

Definition parameters (h : RpcHandler) : list GoType :=
  match h with
  | Subscribe | Unsubscribe => [GoString]
  | UnsubscribeAll | Health | Status | NetInfo | Genesis | DumpConsensusState | ConsensusState
  | NumUnconfirmedTxs | ABCIInfo => []
  | BlockchainInfo => [GoInt64; GoInt64]
  | GenesisChunked => [GoUint]
  | Block | BlockResults | Commit | Header | ConsensusParams => [GoInt64Ptr]
  | BlockByHash => [GoBytes]
  | HeaderByHash => [GoHexBytes]
  | CheckTx | BroadcastTxCommit | BroadcastTxSync | BroadcastTxAsync => [GoTx]
  | Tx => [GoBytes; GoBool]
  | TxSearch => [GoString; GoBool; GoIntPtr; GoIntPtr; GoString]
  | BlockSearch => [GoString; GoIntPtr; GoIntPtr; GoString]
  | Validators => [GoInt64Ptr; GoIntPtr; GoIntPtr]
  | UnconfirmedTxs => [GoIntPtr]
  | ABCIQuery => [GoString; GoHexBytes; GoInt64; GoBool]
  | BroadcastEvidence => [GoEvidence]
  end.

(** [server.Cacheable(args...)]: never, always, or only when all the arguments
    are given. *)
Inductive Caching : Type := NoCache | Cacheable (unless_missing : list string).

Record RPCFunc : Type := mkRPCFunc {
  fn_handler : RpcHandler; fn_args : string; fn_ws : bool; fn_cache : Caching }.

Definition NewWSRPCFunc (h : RpcHandler) (args : string) : RPCFunc := mkRPCFunc h args true NoCache.
Definition NewRPCFunc (h : RpcHandler) (args : string) : RPCFunc := mkRPCFunc h args false NoCache.
Definition NewCachedRPCFunc (h : RpcHandler) (args : string) (names : list string) : RPCFunc :=
  mkRPCFunc h args false (Cacheable names).

Definition Routes : list (string * RPCFunc) :=
  [ ("subscribe", NewWSRPCFunc Subscribe "query");
    ("unsubscribe", NewWSRPCFunc Unsubscribe "query");
    ("unsubscribe_all", NewWSRPCFunc UnsubscribeAll "");
    ("health", NewRPCFunc Health "");
    ("status", NewRPCFunc Status "");
    ("net_info", NewRPCFunc NetInfo "");
    ("blockchain", NewCachedRPCFunc BlockchainInfo "minHeight,maxHeight" []);
    ("genesis", NewCachedRPCFunc Genesis "" []);
    ("genesis_chunked", NewCachedRPCFunc GenesisChunked "chunk" []);
    ("block", NewCachedRPCFunc Block "height" ["height"]);
    ("block_by_hash", NewCachedRPCFunc BlockByHash "hash" []);
    ("block_results", NewCachedRPCFunc BlockResults "height" ["height"]);
    ("commit", NewCachedRPCFunc Commit "height" ["height"]);
    ("header", NewCachedRPCFunc Header "height" ["height"]);
    ("header_by_hash", NewCachedRPCFunc HeaderByHash "hash" []);
    ("check_tx", NewRPCFunc CheckTx "tx");
    ("tx", NewCachedRPCFunc Tx "hash,prove" []);
    ("tx_search", NewRPCFunc TxSearch "query,prove,page,per_page,order_by");
    ("block_search", NewRPCFunc BlockSearch "query,page,per_page,order_by");
    ("validators", NewCachedRPCFunc Validators "height,page,per_page" ["height"]);
    ("dump_consensus_state", NewRPCFunc DumpConsensusState "");
    ("consensus_state", NewRPCFunc ConsensusState "");
    ("consensus_params", NewCachedRPCFunc ConsensusParams "height" ["height"]);
    ("unconfirmed_txs", NewRPCFunc UnconfirmedTxs "limit");
    ("num_unconfirmed_txs", NewRPCFunc NumUnconfirmedTxs "");
    ("broadcast_tx_commit", NewRPCFunc BroadcastTxCommit "tx");
    ("broadcast_tx_sync", NewRPCFunc BroadcastTxSync "tx");
    ("broadcast_tx_async", NewRPCFunc BroadcastTxAsync "tx");
    ("abci_query", NewRPCFunc ABCIQuery "path,data,height,prove");
    ("abci_info", NewCachedRPCFunc ABCIInfo "" []);
    ("broadcast_evidence", NewRPCFunc BroadcastEvidence "evidence") ].

(** [strings.Split(args, ",")], with no names for the empty text. *)
Fixpoint split_comma (cs : list ascii) (word : list ascii) : list (list ascii) :=
  match cs with
  | [] => [rev word]
  | c :: cs' => if ascii_dec c "," then rev word :: split_comma cs' [] else split_comma cs' (c :: word)
  end.
Definition arg_names (args : string) : list string :=
  if bool_decide (args = ""%string) then []
  else string_of_list_ascii <$> split_comma (list_ascii_of_string args) [].

(** Every handler has exactly one route, names exactly its parameters there,
    each once, and the arguments that decide about caching are among them. *)
Theorem Routes_complete :
  NoDup Routes.*1 /\ (forall h, length (filter (fun r => fn_handler r.2 = h) Routes) = 1%nat) /\
  Forall (fun r => length (arg_names (fn_args r.2)) = length (parameters (fn_handler r.2)) /\
                   NoDup (arg_names (fn_args r.2)) /\
                   match fn_cache r.2 with
                   | NoCache => True
                   | Cacheable names => names ⊆ arg_names (fn_args r.2)
                   end) Routes.
Proof.
  split; [by apply (bool_decide_unpack _); vm_compute|]. split; [by intros []|].
  unfold Routes. repeat (apply Forall_cons_2;
    [split; [reflexivity|split; [by apply (bool_decide_unpack _); vm_compute|]]|]); [..|by constructor].
  all: try exact I.
  all: by apply (bool_decide_unpack _); vm_compute.
Qed.
