(* ===== verification/Startup.v ===== *)
(** * Starting the node ([server/start.go])

    A call to the operating system, the SDK, CometBFT or rollkit is an entry of
    the process's log and is answered by [StartEnv].  Deferred functions run
    when the function that deferred them ends, whatever its outcome. *)

From Stdlib Require Import ZArith Lia Ascii String.
From stdpp Require Import base gmap strings list.
From S2P Require Import Prelude Bitmap Comet Store Cometcompat MempoolIDs Adapter.
From S2P Require Import Options Gossip Migrate RpcServer.

Open Scope Z_scope.

(** ** [net.SplitHostPort] *)

Definition index_byte (c : ascii) (s : list ascii) : option nat :=
  fst <$> list_find (fun d => d = c) s.
Definition last_index_byte (c : ascii) (s : list ascii) : option nat :=
  (fun i => (length s - 1 - i)%nat) <$> index_byte c (reverse s).

Definition addr_error {A} (why : string) : outcome A := Err (ErrText why).

Definition SplitHostPort (hostport : string) : outcome (list ascii * list ascii) :=
  let s := list_ascii_of_string hostport in
  match last_index_byte ":" s with
  | None => addr_error "missing port in address"
  | Some i =>
      hjk ←
        (if bool_decide (head s = Some "["%char) then
           match index_byte "]" s with
           | None => addr_error "missing ']' in address"
           | Some end_ =>
               if (end_ + 1 =? length s)%nat then addr_error "missing port in address"
               else if (end_ + 1 =? i)%nat then
                 Ok (take (end_ - 1) (drop 1 s), 1%nat, (end_ + 1)%nat)
               else if bool_decide (s !! (end_ + 1)%nat = Some ":"%char)
               then addr_error "too many colons in address"
               else addr_error "missing port in address"
           end
         else if bool_decide (is_Some (index_byte ":" (take i s))) then addr_error "too many colons in address"
         else Ok (take i s, 0%nat, 0%nat));
      let '(host, j, k) := hjk in
      if bool_decide (is_Some (index_byte "[" (drop j s))) then addr_error "unexpected '[' in address"
      else if bool_decide (is_Some (index_byte "]" (drop k s))) then addr_error "unexpected ']' in address"
      else Ok (host, drop (i + 1) s)
  end.

(** ** Configuration and collaborators *)

(** [serverconfig.Config]: what start-up reads. *)
Record ServerConfig : Type := mkServerCfg {
  API_Enable : bool;
  GRPC_Enable : bool;
  GRPC_Address : string;
  GRPC_MaxRecvMsgSize : Z;
  GRPC_MaxSendMsgSize : Z;
  Telemetry_Enabled : bool
}.
Record RollkitConfig : Type := mkRollkitConfig { rk_Aggregator : bool; rk_Prometheus : bool }.

(** [cmttypes.GenesisDoc] *)
Record GenesisDoc : Type := mkGenesisDoc {
  gd_GenesisTime : Time;
  gd_ChainID : string;
  gd_InitialHeight : Z;     (* int64 *)
  gd_Validators : list GenesisValidator
}.

(** A file, as [os.Stat] and [os.ReadFile] see it. *)
Inductive File : Type :=
| FileAbsent
| FileUnreadable
| FileContent (data : bytes).

Inductive StartCall : Type :=
| OpenTraceWriter (file : string)
| CloseTraceWriter
| OpenDB (home : string)
| CreateApp
| CloseApp
| NewTelemetry
| SetServerInfo (labels : list (string * string))
| NewKVStore (rootDir : string)
| NewP2PClient (chainID : string)
| StartProxyApp
| NewMempool (height : Z)
| NewDAClient
| NewSequencerMetrics (chainID : option string)
| NewSequencer (chainID : string) (aggregator : bool)
| NewNode (genesis : RollkitGenesis) (signer_Address : option bytes)
| StartEventBus
| StopEventBus
| OpenIndexers (chainID : string)
| StartIndexerService
| StopIndexerService
| SetEnvironment (signer_Address : option bytes)
| StartRPC
| StopRPC
| LaunchNode
| RegisterServices
| NewGRPCClient (recv send : Z)
| NewGRPCServer
| LaunchGRPC
| NewAPIServer (telemetry : bool)
| LaunchAPI
| PostSetup
| WaitGroup
| CancelContext.

#[global] Instance RollkitGenesis_eq_dec : EqDecision RollkitGenesis.
Proof. solve_decision. Defined.
#[global] Instance StartCall_eq_dec : EqDecision StartCall.
Proof. solve_decision. Defined.

Record Proc : Type := mkProc { proc_calls : list StartCall; proc_gossip : Gossip }.

Class StartEnv `{CT : CometTypes, LP : Libp2p} : Type := {
  (** The command's context. *)
  RootDir : string;
  flag_TraceStore : string;
  flag_GRPCOnly : bool;
  flag_SoftConfirmation : bool;
  has_PostSetup : bool;
  GetConfig : outcome ServerConfig;
  ValidateBasic : ServerConfig -> outcome unit;
  version_Go : string;
  version_CosmosSDK : string;
  LoadRollkitConfig : outcome RollkitConfig;
  DefaultGRPCMaxRecvMsgSize : Z;
  DefaultGRPCMaxSendMsgSize : Z;
  start_RPCConfig : RPCConfig;
  all_indexers_disabled : bool;
  (** The private validator's key; [None]: nil. *)
  pval_PrivKey : option cmt_PrivKey;
  (** The genesis files, and the codecs of their contents. *)
  migration_file : File;
  cmtjson_Unmarshal : bytes -> outcome rollkitMigrationGenesis;
  AppGenesisFromFile : outcome AppGenesis;
  AppGenesis_ToGenesisDoc : AppGenesis -> outcome GenesisDoc;
  (** The collaborators. *)
  start_App : Application;
  store_Height : outcome Z;
  p2p_HostID : string;
  start_TxValidator : GossipValidator;
  start_answer : StartCall -> outcome unit
}.

Section start.
Context `{SE : StartEnv} {PS : PubSub} {NW : Network}.

Definition ext (c : StartCall) : M Proc unit :=
  modify (fun p => mkProc (proc_calls p ++ [c]) (proc_gossip p)) ;; lift (start_answer c).

(** A call of the gossiper, on its part of the state. *)
Definition on_gossip {A} (m : M Gossip A) : M Proc A := fun p =>
  let '(g, r) := m (proc_gossip p) in (mkProc (proc_calls p) g, r).

(** An error that is only logged. *)
Definition ignore_err {S} (m : M S unit) : M S unit := fun s =>
  match m s with (s', Err _) => (s', Ok tt) | sr => sr end.

(** A call without an error result. *)
Definition ext_void (c : StartCall) : M Proc unit := ignore_err (ext c).

(** [defer cleanup()], then the rest of the function. *)
Definition defer {A} (cleanup : M Proc unit) (body : M Proc A) : M Proc A := fun p =>
  let '(p1, r) := body p in
  let '(p2, rc) := cleanup p1 in
  (p2, match rc with Panic t => Panic t | _ => r end).

(** ** The application *)

Definition openTraceWriter (traceWriterFile : string) : M Proc bool :=
  if bool_decide (traceWriterFile = "") then mret false
  else ext (OpenTraceWriter traceWriterFile) ;; mret true.

Definition trace_cleanup (opened : bool) : M Proc unit :=
  if opened then ignore_err (ext CloseTraceWriter) else mret tt.

(** The clean-up function of the trace writer. *)
Definition setupTraceWriter : M Proc (M Proc unit) :=
  opened ← openTraceWriter flag_TraceStore;
  mret (trace_cleanup opened).

Definition app_cleanup (traceCleanupFn : M Proc unit) : M Proc unit :=
  traceCleanupFn ;; ignore_err (ext CloseApp).

Definition startApp : M Proc (M Proc unit) :=
  traceCleanupFn ← setupTraceWriter;
  ext (OpenDB RootDir) ;;
  ext_void CreateApp ;;
  mret (app_cleanup traceCleanupFn).

Definition startTelemetry (cfg : ServerConfig) : M Proc bool :=
  if Telemetry_Enabled cfg then ext NewTelemetry ;; mret true else mret false.

Definition emitServerInfoMetrics : M Proc unit :=
  let ls := (if negb (bool_decide (version_Go = "")) then [("go"%string, version_Go)] else [])
         ++ (if negb (bool_decide (version_CosmosSDK = ""))
             then [("version"%string, version_CosmosSDK)] else []) in
  if (length ls =? 0)%nat then mret tt else ext_void (SetServerInfo ls).

Definition getAndValidateConfig : outcome ServerConfig :=
  config ← GetConfig;
  ValidateBasic config ;;
  Ok config.

(** ** The genesis *)

Definition loadRollkitMigrationGenesis (file : File) : outcome (option rollkitMigrationGenesis) :=
  match file with
  | FileAbsent => Ok None
  | FileUnreadable => Err (ErrWrap "failed to read rollkit migration genesis" (ErrText "read"))
  | FileContent genesisBytes =>
      g ← wrap_outcome "failed to unmarshal rollkit migration genesis"
        (cmtjson_Unmarshal genesisBytes);
      Ok (Some g)
  end.

(** The first validator is the sequencer. *)
Definition createRollkitGenesisFromCometBFT (doc : GenesisDoc) : outcome RollkitGenesis :=
  match gd_Validators doc with
  | v :: _ => Ok (mkRollkitGenesis (gd_ChainID doc) (u64 (gd_InitialHeight doc)) (gd_GenesisTime doc)
                    (gv_Address v))
  | [] => Panic "index out of range"
  end.

Definition migrated_appGenesis (g : rollkitMigrationGenesis) : AppGenesis :=
  {| ag_ChainID := mg_ChainID g;
     ag_InitialHeight := i64 (mg_InitialHeight g);
     ag_GenesisTime := rg_GenesisTime (ToRollkitGenesis g);
     ag_Consensus := Some ([mkGenesisValidator (mg_SequencerAddr g) (mg_SequencerPubKey g) 1], None);
     ag_AppState := [] |}.

(** The function that [getAppGenesis] returns, called. *)
Definition getAppGenesis : outcome AppGenesis :=
  appGenesis ← AppGenesisFromFile;
  Ok appGenesis.

(** The rollkit genesis and the application genesis that start-up uses. *)
Definition start_genesis : outcome (RollkitGenesis * AppGenesis) :=
  migrationGenesis ← loadRollkitMigrationGenesis migration_file;
  match migrationGenesis with
  | Some g => Ok (ToRollkitGenesis g, migrated_appGenesis g)
  | None =>
      appGenesis ← getAppGenesis;
      cmtGenDoc ← AppGenesis_ToGenesisDoc appGenesis;
      rollkitGenesis ← createRollkitGenesisFromCometBFT cmtGenDoc;
      Ok (rollkitGenesis, appGenesis)
  end.

(** ** The node and the executor *)

Record Setup : Type := mkSetup {
  su_genesis : RollkitGenesis;
  su_appGenesis : AppGenesis;
  su_signer : option signerWrapper;
  su_executor : Settings;
  su_cleanup : M Proc unit
}.

Definition load_signer (aggregator : bool) : outcome (option signerWrapper) :=
  if aggregator then s ← NewSignerWrapper pval_PrivKey; Ok (Some s) else Ok None.

Definition executor_options (prometheus : bool) (chainID : string) : list Option_ :=
  (if prometheus then [WithMetrics chainID] else [])
  ++ (if flag_SoftConfirmation then [WithNetworkSoftConfirmationBlockFilter] else []).

(** A failure to start the connections panics. *)
Definition initProxyApp : M Proc unit := fun p =>
  match wrap_err "error while starting proxy app connections" (ext StartProxyApp) p with
  | (p', Err _) => (p', Panic "error while starting proxy app connections")
  | pr => pr
  end.

Definition createAndStartEventBus : M Proc unit := ext StartEventBus.

(** Whether an indexer service was started. *)
Definition createAndStartIndexerService (chainID : string) : M Proc bool :=
  ext (OpenIndexers chainID) ;;
  if all_indexers_disabled then mret false
  else ext StartIndexerService ;; mret true.

Definition rpcServer_Start : M Proc RpcStart := ext StartRPC ;; lift (startRPC start_RPCConfig).

Definition sequencer_metrics (prometheus : bool) (chainID : string) : M Proc unit :=
  ext (NewSequencerMetrics None) ;;
  if prometheus then ext (NewSequencerMetrics (Some chainID)) else mret tt.

Definition setup_cleanup (idxSvc : bool) : M Proc unit :=
  ignore_err (ext StopEventBus) ;;
  (if idxSvc then ignore_err (ext StopIndexerService) else mret tt) ;;
  ignore_err (ext StopRPC).

Definition signer_Address (s : option signerWrapper) : option bytes :=
  (fun s => priv_Address (cmtPrivKey s)) <$> s.

(** The services that are running once the node is made. *)
Definition start_services (chainID : string) (signer : option signerWrapper) : M Proc (M Proc unit) :=
  wrap_err "setup event-bus" createAndStartEventBus ;;
  idxSvc ← wrap_err "start indexer service" (createAndStartIndexerService chainID);
  ext_void (SetEnvironment (signer_Address signer)) ;;
  wrap_err "failed to start rpc server" rpcServer_Start ;;
  mret (setup_cleanup idxSvc).

(** The sequencer, then the node with the providers of [Cometcompat]. *)
Definition make_node (rollkitGenesis : RollkitGenesis) (aggregator : bool) (signer : option signerWrapper) :
    M Proc unit :=
  ext (NewSequencer (rg_ChainID rollkitGenesis) aggregator) ;;
  ext (NewNode rollkitGenesis (signer_Address signer)).

Definition setupNodeAndExecutor : M Proc Setup :=
  lift (GetNodeKey (Some pval_PrivKey)) ;;
  rollkitcfg ← lift LoadRollkitConfig;
  signer ← lift (load_signer (rk_Aggregator rollkitcfg));
  genesis ← lift start_genesis;
  let '(rollkitGenesis, appGenesis) := genesis in
  let chainID := rg_ChainID rollkitGenesis in
  ext (NewKVStore RootDir) ;;
  ext (NewP2PClient chainID) ;;
  let executor := NewABCIExecutor start_App (ag_ChainID appGenesis)
                    (executor_options (rk_Prometheus rollkitcfg) chainID) in
  initProxyApp ;;
  height ← lift store_Height;
  ext_void (NewMempool (i64 height)) ;;
  wrap_err "failed to create DA client" (ext NewDAClient) ;;
  sequencer_metrics (rk_Prometheus rollkitcfg) chainID ;;
  make_node rollkitGenesis (rk_Aggregator rollkitcfg) signer ;;
  cleanupFn ← start_services chainID signer;
  mret (mkSetup rollkitGenesis appGenesis signer (SetMempool executor) cleanupFn).

(** ** The servers *)

Definition startGrpcServer (config : ServerConfig) : M Proc bool :=
  if negb (GRPC_Enable config) then mret false
  else
    lift (SplitHostPort (GRPC_Address config)) ;;
    let maxSendMsgSize := if GRPC_MaxSendMsgSize config =? 0 then DefaultGRPCMaxSendMsgSize
                          else GRPC_MaxSendMsgSize config in
    let maxRecvMsgSize := if GRPC_MaxRecvMsgSize config =? 0 then DefaultGRPCMaxRecvMsgSize
                          else GRPC_MaxRecvMsgSize config in
    ext (NewGRPCClient maxRecvMsgSize maxSendMsgSize) ;;
    ext NewGRPCServer ;;
    ext_void LaunchGRPC ;;
    mret true.

Definition startAPIServer (svrCfg : ServerConfig) : M Proc unit :=
  if negb (API_Enable svrCfg) then mret tt
  else ext_void (NewAPIServer (Telemetry_Enabled svrCfg)) ;; ext_void LaunchAPI.

(** The goroutine of the node: whether it cancels the context itself, and the
    error it gives to the group, which then cancels it. *)
Inductive NodeRun : Type := NodeEnded | NodeCanceled | NodeFailed (e : error).

Definition node_goroutine (run : NodeRun) : bool * outcome unit :=
  match run with
  | NodeFailed e => (false, Err (ErrWrap "rollkit node run failed" e))
  | NodeEnded | NodeCanceled => (true, Ok tt)
  end.

Definition executor_Start (su : Setup) : M Proc Gossiper :=
  wrap_err "failed to start executor"
    (on_gossip (Adapter_Start (su_executor su) p2p_HostID start_TxValidator)).

(** From the executor's start to the wait for the group. *)
Definition run_servers (svrCfg : ServerConfig) : M Proc unit :=
  startGrpcServer svrCfg ;;
  startAPIServer svrCfg ;;
  (if has_PostSetup then ext PostSetup else mret tt) ;;
  ext WaitGroup.

Definition with_GRPC (c : ServerConfig) : ServerConfig :=
  mkServerCfg (API_Enable c) true (GRPC_Address c) (GRPC_MaxRecvMsgSize c) (GRPC_MaxSendMsgSize c)
    (Telemetry_Enabled c).

Definition startInProcess (svrCfg : ServerConfig) : M Proc unit :=
  defer (ext_void CancelContext)
    (if flag_GRPCOnly then run_servers (with_GRPC svrCfg)
     else
       su ← setupNodeAndExecutor;
       defer (su_cleanup su)
         (ext_void LaunchNode ;;
          executor_Start su ;;
          (if API_Enable svrCfg || GRPC_Enable svrCfg then ext_void RegisterServices else mret tt) ;;
          run_servers svrCfg)).

Definition StartHandler : M Proc unit :=
  svrCfg ← lift getAndValidateConfig;
  appCleanupFn ← startApp;
  defer appCleanupFn
    (startTelemetry svrCfg ;;
     emitServerInfoMetrics ;;
     startInProcess svrCfg).
End start.
