(* ===== verification/StartupProps.v ===== *)
(** * Theorems about start-up *)

From Stdlib Require Import ZArith Lia Ascii String.
From stdpp Require Import base gmap strings list numbers.
From S2P Require Import Prelude Bitmap Comet Store Cometcompat MempoolIDs Adapter.
From S2P Require Import AdapterDemo ExecuteProps RpcUtils RpcNet RpcNetProps Options Gossip Migrate MigrateProps RpcServer Startup.

Open Scope Z_scope.

(** ** The log only grows *)

Definition extends {A} (m : M Proc A) : Prop :=
  forall p, exists cs, proc_calls (m p).1 = proc_calls p ++ cs.

Lemma extends_reads {A} (m : M Proc A) : (forall p, (m p).1 = p) -> extends m.
Proof. intros H p. exists []. by rewrite H, app_nil_r. Qed.

Lemma extends_bind_ok {A B} (m : M Proc A) (k : A -> M Proc B) :
  extends m -> (forall p p' a, m p = (p', Ok a) -> extends (k a)) -> extends (m ≫= k).
Proof.
  intros Hm Hk p. rewrite run_bind. destruct (Hm p) as [cs Hcs].
  destruct (m p) as [p1 [a|e|t]] eqn:E; cbn in Hcs; [|by exists cs..].
  destruct (Hk _ _ _ E p1) as [cs' Hcs']. exists (cs ++ cs'). by rewrite Hcs', Hcs, app_assoc.
Qed.

Lemma extends_bind {A B} (m : M Proc A) (k : A -> M Proc B) :
  extends m -> (forall a, extends (k a)) -> extends (m ≫= k).
Proof. intros Hm Hk. apply extends_bind_ok; auto. Qed.

Lemma extends_wrap {A} text (m : M Proc A) : extends m -> extends (wrap_err text m).
Proof. intros Hm p. rewrite run_wrap_err. apply Hm. Qed.

Lemma extends_ignore (m : M Proc unit) : extends m -> extends (ignore_err m).
Proof.
  intros Hm p. destruct (Hm p) as [cs Hcs]. exists cs. unfold ignore_err.
  by destruct (m p) as [p1 [a|e|t]].
Qed.

Lemma extends_gossip {A} (m : M Gossip A) : extends (on_gossip m).
Proof. intros p. exists []. unfold on_gossip. destruct (m _). by rewrite app_nil_r. Qed.

Create HintDb startup.
#[export] Hint Resolve extends_bind extends_wrap extends_ignore extends_gossip : startup.
#[export] Hint Extern 1 (extends (lift _)) => by apply extends_reads : startup.
#[export] Hint Extern 1 (extends (mret _)) => by apply extends_reads : startup.
#[export] Hint Extern 1 (extends (match ?x with _ => _ end)) => destruct x : startup.

Section start.
Context `{SE : StartEnv} {PS : PubSub} {NW : Network}.

Lemma extends_ext c : extends (ext c).
Proof. intros p. by exists [c]. Qed.
Hint Resolve extends_ext : startup.

Lemma extends_run_servers cfg : extends (run_servers cfg).
Proof. unfold run_servers, startGrpcServer, startAPIServer, ext_void. auto 10 with startup. Qed.

Lemma extends_defer {A} c (m : M Proc A) : extends c -> extends m -> extends (defer c m).
Proof.
  intros Hc Hm p. unfold defer. destruct (Hm p) as [cs Hcs]. destruct (m p) as [p1 r].
  cbn in Hcs. destruct (Hc p1) as [cs' Hcs']. destruct (c p1) as [p2 rc]. cbn in *.
  exists (cs ++ cs'). by rewrite Hcs', Hcs, app_assoc.
Qed.

Lemma run_ignore_ext c p :
  (forall t, start_answer c <> Panic t) ->
  ignore_err (ext c) p = (mkProc (proc_calls p ++ [c]) (proc_gossip p), Ok tt).
Proof.
  intros Hc. unfold ignore_err, ext. rewrite run_bind, run_modify, run_lift.
  destruct (start_answer c) as [[]|e|t] eqn:E; [done..|]. by destruct (Hc t).
Qed.

(** ** What is started is stopped *)

(** No clean-up call panics. *)
Definition quiet_cleanup : Prop :=
  forall c t, c ∈ [CloseTraceWriter; CloseApp; StopEventBus; StopIndexerService; StopRPC; CancelContext] ->
    start_answer c <> Panic t.

Definition stop_calls : list StartCall :=
  [StopEventBus] ++ (if all_indexers_disabled then [] else [StopIndexerService]) ++ [StopRPC].

Definition logged (cs : list StartCall) (p : Proc) : Proc :=
  mkProc (proc_calls p ++ cs) (proc_gossip p).

Lemma logged_app cs1 cs2 p : logged cs2 (logged cs1 p) = logged (cs1 ++ cs2) p.
Proof. unfold logged. cbn. by rewrite app_assoc. Qed.

Lemma run_setup_cleanup p :
  quiet_cleanup -> setup_cleanup (negb all_indexers_disabled) p = (logged stop_calls p, Ok tt).
Proof.
  intros Hq. unfold setup_cleanup, stop_calls.
  rewrite run_bind, run_ignore_ext by (intros t; apply Hq; set_solver).
  destruct all_indexers_disabled; cbn [negb app]; rewrite run_bind, ?run_ret.
  - rewrite run_ignore_ext by (intros t; apply Hq; set_solver). unfold logged. cbn. by rewrite <- app_assoc.
  - rewrite run_ignore_ext by (intros t; apply Hq; set_solver).
    rewrite run_ignore_ext by (intros t; apply Hq; set_solver).
    unfold logged. cbn. by rewrite <- !app_assoc.
Qed.

(** A set-up that succeeded: its parts. *)
Record setup_parts (su : Setup) : Prop := {
  setup_genesis : start_genesis = Ok (su_genesis su, su_appGenesis su);
  setup_is_cleanup : su_cleanup su = setup_cleanup (negb all_indexers_disabled);
  setup_executor : exists prometheus,
    su_executor su = SetMempool (NewABCIExecutor start_App (ag_ChainID (su_appGenesis su))
      (executor_options prometheus (rg_ChainID (su_genesis su))))
}.

Lemma start_services_ok chainID signer p p' c :
  start_services chainID signer p = (p', Ok c) -> c = setup_cleanup (negb all_indexers_disabled).
Proof.
  unfold start_services.
  intros (p1 & [] & _ & H)%bind_ok. apply bind_ok in H as (p2 & idx & Hi%wrap_err_ok & H).
  apply bind_ok in H as (p3 & [] & _ & H). apply bind_ok in H as (p4 & st & _ & H).
  injection H as _ <-. unfold createAndStartIndexerService in Hi.
  apply bind_ok in Hi as (p5 & [] & _ & Hi). destruct all_indexers_disabled; cbn.
  - injection Hi as _ <-. done.
  - apply bind_ok in Hi as (p6 & [] & _ & Hi). injection Hi as _ <-. done.
Qed.

Lemma setup_ok p p' su : setupNodeAndExecutor p = (p', Ok su) -> setup_parts su.
Proof.
  unfold setupNodeAndExecutor.
  intros (? & ? & _ & H)%bind_ok. apply bind_ok in H as (? & cfg & _ & H).
  apply bind_ok in H as (? & signer & _ & H). apply bind_ok in H as (? & [rg ag] & Hg & H).
  do 4 apply bind_ok in H as (? & ? & _ & H).
  apply bind_ok in H as (? & [] & _ & H). do 3 apply bind_ok in H as (? & ? & _ & H).
  apply bind_ok in H as (? & c & Hc%start_services_ok & H). injection H as _ <-. subst c.
  injection Hg as _ Hg. split; cbn; [done..|]. by exists (rk_Prometheus cfg).
Qed.

Lemma extends_initProxyApp : extends initProxyApp.
Proof.
  intros p. unfold initProxyApp. rewrite run_wrap_err.
  destruct (extends_ext StartProxyApp p) as [cs Hcs]. exists cs.
  destruct (ext StartProxyApp p) as [p' []]; done.
Qed.

Lemma extends_setup : extends setupNodeAndExecutor.
Proof.
  unfold setupNodeAndExecutor, start_services, sequencer_metrics, rpcServer_Start,
    createAndStartEventBus, createAndStartIndexerService, make_node, ext_void.
  auto 40 using extends_initProxyApp with startup.
Qed.

(** The rest of [startInProcess] once the node is set up. *)
Definition after_setup (svrCfg : ServerConfig) (su : Setup) : M Proc unit :=
  ext_void LaunchNode ;;
  executor_Start su ;;
  (if API_Enable svrCfg || GRPC_Enable svrCfg then ext_void RegisterServices else mret tt) ;;
  run_servers svrCfg.

Lemma extends_after_setup cfg su : extends (after_setup cfg su).
Proof.
  unfold after_setup, ext_void, executor_Start. auto 10 using extends_run_servers with startup.
Qed.

Lemma extends_startInProcess cfg : extends (startInProcess cfg).
Proof.
  unfold startInProcess. apply extends_defer; [unfold ext_void; auto with startup|].
  destruct flag_GRPCOnly; [apply extends_run_servers|].
  apply extends_bind_ok; [apply extends_setup|].
  intros p p' su [_ Hc _]%setup_ok. apply extends_defer; [|apply (extends_after_setup cfg su)].
  rewrite Hc. unfold setup_cleanup. auto 10 with startup.
Qed.

(** C33: Whatever happens once the node is set up, its services are stopped and the
    context is cancelled at the end; a set-up that fails has only the context
    cancelled: services it had started are not stopped. *)
Theorem startInProcess_cleanup cfg p :
  quiet_cleanup -> flag_GRPCOnly = false ->
  let p' := (startInProcess cfg p).1 in
  match setupNodeAndExecutor p with
  | (p1, Ok su) => exists mid,
      proc_calls p' = proc_calls p1 ++ mid ++ stop_calls ++ [CancelContext]
  | (p1, Err e) => startInProcess cfg p = (logged [CancelContext] p1, Err e)
  | (p1, Panic t) => startInProcess cfg p = (logged [CancelContext] p1, Panic t)
  end.
Proof.
  intros Hq Hg. cbv zeta.
  assert (forall p0, ext_void CancelContext p0 = (logged [CancelContext] p0, Ok tt)) as Hcancel.
  { intros p0. apply run_ignore_ext. intros t'; apply Hq; set_solver. }
  assert (startInProcess cfg p = defer (ext_void CancelContext)
    (su ← setupNodeAndExecutor; defer (su_cleanup su) (after_setup cfg su)) p) as ->.
  { unfold startInProcess. by rewrite Hg. }
  unfold defer at 1 3 5. rewrite run_bind.
  destruct (setupNodeAndExecutor p) as [p1 [su|e|t]] eqn:E; [|by rewrite Hcancel..].
  apply setup_ok in E as [_ Hc _]. unfold defer.
  destruct (extends_after_setup cfg su p1) as [cs Hcs].
  destruct (after_setup cfg su p1) as [p2 r]. cbn in Hcs.
  rewrite Hc, run_setup_cleanup, Hcancel by done. exists cs.
  unfold logged. cbn [fst proc_calls]. by rewrite Hcs, <- !app_assoc.
Qed.

(** Calls made only with a trace writer. *)
Definition trace_call (c : StartCall) : list StartCall :=
  if bool_decide (flag_TraceStore = "") then [] else [c].

Lemma run_ext_ok c p : start_answer c = Ok tt -> ext c p = (logged [c] p, Ok tt).
Proof. intros Hc. unfold ext. by rewrite run_bind, run_modify, run_lift, Hc. Qed.

Lemma run_startApp p :
  start_answer (OpenTraceWriter flag_TraceStore) = Ok tt ->
  start_answer (OpenDB RootDir) = Ok tt -> (forall t, start_answer CreateApp <> Panic t) ->
  startApp p = (logged (trace_call (OpenTraceWriter flag_TraceStore) ++ [OpenDB RootDir; CreateApp]) p,
    Ok (app_cleanup (trace_cleanup (negb (bool_decide (flag_TraceStore = "")))))).
Proof.
  intros Htr Hdb Happ. unfold startApp, setupTraceWriter, openTraceWriter, trace_call, ext_void.
  rewrite !run_bind. destruct (bool_decide (flag_TraceStore = "")); cbn [negb app].
  - rewrite !run_ret, run_bind, (run_ext_ok _ _ Hdb), run_bind, run_ignore_ext, run_ret by done.
    f_equal. apply (logged_app [OpenDB RootDir] [CreateApp]).
  - rewrite run_bind, (run_ext_ok _ _ Htr), !run_ret, run_bind, (run_ext_ok _ _ Hdb), run_bind.
    rewrite run_ignore_ext, run_ret by done. f_equal.
    change (mkProc _ _) with (logged [CreateApp] (logged [OpenDB RootDir]
      (logged [OpenTraceWriter flag_TraceStore] p))). by rewrite !logged_app.
Qed.

Lemma run_app_cleanup p :
  quiet_cleanup ->
  app_cleanup (trace_cleanup (negb (bool_decide (flag_TraceStore = "")))) p =
    (logged (trace_call CloseTraceWriter ++ [CloseApp]) p, Ok tt).
Proof.
  intros Hq. unfold app_cleanup, trace_cleanup, trace_call. rewrite run_bind.
  destruct (bool_decide (flag_TraceStore = "")); cbn [negb app].
  - rewrite run_ret. apply run_ignore_ext. intros t; apply Hq; set_solver.
  - rewrite run_ignore_ext by (intros t; apply Hq; set_solver).
    rewrite run_ignore_ext by (intros t; apply Hq; set_solver).
    f_equal. apply (logged_app [CloseTraceWriter] [CloseApp]).
Qed.

(** Once the application exists it is closed as the last thing the command
    does, after the trace writer, whatever happens in between. *)
Theorem StartHandler_closes_app cfg p :
  quiet_cleanup ->
  getAndValidateConfig = Ok cfg -> start_answer (OpenTraceWriter flag_TraceStore) = Ok tt ->
  start_answer (OpenDB RootDir) = Ok tt -> (forall t, start_answer CreateApp <> Panic t) ->
  exists mid, proc_calls (StartHandler p).1 =
    proc_calls p ++ trace_call (OpenTraceWriter flag_TraceStore) ++ [OpenDB RootDir; CreateApp]
      ++ mid ++ trace_call CloseTraceWriter ++ [CloseApp].
Proof.
  intros Hq Hcfg Htr Hdb Happ. unfold StartHandler. rewrite run_bind, run_lift, Hcfg.
  set (body := startTelemetry cfg ≫= _).
  assert (extends body) as Hb.
  { subst body. unfold startTelemetry, emitServerInfoMetrics, ext_void.
    auto 10 using extends_startInProcess with startup. }
  rewrite run_bind, run_startApp by done. unfold defer. set (p0 := logged _ p).
  destruct (Hb p0) as [cs Hcs]. destruct (body p0) as [p1 r]. cbn in Hcs.
  rewrite run_app_cleanup by done. exists cs. unfold logged. cbn [fst proc_calls].
  rewrite Hcs. subst p0. unfold logged. cbn [proc_calls]. by rewrite <- !app_assoc.
Qed.

(** ** The genesis *)

(** What the SDK and the codec do: the genesis document has the fields of the
    application genesis, and a migration genesis has a [uint64] height. *)
Definition genesis_laws : Prop :=
  (forall ag doc, AppGenesis_ToGenesisDoc ag = Ok doc ->
     gd_GenesisTime doc = ag_GenesisTime ag /\ gd_ChainID doc = ag_ChainID ag /\
     gd_InitialHeight doc = ag_InitialHeight ag /\
     exists params, ag_Consensus ag = Some (gd_Validators doc, params)) /\
  (forall data g, cmtjson_Unmarshal data = Ok g -> is_u64 (mg_InitialHeight g)).

(** The rollkit genesis that start-up derives names the first validator of the
    application genesis as the proposer and passes the checks of the chain's
    initialisation, from which rollkit hands it to the adapter; an application
    genesis without validators makes start-up panic. *)
Theorem start_genesis_accepted (E : Env) :
  genesis_laws ->
  (forall rg ag, start_genesis = Ok (rg, ag) -> AppGenesis_doc = Some ag ->
     validate_genesis (rg_GenesisTime rg) (rg_InitialHeight rg) (rg_ChainID rg) = Ok ag /\
     exists v vs params, ag_Consensus ag = Some (v :: vs, params) /\
       rg_ProposerAddress rg = gv_Address v) /\
  (forall ag doc, migration_file = FileAbsent -> AppGenesisFromFile = Ok ag ->
     AppGenesis_ToGenesisDoc ag = Ok doc ->
     (gd_Validators doc = [] <-> start_genesis = Panic "index out of range")).
Proof.
  intros [Hdoc Hu]. unfold start_genesis, getAppGenesis. split.
  - intros rg ag Hg Hag. unfold validate_genesis. rewrite Hag.
    destruct (loadRollkitMigrationGenesis migration_file) as [[g|]| |] eqn:El; cbn in Hg; [| |done..].
    + injection Hg as <- <-. cbn.
      assert (is_u64 (mg_InitialHeight g)) as Hm.
      { unfold loadRollkitMigrationGenesis in El. destruct migration_file as [| |data]; [done..|].
        destruct (cmtjson_Unmarshal data) as [g'| |] eqn:Eu; cbn in El; [|done..].
        injection El as <-. by apply (Hu data). }
      rewrite !bool_decide_true by done. cbn [negb].
      destruct (Z.eqb_spec (mg_InitialHeight g) (u64 (i64 (mg_InitialHeight g)))) as [|Hne]; [|int_lia].
      split; [done|]. by eexists _, _, _.
    + destruct AppGenesisFromFile as [ag'| |]; cbn in Hg; [|done..].
      destruct (AppGenesis_ToGenesisDoc ag') as [doc| |] eqn:Ed; cbn in Hg; [|done..].
      destruct (Hdoc _ _ Ed) as (Ht & Hc & Hh & params & Hv).
      unfold createRollkitGenesisFromCometBFT in Hg.
      destruct (gd_Validators doc) as [|v vs] eqn:Ev; cbn in Hg; [done|]. injection Hg as <- <-. cbn.
      rewrite Ht, Hc, Hh, !bool_decide_true, Z.eqb_refl by done. cbn. split; [done|].
      by exists v, vs, params.
  - intros ag doc Hf Ha Hd. rewrite Hf. cbn. rewrite Ha. cbn. rewrite Hd. cbn.
    unfold createRollkitGenesisFromCometBFT. by destruct (gd_Validators doc).
Qed.
End start.

(** ** Starting after a migration *)

Lemma NewABCIExecutor_settings `{SE : StartEnv} chainID prometheus topic :
  let a := SetMempool (NewABCIExecutor start_App chainID (executor_options prometheus topic)) in
  set_ChainID a = chainID /\
  blockFilter a = (if flag_SoftConfirmation then NetworkFilter_IsPublishable start_App
                   else fun _ => Ok true).
Proof. unfold executor_options. by destruct prometheus, flag_SoftConfirmation. Qed.

(** C22: A node that starts in the directory of a successful migration uses the
    migration's genesis: one of the last CometBFT validators is the proposer of
    the rollkit chain and the validator that the status reports, and the
    executor works for the migrated chain, publishing the blocks its flag asks
    for.  Initialising this chain anew is impossible: the genesis carries no
    consensus parameters, and the attempt panics. *)
Theorem migrated_node_starts `{SL : StoreCodecLaws} {ME : MigEnv} {LP : Libp2p} {SE : StartEnv}
    {PS : PubSub} {NW : Network} {E : Env} {NE : NetEnv} st st' g data p p' su :
  MigrateToRollkitCmd st = (st', Ok tt) -> mig_genesis st' = Some g ->
  migration_file = FileContent data -> cmtjson_Unmarshal data = Ok g ->
  setupNodeAndExecutor p = (p', Ok su) ->
  AppGenesis_doc = Some (su_appGenesis su) ->
  genesis_Validators = fst <$> ag_Consensus (su_appGenesis su) ->
  exists s v, LoadCometState = Ok s /\ v ∈ cs_LastValidators s /\
    su_genesis su = ToRollkitGenesis g /\ rg_ProposerAddress (su_genesis su) = cv_Address v /\
    (forall r, Status = Ok r -> rv_Address (rs_ValidatorInfo r) = cv_Address v) /\
    set_ChainID (su_executor su) = st_ChainID (cs_state s) /\
    blockFilter (su_executor su) = (if flag_SoftConfirmation then NetworkFilter_IsPublishable start_App
                                    else fun _ => Ok true) /\
    (forall n, is_u64 (mg_InitialHeight g) ->
       InitChain (rg_GenesisTime (su_genesis su)) (rg_InitialHeight (su_genesis su))
         (rg_ChainID (su_genesis su)) n = (n, Panic "nil pointer dereference")).
Proof.
  intros (s & da & seq & d & Hs & _ & Hseq & ->)%MigrateToRollkitCmd_ok [= <-] Hf Hu
    [Hg _ [prom Hex]]%setup_ok Hag Hnv.
  destruct (sequencer_of_in s seq Hseq) as (v & Hv & Ha). exists s, v.
  unfold start_genesis in Hg. rewrite Hf in Hg. cbn in Hg. rewrite Hu in Hg. cbn in Hg.
  injection Hg as Hsg Hsa.
  destruct (NewABCIExecutor_settings (ag_ChainID (su_appGenesis su)) prom (rg_ChainID (su_genesis su)))
    as [H1 H2]. rewrite <- Hex in H1, H2.
  rewrite <- Hsa in Hag, Hnv, H1. cbn in Hag, Hnv, H1.
  split_and!; try done; [by rewrite <- Hsg|..].
  - intros r Hr. unfold Status, genesis_validator in Hr. rewrite Hnv in Hr.
    destruct RollkitStore_Height as [h| |]; [|done..]. cbn in Hr.
    destruct (latest_info h) as [[[hash app] t]| |]; [|done..]. cbn in Hr.
    destruct (RollkitStore_GetHeader (u64 genesis_InitialHeight)) as [hd| |]; [|done..]. cbn in Hr.
    destruct RollkitStore_GetState_App; [|done..]. cbn in Hr.
    destruct P2PClient_Info as [[[id addr] nw]| |]; [|done..]. cbn in Hr.
    destruct (TruncateNodeID id); [|done..]. by injection Hr as <-.
  - intros n Hh. unfold InitChain, validate_genesis. rewrite Hag, <- Hsg. cbn in Hh |- *.
    rewrite !bool_decide_true by done. cbn [negb].
    destruct (Z.eqb_spec (u64 (cs_InitialHeight s)) (u64 (i64 (u64 (cs_InitialHeight s))))) as [|Hne];
      [done|]. int_lia.
Qed.

(** ** A concrete start *)

#[global] Instance demo_libp2p : Libp2p := {
  p2p_PrivKey := bytes;
  UnmarshalEd25519PrivateKey := fun b => Ok b;
  priv_GetPublic := fun b => mkLibp2pPubKey KeyEd25519 (Ok b);
  priv_Sign := fun k m => Ok (k ++ m)
}.

#[global] Instance demo_pubsub : PubSub := { pubsub_answer := fun _ => Ok tt }.
#[global] Instance demo_network : Network := { net_Listen := fun _ _ => Ok tt }.

Definition demo_server_config : ServerConfig := mkServerCfg true true "127.0.0.1:9090" 0 0 false.

(** The genesis that the migration of [demo_migration] writes. *)
Definition demo_migration_genesis : rollkitMigrationGenesis :=
  mkMigrationGenesis "chain" 1 6 [5] (cv_PubKey demo_val).

(** A start with an RPC address; the other calls succeed. *)
Definition demo_start (rpcAddress : string) (file : File) : StartEnv := {|
  RootDir := "/home";
  flag_TraceStore := "trace";
  flag_GRPCOnly := false;
  flag_SoftConfirmation := true;
  has_PostSetup := false;
  GetConfig := Ok demo_server_config;
  ValidateBasic := fun _ => Ok tt;
  version_Go := "go1.24";
  version_CosmosSDK := "";
  LoadRollkitConfig := Ok (mkRollkitConfig true false);
  DefaultGRPCMaxRecvMsgSize := 10485760;
  DefaultGRPCMaxSendMsgSize := 2147483647;
  start_RPCConfig := mkServerConfig rpcAddress 0 false "" "";
  all_indexers_disabled := false;
  pval_PrivKey := Some (mkCmtPrivKey "ed25519" [7] [5]);
  migration_file := file;
  cmtjson_Unmarshal := fun _ => Ok demo_migration_genesis;
  AppGenesisFromFile := Ok demo_genesis_doc;
  AppGenesis_ToGenesisDoc := fun ag =>
    match ag_Consensus ag with
    | Some (vs, _) => Ok (mkGenesisDoc (ag_GenesisTime ag) (ag_ChainID ag) (ag_InitialHeight ag) vs)
    | None => Panic "nil pointer dereference"
    end;
  start_App := fun _ => Err (ErrText "no query");
  store_Height := Ok 2;
  p2p_HostID := "host";
  start_TxValidator := fun _ => true;
  start_answer := fun _ => Ok tt
|}.

Definition demo_proc : Proc := mkProc [] (mkGossip [] ∅).

(** The configuration without a valid RPC address: the event bus and the
    indexer are started and not stopped. *)
Lemma startInProcess_cleanup_witness :
  let p' := (startInProcess (SE := demo_start "localhost" FileAbsent) demo_server_config demo_proc).1 in
  StartEventBus ∈ proc_calls p' /\ StartIndexerService ∈ proc_calls p' /\
  StopEventBus ∉ proc_calls p' /\ StopIndexerService ∉ proc_calls p' /\
  exists mid, proc_calls (startInProcess (SE := demo_start "tcp://localhost:0" FileAbsent)
      demo_server_config demo_proc).1 =
    mid ++ [StopEventBus; StopIndexerService; StopRPC; CancelContext].
Proof.
  assert (forall a, quiet_cleanup (SE := demo_start a FileAbsent)) as Hq by done.
  pose proof (startInProcess_cleanup (SE := demo_start "localhost" FileAbsent) demo_server_config
    demo_proc (Hq _) eq_refl) as H1.
  pose proof (startInProcess_cleanup (SE := demo_start "tcp://localhost:0" FileAbsent)
    demo_server_config demo_proc (Hq _) eq_refl) as H2.
  match type of H1 with context [setupNodeAndExecutor ?p] =>
    let r := eval vm_compute in (setupNodeAndExecutor (SE := demo_start "localhost" FileAbsent) p) in
    change (setupNodeAndExecutor p) with r in H1 end.
  cbv zeta in H1, H2 |- *. rewrite H1. split_and!.
  - apply (bool_decide_unpack _). vm_compute. exact I.
  - apply (bool_decide_unpack _). vm_compute. exact I.
  - apply (bool_decide_unpack _). vm_compute. exact I.
  - apply (bool_decide_unpack _). vm_compute. exact I.
  - assert (is_ok (setupNodeAndExecutor (SE := demo_start "tcp://localhost:0" FileAbsent) demo_proc).2
      = true) as Hok by (vm_compute; reflexivity).
    destruct (setupNodeAndExecutor _) as [p1 [su|e|t]]; [|discriminate Hok..].
    destruct H2 as [mid H2]. exists (proc_calls p1 ++ mid). rewrite H2, <- app_assoc. reflexivity.
Defined.

Lemma StartHandler_closes_app_witness :
  exists mid, proc_calls (StartHandler (SE := demo_start "localhost" FileAbsent) demo_proc).1 =
    [OpenTraceWriter "trace"; OpenDB "/home"; CreateApp] ++ mid ++ [CloseTraceWriter; CloseApp].
Proof.
  destruct (StartHandler_closes_app (SE := demo_start "localhost" FileAbsent) demo_server_config
    demo_proc) as [mid H]; try done. by exists mid.
Defined.

Lemma start_genesis_accepted_witness :
  validate_genesis (E := demo_env 0 (always true) (always false)) (mkTime 1 0) 1 "chain" =
    Ok demo_genesis_doc.
Proof.
  destruct (start_genesis_accepted (SE := demo_start "localhost" FileAbsent)
    (demo_env 0 (always true) (always false))) as [H _].
  - split.
    + intros [t c h [[vs ps]|] st] doc [= <-]; cbn. split_and!; eauto.
    + intros data g [= <-]. split; discriminate.
  - destruct (H (mkRollkitGenesis "chain" 1 (mkTime 1 0) [5]) demo_genesis_doc) as [Hv _]; try done.
Defined.

Lemma migrated_node_starts_witness :
  exists su v,
    (setupNodeAndExecutor (SE := demo_start "tcp://localhost:0" (FileContent [])) demo_proc).2 = Ok su /\
    v ∈ [demo_val] /\ rg_ProposerAddress (su_genesis su) = cv_Address v /\
    set_ChainID (su_executor su) = "chain"%string.
Proof.
  destruct (setupNodeAndExecutor (SE := demo_start "tcp://localhost:0" (FileContent [])) demo_proc)
    as [p' r] eqn:E.
  assert (is_ok r = true) as Hok.
  { replace r with (setupNodeAndExecutor (SE := demo_start "tcp://localhost:0" (FileContent []))
      demo_proc).2 by (by rewrite E). vm_compute. reflexivity. }
  destruct r as [su|e|t]; [|discriminate Hok..].
  pose proof (setup_ok (SE := demo_start "tcp://localhost:0" (FileContent [])) _ _ _ E) as [Hsg _ _].
  assert (su_appGenesis su = migrated_appGenesis demo_migration_genesis) as Hag.
  { by injection Hsg as _ <-. }
  destruct (migrated_node_starts (SE := demo_start "tcp://localhost:0" (FileContent []))
    (E := demo_env_of (su_appGenesis su) 2 (always true) (always false)) (NE := demo_net)
    demo_empty_stores demo_migrated demo_migration_genesis [] demo_proc p' su) as (s & v & Hs & Hv & _ & Hp & _ & Hc & _).
  - reflexivity.
  - reflexivity.
  - reflexivity.
  - reflexivity.
  - exact E.
  - reflexivity.
  - rewrite Hag. reflexivity.
  - injection Hs as <-. exists su, v. split; [done|]. split; [exact Hv|]. split; [exact Hp|exact Hc].
Defined.
